(** * SGU-1 dispatch (src/engine/platform/sgu.cpp): shallow embedding

    The register-dispatch engine of the SGU-1 platform is embedded as pure
    functions over explicit state.  Machine integers are [Z] with the
    conversions of the C++ types written out ([u8], [u16], [s8], [s16]);
    the per-channel functions thread the channel record together with the
    register side of the dispatch object (write queue, register pool). *)

From Stdlib Require Import ZArith Lia Bool.
From stdpp Require Import base list.

Local Open Scope Z_scope.

(** ** Machine integers *)

(** conversion to [unsigned char] *)
Definition u8 (x : Z) : Z := x mod 256.
(** conversion to [unsigned short] *)
Definition u16 (x : Z) : Z := x mod 65536.
(** conversion to [unsigned int] *)
Definition u32 (x : Z) : Z := x mod 4294967296.
(** conversion to [signed char] *)
Definition s8 (x : Z) : Z := (x + 128) mod 256 - 128.
(** conversion to [short] *)
Definition s16 (x : Z) : Z := (x + 32768) mod 65536 - 32768.

(** Modelled from the spec: the macros [MIN], [MAX] and [CLAMP] come from a
    utility header that is not among the sources; [MIN] and [MAX] pick the
    smaller and the larger argument, [CLAMP(x,xMin,xMax)] clamps [x] to the
    range from [xMin] to [xMax]. *)
Definition MIN (a b : Z) : Z := if a <? b then a else b.
Definition MAX (a b : Z) : Z := if a >? b then a else b.
Definition CLAMP (x xMin xMax : Z) : Z := MIN (MAX x xMin) xMax.

(** an integer used as a condition *)
Definition z2b (x : Z) : bool := negb (x =? 0).

(** ** Fixed arrays of four operators ([op[4]]) *)

Record Arr4 (A : Type) := mkArr4 { a0 : A; a1 : A; a2 : A; a3 : A }.
Arguments mkArr4 {A}.
Arguments a0 {A}.
Arguments a1 {A}.
Arguments a2 {A}.
Arguments a3 {A}.

(** [v[i]]; every index used by the embedded code is in 0..3. *)
Definition nth4 {A : Type} (i : nat) (v : Arr4 A) : A :=
  match i with
  | O => a0 v
  | 1%nat => a1 v
  | 2%nat => a2 v
  | _ => a3 v
  end.

(** [v[i] = f (v[i])] *)
Definition upd4 {A : Type} (i : nat) (f : A -> A) (v : Arr4 A) : Arr4 A :=
  match i with
  | O => mkArr4 (f (a0 v)) (a1 v) (a2 v) (a3 v)
  | 1%nat => mkArr4 (a0 v) (f (a1 v)) (a2 v) (a3 v)
  | 2%nat => mkArr4 (a0 v) (a1 v) (f (a2 v)) (a3 v)
  | 3%nat => mkArr4 (a0 v) (a1 v) (a2 v) (f (a3 v))
  | _ => v
  end.

(** ** Instrument data (the fields sgu.cpp reads) *)

(** [DivInstrumentFM::Operator] *)
Record FMOperator := mkFMOperator {
  op_enable : bool; op_am : Z; op_ar : Z; op_dr : Z; op_mult : Z; op_rr : Z; op_sl : Z;
  op_tl : Z; op_dt2 : Z; op_rs : Z; op_dt : Z; op_d2r : Z; op_ssgEnv : Z; op_dam : Z;
  op_dvb : Z; op_egt : Z; op_ksl : Z; op_sus : Z; op_vib : Z; op_ws : Z; op_ksr : Z
}.

Definition set_op_enable (v : bool) (x : FMOperator) : FMOperator :=
  {| op_enable := v; op_am := op_am x; op_ar := op_ar x; op_dr := op_dr x;
     op_mult := op_mult x; op_rr := op_rr x; op_sl := op_sl x; op_tl := op_tl x;
     op_dt2 := op_dt2 x; op_rs := op_rs x; op_dt := op_dt x; op_d2r := op_d2r x;
     op_ssgEnv := op_ssgEnv x; op_dam := op_dam x; op_dvb := op_dvb x; op_egt := op_egt x;
     op_ksl := op_ksl x; op_sus := op_sus x; op_vib := op_vib x; op_ws := op_ws x;
     op_ksr := op_ksr x |}.

Definition set_op_am (v : Z) (x : FMOperator) : FMOperator :=
  {| op_enable := op_enable x; op_am := v; op_ar := op_ar x; op_dr := op_dr x;
     op_mult := op_mult x; op_rr := op_rr x; op_sl := op_sl x; op_tl := op_tl x;
     op_dt2 := op_dt2 x; op_rs := op_rs x; op_dt := op_dt x; op_d2r := op_d2r x;
     op_ssgEnv := op_ssgEnv x; op_dam := op_dam x; op_dvb := op_dvb x; op_egt := op_egt x;
     op_ksl := op_ksl x; op_sus := op_sus x; op_vib := op_vib x; op_ws := op_ws x;
     op_ksr := op_ksr x |}.

Definition set_op_ar (v : Z) (x : FMOperator) : FMOperator :=
  {| op_enable := op_enable x; op_am := op_am x; op_ar := v; op_dr := op_dr x;
     op_mult := op_mult x; op_rr := op_rr x; op_sl := op_sl x; op_tl := op_tl x;
     op_dt2 := op_dt2 x; op_rs := op_rs x; op_dt := op_dt x; op_d2r := op_d2r x;
     op_ssgEnv := op_ssgEnv x; op_dam := op_dam x; op_dvb := op_dvb x; op_egt := op_egt x;
     op_ksl := op_ksl x; op_sus := op_sus x; op_vib := op_vib x; op_ws := op_ws x;
     op_ksr := op_ksr x |}.

Definition set_op_dr (v : Z) (x : FMOperator) : FMOperator :=
  {| op_enable := op_enable x; op_am := op_am x; op_ar := op_ar x; op_dr := v;
     op_mult := op_mult x; op_rr := op_rr x; op_sl := op_sl x; op_tl := op_tl x;
     op_dt2 := op_dt2 x; op_rs := op_rs x; op_dt := op_dt x; op_d2r := op_d2r x;
     op_ssgEnv := op_ssgEnv x; op_dam := op_dam x; op_dvb := op_dvb x; op_egt := op_egt x;
     op_ksl := op_ksl x; op_sus := op_sus x; op_vib := op_vib x; op_ws := op_ws x;
     op_ksr := op_ksr x |}.

Definition set_op_mult (v : Z) (x : FMOperator) : FMOperator :=
  {| op_enable := op_enable x; op_am := op_am x; op_ar := op_ar x; op_dr := op_dr x;
     op_mult := v; op_rr := op_rr x; op_sl := op_sl x; op_tl := op_tl x; op_dt2 := op_dt2 x;
     op_rs := op_rs x; op_dt := op_dt x; op_d2r := op_d2r x; op_ssgEnv := op_ssgEnv x;
     op_dam := op_dam x; op_dvb := op_dvb x; op_egt := op_egt x; op_ksl := op_ksl x;
     op_sus := op_sus x; op_vib := op_vib x; op_ws := op_ws x; op_ksr := op_ksr x |}.

Definition set_op_rr (v : Z) (x : FMOperator) : FMOperator :=
  {| op_enable := op_enable x; op_am := op_am x; op_ar := op_ar x; op_dr := op_dr x;
     op_mult := op_mult x; op_rr := v; op_sl := op_sl x; op_tl := op_tl x; op_dt2 := op_dt2 x;
     op_rs := op_rs x; op_dt := op_dt x; op_d2r := op_d2r x; op_ssgEnv := op_ssgEnv x;
     op_dam := op_dam x; op_dvb := op_dvb x; op_egt := op_egt x; op_ksl := op_ksl x;
     op_sus := op_sus x; op_vib := op_vib x; op_ws := op_ws x; op_ksr := op_ksr x |}.

Definition set_op_sl (v : Z) (x : FMOperator) : FMOperator :=
  {| op_enable := op_enable x; op_am := op_am x; op_ar := op_ar x; op_dr := op_dr x;
     op_mult := op_mult x; op_rr := op_rr x; op_sl := v; op_tl := op_tl x; op_dt2 := op_dt2 x;
     op_rs := op_rs x; op_dt := op_dt x; op_d2r := op_d2r x; op_ssgEnv := op_ssgEnv x;
     op_dam := op_dam x; op_dvb := op_dvb x; op_egt := op_egt x; op_ksl := op_ksl x;
     op_sus := op_sus x; op_vib := op_vib x; op_ws := op_ws x; op_ksr := op_ksr x |}.

Definition set_op_tl (v : Z) (x : FMOperator) : FMOperator :=
  {| op_enable := op_enable x; op_am := op_am x; op_ar := op_ar x; op_dr := op_dr x;
     op_mult := op_mult x; op_rr := op_rr x; op_sl := op_sl x; op_tl := v; op_dt2 := op_dt2 x;
     op_rs := op_rs x; op_dt := op_dt x; op_d2r := op_d2r x; op_ssgEnv := op_ssgEnv x;
     op_dam := op_dam x; op_dvb := op_dvb x; op_egt := op_egt x; op_ksl := op_ksl x;
     op_sus := op_sus x; op_vib := op_vib x; op_ws := op_ws x; op_ksr := op_ksr x |}.

Definition set_op_rs (v : Z) (x : FMOperator) : FMOperator :=
  {| op_enable := op_enable x; op_am := op_am x; op_ar := op_ar x; op_dr := op_dr x;
     op_mult := op_mult x; op_rr := op_rr x; op_sl := op_sl x; op_tl := op_tl x;
     op_dt2 := op_dt2 x; op_rs := v; op_dt := op_dt x; op_d2r := op_d2r x;
     op_ssgEnv := op_ssgEnv x; op_dam := op_dam x; op_dvb := op_dvb x; op_egt := op_egt x;
     op_ksl := op_ksl x; op_sus := op_sus x; op_vib := op_vib x; op_ws := op_ws x;
     op_ksr := op_ksr x |}.

Definition set_op_dt (v : Z) (x : FMOperator) : FMOperator :=
  {| op_enable := op_enable x; op_am := op_am x; op_ar := op_ar x; op_dr := op_dr x;
     op_mult := op_mult x; op_rr := op_rr x; op_sl := op_sl x; op_tl := op_tl x;
     op_dt2 := op_dt2 x; op_rs := op_rs x; op_dt := v; op_d2r := op_d2r x;
     op_ssgEnv := op_ssgEnv x; op_dam := op_dam x; op_dvb := op_dvb x; op_egt := op_egt x;
     op_ksl := op_ksl x; op_sus := op_sus x; op_vib := op_vib x; op_ws := op_ws x;
     op_ksr := op_ksr x |}.

Definition set_op_d2r (v : Z) (x : FMOperator) : FMOperator :=
  {| op_enable := op_enable x; op_am := op_am x; op_ar := op_ar x; op_dr := op_dr x;
     op_mult := op_mult x; op_rr := op_rr x; op_sl := op_sl x; op_tl := op_tl x;
     op_dt2 := op_dt2 x; op_rs := op_rs x; op_dt := op_dt x; op_d2r := v;
     op_ssgEnv := op_ssgEnv x; op_dam := op_dam x; op_dvb := op_dvb x; op_egt := op_egt x;
     op_ksl := op_ksl x; op_sus := op_sus x; op_vib := op_vib x; op_ws := op_ws x;
     op_ksr := op_ksr x |}.

Definition set_op_ssgEnv (v : Z) (x : FMOperator) : FMOperator :=
  {| op_enable := op_enable x; op_am := op_am x; op_ar := op_ar x; op_dr := op_dr x;
     op_mult := op_mult x; op_rr := op_rr x; op_sl := op_sl x; op_tl := op_tl x;
     op_dt2 := op_dt2 x; op_rs := op_rs x; op_dt := op_dt x; op_d2r := op_d2r x;
     op_ssgEnv := v; op_dam := op_dam x; op_dvb := op_dvb x; op_egt := op_egt x;
     op_ksl := op_ksl x; op_sus := op_sus x; op_vib := op_vib x; op_ws := op_ws x;
     op_ksr := op_ksr x |}.

Definition set_op_dam (v : Z) (x : FMOperator) : FMOperator :=
  {| op_enable := op_enable x; op_am := op_am x; op_ar := op_ar x; op_dr := op_dr x;
     op_mult := op_mult x; op_rr := op_rr x; op_sl := op_sl x; op_tl := op_tl x;
     op_dt2 := op_dt2 x; op_rs := op_rs x; op_dt := op_dt x; op_d2r := op_d2r x;
     op_ssgEnv := op_ssgEnv x; op_dam := v; op_dvb := op_dvb x; op_egt := op_egt x;
     op_ksl := op_ksl x; op_sus := op_sus x; op_vib := op_vib x; op_ws := op_ws x;
     op_ksr := op_ksr x |}.

Definition set_op_dvb (v : Z) (x : FMOperator) : FMOperator :=
  {| op_enable := op_enable x; op_am := op_am x; op_ar := op_ar x; op_dr := op_dr x;
     op_mult := op_mult x; op_rr := op_rr x; op_sl := op_sl x; op_tl := op_tl x;
     op_dt2 := op_dt2 x; op_rs := op_rs x; op_dt := op_dt x; op_d2r := op_d2r x;
     op_ssgEnv := op_ssgEnv x; op_dam := op_dam x; op_dvb := v; op_egt := op_egt x;
     op_ksl := op_ksl x; op_sus := op_sus x; op_vib := op_vib x; op_ws := op_ws x;
     op_ksr := op_ksr x |}.

Definition set_op_ksl (v : Z) (x : FMOperator) : FMOperator :=
  {| op_enable := op_enable x; op_am := op_am x; op_ar := op_ar x; op_dr := op_dr x;
     op_mult := op_mult x; op_rr := op_rr x; op_sl := op_sl x; op_tl := op_tl x;
     op_dt2 := op_dt2 x; op_rs := op_rs x; op_dt := op_dt x; op_d2r := op_d2r x;
     op_ssgEnv := op_ssgEnv x; op_dam := op_dam x; op_dvb := op_dvb x; op_egt := op_egt x;
     op_ksl := v; op_sus := op_sus x; op_vib := op_vib x; op_ws := op_ws x; op_ksr := op_ksr x |}.

Definition set_op_vib (v : Z) (x : FMOperator) : FMOperator :=
  {| op_enable := op_enable x; op_am := op_am x; op_ar := op_ar x; op_dr := op_dr x;
     op_mult := op_mult x; op_rr := op_rr x; op_sl := op_sl x; op_tl := op_tl x;
     op_dt2 := op_dt2 x; op_rs := op_rs x; op_dt := op_dt x; op_d2r := op_d2r x;
     op_ssgEnv := op_ssgEnv x; op_dam := op_dam x; op_dvb := op_dvb x; op_egt := op_egt x;
     op_ksl := op_ksl x; op_sus := op_sus x; op_vib := v; op_ws := op_ws x; op_ksr := op_ksr x |}.

Definition set_op_ws (v : Z) (x : FMOperator) : FMOperator :=
  {| op_enable := op_enable x; op_am := op_am x; op_ar := op_ar x; op_dr := op_dr x;
     op_mult := op_mult x; op_rr := op_rr x; op_sl := op_sl x; op_tl := op_tl x;
     op_dt2 := op_dt2 x; op_rs := op_rs x; op_dt := op_dt x; op_d2r := op_d2r x;
     op_ssgEnv := op_ssgEnv x; op_dam := op_dam x; op_dvb := op_dvb x; op_egt := op_egt x;
     op_ksl := op_ksl x; op_sus := op_sus x; op_vib := op_vib x; op_ws := v; op_ksr := op_ksr x |}.

Definition set_op_ksr (v : Z) (x : FMOperator) : FMOperator :=
  {| op_enable := op_enable x; op_am := op_am x; op_ar := op_ar x; op_dr := op_dr x;
     op_mult := op_mult x; op_rr := op_rr x; op_sl := op_sl x; op_tl := op_tl x;
     op_dt2 := op_dt2 x; op_rs := op_rs x; op_dt := op_dt x; op_d2r := op_d2r x;
     op_ssgEnv := op_ssgEnv x; op_dam := op_dam x; op_dvb := op_dvb x; op_egt := op_egt x;
     op_ksl := op_ksl x; op_sus := op_sus x; op_vib := op_vib x; op_ws := op_ws x; op_ksr := v |}.

(** [DivInstrumentESFM::Operator] *)
Record ESFMOperator := mkESFMOperator {
  ope_delay : Z; ope_outLvl : Z; ope_modIn : Z; ope_left : Z; ope_right : Z; ope_fixed : Z;
  ope_ct : Z; ope_dt : Z
}.

Definition set_ope_delay (v : Z) (x : ESFMOperator) : ESFMOperator :=
  {| ope_delay := v; ope_outLvl := ope_outLvl x; ope_modIn := ope_modIn x;
     ope_left := ope_left x; ope_right := ope_right x; ope_fixed := ope_fixed x;
     ope_ct := ope_ct x; ope_dt := ope_dt x |}.

Definition set_ope_outLvl (v : Z) (x : ESFMOperator) : ESFMOperator :=
  {| ope_delay := ope_delay x; ope_outLvl := v; ope_modIn := ope_modIn x;
     ope_left := ope_left x; ope_right := ope_right x; ope_fixed := ope_fixed x;
     ope_ct := ope_ct x; ope_dt := ope_dt x |}.

Definition set_ope_modIn (v : Z) (x : ESFMOperator) : ESFMOperator :=
  {| ope_delay := ope_delay x; ope_outLvl := ope_outLvl x; ope_modIn := v;
     ope_left := ope_left x; ope_right := ope_right x; ope_fixed := ope_fixed x;
     ope_ct := ope_ct x; ope_dt := ope_dt x |}.

Definition set_ope_fixed (v : Z) (x : ESFMOperator) : ESFMOperator :=
  {| ope_delay := ope_delay x; ope_outLvl := ope_outLvl x; ope_modIn := ope_modIn x;
     ope_left := ope_left x; ope_right := ope_right x; ope_fixed := v; ope_ct := ope_ct x;
     ope_dt := ope_dt x |}.

(** [DivInstrumentFM]: algorithm, feedback, global modulation depths, operators. *)
Record DivInstrumentFM := mkDivInstrumentFM {
  fm_alg : Z; fm_fb : Z; fm_fms : Z; fm_ams : Z; fm_op : Arr4 FMOperator
}.

Definition set_fm_fms (v : Z) (x : DivInstrumentFM) : DivInstrumentFM :=
  {| fm_alg := fm_alg x; fm_fb := fm_fb x; fm_fms := v; fm_ams := fm_ams x; fm_op := fm_op x |}.

Definition set_fm_ams (v : Z) (x : DivInstrumentFM) : DivInstrumentFM :=
  {| fm_alg := fm_alg x; fm_fb := fm_fb x; fm_fms := fm_fms x; fm_ams := v; fm_op := fm_op x |}.

Definition set_fm_op (v : Arr4 FMOperator) (x : DivInstrumentFM) : DivInstrumentFM :=
  {| fm_alg := fm_alg x; fm_fb := fm_fb x; fm_fms := fm_fms x; fm_ams := fm_ams x; fm_op := v |}.

(** [DivInstrumentESFM] *)
Record DivInstrumentESFM := mkDivInstrumentESFM {
  esfm_noise : Z; esfm_op : Arr4 ESFMOperator
}.

Definition set_esfm_op (v : Arr4 ESFMOperator) (x : DivInstrumentESFM) : DivInstrumentESFM :=
  {| esfm_noise := esfm_noise x; esfm_op := v |}.

(** [DivInstrumentC64]: the ADSR nibbles, duty, filter and waveform flags. *)
Record DivInstrumentC64 := mkDivInstrumentC64 {
  c64_a : Z; c64_d : Z; c64_s : Z; c64_r : Z;
  c64_duty : Z; c64_cut : Z; c64_res : Z;
  c64_toFilter : bool; c64_initFilter : bool; c64_resetDuty : bool;
  c64_lp : bool; c64_hp : bool; c64_bp : bool;
  c64_noiseOn : bool; c64_pulseOn : bool; c64_sawOn : bool; c64_triOn : bool
}.

(** [DivInstrumentType]: the kinds sgu.cpp names; [DIV_INS_OTHER n] stands
    for every other enumerator (DIV_INS_STD, DIV_INS_GB, ...). *)
Inductive DivInstrumentType :=
| DIV_INS_FM | DIV_INS_OPM | DIV_INS_OPL | DIV_INS_OPLL | DIV_INS_OPZ | DIV_INS_ESFM
| DIV_INS_C64 | DIV_INS_SID2 | DIV_INS_SU | DIV_INS_POKEY | DIV_INS_AMIGA
| DIV_INS_OTHER (n : Z).

(** [DivInstrument] *)
Record DivInstrument := mkDivInstrument {
  ins_type : DivInstrumentType;
  ins_fm : DivInstrumentFM;
  ins_esfm : DivInstrumentESFM;
  ins_c64 : DivInstrumentC64;
  sid2_noiseMode : Z;
  amiga_useSample : bool
}.

(** ** Channel state

    [DivPlatformSGU::Channel], with the fields of its base
    [SharedChannel<signed char>] that sgu.cpp uses first.  The macro
    interpreter [std] is an external collaborator and is passed to [tick]
    as a snapshot instead. *)
Record Channel := mkChannel {
  freq : Z; baseFreq : Z; baseNoteOverride : Z; pitch : Z; pitch2 : Z; arpOff : Z; ins : Z;
  note : Z; active : bool; insChanged : bool; freqChanged : bool; fixedArp : bool;
  keyOn : bool; keyOff : bool; portaPause : bool; inPorta : bool; vol : Z; outVol : Z;
  state_fm : DivInstrumentFM; state_esfm : DivInstrumentESFM; cutoff : Z; baseCutoff : Z;
  res : Z; control : Z; pan : Z; duty : Z; pcm : bool; pcmLoop : bool; phaseReset : bool;
  filterPhaseReset : bool; timerSync : bool; freqSweep : bool; volSweep : bool;
  cutSweep : bool; freqSweepP : Z; volSweepP : Z; cutSweepP : Z; freqSweepB : Z; volSweepB : Z;
  cutSweepB : Z; freqSweepV : Z; volSweepV : Z; cutSweepV : Z; syncTimer : Z; hasOffset : Z;
  sample : Z; released : bool; cutoff_slide : Z; pw_slide : Z; virtual_duty : Z; ringMask : Z;
  syncMask : Z; key : bool
}.

Definition set_freq (v : Z) (x : Channel) : Channel :=
  {| freq := v; baseFreq := baseFreq x; baseNoteOverride := baseNoteOverride x;
     pitch := pitch x; pitch2 := pitch2 x; arpOff := arpOff x; ins := ins x; note := note x;
     active := active x; insChanged := insChanged x; freqChanged := freqChanged x;
     fixedArp := fixedArp x; keyOn := keyOn x; keyOff := keyOff x; portaPause := portaPause x;
     inPorta := inPorta x; vol := vol x; outVol := outVol x; state_fm := state_fm x;
     state_esfm := state_esfm x; cutoff := cutoff x; baseCutoff := baseCutoff x; res := res x;
     control := control x; pan := pan x; duty := duty x; pcm := pcm x; pcmLoop := pcmLoop x;
     phaseReset := phaseReset x; filterPhaseReset := filterPhaseReset x;
     timerSync := timerSync x; freqSweep := freqSweep x; volSweep := volSweep x;
     cutSweep := cutSweep x; freqSweepP := freqSweepP x; volSweepP := volSweepP x;
     cutSweepP := cutSweepP x; freqSweepB := freqSweepB x; volSweepB := volSweepB x;
     cutSweepB := cutSweepB x; freqSweepV := freqSweepV x; volSweepV := volSweepV x;
     cutSweepV := cutSweepV x; syncTimer := syncTimer x; hasOffset := hasOffset x;
     sample := sample x; released := released x; cutoff_slide := cutoff_slide x;
     pw_slide := pw_slide x; virtual_duty := virtual_duty x; ringMask := ringMask x;
     syncMask := syncMask x; key := key x |}.

Definition set_baseFreq (v : Z) (x : Channel) : Channel :=
  {| freq := freq x; baseFreq := v; baseNoteOverride := baseNoteOverride x; pitch := pitch x;
     pitch2 := pitch2 x; arpOff := arpOff x; ins := ins x; note := note x; active := active x;
     insChanged := insChanged x; freqChanged := freqChanged x; fixedArp := fixedArp x;
     keyOn := keyOn x; keyOff := keyOff x; portaPause := portaPause x; inPorta := inPorta x;
     vol := vol x; outVol := outVol x; state_fm := state_fm x; state_esfm := state_esfm x;
     cutoff := cutoff x; baseCutoff := baseCutoff x; res := res x; control := control x;
     pan := pan x; duty := duty x; pcm := pcm x; pcmLoop := pcmLoop x;
     phaseReset := phaseReset x; filterPhaseReset := filterPhaseReset x;
     timerSync := timerSync x; freqSweep := freqSweep x; volSweep := volSweep x;
     cutSweep := cutSweep x; freqSweepP := freqSweepP x; volSweepP := volSweepP x;
     cutSweepP := cutSweepP x; freqSweepB := freqSweepB x; volSweepB := volSweepB x;
     cutSweepB := cutSweepB x; freqSweepV := freqSweepV x; volSweepV := volSweepV x;
     cutSweepV := cutSweepV x; syncTimer := syncTimer x; hasOffset := hasOffset x;
     sample := sample x; released := released x; cutoff_slide := cutoff_slide x;
     pw_slide := pw_slide x; virtual_duty := virtual_duty x; ringMask := ringMask x;
     syncMask := syncMask x; key := key x |}.

Definition set_pitch2 (v : Z) (x : Channel) : Channel :=
  {| freq := freq x; baseFreq := baseFreq x; baseNoteOverride := baseNoteOverride x;
     pitch := pitch x; pitch2 := v; arpOff := arpOff x; ins := ins x; note := note x;
     active := active x; insChanged := insChanged x; freqChanged := freqChanged x;
     fixedArp := fixedArp x; keyOn := keyOn x; keyOff := keyOff x; portaPause := portaPause x;
     inPorta := inPorta x; vol := vol x; outVol := outVol x; state_fm := state_fm x;
     state_esfm := state_esfm x; cutoff := cutoff x; baseCutoff := baseCutoff x; res := res x;
     control := control x; pan := pan x; duty := duty x; pcm := pcm x; pcmLoop := pcmLoop x;
     phaseReset := phaseReset x; filterPhaseReset := filterPhaseReset x;
     timerSync := timerSync x; freqSweep := freqSweep x; volSweep := volSweep x;
     cutSweep := cutSweep x; freqSweepP := freqSweepP x; volSweepP := volSweepP x;
     cutSweepP := cutSweepP x; freqSweepB := freqSweepB x; volSweepB := volSweepB x;
     cutSweepB := cutSweepB x; freqSweepV := freqSweepV x; volSweepV := volSweepV x;
     cutSweepV := cutSweepV x; syncTimer := syncTimer x; hasOffset := hasOffset x;
     sample := sample x; released := released x; cutoff_slide := cutoff_slide x;
     pw_slide := pw_slide x; virtual_duty := virtual_duty x; ringMask := ringMask x;
     syncMask := syncMask x; key := key x |}.

Definition set_freqChanged (v : bool) (x : Channel) : Channel :=
  {| freq := freq x; baseFreq := baseFreq x; baseNoteOverride := baseNoteOverride x;
     pitch := pitch x; pitch2 := pitch2 x; arpOff := arpOff x; ins := ins x; note := note x;
     active := active x; insChanged := insChanged x; freqChanged := v; fixedArp := fixedArp x;
     keyOn := keyOn x; keyOff := keyOff x; portaPause := portaPause x; inPorta := inPorta x;
     vol := vol x; outVol := outVol x; state_fm := state_fm x; state_esfm := state_esfm x;
     cutoff := cutoff x; baseCutoff := baseCutoff x; res := res x; control := control x;
     pan := pan x; duty := duty x; pcm := pcm x; pcmLoop := pcmLoop x;
     phaseReset := phaseReset x; filterPhaseReset := filterPhaseReset x;
     timerSync := timerSync x; freqSweep := freqSweep x; volSweep := volSweep x;
     cutSweep := cutSweep x; freqSweepP := freqSweepP x; volSweepP := volSweepP x;
     cutSweepP := cutSweepP x; freqSweepB := freqSweepB x; volSweepB := volSweepB x;
     cutSweepB := cutSweepB x; freqSweepV := freqSweepV x; volSweepV := volSweepV x;
     cutSweepV := cutSweepV x; syncTimer := syncTimer x; hasOffset := hasOffset x;
     sample := sample x; released := released x; cutoff_slide := cutoff_slide x;
     pw_slide := pw_slide x; virtual_duty := virtual_duty x; ringMask := ringMask x;
     syncMask := syncMask x; key := key x |}.

Definition set_keyOn (v : bool) (x : Channel) : Channel :=
  {| freq := freq x; baseFreq := baseFreq x; baseNoteOverride := baseNoteOverride x;
     pitch := pitch x; pitch2 := pitch2 x; arpOff := arpOff x; ins := ins x; note := note x;
     active := active x; insChanged := insChanged x; freqChanged := freqChanged x;
     fixedArp := fixedArp x; keyOn := v; keyOff := keyOff x; portaPause := portaPause x;
     inPorta := inPorta x; vol := vol x; outVol := outVol x; state_fm := state_fm x;
     state_esfm := state_esfm x; cutoff := cutoff x; baseCutoff := baseCutoff x; res := res x;
     control := control x; pan := pan x; duty := duty x; pcm := pcm x; pcmLoop := pcmLoop x;
     phaseReset := phaseReset x; filterPhaseReset := filterPhaseReset x;
     timerSync := timerSync x; freqSweep := freqSweep x; volSweep := volSweep x;
     cutSweep := cutSweep x; freqSweepP := freqSweepP x; volSweepP := volSweepP x;
     cutSweepP := cutSweepP x; freqSweepB := freqSweepB x; volSweepB := volSweepB x;
     cutSweepB := cutSweepB x; freqSweepV := freqSweepV x; volSweepV := volSweepV x;
     cutSweepV := cutSweepV x; syncTimer := syncTimer x; hasOffset := hasOffset x;
     sample := sample x; released := released x; cutoff_slide := cutoff_slide x;
     pw_slide := pw_slide x; virtual_duty := virtual_duty x; ringMask := ringMask x;
     syncMask := syncMask x; key := key x |}.

Definition set_keyOff (v : bool) (x : Channel) : Channel :=
  {| freq := freq x; baseFreq := baseFreq x; baseNoteOverride := baseNoteOverride x;
     pitch := pitch x; pitch2 := pitch2 x; arpOff := arpOff x; ins := ins x; note := note x;
     active := active x; insChanged := insChanged x; freqChanged := freqChanged x;
     fixedArp := fixedArp x; keyOn := keyOn x; keyOff := v; portaPause := portaPause x;
     inPorta := inPorta x; vol := vol x; outVol := outVol x; state_fm := state_fm x;
     state_esfm := state_esfm x; cutoff := cutoff x; baseCutoff := baseCutoff x; res := res x;
     control := control x; pan := pan x; duty := duty x; pcm := pcm x; pcmLoop := pcmLoop x;
     phaseReset := phaseReset x; filterPhaseReset := filterPhaseReset x;
     timerSync := timerSync x; freqSweep := freqSweep x; volSweep := volSweep x;
     cutSweep := cutSweep x; freqSweepP := freqSweepP x; volSweepP := volSweepP x;
     cutSweepP := cutSweepP x; freqSweepB := freqSweepB x; volSweepB := volSweepB x;
     cutSweepB := cutSweepB x; freqSweepV := freqSweepV x; volSweepV := volSweepV x;
     cutSweepV := cutSweepV x; syncTimer := syncTimer x; hasOffset := hasOffset x;
     sample := sample x; released := released x; cutoff_slide := cutoff_slide x;
     pw_slide := pw_slide x; virtual_duty := virtual_duty x; ringMask := ringMask x;
     syncMask := syncMask x; key := key x |}.

Definition set_outVol (v : Z) (x : Channel) : Channel :=
  {| freq := freq x; baseFreq := baseFreq x; baseNoteOverride := baseNoteOverride x;
     pitch := pitch x; pitch2 := pitch2 x; arpOff := arpOff x; ins := ins x; note := note x;
     active := active x; insChanged := insChanged x; freqChanged := freqChanged x;
     fixedArp := fixedArp x; keyOn := keyOn x; keyOff := keyOff x; portaPause := portaPause x;
     inPorta := inPorta x; vol := vol x; outVol := v; state_fm := state_fm x;
     state_esfm := state_esfm x; cutoff := cutoff x; baseCutoff := baseCutoff x; res := res x;
     control := control x; pan := pan x; duty := duty x; pcm := pcm x; pcmLoop := pcmLoop x;
     phaseReset := phaseReset x; filterPhaseReset := filterPhaseReset x;
     timerSync := timerSync x; freqSweep := freqSweep x; volSweep := volSweep x;
     cutSweep := cutSweep x; freqSweepP := freqSweepP x; volSweepP := volSweepP x;
     cutSweepP := cutSweepP x; freqSweepB := freqSweepB x; volSweepB := volSweepB x;
     cutSweepB := cutSweepB x; freqSweepV := freqSweepV x; volSweepV := volSweepV x;
     cutSweepV := cutSweepV x; syncTimer := syncTimer x; hasOffset := hasOffset x;
     sample := sample x; released := released x; cutoff_slide := cutoff_slide x;
     pw_slide := pw_slide x; virtual_duty := virtual_duty x; ringMask := ringMask x;
     syncMask := syncMask x; key := key x |}.

Definition set_state_fm (v : DivInstrumentFM) (x : Channel) : Channel :=
  {| freq := freq x; baseFreq := baseFreq x; baseNoteOverride := baseNoteOverride x;
     pitch := pitch x; pitch2 := pitch2 x; arpOff := arpOff x; ins := ins x; note := note x;
     active := active x; insChanged := insChanged x; freqChanged := freqChanged x;
     fixedArp := fixedArp x; keyOn := keyOn x; keyOff := keyOff x; portaPause := portaPause x;
     inPorta := inPorta x; vol := vol x; outVol := outVol x; state_fm := v;
     state_esfm := state_esfm x; cutoff := cutoff x; baseCutoff := baseCutoff x; res := res x;
     control := control x; pan := pan x; duty := duty x; pcm := pcm x; pcmLoop := pcmLoop x;
     phaseReset := phaseReset x; filterPhaseReset := filterPhaseReset x;
     timerSync := timerSync x; freqSweep := freqSweep x; volSweep := volSweep x;
     cutSweep := cutSweep x; freqSweepP := freqSweepP x; volSweepP := volSweepP x;
     cutSweepP := cutSweepP x; freqSweepB := freqSweepB x; volSweepB := volSweepB x;
     cutSweepB := cutSweepB x; freqSweepV := freqSweepV x; volSweepV := volSweepV x;
     cutSweepV := cutSweepV x; syncTimer := syncTimer x; hasOffset := hasOffset x;
     sample := sample x; released := released x; cutoff_slide := cutoff_slide x;
     pw_slide := pw_slide x; virtual_duty := virtual_duty x; ringMask := ringMask x;
     syncMask := syncMask x; key := key x |}.

Definition set_state_esfm (v : DivInstrumentESFM) (x : Channel) : Channel :=
  {| freq := freq x; baseFreq := baseFreq x; baseNoteOverride := baseNoteOverride x;
     pitch := pitch x; pitch2 := pitch2 x; arpOff := arpOff x; ins := ins x; note := note x;
     active := active x; insChanged := insChanged x; freqChanged := freqChanged x;
     fixedArp := fixedArp x; keyOn := keyOn x; keyOff := keyOff x; portaPause := portaPause x;
     inPorta := inPorta x; vol := vol x; outVol := outVol x; state_fm := state_fm x;
     state_esfm := v; cutoff := cutoff x; baseCutoff := baseCutoff x; res := res x;
     control := control x; pan := pan x; duty := duty x; pcm := pcm x; pcmLoop := pcmLoop x;
     phaseReset := phaseReset x; filterPhaseReset := filterPhaseReset x;
     timerSync := timerSync x; freqSweep := freqSweep x; volSweep := volSweep x;
     cutSweep := cutSweep x; freqSweepP := freqSweepP x; volSweepP := volSweepP x;
     cutSweepP := cutSweepP x; freqSweepB := freqSweepB x; volSweepB := volSweepB x;
     cutSweepB := cutSweepB x; freqSweepV := freqSweepV x; volSweepV := volSweepV x;
     cutSweepV := cutSweepV x; syncTimer := syncTimer x; hasOffset := hasOffset x;
     sample := sample x; released := released x; cutoff_slide := cutoff_slide x;
     pw_slide := pw_slide x; virtual_duty := virtual_duty x; ringMask := ringMask x;
     syncMask := syncMask x; key := key x |}.

Definition set_cutoff (v : Z) (x : Channel) : Channel :=
  {| freq := freq x; baseFreq := baseFreq x; baseNoteOverride := baseNoteOverride x;
     pitch := pitch x; pitch2 := pitch2 x; arpOff := arpOff x; ins := ins x; note := note x;
     active := active x; insChanged := insChanged x; freqChanged := freqChanged x;
     fixedArp := fixedArp x; keyOn := keyOn x; keyOff := keyOff x; portaPause := portaPause x;
     inPorta := inPorta x; vol := vol x; outVol := outVol x; state_fm := state_fm x;
     state_esfm := state_esfm x; cutoff := v; baseCutoff := baseCutoff x; res := res x;
     control := control x; pan := pan x; duty := duty x; pcm := pcm x; pcmLoop := pcmLoop x;
     phaseReset := phaseReset x; filterPhaseReset := filterPhaseReset x;
     timerSync := timerSync x; freqSweep := freqSweep x; volSweep := volSweep x;
     cutSweep := cutSweep x; freqSweepP := freqSweepP x; volSweepP := volSweepP x;
     cutSweepP := cutSweepP x; freqSweepB := freqSweepB x; volSweepB := volSweepB x;
     cutSweepB := cutSweepB x; freqSweepV := freqSweepV x; volSweepV := volSweepV x;
     cutSweepV := cutSweepV x; syncTimer := syncTimer x; hasOffset := hasOffset x;
     sample := sample x; released := released x; cutoff_slide := cutoff_slide x;
     pw_slide := pw_slide x; virtual_duty := virtual_duty x; ringMask := ringMask x;
     syncMask := syncMask x; key := key x |}.

Definition set_baseCutoff (v : Z) (x : Channel) : Channel :=
  {| freq := freq x; baseFreq := baseFreq x; baseNoteOverride := baseNoteOverride x;
     pitch := pitch x; pitch2 := pitch2 x; arpOff := arpOff x; ins := ins x; note := note x;
     active := active x; insChanged := insChanged x; freqChanged := freqChanged x;
     fixedArp := fixedArp x; keyOn := keyOn x; keyOff := keyOff x; portaPause := portaPause x;
     inPorta := inPorta x; vol := vol x; outVol := outVol x; state_fm := state_fm x;
     state_esfm := state_esfm x; cutoff := cutoff x; baseCutoff := v; res := res x;
     control := control x; pan := pan x; duty := duty x; pcm := pcm x; pcmLoop := pcmLoop x;
     phaseReset := phaseReset x; filterPhaseReset := filterPhaseReset x;
     timerSync := timerSync x; freqSweep := freqSweep x; volSweep := volSweep x;
     cutSweep := cutSweep x; freqSweepP := freqSweepP x; volSweepP := volSweepP x;
     cutSweepP := cutSweepP x; freqSweepB := freqSweepB x; volSweepB := volSweepB x;
     cutSweepB := cutSweepB x; freqSweepV := freqSweepV x; volSweepV := volSweepV x;
     cutSweepV := cutSweepV x; syncTimer := syncTimer x; hasOffset := hasOffset x;
     sample := sample x; released := released x; cutoff_slide := cutoff_slide x;
     pw_slide := pw_slide x; virtual_duty := virtual_duty x; ringMask := ringMask x;
     syncMask := syncMask x; key := key x |}.

Definition set_res (v : Z) (x : Channel) : Channel :=
  {| freq := freq x; baseFreq := baseFreq x; baseNoteOverride := baseNoteOverride x;
     pitch := pitch x; pitch2 := pitch2 x; arpOff := arpOff x; ins := ins x; note := note x;
     active := active x; insChanged := insChanged x; freqChanged := freqChanged x;
     fixedArp := fixedArp x; keyOn := keyOn x; keyOff := keyOff x; portaPause := portaPause x;
     inPorta := inPorta x; vol := vol x; outVol := outVol x; state_fm := state_fm x;
     state_esfm := state_esfm x; cutoff := cutoff x; baseCutoff := baseCutoff x; res := v;
     control := control x; pan := pan x; duty := duty x; pcm := pcm x; pcmLoop := pcmLoop x;
     phaseReset := phaseReset x; filterPhaseReset := filterPhaseReset x;
     timerSync := timerSync x; freqSweep := freqSweep x; volSweep := volSweep x;
     cutSweep := cutSweep x; freqSweepP := freqSweepP x; volSweepP := volSweepP x;
     cutSweepP := cutSweepP x; freqSweepB := freqSweepB x; volSweepB := volSweepB x;
     cutSweepB := cutSweepB x; freqSweepV := freqSweepV x; volSweepV := volSweepV x;
     cutSweepV := cutSweepV x; syncTimer := syncTimer x; hasOffset := hasOffset x;
     sample := sample x; released := released x; cutoff_slide := cutoff_slide x;
     pw_slide := pw_slide x; virtual_duty := virtual_duty x; ringMask := ringMask x;
     syncMask := syncMask x; key := key x |}.

Definition set_control (v : Z) (x : Channel) : Channel :=
  {| freq := freq x; baseFreq := baseFreq x; baseNoteOverride := baseNoteOverride x;
     pitch := pitch x; pitch2 := pitch2 x; arpOff := arpOff x; ins := ins x; note := note x;
     active := active x; insChanged := insChanged x; freqChanged := freqChanged x;
     fixedArp := fixedArp x; keyOn := keyOn x; keyOff := keyOff x; portaPause := portaPause x;
     inPorta := inPorta x; vol := vol x; outVol := outVol x; state_fm := state_fm x;
     state_esfm := state_esfm x; cutoff := cutoff x; baseCutoff := baseCutoff x; res := res x;
     control := v; pan := pan x; duty := duty x; pcm := pcm x; pcmLoop := pcmLoop x;
     phaseReset := phaseReset x; filterPhaseReset := filterPhaseReset x;
     timerSync := timerSync x; freqSweep := freqSweep x; volSweep := volSweep x;
     cutSweep := cutSweep x; freqSweepP := freqSweepP x; volSweepP := volSweepP x;
     cutSweepP := cutSweepP x; freqSweepB := freqSweepB x; volSweepB := volSweepB x;
     cutSweepB := cutSweepB x; freqSweepV := freqSweepV x; volSweepV := volSweepV x;
     cutSweepV := cutSweepV x; syncTimer := syncTimer x; hasOffset := hasOffset x;
     sample := sample x; released := released x; cutoff_slide := cutoff_slide x;
     pw_slide := pw_slide x; virtual_duty := virtual_duty x; ringMask := ringMask x;
     syncMask := syncMask x; key := key x |}.

Definition set_pan (v : Z) (x : Channel) : Channel :=
  {| freq := freq x; baseFreq := baseFreq x; baseNoteOverride := baseNoteOverride x;
     pitch := pitch x; pitch2 := pitch2 x; arpOff := arpOff x; ins := ins x; note := note x;
     active := active x; insChanged := insChanged x; freqChanged := freqChanged x;
     fixedArp := fixedArp x; keyOn := keyOn x; keyOff := keyOff x; portaPause := portaPause x;
     inPorta := inPorta x; vol := vol x; outVol := outVol x; state_fm := state_fm x;
     state_esfm := state_esfm x; cutoff := cutoff x; baseCutoff := baseCutoff x; res := res x;
     control := control x; pan := v; duty := duty x; pcm := pcm x; pcmLoop := pcmLoop x;
     phaseReset := phaseReset x; filterPhaseReset := filterPhaseReset x;
     timerSync := timerSync x; freqSweep := freqSweep x; volSweep := volSweep x;
     cutSweep := cutSweep x; freqSweepP := freqSweepP x; volSweepP := volSweepP x;
     cutSweepP := cutSweepP x; freqSweepB := freqSweepB x; volSweepB := volSweepB x;
     cutSweepB := cutSweepB x; freqSweepV := freqSweepV x; volSweepV := volSweepV x;
     cutSweepV := cutSweepV x; syncTimer := syncTimer x; hasOffset := hasOffset x;
     sample := sample x; released := released x; cutoff_slide := cutoff_slide x;
     pw_slide := pw_slide x; virtual_duty := virtual_duty x; ringMask := ringMask x;
     syncMask := syncMask x; key := key x |}.

Definition set_duty (v : Z) (x : Channel) : Channel :=
  {| freq := freq x; baseFreq := baseFreq x; baseNoteOverride := baseNoteOverride x;
     pitch := pitch x; pitch2 := pitch2 x; arpOff := arpOff x; ins := ins x; note := note x;
     active := active x; insChanged := insChanged x; freqChanged := freqChanged x;
     fixedArp := fixedArp x; keyOn := keyOn x; keyOff := keyOff x; portaPause := portaPause x;
     inPorta := inPorta x; vol := vol x; outVol := outVol x; state_fm := state_fm x;
     state_esfm := state_esfm x; cutoff := cutoff x; baseCutoff := baseCutoff x; res := res x;
     control := control x; pan := pan x; duty := v; pcm := pcm x; pcmLoop := pcmLoop x;
     phaseReset := phaseReset x; filterPhaseReset := filterPhaseReset x;
     timerSync := timerSync x; freqSweep := freqSweep x; volSweep := volSweep x;
     cutSweep := cutSweep x; freqSweepP := freqSweepP x; volSweepP := volSweepP x;
     cutSweepP := cutSweepP x; freqSweepB := freqSweepB x; volSweepB := volSweepB x;
     cutSweepB := cutSweepB x; freqSweepV := freqSweepV x; volSweepV := volSweepV x;
     cutSweepV := cutSweepV x; syncTimer := syncTimer x; hasOffset := hasOffset x;
     sample := sample x; released := released x; cutoff_slide := cutoff_slide x;
     pw_slide := pw_slide x; virtual_duty := virtual_duty x; ringMask := ringMask x;
     syncMask := syncMask x; key := key x |}.

Definition set_pcm (v : bool) (x : Channel) : Channel :=
  {| freq := freq x; baseFreq := baseFreq x; baseNoteOverride := baseNoteOverride x;
     pitch := pitch x; pitch2 := pitch2 x; arpOff := arpOff x; ins := ins x; note := note x;
     active := active x; insChanged := insChanged x; freqChanged := freqChanged x;
     fixedArp := fixedArp x; keyOn := keyOn x; keyOff := keyOff x; portaPause := portaPause x;
     inPorta := inPorta x; vol := vol x; outVol := outVol x; state_fm := state_fm x;
     state_esfm := state_esfm x; cutoff := cutoff x; baseCutoff := baseCutoff x; res := res x;
     control := control x; pan := pan x; duty := duty x; pcm := v; pcmLoop := pcmLoop x;
     phaseReset := phaseReset x; filterPhaseReset := filterPhaseReset x;
     timerSync := timerSync x; freqSweep := freqSweep x; volSweep := volSweep x;
     cutSweep := cutSweep x; freqSweepP := freqSweepP x; volSweepP := volSweepP x;
     cutSweepP := cutSweepP x; freqSweepB := freqSweepB x; volSweepB := volSweepB x;
     cutSweepB := cutSweepB x; freqSweepV := freqSweepV x; volSweepV := volSweepV x;
     cutSweepV := cutSweepV x; syncTimer := syncTimer x; hasOffset := hasOffset x;
     sample := sample x; released := released x; cutoff_slide := cutoff_slide x;
     pw_slide := pw_slide x; virtual_duty := virtual_duty x; ringMask := ringMask x;
     syncMask := syncMask x; key := key x |}.

Definition set_pcmLoop (v : bool) (x : Channel) : Channel :=
  {| freq := freq x; baseFreq := baseFreq x; baseNoteOverride := baseNoteOverride x;
     pitch := pitch x; pitch2 := pitch2 x; arpOff := arpOff x; ins := ins x; note := note x;
     active := active x; insChanged := insChanged x; freqChanged := freqChanged x;
     fixedArp := fixedArp x; keyOn := keyOn x; keyOff := keyOff x; portaPause := portaPause x;
     inPorta := inPorta x; vol := vol x; outVol := outVol x; state_fm := state_fm x;
     state_esfm := state_esfm x; cutoff := cutoff x; baseCutoff := baseCutoff x; res := res x;
     control := control x; pan := pan x; duty := duty x; pcm := pcm x; pcmLoop := v;
     phaseReset := phaseReset x; filterPhaseReset := filterPhaseReset x;
     timerSync := timerSync x; freqSweep := freqSweep x; volSweep := volSweep x;
     cutSweep := cutSweep x; freqSweepP := freqSweepP x; volSweepP := volSweepP x;
     cutSweepP := cutSweepP x; freqSweepB := freqSweepB x; volSweepB := volSweepB x;
     cutSweepB := cutSweepB x; freqSweepV := freqSweepV x; volSweepV := volSweepV x;
     cutSweepV := cutSweepV x; syncTimer := syncTimer x; hasOffset := hasOffset x;
     sample := sample x; released := released x; cutoff_slide := cutoff_slide x;
     pw_slide := pw_slide x; virtual_duty := virtual_duty x; ringMask := ringMask x;
     syncMask := syncMask x; key := key x |}.

Definition set_phaseReset (v : bool) (x : Channel) : Channel :=
  {| freq := freq x; baseFreq := baseFreq x; baseNoteOverride := baseNoteOverride x;
     pitch := pitch x; pitch2 := pitch2 x; arpOff := arpOff x; ins := ins x; note := note x;
     active := active x; insChanged := insChanged x; freqChanged := freqChanged x;
     fixedArp := fixedArp x; keyOn := keyOn x; keyOff := keyOff x; portaPause := portaPause x;
     inPorta := inPorta x; vol := vol x; outVol := outVol x; state_fm := state_fm x;
     state_esfm := state_esfm x; cutoff := cutoff x; baseCutoff := baseCutoff x; res := res x;
     control := control x; pan := pan x; duty := duty x; pcm := pcm x; pcmLoop := pcmLoop x;
     phaseReset := v; filterPhaseReset := filterPhaseReset x; timerSync := timerSync x;
     freqSweep := freqSweep x; volSweep := volSweep x; cutSweep := cutSweep x;
     freqSweepP := freqSweepP x; volSweepP := volSweepP x; cutSweepP := cutSweepP x;
     freqSweepB := freqSweepB x; volSweepB := volSweepB x; cutSweepB := cutSweepB x;
     freqSweepV := freqSweepV x; volSweepV := volSweepV x; cutSweepV := cutSweepV x;
     syncTimer := syncTimer x; hasOffset := hasOffset x; sample := sample x;
     released := released x; cutoff_slide := cutoff_slide x; pw_slide := pw_slide x;
     virtual_duty := virtual_duty x; ringMask := ringMask x; syncMask := syncMask x;
     key := key x |}.

Definition set_filterPhaseReset (v : bool) (x : Channel) : Channel :=
  {| freq := freq x; baseFreq := baseFreq x; baseNoteOverride := baseNoteOverride x;
     pitch := pitch x; pitch2 := pitch2 x; arpOff := arpOff x; ins := ins x; note := note x;
     active := active x; insChanged := insChanged x; freqChanged := freqChanged x;
     fixedArp := fixedArp x; keyOn := keyOn x; keyOff := keyOff x; portaPause := portaPause x;
     inPorta := inPorta x; vol := vol x; outVol := outVol x; state_fm := state_fm x;
     state_esfm := state_esfm x; cutoff := cutoff x; baseCutoff := baseCutoff x; res := res x;
     control := control x; pan := pan x; duty := duty x; pcm := pcm x; pcmLoop := pcmLoop x;
     phaseReset := phaseReset x; filterPhaseReset := v; timerSync := timerSync x;
     freqSweep := freqSweep x; volSweep := volSweep x; cutSweep := cutSweep x;
     freqSweepP := freqSweepP x; volSweepP := volSweepP x; cutSweepP := cutSweepP x;
     freqSweepB := freqSweepB x; volSweepB := volSweepB x; cutSweepB := cutSweepB x;
     freqSweepV := freqSweepV x; volSweepV := volSweepV x; cutSweepV := cutSweepV x;
     syncTimer := syncTimer x; hasOffset := hasOffset x; sample := sample x;
     released := released x; cutoff_slide := cutoff_slide x; pw_slide := pw_slide x;
     virtual_duty := virtual_duty x; ringMask := ringMask x; syncMask := syncMask x;
     key := key x |}.

Definition set_timerSync (v : bool) (x : Channel) : Channel :=
  {| freq := freq x; baseFreq := baseFreq x; baseNoteOverride := baseNoteOverride x;
     pitch := pitch x; pitch2 := pitch2 x; arpOff := arpOff x; ins := ins x; note := note x;
     active := active x; insChanged := insChanged x; freqChanged := freqChanged x;
     fixedArp := fixedArp x; keyOn := keyOn x; keyOff := keyOff x; portaPause := portaPause x;
     inPorta := inPorta x; vol := vol x; outVol := outVol x; state_fm := state_fm x;
     state_esfm := state_esfm x; cutoff := cutoff x; baseCutoff := baseCutoff x; res := res x;
     control := control x; pan := pan x; duty := duty x; pcm := pcm x; pcmLoop := pcmLoop x;
     phaseReset := phaseReset x; filterPhaseReset := filterPhaseReset x; timerSync := v;
     freqSweep := freqSweep x; volSweep := volSweep x; cutSweep := cutSweep x;
     freqSweepP := freqSweepP x; volSweepP := volSweepP x; cutSweepP := cutSweepP x;
     freqSweepB := freqSweepB x; volSweepB := volSweepB x; cutSweepB := cutSweepB x;
     freqSweepV := freqSweepV x; volSweepV := volSweepV x; cutSweepV := cutSweepV x;
     syncTimer := syncTimer x; hasOffset := hasOffset x; sample := sample x;
     released := released x; cutoff_slide := cutoff_slide x; pw_slide := pw_slide x;
     virtual_duty := virtual_duty x; ringMask := ringMask x; syncMask := syncMask x;
     key := key x |}.

Definition set_syncTimer (v : Z) (x : Channel) : Channel :=
  {| freq := freq x; baseFreq := baseFreq x; baseNoteOverride := baseNoteOverride x;
     pitch := pitch x; pitch2 := pitch2 x; arpOff := arpOff x; ins := ins x; note := note x;
     active := active x; insChanged := insChanged x; freqChanged := freqChanged x;
     fixedArp := fixedArp x; keyOn := keyOn x; keyOff := keyOff x; portaPause := portaPause x;
     inPorta := inPorta x; vol := vol x; outVol := outVol x; state_fm := state_fm x;
     state_esfm := state_esfm x; cutoff := cutoff x; baseCutoff := baseCutoff x; res := res x;
     control := control x; pan := pan x; duty := duty x; pcm := pcm x; pcmLoop := pcmLoop x;
     phaseReset := phaseReset x; filterPhaseReset := filterPhaseReset x;
     timerSync := timerSync x; freqSweep := freqSweep x; volSweep := volSweep x;
     cutSweep := cutSweep x; freqSweepP := freqSweepP x; volSweepP := volSweepP x;
     cutSweepP := cutSweepP x; freqSweepB := freqSweepB x; volSweepB := volSweepB x;
     cutSweepB := cutSweepB x; freqSweepV := freqSweepV x; volSweepV := volSweepV x;
     cutSweepV := cutSweepV x; syncTimer := v; hasOffset := hasOffset x; sample := sample x;
     released := released x; cutoff_slide := cutoff_slide x; pw_slide := pw_slide x;
     virtual_duty := virtual_duty x; ringMask := ringMask x; syncMask := syncMask x;
     key := key x |}.

Definition set_hasOffset (v : Z) (x : Channel) : Channel :=
  {| freq := freq x; baseFreq := baseFreq x; baseNoteOverride := baseNoteOverride x;
     pitch := pitch x; pitch2 := pitch2 x; arpOff := arpOff x; ins := ins x; note := note x;
     active := active x; insChanged := insChanged x; freqChanged := freqChanged x;
     fixedArp := fixedArp x; keyOn := keyOn x; keyOff := keyOff x; portaPause := portaPause x;
     inPorta := inPorta x; vol := vol x; outVol := outVol x; state_fm := state_fm x;
     state_esfm := state_esfm x; cutoff := cutoff x; baseCutoff := baseCutoff x; res := res x;
     control := control x; pan := pan x; duty := duty x; pcm := pcm x; pcmLoop := pcmLoop x;
     phaseReset := phaseReset x; filterPhaseReset := filterPhaseReset x;
     timerSync := timerSync x; freqSweep := freqSweep x; volSweep := volSweep x;
     cutSweep := cutSweep x; freqSweepP := freqSweepP x; volSweepP := volSweepP x;
     cutSweepP := cutSweepP x; freqSweepB := freqSweepB x; volSweepB := volSweepB x;
     cutSweepB := cutSweepB x; freqSweepV := freqSweepV x; volSweepV := volSweepV x;
     cutSweepV := cutSweepV x; syncTimer := syncTimer x; hasOffset := v; sample := sample x;
     released := released x; cutoff_slide := cutoff_slide x; pw_slide := pw_slide x;
     virtual_duty := virtual_duty x; ringMask := ringMask x; syncMask := syncMask x;
     key := key x |}.

Definition set_virtual_duty (v : Z) (x : Channel) : Channel :=
  {| freq := freq x; baseFreq := baseFreq x; baseNoteOverride := baseNoteOverride x;
     pitch := pitch x; pitch2 := pitch2 x; arpOff := arpOff x; ins := ins x; note := note x;
     active := active x; insChanged := insChanged x; freqChanged := freqChanged x;
     fixedArp := fixedArp x; keyOn := keyOn x; keyOff := keyOff x; portaPause := portaPause x;
     inPorta := inPorta x; vol := vol x; outVol := outVol x; state_fm := state_fm x;
     state_esfm := state_esfm x; cutoff := cutoff x; baseCutoff := baseCutoff x; res := res x;
     control := control x; pan := pan x; duty := duty x; pcm := pcm x; pcmLoop := pcmLoop x;
     phaseReset := phaseReset x; filterPhaseReset := filterPhaseReset x;
     timerSync := timerSync x; freqSweep := freqSweep x; volSweep := volSweep x;
     cutSweep := cutSweep x; freqSweepP := freqSweepP x; volSweepP := volSweepP x;
     cutSweepP := cutSweepP x; freqSweepB := freqSweepB x; volSweepB := volSweepB x;
     cutSweepB := cutSweepB x; freqSweepV := freqSweepV x; volSweepV := volSweepV x;
     cutSweepV := cutSweepV x; syncTimer := syncTimer x; hasOffset := hasOffset x;
     sample := sample x; released := released x; cutoff_slide := cutoff_slide x;
     pw_slide := pw_slide x; virtual_duty := v; ringMask := ringMask x; syncMask := syncMask x;
     key := key x |}.

Definition set_ringMask (v : Z) (x : Channel) : Channel :=
  {| freq := freq x; baseFreq := baseFreq x; baseNoteOverride := baseNoteOverride x;
     pitch := pitch x; pitch2 := pitch2 x; arpOff := arpOff x; ins := ins x; note := note x;
     active := active x; insChanged := insChanged x; freqChanged := freqChanged x;
     fixedArp := fixedArp x; keyOn := keyOn x; keyOff := keyOff x; portaPause := portaPause x;
     inPorta := inPorta x; vol := vol x; outVol := outVol x; state_fm := state_fm x;
     state_esfm := state_esfm x; cutoff := cutoff x; baseCutoff := baseCutoff x; res := res x;
     control := control x; pan := pan x; duty := duty x; pcm := pcm x; pcmLoop := pcmLoop x;
     phaseReset := phaseReset x; filterPhaseReset := filterPhaseReset x;
     timerSync := timerSync x; freqSweep := freqSweep x; volSweep := volSweep x;
     cutSweep := cutSweep x; freqSweepP := freqSweepP x; volSweepP := volSweepP x;
     cutSweepP := cutSweepP x; freqSweepB := freqSweepB x; volSweepB := volSweepB x;
     cutSweepB := cutSweepB x; freqSweepV := freqSweepV x; volSweepV := volSweepV x;
     cutSweepV := cutSweepV x; syncTimer := syncTimer x; hasOffset := hasOffset x;
     sample := sample x; released := released x; cutoff_slide := cutoff_slide x;
     pw_slide := pw_slide x; virtual_duty := virtual_duty x; ringMask := v;
     syncMask := syncMask x; key := key x |}.

Definition set_syncMask (v : Z) (x : Channel) : Channel :=
  {| freq := freq x; baseFreq := baseFreq x; baseNoteOverride := baseNoteOverride x;
     pitch := pitch x; pitch2 := pitch2 x; arpOff := arpOff x; ins := ins x; note := note x;
     active := active x; insChanged := insChanged x; freqChanged := freqChanged x;
     fixedArp := fixedArp x; keyOn := keyOn x; keyOff := keyOff x; portaPause := portaPause x;
     inPorta := inPorta x; vol := vol x; outVol := outVol x; state_fm := state_fm x;
     state_esfm := state_esfm x; cutoff := cutoff x; baseCutoff := baseCutoff x; res := res x;
     control := control x; pan := pan x; duty := duty x; pcm := pcm x; pcmLoop := pcmLoop x;
     phaseReset := phaseReset x; filterPhaseReset := filterPhaseReset x;
     timerSync := timerSync x; freqSweep := freqSweep x; volSweep := volSweep x;
     cutSweep := cutSweep x; freqSweepP := freqSweepP x; volSweepP := volSweepP x;
     cutSweepP := cutSweepP x; freqSweepB := freqSweepB x; volSweepB := volSweepB x;
     cutSweepB := cutSweepB x; freqSweepV := freqSweepV x; volSweepV := volSweepV x;
     cutSweepV := cutSweepV x; syncTimer := syncTimer x; hasOffset := hasOffset x;
     sample := sample x; released := released x; cutoff_slide := cutoff_slide x;
     pw_slide := pw_slide x; virtual_duty := virtual_duty x; ringMask := ringMask x;
     syncMask := v; key := key x |}.

Definition set_key (v : bool) (x : Channel) : Channel :=
  {| freq := freq x; baseFreq := baseFreq x; baseNoteOverride := baseNoteOverride x;
     pitch := pitch x; pitch2 := pitch2 x; arpOff := arpOff x; ins := ins x; note := note x;
     active := active x; insChanged := insChanged x; freqChanged := freqChanged x;
     fixedArp := fixedArp x; keyOn := keyOn x; keyOff := keyOff x; portaPause := portaPause x;
     inPorta := inPorta x; vol := vol x; outVol := outVol x; state_fm := state_fm x;
     state_esfm := state_esfm x; cutoff := cutoff x; baseCutoff := baseCutoff x; res := res x;
     control := control x; pan := pan x; duty := duty x; pcm := pcm x; pcmLoop := pcmLoop x;
     phaseReset := phaseReset x; filterPhaseReset := filterPhaseReset x;
     timerSync := timerSync x; freqSweep := freqSweep x; volSweep := volSweep x;
     cutSweep := cutSweep x; freqSweepP := freqSweepP x; volSweepP := volSweepP x;
     cutSweepP := cutSweepP x; freqSweepB := freqSweepB x; volSweepB := volSweepB x;
     cutSweepB := cutSweepB x; freqSweepV := freqSweepV x; volSweepV := volSweepV x;
     cutSweepV := cutSweepV x; syncTimer := syncTimer x; hasOffset := hasOffset x;
     sample := sample x; released := released x; cutoff_slide := cutoff_slide x;
     pw_slide := pw_slide x; virtual_duty := virtual_duty x; ringMask := ringMask x;
     syncMask := syncMask x; key := v |}.

(** ** Macro interpreter snapshot

    [DivMacroInt std] is advanced by [std.next()] outside this file; [tick]
    reads, per macro, whether it produced a value this tick ([had]) and the
    value ([val]); [mode] is read for the pitch macro only. *)
Record DivMacroStruct := mkDivMacroStruct { had : bool; val : Z; mode : Z }.

(** [DivMacroInt::IntOp] *)
Record IntOp := mkIntOp {
  mo_am : DivMacroStruct; mo_ar : DivMacroStruct; mo_dr : DivMacroStruct;
  mo_mult : DivMacroStruct; mo_rr : DivMacroStruct; mo_sl : DivMacroStruct;
  mo_tl : DivMacroStruct; mo_dt2 : DivMacroStruct; mo_rs : DivMacroStruct;
  mo_dt : DivMacroStruct; mo_d2r : DivMacroStruct; mo_ssg : DivMacroStruct;
  mo_dam : DivMacroStruct; mo_dvb : DivMacroStruct; mo_egt : DivMacroStruct;
  mo_ksl : DivMacroStruct; mo_vib : DivMacroStruct; mo_ws : DivMacroStruct;
  mo_ksr : DivMacroStruct
}.

Record DivMacroInt := mkDivMacroInt {
  std_vol : DivMacroStruct; std_arp : DivMacroStruct; std_duty : DivMacroStruct;
  std_wave : DivMacroStruct; std_pitch : DivMacroStruct; std_ex1 : DivMacroStruct;
  std_ex2 : DivMacroStruct; std_ex3 : DivMacroStruct; std_ex4 : DivMacroStruct;
  std_fb : DivMacroStruct; std_fms : DivMacroStruct; std_ams : DivMacroStruct;
  std_panL : DivMacroStruct; std_phaseReset : DivMacroStruct;
  std_op : Arr4 IntOp
}.

(** ** Samples and the engine

    [DivSample]: [data8] ([None] is [NULL]) and its byte length [length8],
    the render flag [renderOn[0][sysID]], and the results of the accessors
    [tick] calls. *)
Record DivSample := mkDivSample {
  data8 : option (list Z);
  length8 : Z;
  renderOn : Z -> bool;
  centerRate : Z;
  isLoopable : bool;
  getLoopStartPosition : Z;
  getLoopEndPosition : Z
}.

(** [DivEngine* parent]: the song's sample list ([song.sampleLen] is its
    length), the compatibility flags and the engine functions sgu.cpp calls.
    [pcmRate freq centerRate] is the [double] product
    [(double)freq*((double)centerRate/(getCenterRate()*4.0))] converted
    back to [int]. *)
Record DivEngine := mkDivEngine {
  song_sample : list DivSample;
  newVolumeScaling : bool;
  ceilVolumeScaling : bool;
  NEW_ARP_STRAT : bool;
  getIns : Z -> DivInstrument;
  getSample : Z -> option DivSample;
  calcArp : Z -> Z -> Z;
  NOTE_FREQUENCY : Z -> Z;
  calcFreq : Z -> Z -> Z -> bool -> bool -> Z -> Z -> Z -> Z -> Z;
  pcmRate : Z -> Z -> Z
}.

Definition song_sampleLen (parent : DivEngine) : Z := Z.of_nat (length (song_sample parent)).

(** ** What the missing headers supply

    sound/sgu.h, instrument.h and dispatch.h are not part of the sources at
    hand; the constants they define, the default constructor of the ESFM
    parameter set and the shared arpeggio handler are parameters. *)
Class SguHeader := {
  SGU_CHNS : nat;
  SGU_PCM_RAM_SIZE : Z;
  SGU_WAVE_SINE : Z;
  SGU_WAVE_TRIANGLE : Z;
  SGU_WAVE_SAWTOOTH : Z;
  SGU_WAVE_PULSE : Z;
  SGU_WAVE_NOISE : Z;
  SGU_WAVE_PERIODIC_NOISE : Z;
  (** [DivInstrumentESFM()] *)
  DivInstrumentESFM_ctor : DivInstrumentESFM;
  (** [SharedChannel::handleArp()], which reads the arpeggio macro *)
  handleArp : DivMacroStruct -> Channel -> Channel
}.

(** Register geometry, as the register sheet [regCheatSheetSGU] documents it:
    operator register [a] of operator [y] of channel [x] is at
    [x*0x40+y*0x08+a], channel register [a] at [x*0x40+0x20+a]. *)
Definition SGU_OP_PER_CH : Z := 4.
Definition SGU_OP_REGS : Z := 8.
Definition SGU_REGS_PER_CH : Z := 64.
Definition SGU_CH_BASE : Z := SGU_OP_PER_CH * SGU_OP_REGS.

Definition SGU1_CHN_FREQ_L : Z := 0.
Definition SGU1_CHN_FREQ_H : Z := 1.
Definition SGU1_CHN_VOL : Z := 2.
Definition SGU1_CHN_PAN : Z := 3.
Definition SGU1_CHN_FLAGS0 : Z := 4.
Definition SGU1_CHN_FLAGS1 : Z := 5.
Definition SGU1_CHN_CUTOFF_L : Z := 6.
Definition SGU1_CHN_CUTOFF_H : Z := 7.
Definition SGU1_CHN_DUTY : Z := 8.
Definition SGU1_CHN_RESON : Z := 9.
Definition SGU1_CHN_PCM_POS_L : Z := 10.
Definition SGU1_CHN_PCM_POS_H : Z := 11.
Definition SGU1_CHN_PCM_END_L : Z := 12.
Definition SGU1_CHN_PCM_END_H : Z := 13.
Definition SGU1_CHN_PCM_RST_L : Z := 14.
Definition SGU1_CHN_PCM_RST_H : Z := 15.
Definition SGU1_CHN_RESTIMER_L : Z := 28.
Definition SGU1_CHN_RESTIMER_H : Z := 29.

(** ** Register writes *)

(** [QueuedWrite(unsigned short a, unsigned char v)] *)
Record QueuedWrite := mkQueuedWrite { w_addr : Z; w_val : Z }.

Definition QueuedWrite_new (a v : Z) : QueuedWrite := mkQueuedWrite (u16 a) (u8 v).

(** Modelled from the spec: [FixedQueue<QueuedWrite,2048>] (fixedQueue.h) is
    not among the sources; the register write queue is a FIFO of
    (address, value) pairs, here a list with [push] at the back and
    [front]/[pop] at the head.  Its capacity is not modelled. *)
Definition FixedQueue : Type := list QueuedWrite.
Definition push (w : QueuedWrite) (q : FixedQueue) : FixedQueue := q ++ [w].

(** The register side of the dispatch object: the write queue, the register
    pool mirror, the two [DivDispatch] flags the [rWrite] macro tests, and the
    register-write log [addWrite] appends to. *)
Record Regs := mkRegs {
  writes : FixedQueue;
  regPool : list Z;
  skipRegisterWrites : bool;
  dumpWrites : bool;
  regWrites : list (Z * Z)
}.

(** The chip execution core (sound/sgu.h) is an external collaborator: its
    state and the calls sgu.cpp makes are an interface.  [SGU_NextSample]
    receives the current values of the locals it writes through [&l], [&r];
    [SGU_set_pcm] is the [memcpy] into [sgu->pcm]. *)
Class SguCore := {
  SGU : Type;
  SGU_Write : SGU -> Z -> Z -> SGU;
  SGU_NextSample : SGU -> Z * Z -> SGU * (Z * Z);
  SGU_GetSample : SGU -> Z -> Z;
  SGU_set_pcm : list Z -> SGU -> SGU
}.

(** [DivDispatchOscBuffer]: the calls made on an oscilloscope buffer. *)
Inductive OscCall :=
| OscBegin (len : nat)
| OscPutSample (h : nat) (v : Z)
| OscEnd (len : nat).

(** [DivMemoryEntry(DIV_MEMORY_SAMPLE,"Sample",asset,begin,end)] and
    [DivMemoryComposition] (its display name left out). *)
Record DivMemoryEntry := mkDivMemoryEntry { me_asset : nat; me_begin : Z; me_end : Z }.
Record DivMemoryComposition := mkDivMemoryComposition {
  mc_entries : list DivMemoryEntry;
  mc_used : Z;
  mc_capacity : Z
}.

Section Dispatch.
Context {hdr : SguHeader} {core : SguCore}.

Definition SGU_REG_POOL_SIZE : Z := SGU_REGS_PER_CH * Z.of_nat SGU_CHNS.

(** [rWrite(a,v)]; addresses are never negative in the embedded code. *)
Definition rWrite (a v : Z) (r : Regs) : Regs :=
  if skipRegisterWrites r then r
  else
    {| writes := push (QueuedWrite_new a v) (writes r);
       regPool := if a <? SGU_REG_POOL_SIZE then <[Z.to_nat a := u8 v]> (regPool r)
                  else regPool r;
       skipRegisterWrites := skipRegisterWrites r;
       dumpWrites := dumpWrites r;
       regWrites := if dumpWrites r then regWrites r ++ [(a, v)] else regWrites r |}.

(** [opWrite(c,o,a,v)] and [chWrite(c,a,v)] *)
Definition opWrite (c o a v : Z) (r : Regs) : Regs :=
  rWrite (c * SGU_REGS_PER_CH + o * SGU_OP_REGS + a) v r.
Definition chWrite (c a v : Z) (r : Regs) : Regs :=
  rWrite (c * SGU_REGS_PER_CH + SGU_CH_BASE + a) v r.

(** The functions below act on [chan[ch]] and the register side only; they
    take the channel index (for the address), the channel record and the
    register side, and return both. *)
Definition ChanRegs : Type := Channel * Regs.

Definition sguC64Wave (c64 : DivInstrumentC64) (periodicNoise : bool) : Z :=
  if c64_noiseOn c64 then (if periodicNoise then SGU_WAVE_PERIODIC_NOISE else SGU_WAVE_NOISE)
  else if c64_pulseOn c64 then SGU_WAVE_PULSE
  else if c64_sawOn c64 then SGU_WAVE_SAWTOOTH
  else if c64_triOn c64 then SGU_WAVE_TRIANGLE
  else SGU_WAVE_SAWTOOTH.

(** [flags0] of [writeControl]: bit 0 is KEY-ON, bit 3 PCM, bits 4..7 the
    filter mode. *)
Definition flags0 (c : Channel) : Z :=
  let key := if key c then 1 else 0 in
  u8 (Z.lor (Z.lor (Z.land key 1) (if pcm c then Z.shiftl 1 3 else 0))
            (Z.shiftl (Z.land (control c) 15) 4)).

Definition writeControl (ch : Z) (s : ChanRegs) : ChanRegs :=
  let c := s.1 in
  (c, chWrite ch SGU1_CHN_FLAGS0 (flags0 c) s.2).

(** [flags1] of [writeControlUpper] *)
Definition flags1 (c : Channel) : Z :=
  u8 (Z.lor (Z.lor (Z.lor (Z.lor (Z.lor (Z.lor
        (if phaseReset c then 1 else 0)
        (if filterPhaseReset c then 2 else 0))
        (if pcmLoop c then 4 else 0))
        (if timerSync c then 8 else 0))
        (if freqSweep c then 16 else 0))
        (if volSweep c then 32 else 0))
        (if cutSweep c then 64 else 0)).

Definition writeControlUpper (ch : Z) (s : ChanRegs) : ChanRegs :=
  let c := s.1 in
  let r := chWrite ch SGU1_CHN_FLAGS1 (flags1 c) s.2 in
  let c := set_phaseReset false c in
  let c := set_filterPhaseReset false c in
  (c, r).

Definition applyOpRegs (ch : Z) (o : nat) (s : ChanRegs) : ChanRegs :=
  let c := s.1 in
  let op := nth4 o (fm_op (state_fm c)) in
  let opE := nth4 o (esfm_op (state_esfm c)) in
  let tl := u8 (Z.land (op_tl op) 127) in
  let ar := u8 (Z.land (op_ar op) 31) in
  let dr := u8 (Z.land (op_dr op) 31) in
  let reg0 := u8 (Z.lor (Z.lor (Z.lor (Z.shiftl (Z.land (op_am op) 1) 7)
                                      (Z.shiftl (Z.land (op_vib op) 1) 6))
                               (Z.shiftl (Z.land (ope_fixed opE) 1) 5))
                        (Z.land (op_mult op) 15)) in
  let reg1 := u8 (Z.lor (Z.shiftl (Z.land (op_ksl op) 3) 6) (Z.land tl 63)) in
  let reg2 := u8 (Z.lor (Z.shiftl (Z.land ar 15) 4) (Z.land dr 15)) in
  let reg3 := u8 (Z.lor (Z.shiftl (Z.land (op_sl op) 15) 4) (Z.land (op_rr op) 15)) in
  let reg4 := u8 (Z.lor (Z.shiftl (Z.land (op_dt op) 7) 5) (Z.land (op_d2r op) 31)) in
  let wpar := 0 in
  let reg5 := u8 (Z.lor (Z.lor (Z.shiftl (Z.land (ope_delay opE) 7) 5)
                               (Z.shiftl (Z.land (op_rs op) 3) 3))
                        (Z.land wpar 7)) in
  let ring := z2b (Z.land (Z.shiftr (ringMask c) (Z.of_nat o)) 1) in
  let sync := z2b (Z.land (Z.shiftr (syncMask c) (Z.of_nat o)) 1) in
  let reg6 := u8 (Z.lor (Z.lor (Z.lor (Z.lor (Z.lor
                   (Z.shiftl (Z.land (op_dam op) 1) 7)
                   (Z.shiftl (Z.land (op_dvb op) 1) 6))
                   (if sync then 32 else 0))
                   (if ring then 16 else 0))
                   (Z.shiftl (Z.land (ope_modIn opE) 7) 1))
                   (Z.land (Z.shiftr tl 6) 1)) in
  let outLvl := u8 (if op_enable op then Z.land (ope_outLvl opE) 7 else 0) in
  let reg7 := u8 (Z.lor (Z.lor (Z.lor (Z.shiftl outLvl 5)
                                      (if z2b (Z.land ar 16) then 16 else 0))
                               (if z2b (Z.land dr 16) then 8 else 0))
                        (Z.land (op_ws op) 7)) in
  let r := s.2 in
  let r := opWrite ch (Z.of_nat o) 0 reg0 r in
  let r := opWrite ch (Z.of_nat o) 1 reg1 r in
  let r := opWrite ch (Z.of_nat o) 2 reg2 r in
  let r := opWrite ch (Z.of_nat o) 3 reg3 r in
  let r := opWrite ch (Z.of_nat o) 4 reg4 r in
  let r := opWrite ch (Z.of_nat o) 5 reg5 r in
  let r := opWrite ch (Z.of_nat o) 6 reg6 r in
  let r := opWrite ch (Z.of_nat o) 7 reg7 r in
  (c, r).

(** *** [commitState] *)

Definition oplToSguWaveformMap (w : Z) : Z :=
  match w with
  | 0 => SGU_WAVE_SINE
  | 1 => SGU_WAVE_PULSE
  | 2 => SGU_WAVE_SINE
  | 3 => SGU_WAVE_TRIANGLE
  | 4 => SGU_WAVE_PULSE
  | 5 => SGU_WAVE_PULSE
  | 6 => SGU_WAVE_PULSE
  | _ => SGU_WAVE_SAWTOOTH
  end.

(** The width conversions [commitState] writes inline. *)

(** [(unsigned char)(((x & 0x0f) << 1) | 1)]: 4-bit rate to 5 bits *)
Definition widen4to5 (x : Z) : Z := u8 (Z.lor (Z.shiftl (Z.land x 15) 1) 1).
(** [(unsigned char)(((x & 0x3f) << 1) | 1)]: 6-bit level to 7 bits *)
Definition widen6to7 (x : Z) : Z := u8 (Z.lor (Z.shiftl (Z.land x 63) 1) 1).
(** [(unsigned char)(((x & 0x0f) << 3) | 0x04)]: 4-bit OPLL carrier level to 7 bits *)
Definition widenOpllCarrier (x : Z) : Z := u8 (Z.lor (Z.shiftl (Z.land x 15) 3) 4).
(** [(unsigned short)((cutClamp*65535U+1023U)/2047U)] with
    [cutClamp=(cut>2047)?2047:cut]: 11-bit cutoff to 16 bits *)
Definition scaleC64Cutoff (cut : Z) : Z :=
  let cutClamp := u32 (if cut >? 2047 then 2047 else cut) in
  u16 (u32 (u32 (cutClamp * 65535) + 1023) / 2047).

(** "Convert waveforms": the first switch of the operator loop. *)
Definition convertWaveform (t : DivInstrumentType) (op : FMOperator) : FMOperator :=
  match t with
  | DIV_INS_ESFM | DIV_INS_FM | DIV_INS_OPM | DIV_INS_OPL | DIV_INS_OPLL | DIV_INS_OPZ =>
      set_op_ws (oplToSguWaveformMap (Z.land (op_ws op) 7)) op
  | _ => op
  end.

(** The single carrier the C64/SID2 cases build on operator 3. *)
Definition c64Carrier (c64 : DivInstrumentC64) (periodicNoise : bool) (op : FMOperator)
  : FMOperator :=
  let decay := u8 (if c64_s c64 =? 15 then 0 else Z.land (c64_d c64) 15) in
  let op := set_op_ar (widen4to5 (c64_a c64)) op in
  let op := set_op_dr (widen4to5 decay) op in
  let op := set_op_sl (u8 (15 - Z.land (c64_s c64) 15)) op in
  let op := set_op_rr (u8 (Z.land (c64_r c64) 15)) op in
  let op := set_op_d2r 0 op in
  let op := set_op_tl 0 op in
  let op := set_op_mult 1 op in
  set_op_ws (sguC64Wave c64 periodicNoise) op.

(** The fixed envelope of the SU and POKEY cases on operator 3. *)
Definition simpleCarrier (wave : Z) (op : FMOperator) : FMOperator :=
  let op := set_op_ar 31 op in
  let op := set_op_dr 0 op in
  let op := set_op_sl 0 op in
  let op := set_op_rr 15 op in
  let op := set_op_d2r 0 op in
  let op := set_op_tl 0 op in
  let op := set_op_mult 1 op in
  set_op_ws wave op.

(** "Disable modulator operators" *)
Definition silenceOp (op : FMOperator) : FMOperator :=
  set_op_enable false (set_op_tl 127 op).

(** "Convert ADSR envelope parameters": the second switch of the operator
    loop, for operator [o] of the local copy [fm]. *)
Definition convertEnvelope (ins : DivInstrument) (fm : DivInstrumentFM) (o : nat)
    (op : FMOperator) : FMOperator :=
  match ins_type ins with
  | DIV_INS_ESFM | DIV_INS_OPL =>
      let op := set_op_ar (widen4to5 (op_ar op)) op in
      let op := set_op_dr (widen4to5 (op_dr op)) op in
      let op := set_op_tl (widen6to7 (op_tl op)) op in
      set_op_d2r (if z2b (op_egt op) then 0 else 31) op
  | DIV_INS_OPLL =>
      let op := set_op_ar (widen4to5 (op_ar op)) op in
      let op := set_op_dr (widen4to5 (op_dr op)) op in
      let op := set_op_tl (if (o =? 0)%nat then widen6to7 (op_tl op)
                           else widenOpllCarrier (op_tl op)) op in
      let op := set_op_d2r (if z2b (op_sus op) then 0 else 31) op in
      let op := set_op_rs (if z2b (Z.land (op_ksr op) 1) then 3 else 0) op in
      let op := set_op_dam (Z.land (fm_ams fm) 1) op in
      set_op_dvb (Z.land (fm_fms fm) 1) op
  | DIV_INS_FM | DIV_INS_OPM | DIV_INS_OPZ => op
  | DIV_INS_C64 =>
      if (o =? 3)%nat then c64Carrier (ins_c64 ins) false op else silenceOp op
  | DIV_INS_SID2 =>
      if (o =? 3)%nat then c64Carrier (ins_c64 ins) (negb (sid2_noiseMode ins =? 0)) op
      else silenceOp op
  | DIV_INS_SU =>
      if (o =? 3)%nat then simpleCarrier SGU_WAVE_SAWTOOTH op else silenceOp op
  | DIV_INS_POKEY =>
      if (o =? 3)%nat then simpleCarrier SGU_WAVE_PULSE op else silenceOp op
  | _ => op
  end.

(** One iteration of [for (int o=0; o<SGU_OP_PER_CH; o++)]. *)
Definition convertOperator (ins : DivInstrument) (o : nat) (fm : DivInstrumentFM)
  : DivInstrumentFM :=
  let fm := set_fm_op (upd4 o (convertWaveform (ins_type ins)) (fm_op fm)) fm in
  set_fm_op (upd4 o (convertEnvelope ins fm o) (fm_op fm)) fm.

Definition convertOperators (ins : DivInstrument) (fm : DivInstrumentFM) : DivInstrumentFM :=
  foldl (fun fm o => convertOperator ins o fm) fm [0; 1; 2; 3]%nat.

(** [esfm.op[o].modIn=m; esfm.op[o].outLvl=l;] *)
Definition route (o : nat) (m l : Z) (esfm : DivInstrumentESFM) : DivInstrumentESFM :=
  set_esfm_op (upd4 o (fun e => set_ope_outLvl (u8 l) (set_ope_modIn (u8 m) e)) (esfm_op esfm))
    esfm.

Definition route4 (m0 l0 m1 l1 m2 l2 m3 l3 : Z) (esfm : DivInstrumentESFM)
  : DivInstrumentESFM :=
  route 3 m3 l3 (route 2 m2 l2 (route 1 m1 l1 (route 0 m0 l0 esfm))).

(** [switch (fm.alg & 7)]: the routing table of the OPN, OPM and OPZ cases
    (the three switches are the same text). *)
Definition routeAlgorithm (fm : DivInstrumentFM) (esfm : DivInstrumentESFM)
  : DivInstrumentESFM :=
  let fb := Z.land (fm_fb fm) 7 in
  match Z.land (fm_alg fm) 7 with
  | 0 => route4 fb 0 7 0 7 0 7 7 esfm
  | 1 => route4 fb 0 0 0 7 0 7 7 esfm
  | 2 => route4 fb 0 0 0 7 0 7 7 esfm
  | 3 => route4 fb 0 7 0 0 0 7 7 esfm
  | 4 => route4 fb 0 7 7 0 0 7 7 esfm
  | 5 => route4 fb 0 7 7 7 7 7 7 esfm
  | 6 => route4 fb 0 7 7 0 7 0 7 esfm
  | 7 => route4 fb 7 0 7 0 7 0 7 esfm
  | _ => esfm
  end.

(** The 2-operator routing shared by the OPL and OPLL cases, after which
    operators 2 and 3 are disabled. *)
Definition routeTwoOp (fm : DivInstrumentFM) (esfm : DivInstrumentESFM)
  : DivInstrumentFM * DivInstrumentESFM :=
  let algAdd := z2b (Z.land (fm_alg fm) 1) in
  let esfm :=
    set_esfm_op (upd4 0 (set_ope_modIn (u8 (Z.land (fm_fb fm) 7))) (esfm_op esfm)) esfm in
  let esfm :=
    set_esfm_op (upd4 0 (set_ope_outLvl (if algAdd then 7 else 0)) (esfm_op esfm)) esfm in
  let esfm :=
    set_esfm_op (upd4 1 (set_ope_modIn (if algAdd then 0 else 7)) (esfm_op esfm)) esfm in
  let esfm := set_esfm_op (upd4 1 (set_ope_outLvl 7) (esfm_op esfm)) esfm in
  foldl (fun '(fm, esfm) i =>
           let fm := set_fm_op (upd4 i (set_op_enable false) (fm_op fm)) fm in
           let fm := set_fm_op (upd4 i (set_op_tl 127) (fm_op fm)) fm in
           let esfm := set_esfm_op (upd4 i (set_ope_outLvl 0) (esfm_op esfm)) esfm in
           let esfm := set_esfm_op (upd4 i (set_ope_modIn 0) (esfm_op esfm)) esfm in
           (fm, esfm))
        (fm, esfm) [2; 3]%nat.

(** The single-oscillator routing of the SU, POKEY, C64 and SID2 cases. *)
Definition routeSingle (esfm : DivInstrumentESFM) : DivInstrumentESFM :=
  let esfm :=
    foldl (fun esfm o =>
             let esfm := set_esfm_op (upd4 o (set_ope_outLvl 0) (esfm_op esfm)) esfm in
             set_esfm_op (upd4 o (set_ope_modIn 0) (esfm_op esfm)) esfm)
          esfm [0; 1; 2]%nat in
  let esfm := set_esfm_op (upd4 3 (set_ope_modIn 0) (esfm_op esfm)) esfm in
  set_esfm_op (upd4 3 (set_ope_outLvl 7) (esfm_op esfm)) esfm.

(** The channel settings of the C64/SID2 case: duty, filter, ring/sync masks. *)
Definition commitC64Channel (ch : Z) (ins : DivInstrument) (s : ChanRegs) : ChanRegs :=
  let c64 := ins_c64 ins in
  let '(c, r) := s in
  (* Handle duty cycle *)
  let '(c, r) :=
    if c64_resetDuty c64 || insChanged c then
      let dutyClamp := u16 (if c64_duty c64 >? 4095 then 4095 else c64_duty c64) in
      let c := set_duty (u8 (Z.shiftr dutyClamp 5)) c in
      let c := set_virtual_duty (s16 (Z.shiftl (u16 (duty c)) 5)) c in
      (c, chWrite ch SGU1_CHN_DUTY (duty c) r)
    else (c, r) in
  (* Handle filter settings *)
  let '(c, updateFilter) :=
    if negb (c64_toFilter c64) then
      if negb (control c =? 0) then (set_control 0 c, true) else (c, false)
    else if c64_initFilter c64 || insChanged c then
      if c64_initFilter c64 then
        let c := set_cutoff (scaleC64Cutoff (c64_cut c64)) c in
        let c := set_baseCutoff (cutoff c) c in
        let resClamp := u8 (Z.land (c64_res c64) 15) in
        let c := set_res (u8 (Z.lor (Z.shiftl resClamp 4) resClamp)) c in
        let c := set_control (u8 (Z.lor (Z.lor (if c64_lp c64 then 2 else 0)
                                               (if c64_hp c64 then 4 else 0))
                                        (if c64_bp c64 then 8 else 0))) c in
        (c, true)
      else (c, false)
    else (c, false) in
  let '(c, r) :=
    if updateFilter then
      let r := chWrite ch SGU1_CHN_CUTOFF_L (Z.land (cutoff c) 255) r in
      let r := chWrite ch SGU1_CHN_CUTOFF_H (Z.shiftr (cutoff c) 8) r in
      let r := chWrite ch SGU1_CHN_RESON (res c) r in
      writeControl ch (c, r)
    else (c, r) in
  let c := set_ringMask 0 c in
  let c := set_syncMask 0 c in
  (c, r).

(** "Convert operator algorithms": the switch after the operator loop.  It
    works on the local copies [fm] and [esfm] and, for C64/SID2, on the
    channel. *)
Definition convertAlgorithm (ch : Z) (ins : DivInstrument)
    (fm : DivInstrumentFM) (esfm : DivInstrumentESFM) (s : ChanRegs)
  : DivInstrumentFM * DivInstrumentESFM * ChanRegs :=
  match ins_type ins with
  | DIV_INS_ESFM => (fm, esfm, s)
  | DIV_INS_AMIGA => (fm, esfm, s)
  | DIV_INS_FM | DIV_INS_OPM => (fm, routeAlgorithm fm DivInstrumentESFM_ctor, s)
  | DIV_INS_OPL =>
      let '(fm, esfm) := routeTwoOp fm DivInstrumentESFM_ctor in (fm, esfm, s)
  | DIV_INS_OPLL =>
      let esfm := DivInstrumentESFM_ctor in
      let fm :=
        set_fm_op (upd4 1 (fun op => set_op_tl (widenOpllCarrier (op_tl op)) op) (fm_op fm))
          fm in
      let fm :=
        foldl (fun fm i =>
                 let fm :=
                   set_fm_op (upd4 i (fun op =>
                     set_op_rs (if z2b (Z.land (op_ksr op) 1) then 3 else 0) op) (fm_op fm))
                     fm in
                 let fm := set_fm_op (upd4 i (set_op_dam (Z.land (fm_ams fm) 1)) (fm_op fm)) fm in
                 set_fm_op (upd4 i (set_op_dvb (Z.land (fm_fms fm) 1)) (fm_op fm)) fm)
              fm [0; 1]%nat in
      let '(fm, esfm) := routeTwoOp fm esfm in
      (fm, esfm, s)
  | DIV_INS_OPZ =>
      let esfm := DivInstrumentESFM_ctor in
      let esfm :=
        foldl (fun esfm o =>
                 set_esfm_op (upd4 o (set_ope_fixed (op_egt (nth4 o (fm_op fm)))) (esfm_op esfm))
                   esfm)
              esfm [0; 1; 2; 3]%nat in
      (fm, routeAlgorithm fm esfm, s)
  | DIV_INS_SU | DIV_INS_POKEY => (fm, routeSingle DivInstrumentESFM_ctor, s)
  | DIV_INS_C64 | DIV_INS_SID2 =>
      (fm, routeSingle DivInstrumentESFM_ctor, commitC64Channel ch ins s)
  | DIV_INS_OTHER _ => (fm, esfm, s)
  end.

(** [ins->type==DIV_INS_AMIGA || ins->amiga.useSample] *)
Definition isAmiga (ins : DivInstrument) : bool :=
  match ins_type ins with DIV_INS_AMIGA => true | _ => false end || amiga_useSample ins.

(** [commitState(ch,ins)]; [None] is [ins==NULL]. *)
Definition commitState (ch : Z) (ins : option DivInstrument) (s : ChanRegs) : ChanRegs :=
  match ins with
  | None => s
  | Some ins =>
      if isAmiga ins then
        let '(c, r) := s in
        let c := set_pcm true c in
        writeControlUpper ch (writeControl ch (c, r))
      else
        let '(c, r) := s in
        let c := set_pcm false c in
        let fm := ins_fm ins in
        let esfm := ins_esfm ins in
        let fm := convertOperators ins fm in
        let '(fm, esfm, (c, r)) := convertAlgorithm ch ins fm esfm (c, r) in
        let c := set_state_fm fm c in
        let c := set_state_esfm esfm c in
        foldl (fun s o => applyOpRegs ch o s) (c, r) [0; 1; 2; 3]%nat
  end.

(** *** Volume scaling *)

Definition sguVolScaleLinear (parent : DivEngine) (x y range : Z) : Z :=
  if ceilVolumeScaling parent then Z.quot (x * y + (range - 1)) range
  else Z.quot (x * y) range.

Definition sguVolScaleLog (x y range : Z) : Z := CLAMP (x + y - range) 0 range.

Definition sguVolScaleLogBroken (parent : DivEngine) (x y range : Z) : Z :=
  if newVolumeScaling parent then sguVolScaleLog x y range
  else sguVolScaleLinear parent x y range.

Definition sguOpllScaleVol (parent : DivEngine) (chanVol macroVol : Z) : Z :=
  let base := CLAMP chanVol 0 127 in
  let base15 := Z.quot (base * 15 + 63) 127 in
  let macro15 := CLAMP macroVol 0 15 in
  let vol15 := sguVolScaleLogBroken parent base15 macro15 15 in
  u8 (Z.quot (vol15 * 127 + 7) 15).

(** *** [tick]: one channel *)

(** A step of [tick] that touches the channel only. *)
Definition onChannel (f : Channel -> Channel) (s : ChanRegs) : ChanRegs := (f s.1, s.2).

Definition CHIP_FREQBASE : Z := 524288.

(** [if (sysTick) { ... }]: the pulse-width and cutoff slides. *)
Definition tickSlides (i : Z) (s : ChanRegs) : ChanRegs :=
  let '(c, r) := s in
  let '(c, r) :=
    if negb (pw_slide c =? 0) then
      let c := set_virtual_duty (s16 (virtual_duty c - pw_slide c)) c in
      let c := set_virtual_duty (s16 (CLAMP (virtual_duty c) 0 4095)) c in
      let c := set_duty (u8 (Z.shiftr (virtual_duty c) 5)) c in
      (c, chWrite i SGU1_CHN_DUTY (duty c) r)
    else (c, r) in
  if negb (cutoff_slide c =? 0) then
    let c := set_cutoff (cutoff c + cutoff_slide c * 16) c in
    let c := set_cutoff (CLAMP (cutoff c) 0 65535) c in
    let r := chWrite i SGU1_CHN_CUTOFF_L (Z.land (cutoff c) 255) r in
    let r := chWrite i SGU1_CHN_CUTOFF_H (Z.shiftr (cutoff c) 8) r in
    (c, r)
  else (c, r).

(** [if (chan[i].std.vol.had) { ... }] *)
Definition tickVolume (parent : DivEngine) (isAmiga isOpll : bool) (i : Z) (m : DivMacroInt)
    (s : ChanRegs) : ChanRegs :=
  let '(c, r) := s in
  if had (std_vol m) then
    let c :=
      if isAmiga then
        set_outVol (s8 (Z.shiftr (Z.land (vol c) 127 * MIN 64 (val (std_vol m))) 6)) c
      else if isOpll then
        set_outVol (s8 (sguOpllScaleVol parent (vol c) (val (std_vol m)))) c
      else
        set_outVol (s8 (Z.shiftr (Z.land (vol c) 127 * MIN 127 (val (std_vol m))) 7)) c in
    (c, chWrite i SGU1_CHN_VOL (outVol c) r)
  else (c, r).

(** The arpeggio step: [handleArp()] under the new strategy, else the base
    frequency is recomputed from the note. *)
Definition tickArp (parent : DivEngine) (m : DivMacroInt) (c : Channel) : Channel :=
  if NEW_ARP_STRAT parent then handleArp (std_arp m) c
  else if had (std_arp m) then
    let c :=
      if negb (inPorta c) then
        set_baseFreq (NOTE_FREQUENCY parent (calcArp parent (note c) (val (std_arp m)))) c
      else c in
    set_freqChanged true c
  else c.

(** The duty, wave, phase-reset, pan, pitch, ex1..ex4 and feedback macros. *)
Definition tickDuty (i : Z) (m : DivMacroInt) (s : ChanRegs) : ChanRegs :=
  let '(c, r) := s in
  if had (std_duty m) then
    let c := set_duty (u8 (Z.land (val (std_duty m)) 127)) c in
    let c := set_virtual_duty (s16 (Z.shiftl (u16 (duty c)) 5)) c in
    (c, chWrite i SGU1_CHN_DUTY (duty c) r)
  else (c, r).

Definition tickWave (i : Z) (m : DivMacroInt) (s : ChanRegs) : ChanRegs :=
  let '(c, r) := s in
  if had (std_wave m) then
    let fm := state_fm c in
    let c :=
      set_state_fm
        (set_fm_op (upd4 3 (set_op_ws (u8 (Z.land (val (std_wave m)) 7))) (fm_op fm)) fm) c in
    applyOpRegs i 3 (c, r)
  else (c, r).

Definition tickPhaseReset (i : Z) (m : DivMacroInt) (s : ChanRegs) : ChanRegs :=
  let '(c, r) := s in
  if had (std_phaseReset m) then
    writeControlUpper i (set_phaseReset (z2b (val (std_phaseReset m))) c, r)
  else (c, r).

Definition tickPan (i : Z) (m : DivMacroInt) (s : ChanRegs) : ChanRegs :=
  let '(c, r) := s in
  if had (std_panL m) then
    let c := set_pan (s8 (val (std_panL m))) c in
    (c, chWrite i SGU1_CHN_PAN (pan c) r)
  else (c, r).

(** The pitch macro; [CLAMP_VAR(x,lo,hi)] (same missing header) is taken to be
    [if (x<lo) x=lo; if (x>hi) x=hi;]. *)
Definition tickPitch (m : DivMacroInt) (c : Channel) : Channel :=
  if had (std_pitch m) then
    let c :=
      if z2b (mode (std_pitch m)) then
        let c := set_pitch2 (pitch2 c + val (std_pitch m)) c in
        let c := if pitch2 c <? -32768 then set_pitch2 (-32768) c else c in
        if pitch2 c >? 32767 then set_pitch2 32767 c else c
      else set_pitch2 (val (std_pitch m)) c in
    set_freqChanged true c
  else c.

Definition tickEx1 (i : Z) (m : DivMacroInt) (s : ChanRegs) : ChanRegs :=
  let '(c, r) := s in
  if had (std_ex1 m) then
    let c := set_cutoff (Z.quot (Z.land (val (std_ex1 m)) 16383 * baseCutoff c) 16383) c in
    let r := chWrite i SGU1_CHN_CUTOFF_L (Z.land (cutoff c) 255) r in
    let r := chWrite i SGU1_CHN_CUTOFF_H (Z.shiftr (cutoff c) 8) r in
    (c, r)
  else (c, r).

Definition tickEx2 (i : Z) (m : DivMacroInt) (s : ChanRegs) : ChanRegs :=
  let '(c, r) := s in
  if had (std_ex2 m) then
    let c := set_res (u8 (val (std_ex2 m))) c in
    (c, chWrite i SGU1_CHN_RESON (res c) r)
  else (c, r).

Definition tickEx3 (i : Z) (m : DivMacroInt) (s : ChanRegs) : ChanRegs :=
  let '(c, r) := s in
  if had (std_ex3 m) then
    writeControl i (set_control (u8 (Z.land (val (std_ex3 m)) 15)) c, r)
  else (c, r).

Definition tickEx4 (i : Z) (m : DivMacroInt) (s : ChanRegs) : ChanRegs :=
  let '(c, r) := s in
  if had (std_ex4 m) then
    let c := set_syncTimer (u16 (Z.land (val (std_ex4 m)) 65535)) c in
    let c := set_timerSync (syncTimer c >? 0) c in
    let r := chWrite i SGU1_CHN_RESTIMER_L (Z.land (syncTimer c) 255) r in
    let r := chWrite i SGU1_CHN_RESTIMER_H (Z.shiftr (syncTimer c) 8) r in
    writeControlUpper i (c, r)
  else (c, r).

Definition tickFb (i : Z) (m : DivMacroInt) (s : ChanRegs) : ChanRegs :=
  let '(c, r) := s in
  if had (std_fb m) then
    let esfm := state_esfm c in
    let c :=
      set_state_esfm
        (set_esfm_op (upd4 0 (set_ope_modIn (u8 (Z.land (val (std_fb m)) 7))) (esfm_op esfm))
           esfm) c in
    applyOpRegs i 0 (c, r)
  else (c, r).

(** [if (isOpll && (fms.had || ams.had)) { ... }]; [tickOpllDepthOp] is one
    iteration of its loop over operators 0 and 1. *)
Definition tickOpllDepthOp (i : Z) (s : ChanRegs) (o : nat) : ChanRegs :=
  let fm := state_fm s.1 in
  let fm := set_fm_op (upd4 o (set_op_dvb (Z.land (fm_fms fm) 1)) (fm_op fm)) fm in
  let fm := set_fm_op (upd4 o (set_op_dam (Z.land (fm_ams fm) 1)) (fm_op fm)) fm in
  applyOpRegs i o (set_state_fm fm s.1, s.2).

Definition tickOpllDepth (isOpll : bool) (i : Z) (m : DivMacroInt) (s : ChanRegs) : ChanRegs :=
  let '(c, r) := s in
  if isOpll && (had (std_fms m) || had (std_ams m)) then
    let c :=
      if had (std_fms m) then
        set_state_fm (set_fm_fms (u8 (Z.land (val (std_fms m)) 1)) (state_fm c)) c
      else c in
    let c :=
      if had (std_ams m) then
        set_state_fm (set_fm_ams (u8 (Z.land (val (std_ams m)) 1)) (state_fm c)) c
      else c in
    foldl (tickOpllDepthOp i) (c, r) [0; 1]%nat
  else (c, r).

(** The per-operator macros of operator [o]: the updated operator pair and
    [opDirty]. *)
Definition tickOpMacros (isOpll : bool) (o : nat) (m : IntOp)
    (x : FMOperator * ESFMOperator) : FMOperator * ESFMOperator * bool :=
  let '(op, opE) := x in
  let opDirty := false in
  let '(op, opDirty) :=
    if had (mo_am m) then (set_op_am (u8 (val (mo_am m))) op, true) else (op, opDirty) in
  let '(op, opDirty) :=
    if had (mo_vib m) then (set_op_vib (u8 (val (mo_vib m))) op, true) else (op, opDirty) in
  let '(op, opDirty) :=
    if had (mo_mult m) then (set_op_mult (u8 (val (mo_mult m))) op, true) else (op, opDirty) in
  let '(op, opDirty) :=
    if had (mo_tl m) then
      (if isOpll then
         set_op_tl (if (o =? 0)%nat then widen6to7 (val (mo_tl m))
                    else widenOpllCarrier (val (mo_tl m))) op
       else set_op_tl (u8 (val (mo_tl m))) op, true)
    else (op, opDirty) in
  let '(op, opDirty) :=
    if had (mo_ar m) then
      (set_op_ar (if isOpll then widen4to5 (val (mo_ar m)) else u8 (val (mo_ar m))) op, true)
    else (op, opDirty) in
  let '(op, opDirty) :=
    if had (mo_dr m) then
      (set_op_dr (if isOpll then widen4to5 (val (mo_dr m)) else u8 (val (mo_dr m))) op, true)
    else (op, opDirty) in
  let '(op, opDirty) :=
    if had (mo_sl m) then (set_op_sl (u8 (val (mo_sl m))) op, true) else (op, opDirty) in
  let '(op, opDirty) :=
    if had (mo_rr m) then
      let op := set_op_rr (u8 (val (mo_rr m))) op in
      let op :=
        if isOpll then
          set_op_d2r (if z2b (Z.land (op_ssgEnv op) 8) then 0 else widen4to5 (op_rr op)) op
        else op in
      (op, true)
    else (op, opDirty) in
  let '(op, opDirty) :=
    if had (mo_d2r m) && negb isOpll then (set_op_d2r (u8 (val (mo_d2r m))) op, true)
    else (op, opDirty) in
  let '(op, opDirty) :=
    if had (mo_dt m) && negb isOpll then (set_op_dt (u8 (val (mo_dt m))) op, true)
    else (op, opDirty) in
  let '(op, opDirty) :=
    if had (mo_rs m) then (set_op_rs (u8 (Z.land (val (mo_rs m)) 3)) op, true)
    else (op, opDirty) in
  let '(op, opDirty) :=
    if negb (had (mo_rs m)) && had (mo_ksr m) then
      let op := set_op_rs (u8 (Z.land (val (mo_ksr m)) 1)) op in
      (set_op_ksr (u8 (Z.land (val (mo_ksr m)) 1)) op, true)
    else (op, opDirty) in
  let '(op, opDirty) :=
    if had (mo_ksl m) then (set_op_ksl (u8 (val (mo_ksl m))) op, true) else (op, opDirty) in
  let '(op, opDirty) :=
    if had (mo_dam m) then (set_op_dam (u8 (val (mo_dam m))) op, true) else (op, opDirty) in
  let '(op, opDirty) :=
    if had (mo_dvb m) then (set_op_dvb (u8 (val (mo_dvb m))) op, true) else (op, opDirty) in
  let '(op, opDirty) :=
    if had (mo_ws m) && negb isOpll then (set_op_ws (u8 (val (mo_ws m))) op, true)
    else (op, opDirty) in
  let '(opE, opDirty) :=
    if had (mo_dt2 m) && negb isOpll then (set_ope_delay (u8 (val (mo_dt2 m))) opE, true)
    else (opE, opDirty) in
  let '(op, opE, opDirty) :=
    if had (mo_egt m) then
      if isOpll then
        let op :=
          set_op_ssgEnv (u8 (Z.lor (Z.land (op_ssgEnv op) 7)
                                   (Z.shiftl (Z.land (val (mo_egt m)) 1) 3))) op in
        let op :=
          set_op_d2r (if z2b (Z.land (op_ssgEnv op) 8) then 0 else widen4to5 (op_rr op)) op in
        (op, opE, true)
      else (op, set_ope_outLvl (u8 (val (mo_egt m))) opE, true)
    else (op, opE, opDirty) in
  let '(opE, opDirty) :=
    if had (mo_ssg m) && negb isOpll then (set_ope_modIn (u8 (val (mo_ssg m))) opE, true)
    else (opE, opDirty) in
  (op, opE, opDirty).

(** One iteration of the operator loop of [tick]. *)
Definition tickOperator (isOpll : bool) (i : Z) (m : DivMacroInt) (s : ChanRegs) (o : nat)
  : ChanRegs :=
  let '(c, r) := s in
  let fm := state_fm c in
  let esfm := state_esfm c in
  let '(op, opE, opDirty) :=
    tickOpMacros isOpll o (nth4 o (std_op m)) (nth4 o (fm_op fm), nth4 o (esfm_op esfm)) in
  let c := set_state_fm (set_fm_op (upd4 o (fun _ => op) (fm_op fm)) fm) c in
  let c := set_state_esfm (set_esfm_op (upd4 o (fun _ => opE) (esfm_op esfm)) esfm) c in
  if opDirty then applyOpRegs i o (c, r) else (c, r).

(** Everything [tick] does for channel [i] before the key and frequency
    block. *)
Definition tickMacros (parent : DivEngine) (sysTick : bool) (i : Z) (m : DivMacroInt)
    (s : ChanRegs) : ChanRegs :=
  let ins := getIns parent (ins s.1) in
  let isOpll := match ins_type ins with DIV_INS_OPLL => true | _ => false end in
  let isAmiga := isAmiga ins in
  let s := if sysTick then tickSlides i s else s in
  let s := tickVolume parent isAmiga isOpll i m s in
  let s := onChannel (tickArp parent m) s in
  let s := tickDuty i m s in
  let s := tickWave i m s in
  let s := tickPhaseReset i m s in
  let s := tickPan i m s in
  let s := onChannel (tickPitch m) s in
  let s := tickEx1 i m s in
  let s := tickEx2 i m s in
  let s := tickEx3 i m s in
  let s := tickEx4 i m s in
  let s := tickFb i m s in
  let s := tickOpllDepth isOpll i m s in
  foldl (tickOperator isOpll i m) s [0; 1; 2; 3]%nat.

(** The sample start, end and restart offsets written on key-on of a PCM
    channel. *)
Definition tickPcmKeyOn (parent : DivEngine) (sampleOffSGU : list Z) (i : Z) (s : ChanRegs)
  : ChanRegs :=
  let '(c, r) := s in
  let sNum := sample c in
  match getSample parent sNum with
  | Some smp =>
      if (sNum >=? 0) && (sNum <? song_sampleLen parent) then
        let base := sampleOffSGU !!! Z.to_nat sNum in
        let sampleEnd := u32 (base + getLoopEndPosition smp) in
        let off := u32 (base + hasOffset c) in
        let c := set_hasOffset 0 c in
        let sampleEnd :=
          if sampleEnd >=? SGU_PCM_RAM_SIZE then u32 (SGU_PCM_RAM_SIZE - 1) else sampleEnd in
        let r := chWrite i SGU1_CHN_PCM_POS_L (Z.land off 255) r in
        let r := chWrite i SGU1_CHN_PCM_POS_H (Z.shiftr off 8) r in
        let r := chWrite i SGU1_CHN_PCM_END_L (Z.land sampleEnd 255) r in
        let r := chWrite i SGU1_CHN_PCM_END_H (Z.shiftr sampleEnd 8) r in
        let '(c, r) :=
          if isLoopable smp then
            let sampleLoop := u32 (base + getLoopStartPosition smp) in
            let sampleLoop :=
              if sampleLoop >=? SGU_PCM_RAM_SIZE then u32 (SGU_PCM_RAM_SIZE - 1)
              else sampleLoop in
            let r := chWrite i SGU1_CHN_PCM_RST_L (Z.land sampleLoop 255) r in
            let r := chWrite i SGU1_CHN_PCM_RST_H (Z.shiftr sampleLoop 8) r in
            (set_pcmLoop true c, r)
          else (set_pcmLoop false c, r) in
        writeControlUpper i (c, r)
      else (c, r)
  | None => (c, r)
  end.

(** The frequency [tick] computes before clamping: [calcFreq], scaled by the
    sample rate on PCM channels. *)
Definition tickCalcFreq (parent : DivEngine) (chipClock : Z) (c : Channel) : Z :=
  let f :=
    calcFreq parent (baseFreq c) (pitch c)
      (if fixedArp c then baseNoteOverride c else arpOff c)
      (fixedArp c) false 8 (pitch2 c) chipClock CHIP_FREQBASE in
  if pcm c then
    match getSample parent (sample c) with
    | Some smp =>
        if centerRate smp <? 1 then Z.quot f 4 else pcmRate parent f (centerRate smp)
    | None => f
    end
  else f.

(** "Key-off first (before frequency writes) to create edge transition" *)
Definition tickKeyOffEdge (i : Z) (s : ChanRegs) : ChanRegs :=
  let '(c, r) := s in
  if keyOn c || keyOff c then
    let c := set_key false c in
    let '(c, r) := writeControl i (c, r) in
    let r := if keyOff c && pcm c then chWrite i SGU1_CHN_VOL 0 r else r in
    (set_keyOff false c, r)
  else (c, r).

(** The frequency is computed and clamped: [if (freq<0) freq=0;
    if (freq>65535) freq=65535;] *)
Definition tickFreq (parent : DivEngine) (chipClock : Z) (c : Channel) : Channel :=
  let c := set_freq (tickCalcFreq parent chipClock c) c in
  let c := if freq c <? 0 then set_freq 0 c else c in
  if freq c >? 65535 then set_freq 65535 c else c.

(** "Key-on last (after frequency writes) to start new ADSR cycle", the PCM
    offsets, and the two flags cleared at the end of the block. *)
Definition tickKeyOnEdge (parent : DivEngine) (sampleOffSGU : list Z) (i : Z) (s : ChanRegs)
  : ChanRegs :=
  let '(c, r) := s in
  let '(c, r) :=
    if keyOn c then writeControl i (set_key true c, r) else (c, r) in
  let '(c, r) :=
    if keyOn c then
      if pcm c then tickPcmKeyOn parent sampleOffSGU i (c, r) else (c, r)
    else (c, r) in
  let c := if keyOn c then set_keyOn false c else c in
  (set_freqChanged false c, r).

(** [if (chan[i].freqChanged || chan[i].keyOn || chan[i].keyOff) { ... }] *)
Definition tickKeyFreq (parent : DivEngine) (sampleOffSGU : list Z) (chipClock : Z) (i : Z)
    (s : ChanRegs) : ChanRegs :=
  let '(c, r) := s in
  if freqChanged c || keyOn c || keyOff c then
    let '(c, r) := tickKeyOffEdge i (c, r) in
    let c := tickFreq parent chipClock c in
    let r := chWrite i SGU1_CHN_FREQ_L (Z.land (freq c) 255) r in
    let r := chWrite i SGU1_CHN_FREQ_H (Z.shiftr (freq c) 8) r in
    tickKeyOnEdge parent sampleOffSGU i (c, r)
  else (c, r).

(** The body of [for (int i=0; i<SGU_CHNS; i++)] in [tick], for the macro
    snapshot [m] that [chan[i].std.next()] leaves. *)
Definition tickChannel (parent : DivEngine) (sampleOffSGU : list Z) (chipClock : Z)
    (sysTick : bool) (i : Z) (m : DivMacroInt) (s : ChanRegs) : ChanRegs :=
  tickKeyFreq parent sampleOffSGU chipClock i (tickMacros parent sysTick i m s).

(** ** The dispatch object *)

(** [DivPlatformSGU]: the channels, the oscilloscope buffers, the register
    side, the chip core, the sample memory manager's tables, and the
    warnings [logW] has been given (the sample index of each). *)
Record DivPlatformSGU := mkDivPlatformSGU {
  chan : list Channel;
  oscBuf : list (list OscCall);
  regs : Regs;
  sgu : SGU;
  chipClock : Z;
  sampleOffSGU : list Z;
  sampleLoaded : list bool;
  sampleMem : list Z;
  sampleMemLen : Z;
  memCompo : DivMemoryComposition;
  sysIDCache : Z;
  warnings : list nat
}.

(** One iteration of [for (int i=0; i<SGU_CHNS; i++)] in [tick]: channel [i]
    with the macro snapshot [ms !! i]. *)
Definition tickOne (parent : DivEngine) (sysTick : bool) (ms : list DivMacroInt)
    (st : DivPlatformSGU) (i : nat) : DivPlatformSGU :=
  match chan st !! i, ms !! i with
  | Some c, Some m =>
      let s :=
        tickChannel parent (sampleOffSGU st) (chipClock st) sysTick (Z.of_nat i) m
          (c, regs st) in
      {| chan := <[i := s.1]> (chan st); oscBuf := oscBuf st; regs := s.2; sgu := sgu st;
         chipClock := chipClock st; sampleOffSGU := sampleOffSGU st;
         sampleLoaded := sampleLoaded st; sampleMem := sampleMem st;
         sampleMemLen := sampleMemLen st; memCompo := memCompo st;
         sysIDCache := sysIDCache st; warnings := warnings st |}
  | _, _ => st
  end.

(** [tick(sysTick)]: the channels in order. *)
Definition tick (parent : DivEngine) (sysTick : bool) (ms : list DivMacroInt)
    (st : DivPlatformSGU) : DivPlatformSGU :=
  foldl (tickOne parent sysTick ms) st (seq 0 SGU_CHNS).

(** *** [acquire] *)

(** [while (!writes.empty()) { w=writes.front(); SGU_Write(sgu,w.addr,w.val);
    writes.pop(); }]: the queue and the core after the loop. *)
Fixpoint drainWrites (q : FixedQueue) (g : SGU) : FixedQueue * SGU :=
  match q with
  | [] => (q, g)
  | w :: q' => drainWrites q' (SGU_Write g (w_addr w) (w_val w))
  end.

(** The state [acquire] works on: the two output buffers, the locals [l] and
    [r], the write queue, the core and the oscilloscope buffers. *)
Record AcquireState := mkAcquireState {
  aq_buf0 : list Z;
  aq_buf1 : list Z;
  aq_lr : Z * Z;
  aq_writes : FixedQueue;
  aq_sgu : SGU;
  aq_osc : list (list OscCall)
}.

(** [oscBuf[i]->call] for every [i<SGU_CHNS] *)
Definition oscAll (call : nat -> OscCall) (osc : list (list OscCall)) : list (list OscCall) :=
  foldl (fun osc i => alter (fun b => b ++ [call i]) i osc) osc (seq 0 SGU_CHNS).

(** One iteration of [for (size_t h=0; h<len; h++)]. *)
Definition acquireFrame (a : AcquireState) (h : nat) : AcquireState :=
  let '(q, g) := drainWrites (aq_writes a) (aq_sgu a) in
  let '(g, (l, r)) := SGU_NextSample g (aq_lr a) in
  {| aq_buf0 := <[h := s16 (CLAMP l (-32768) 32767)]> (aq_buf0 a);
     aq_buf1 := <[h := s16 (CLAMP r (-32768) 32767)]> (aq_buf1 a);
     aq_lr := (l, r);
     aq_writes := q;
     aq_sgu := g;
     aq_osc := oscAll (fun i => OscPutSample h (SGU_GetSample g (Z.of_nat i))) (aq_osc a) |}.

(** The frames [0..n-1] of [acquire]. *)
Definition acquireFrames (n : nat) (a : AcquireState) : AcquireState :=
  foldl acquireFrame a (seq 0 n).

(** The state before the first frame: [l=0], [r=0], and [oscBuf[i]->begin(len)]
    done. *)
Definition acquireInit (buf0 buf1 : list Z) (len : nat) (st : DivPlatformSGU)
  : AcquireState :=
  {| aq_buf0 := buf0; aq_buf1 := buf1; aq_lr := (0, 0);
     aq_writes := writes (regs st); aq_sgu := sgu st;
     aq_osc := oscAll (fun _ => OscBegin len) (oscBuf st) |}.

(** [acquire(buf,len)] on the buffers [buf[0]], [buf[1]], each holding at
    least [len] samples. *)
Definition acquire (buf0 buf1 : list Z) (len : nat) (st : DivPlatformSGU)
  : list Z * list Z * DivPlatformSGU :=
  let a := acquireFrames len (acquireInit buf0 buf1 len st) in
  (aq_buf0 a, aq_buf1 a,
   {| chan := chan st; oscBuf := oscAll (fun _ => OscEnd len) (aq_osc a);
      regs := {| writes := aq_writes a; regPool := regPool (regs st);
                 skipRegisterWrites := skipRegisterWrites (regs st);
                 dumpWrites := dumpWrites (regs st); regWrites := regWrites (regs st) |};
      sgu := aq_sgu a; chipClock := chipClock st; sampleOffSGU := sampleOffSGU st;
      sampleLoaded := sampleLoaded st; sampleMem := sampleMem st;
      sampleMemLen := sampleMemLen st; memCompo := memCompo st;
      sysIDCache := sysIDCache st; warnings := warnings st |}).

(** *** Introspection

    [None] is [NULL].  [isSampleLoaded] reads [sampleLoaded[sample]], an array
    of 32768 flags: the inner [None] of its result is a read outside the
    array. *)
Definition getSampleMem (index : Z) (st : DivPlatformSGU) : option (list Z) :=
  if index =? 0 then Some (sampleMem st) else None.

Definition getSampleMemCapacity (index : Z) : Z :=
  if index =? 0 then SGU_PCM_RAM_SIZE else 0.

Definition getSampleMemUsage (index : Z) (st : DivPlatformSGU) : Z :=
  if index =? 0 then sampleMemLen st else 0.

Definition isSampleLoaded (index sample : Z) (st : DivPlatformSGU) : option bool :=
  if negb (index =? 0) then Some false
  else if (sample <? 0) || (sample >? 32767) then Some false
  else sampleLoaded st !! Z.to_nat sample.

Definition getMemCompo (index : Z) (st : DivPlatformSGU) : option DivMemoryComposition :=
  if negb (index =? 0) then None else Some (memCompo st).

(** [getOscBuffer(ch)] and [getChanState(ch)] index [oscBuf[ch]] and
    [chan[ch]] with no check of [ch].  The result is the entry indexed (for
    [getChanState] the channel the pointer returned designates); [None] is an
    index outside the array, below 0 or past its last entry. *)
Definition getOscBuffer (ch : Z) (st : DivPlatformSGU) : option (list OscCall) :=
  if ch <? 0 then None else oscBuf st !! Z.to_nat ch.

Definition getChanState (ch : Z) (st : DivPlatformSGU) : option Channel :=
  if ch <? 0 then None else chan st !! Z.to_nat ch.

(** *** [renderSamples] *)

(** [memcpy(dst+pos,src,n)] for a destination holding [pos+n] bytes and a
    source holding [n]. *)
Definition memcpy (dst : list Z) (pos : Z) (src : list Z) (n : Z) : list Z :=
  list_inserts (Z.to_nat pos) (take (Z.to_nat n) src) dst.

(** What the sample loop of [renderSamples] updates. *)
Record RenderState := mkRenderState {
  rs_mem : list Z;
  rs_off : list Z;
  rs_loaded : list bool;
  rs_entries : list DivMemoryEntry;
  rs_warnings : list nat;
  rs_memPos : Z
}.

(** [for (int i=0; i<parent->song.sampleLen; i++)] over the samples from
    index [i] on; [break] returns the state.  The tables hold 32768 entries,
    the song at most that many samples. *)
Fixpoint renderLoop (sysID : Z) (i : nat) (samples : list DivSample) (x : RenderState)
  : RenderState :=
  match samples with
  | [] => x
  | s :: rest =>
      match data8 s with
      | None => renderLoop sysID (S i) rest x
      | Some data =>
          if negb (renderOn s sysID) then
            renderLoop sysID (S i) rest
              {| rs_mem := rs_mem x; rs_off := <[i := 0]> (rs_off x);
                 rs_loaded := rs_loaded x; rs_entries := rs_entries x;
                 rs_warnings := rs_warnings x; rs_memPos := rs_memPos x |}
          else
            let paddedLen := length8 s in
            let memPos := rs_memPos x in
            if memPos >=? getSampleMemCapacity 0 then
              {| rs_mem := rs_mem x; rs_off := rs_off x; rs_loaded := rs_loaded x;
                 rs_entries := rs_entries x; rs_warnings := rs_warnings x ++ [i];
                 rs_memPos := memPos |}
            else
              let over := memPos + paddedLen >=? getSampleMemCapacity 0 in
              renderLoop sysID (S i) rest
                {| rs_mem :=
                     if over then memcpy (rs_mem x) memPos data (getSampleMemCapacity 0 - memPos)
                     else memcpy (rs_mem x) memPos data paddedLen;
                   rs_off := <[i := memPos]> (rs_off x);
                   rs_loaded := if over then rs_loaded x else <[i := true]> (rs_loaded x);
                   rs_entries :=
                     rs_entries x ++ [mkDivMemoryEntry i memPos (memPos + paddedLen)];
                   rs_warnings := if over then rs_warnings x ++ [i] else rs_warnings x;
                   rs_memPos := memPos + paddedLen |}
      end
  end.

(** The state the three [memset]s and [memCompo=DivMemoryComposition()] leave,
    with [memPos=0]. *)
Definition renderInit (st : DivPlatformSGU) : RenderState :=
  {| rs_mem := replicate (Z.to_nat SGU_PCM_RAM_SIZE) 0;
     rs_off := replicate (Z.to_nat 32768) 0;
     rs_loaded := replicate (Z.to_nat 32768) false;
     rs_entries := [];
     rs_warnings := warnings st;
     rs_memPos := 0 |}.

(** [renderSamples(sysID)] *)
Definition renderSamples (parent : DivEngine) (sysID : Z) (st : DivPlatformSGU)
  : DivPlatformSGU :=
  let x := renderLoop sysID 0 (song_sample parent) (renderInit st) in
  {| chan := chan st; oscBuf := oscBuf st; regs := regs st;
     sgu := SGU_set_pcm (rs_mem x) (sgu st);
     chipClock := chipClock st;
     sampleOffSGU := rs_off x;
     sampleLoaded := rs_loaded x;
     sampleMem := rs_mem x;
     sampleMemLen := rs_memPos x;
     memCompo := {| mc_entries := rs_entries x; mc_used := rs_memPos x;
                    mc_capacity := SGU_PCM_RAM_SIZE |};
     sysIDCache := sysID;
     warnings := rs_warnings x |}.

(** ** Vocabulary of the statements *)

(** The queue entry [chWrite(i,a,v)] pushes. *)
Definition chW (i a v : Z) : QueuedWrite :=
  QueuedWrite_new (i * SGU_REGS_PER_CH + SGU_CH_BASE + a) v.

(** [r'] is [r] after the calls [rWrite] for the writes [l], in order: when
    register writes are skipped nothing changes, else [l] is queued. *)
Definition emits (l : list QueuedWrite) (r r' : Regs) : Prop :=
  skipRegisterWrites r' = skipRegisterWrites r /\
  writes r' = writes r ++ (if skipRegisterWrites r then [] else l).

(** The write [w] goes to neither FREQ_L nor FREQ_H of channel [i]. *)
Definition otherReg (i : Z) (w : QueuedWrite) : Prop :=
  w_addr w <> w_addr (chW i SGU1_CHN_FREQ_L 0) /\
  w_addr w <> w_addr (chW i SGU1_CHN_FREQ_H 0).

(** [r'] is [r] after [rWrite] calls, none of them to a frequency register
    of channel [i]. *)
Definition queued (i : Z) (r r' : Regs) : Prop :=
  exists l, emits l r r' /\ Forall (otherReg i) l.

(** [s'] is reached from [s] by such [rWrite] calls and by changes to channel
    fields other than the two key edge flags. *)
Definition keepsEdges (i : Z) (s s' : ChanRegs) : Prop :=
  keyOn s'.1 = keyOn s.1 /\ keyOff s'.1 = keyOff s.1 /\ queued i s.2 s'.2.

(** What is assumed of [SharedChannel::handleArp()]: it leaves the pending
    key edges alone. *)
Definition handleArp_keeps_edges : Prop :=
  forall m c, keyOn (handleArp m c) = keyOn c /\ keyOff (handleArp m c) = keyOff c.

(** The two clamps of [tick] on the computed frequency. *)
Definition clampFreq (f : Z) : Z := if f <? 0 then 0 else if f >? 65535 then 65535 else f.

(** Two loop states that agree on everything except the warnings logged. *)
Definition sameTables (x y : RenderState) : Prop :=
  rs_mem x = rs_mem y /\ rs_off x = rs_off y /\ rs_loaded x = rs_loaded y /\
  rs_entries x = rs_entries y /\ rs_memPos x = rs_memPos y.

(** [length8] is the byte length of [data8]. *)
Definition sample_sized (s : DivSample) : Prop :=
  match data8 s with
  | Some d => length8 s = Z.of_nat (length d)
  | None => True
  end.

(** A list of offsets that never decreases. *)
Definition nondecreasing (l : list Z) : Prop :=
  forall j k a b, (j <= k)%nat -> l !! j = Some a -> l !! k = Some b -> a <= b.

(** What holds of the entries laid out before sample [i] is looked at. *)
Definition entriesInv (i : nat) (x : RenderState) : Prop :=
  0 <= rs_memPos x /\
  (rs_entries x = [] -> rs_memPos x = 0) /\
  nondecreasing (me_begin <$> rs_entries x) /\
  (forall e, rs_entries x !! 0%nat = Some e -> me_begin e = 0) /\
  (forall e, e ∈ rs_entries x ->
     (me_asset e < i)%nat /\ me_begin e <= rs_memPos x /\
     rs_off x !! me_asset e = Some (me_begin e)).

(** Operator [o] of the generic-FM parameter set of the channel after
    [commitState(ch,ins)]. *)
Definition committedOp (ch : Z) (ins : DivInstrument) (s : ChanRegs) (o : nat) : FMOperator :=
  nth4 o (fm_op (state_fm (commitState ch (Some ins) s).1)).

End Dispatch.

(** ** Further field updates

    The fields [dispatch], [forceIns] and [reset] assign. *)

Definition set_op_sus (v : Z) (x : FMOperator) : FMOperator :=
  {| op_enable := op_enable x; op_am := op_am x; op_ar := op_ar x; op_dr := op_dr x;
     op_mult := op_mult x; op_rr := op_rr x; op_sl := op_sl x; op_tl := op_tl x;
     op_dt2 := op_dt2 x; op_rs := op_rs x; op_dt := op_dt x; op_d2r := op_d2r x;
     op_ssgEnv := op_ssgEnv x; op_dam := op_dam x; op_dvb := op_dvb x; op_egt := op_egt x;
     op_ksl := op_ksl x; op_sus := v; op_vib := op_vib x; op_ws := op_ws x; op_ksr := op_ksr x |}.
Definition set_pitch (v : Z) (x : Channel) : Channel :=
  {| freq := freq x; baseFreq := baseFreq x; baseNoteOverride := baseNoteOverride x;
     pitch := v; pitch2 := pitch2 x; arpOff := arpOff x; ins := ins x; note := note x;
     active := active x; insChanged := insChanged x; freqChanged := freqChanged x;
     fixedArp := fixedArp x; keyOn := keyOn x; keyOff := keyOff x; portaPause := portaPause x;
     inPorta := inPorta x; vol := vol x; outVol := outVol x; state_fm := state_fm x;
     state_esfm := state_esfm x; cutoff := cutoff x; baseCutoff := baseCutoff x; res := res x;
     control := control x; pan := pan x; duty := duty x; pcm := pcm x; pcmLoop := pcmLoop x;
     phaseReset := phaseReset x; filterPhaseReset := filterPhaseReset x;
     timerSync := timerSync x; freqSweep := freqSweep x; volSweep := volSweep x;
     cutSweep := cutSweep x; freqSweepP := freqSweepP x; volSweepP := volSweepP x;
     cutSweepP := cutSweepP x; freqSweepB := freqSweepB x; volSweepB := volSweepB x;
     cutSweepB := cutSweepB x; freqSweepV := freqSweepV x; volSweepV := volSweepV x;
     cutSweepV := cutSweepV x; syncTimer := syncTimer x; hasOffset := hasOffset x;
     sample := sample x; released := released x; cutoff_slide := cutoff_slide x;
     pw_slide := pw_slide x; virtual_duty := virtual_duty x; ringMask := ringMask x;
     syncMask := syncMask x; key := key x |}.

Definition set_ins (v : Z) (x : Channel) : Channel :=
  {| freq := freq x; baseFreq := baseFreq x; baseNoteOverride := baseNoteOverride x;
     pitch := pitch x; pitch2 := pitch2 x; arpOff := arpOff x; ins := v; note := note x;
     active := active x; insChanged := insChanged x; freqChanged := freqChanged x;
     fixedArp := fixedArp x; keyOn := keyOn x; keyOff := keyOff x; portaPause := portaPause x;
     inPorta := inPorta x; vol := vol x; outVol := outVol x; state_fm := state_fm x;
     state_esfm := state_esfm x; cutoff := cutoff x; baseCutoff := baseCutoff x; res := res x;
     control := control x; pan := pan x; duty := duty x; pcm := pcm x; pcmLoop := pcmLoop x;
     phaseReset := phaseReset x; filterPhaseReset := filterPhaseReset x;
     timerSync := timerSync x; freqSweep := freqSweep x; volSweep := volSweep x;
     cutSweep := cutSweep x; freqSweepP := freqSweepP x; volSweepP := volSweepP x;
     cutSweepP := cutSweepP x; freqSweepB := freqSweepB x; volSweepB := volSweepB x;
     cutSweepB := cutSweepB x; freqSweepV := freqSweepV x; volSweepV := volSweepV x;
     cutSweepV := cutSweepV x; syncTimer := syncTimer x; hasOffset := hasOffset x;
     sample := sample x; released := released x; cutoff_slide := cutoff_slide x;
     pw_slide := pw_slide x; virtual_duty := virtual_duty x; ringMask := ringMask x;
     syncMask := syncMask x; key := key x |}.

Definition set_note (v : Z) (x : Channel) : Channel :=
  {| freq := freq x; baseFreq := baseFreq x; baseNoteOverride := baseNoteOverride x;
     pitch := pitch x; pitch2 := pitch2 x; arpOff := arpOff x; ins := ins x; note := v;
     active := active x; insChanged := insChanged x; freqChanged := freqChanged x;
     fixedArp := fixedArp x; keyOn := keyOn x; keyOff := keyOff x; portaPause := portaPause x;
     inPorta := inPorta x; vol := vol x; outVol := outVol x; state_fm := state_fm x;
     state_esfm := state_esfm x; cutoff := cutoff x; baseCutoff := baseCutoff x; res := res x;
     control := control x; pan := pan x; duty := duty x; pcm := pcm x; pcmLoop := pcmLoop x;
     phaseReset := phaseReset x; filterPhaseReset := filterPhaseReset x;
     timerSync := timerSync x; freqSweep := freqSweep x; volSweep := volSweep x;
     cutSweep := cutSweep x; freqSweepP := freqSweepP x; volSweepP := volSweepP x;
     cutSweepP := cutSweepP x; freqSweepB := freqSweepB x; volSweepB := volSweepB x;
     cutSweepB := cutSweepB x; freqSweepV := freqSweepV x; volSweepV := volSweepV x;
     cutSweepV := cutSweepV x; syncTimer := syncTimer x; hasOffset := hasOffset x;
     sample := sample x; released := released x; cutoff_slide := cutoff_slide x;
     pw_slide := pw_slide x; virtual_duty := virtual_duty x; ringMask := ringMask x;
     syncMask := syncMask x; key := key x |}.

Definition set_active (v : bool) (x : Channel) : Channel :=
  {| freq := freq x; baseFreq := baseFreq x; baseNoteOverride := baseNoteOverride x;
     pitch := pitch x; pitch2 := pitch2 x; arpOff := arpOff x; ins := ins x; note := note x;
     active := v; insChanged := insChanged x; freqChanged := freqChanged x;
     fixedArp := fixedArp x; keyOn := keyOn x; keyOff := keyOff x; portaPause := portaPause x;
     inPorta := inPorta x; vol := vol x; outVol := outVol x; state_fm := state_fm x;
     state_esfm := state_esfm x; cutoff := cutoff x; baseCutoff := baseCutoff x; res := res x;
     control := control x; pan := pan x; duty := duty x; pcm := pcm x; pcmLoop := pcmLoop x;
     phaseReset := phaseReset x; filterPhaseReset := filterPhaseReset x;
     timerSync := timerSync x; freqSweep := freqSweep x; volSweep := volSweep x;
     cutSweep := cutSweep x; freqSweepP := freqSweepP x; volSweepP := volSweepP x;
     cutSweepP := cutSweepP x; freqSweepB := freqSweepB x; volSweepB := volSweepB x;
     cutSweepB := cutSweepB x; freqSweepV := freqSweepV x; volSweepV := volSweepV x;
     cutSweepV := cutSweepV x; syncTimer := syncTimer x; hasOffset := hasOffset x;
     sample := sample x; released := released x; cutoff_slide := cutoff_slide x;
     pw_slide := pw_slide x; virtual_duty := virtual_duty x; ringMask := ringMask x;
     syncMask := syncMask x; key := key x |}.

Definition set_insChanged (v : bool) (x : Channel) : Channel :=
  {| freq := freq x; baseFreq := baseFreq x; baseNoteOverride := baseNoteOverride x;
     pitch := pitch x; pitch2 := pitch2 x; arpOff := arpOff x; ins := ins x; note := note x;
     active := active x; insChanged := v; freqChanged := freqChanged x; fixedArp := fixedArp x;
     keyOn := keyOn x; keyOff := keyOff x; portaPause := portaPause x; inPorta := inPorta x;
     vol := vol x; outVol := outVol x; state_fm := state_fm x; state_esfm := state_esfm x;
     cutoff := cutoff x; baseCutoff := baseCutoff x; res := res x; control := control x;
     pan := pan x; duty := duty x; pcm := pcm x; pcmLoop := pcmLoop x;
     phaseReset := phaseReset x; filterPhaseReset := filterPhaseReset x;
     timerSync := timerSync x; freqSweep := freqSweep x; volSweep := volSweep x;
     cutSweep := cutSweep x; freqSweepP := freqSweepP x; volSweepP := volSweepP x;
     cutSweepP := cutSweepP x; freqSweepB := freqSweepB x; volSweepB := volSweepB x;
     cutSweepB := cutSweepB x; freqSweepV := freqSweepV x; volSweepV := volSweepV x;
     cutSweepV := cutSweepV x; syncTimer := syncTimer x; hasOffset := hasOffset x;
     sample := sample x; released := released x; cutoff_slide := cutoff_slide x;
     pw_slide := pw_slide x; virtual_duty := virtual_duty x; ringMask := ringMask x;
     syncMask := syncMask x; key := key x |}.

Definition set_portaPause (v : bool) (x : Channel) : Channel :=
  {| freq := freq x; baseFreq := baseFreq x; baseNoteOverride := baseNoteOverride x;
     pitch := pitch x; pitch2 := pitch2 x; arpOff := arpOff x; ins := ins x; note := note x;
     active := active x; insChanged := insChanged x; freqChanged := freqChanged x;
     fixedArp := fixedArp x; keyOn := keyOn x; keyOff := keyOff x; portaPause := v;
     inPorta := inPorta x; vol := vol x; outVol := outVol x; state_fm := state_fm x;
     state_esfm := state_esfm x; cutoff := cutoff x; baseCutoff := baseCutoff x; res := res x;
     control := control x; pan := pan x; duty := duty x; pcm := pcm x; pcmLoop := pcmLoop x;
     phaseReset := phaseReset x; filterPhaseReset := filterPhaseReset x;
     timerSync := timerSync x; freqSweep := freqSweep x; volSweep := volSweep x;
     cutSweep := cutSweep x; freqSweepP := freqSweepP x; volSweepP := volSweepP x;
     cutSweepP := cutSweepP x; freqSweepB := freqSweepB x; volSweepB := volSweepB x;
     cutSweepB := cutSweepB x; freqSweepV := freqSweepV x; volSweepV := volSweepV x;
     cutSweepV := cutSweepV x; syncTimer := syncTimer x; hasOffset := hasOffset x;
     sample := sample x; released := released x; cutoff_slide := cutoff_slide x;
     pw_slide := pw_slide x; virtual_duty := virtual_duty x; ringMask := ringMask x;
     syncMask := syncMask x; key := key x |}.

Definition set_inPorta (v : bool) (x : Channel) : Channel :=
  {| freq := freq x; baseFreq := baseFreq x; baseNoteOverride := baseNoteOverride x;
     pitch := pitch x; pitch2 := pitch2 x; arpOff := arpOff x; ins := ins x; note := note x;
     active := active x; insChanged := insChanged x; freqChanged := freqChanged x;
     fixedArp := fixedArp x; keyOn := keyOn x; keyOff := keyOff x; portaPause := portaPause x;
     inPorta := v; vol := vol x; outVol := outVol x; state_fm := state_fm x;
     state_esfm := state_esfm x; cutoff := cutoff x; baseCutoff := baseCutoff x; res := res x;
     control := control x; pan := pan x; duty := duty x; pcm := pcm x; pcmLoop := pcmLoop x;
     phaseReset := phaseReset x; filterPhaseReset := filterPhaseReset x;
     timerSync := timerSync x; freqSweep := freqSweep x; volSweep := volSweep x;
     cutSweep := cutSweep x; freqSweepP := freqSweepP x; volSweepP := volSweepP x;
     cutSweepP := cutSweepP x; freqSweepB := freqSweepB x; volSweepB := volSweepB x;
     cutSweepB := cutSweepB x; freqSweepV := freqSweepV x; volSweepV := volSweepV x;
     cutSweepV := cutSweepV x; syncTimer := syncTimer x; hasOffset := hasOffset x;
     sample := sample x; released := released x; cutoff_slide := cutoff_slide x;
     pw_slide := pw_slide x; virtual_duty := virtual_duty x; ringMask := ringMask x;
     syncMask := syncMask x; key := key x |}.

Definition set_vol (v : Z) (x : Channel) : Channel :=
  {| freq := freq x; baseFreq := baseFreq x; baseNoteOverride := baseNoteOverride x;
     pitch := pitch x; pitch2 := pitch2 x; arpOff := arpOff x; ins := ins x; note := note x;
     active := active x; insChanged := insChanged x; freqChanged := freqChanged x;
     fixedArp := fixedArp x; keyOn := keyOn x; keyOff := keyOff x; portaPause := portaPause x;
     inPorta := inPorta x; vol := v; outVol := outVol x; state_fm := state_fm x;
     state_esfm := state_esfm x; cutoff := cutoff x; baseCutoff := baseCutoff x; res := res x;
     control := control x; pan := pan x; duty := duty x; pcm := pcm x; pcmLoop := pcmLoop x;
     phaseReset := phaseReset x; filterPhaseReset := filterPhaseReset x;
     timerSync := timerSync x; freqSweep := freqSweep x; volSweep := volSweep x;
     cutSweep := cutSweep x; freqSweepP := freqSweepP x; volSweepP := volSweepP x;
     cutSweepP := cutSweepP x; freqSweepB := freqSweepB x; volSweepB := volSweepB x;
     cutSweepB := cutSweepB x; freqSweepV := freqSweepV x; volSweepV := volSweepV x;
     cutSweepV := cutSweepV x; syncTimer := syncTimer x; hasOffset := hasOffset x;
     sample := sample x; released := released x; cutoff_slide := cutoff_slide x;
     pw_slide := pw_slide x; virtual_duty := virtual_duty x; ringMask := ringMask x;
     syncMask := syncMask x; key := key x |}.

Definition set_freqSweep (v : bool) (x : Channel) : Channel :=
  {| freq := freq x; baseFreq := baseFreq x; baseNoteOverride := baseNoteOverride x;
     pitch := pitch x; pitch2 := pitch2 x; arpOff := arpOff x; ins := ins x; note := note x;
     active := active x; insChanged := insChanged x; freqChanged := freqChanged x;
     fixedArp := fixedArp x; keyOn := keyOn x; keyOff := keyOff x; portaPause := portaPause x;
     inPorta := inPorta x; vol := vol x; outVol := outVol x; state_fm := state_fm x;
     state_esfm := state_esfm x; cutoff := cutoff x; baseCutoff := baseCutoff x; res := res x;
     control := control x; pan := pan x; duty := duty x; pcm := pcm x; pcmLoop := pcmLoop x;
     phaseReset := phaseReset x; filterPhaseReset := filterPhaseReset x;
     timerSync := timerSync x; freqSweep := v; volSweep := volSweep x; cutSweep := cutSweep x;
     freqSweepP := freqSweepP x; volSweepP := volSweepP x; cutSweepP := cutSweepP x;
     freqSweepB := freqSweepB x; volSweepB := volSweepB x; cutSweepB := cutSweepB x;
     freqSweepV := freqSweepV x; volSweepV := volSweepV x; cutSweepV := cutSweepV x;
     syncTimer := syncTimer x; hasOffset := hasOffset x; sample := sample x;
     released := released x; cutoff_slide := cutoff_slide x; pw_slide := pw_slide x;
     virtual_duty := virtual_duty x; ringMask := ringMask x; syncMask := syncMask x;
     key := key x |}.

Definition set_volSweep (v : bool) (x : Channel) : Channel :=
  {| freq := freq x; baseFreq := baseFreq x; baseNoteOverride := baseNoteOverride x;
     pitch := pitch x; pitch2 := pitch2 x; arpOff := arpOff x; ins := ins x; note := note x;
     active := active x; insChanged := insChanged x; freqChanged := freqChanged x;
     fixedArp := fixedArp x; keyOn := keyOn x; keyOff := keyOff x; portaPause := portaPause x;
     inPorta := inPorta x; vol := vol x; outVol := outVol x; state_fm := state_fm x;
     state_esfm := state_esfm x; cutoff := cutoff x; baseCutoff := baseCutoff x; res := res x;
     control := control x; pan := pan x; duty := duty x; pcm := pcm x; pcmLoop := pcmLoop x;
     phaseReset := phaseReset x; filterPhaseReset := filterPhaseReset x;
     timerSync := timerSync x; freqSweep := freqSweep x; volSweep := v; cutSweep := cutSweep x;
     freqSweepP := freqSweepP x; volSweepP := volSweepP x; cutSweepP := cutSweepP x;
     freqSweepB := freqSweepB x; volSweepB := volSweepB x; cutSweepB := cutSweepB x;
     freqSweepV := freqSweepV x; volSweepV := volSweepV x; cutSweepV := cutSweepV x;
     syncTimer := syncTimer x; hasOffset := hasOffset x; sample := sample x;
     released := released x; cutoff_slide := cutoff_slide x; pw_slide := pw_slide x;
     virtual_duty := virtual_duty x; ringMask := ringMask x; syncMask := syncMask x;
     key := key x |}.

Definition set_cutSweep (v : bool) (x : Channel) : Channel :=
  {| freq := freq x; baseFreq := baseFreq x; baseNoteOverride := baseNoteOverride x;
     pitch := pitch x; pitch2 := pitch2 x; arpOff := arpOff x; ins := ins x; note := note x;
     active := active x; insChanged := insChanged x; freqChanged := freqChanged x;
     fixedArp := fixedArp x; keyOn := keyOn x; keyOff := keyOff x; portaPause := portaPause x;
     inPorta := inPorta x; vol := vol x; outVol := outVol x; state_fm := state_fm x;
     state_esfm := state_esfm x; cutoff := cutoff x; baseCutoff := baseCutoff x; res := res x;
     control := control x; pan := pan x; duty := duty x; pcm := pcm x; pcmLoop := pcmLoop x;
     phaseReset := phaseReset x; filterPhaseReset := filterPhaseReset x;
     timerSync := timerSync x; freqSweep := freqSweep x; volSweep := volSweep x; cutSweep := v;
     freqSweepP := freqSweepP x; volSweepP := volSweepP x; cutSweepP := cutSweepP x;
     freqSweepB := freqSweepB x; volSweepB := volSweepB x; cutSweepB := cutSweepB x;
     freqSweepV := freqSweepV x; volSweepV := volSweepV x; cutSweepV := cutSweepV x;
     syncTimer := syncTimer x; hasOffset := hasOffset x; sample := sample x;
     released := released x; cutoff_slide := cutoff_slide x; pw_slide := pw_slide x;
     virtual_duty := virtual_duty x; ringMask := ringMask x; syncMask := syncMask x;
     key := key x |}.

Definition set_freqSweepP (v : Z) (x : Channel) : Channel :=
  {| freq := freq x; baseFreq := baseFreq x; baseNoteOverride := baseNoteOverride x;
     pitch := pitch x; pitch2 := pitch2 x; arpOff := arpOff x; ins := ins x; note := note x;
     active := active x; insChanged := insChanged x; freqChanged := freqChanged x;
     fixedArp := fixedArp x; keyOn := keyOn x; keyOff := keyOff x; portaPause := portaPause x;
     inPorta := inPorta x; vol := vol x; outVol := outVol x; state_fm := state_fm x;
     state_esfm := state_esfm x; cutoff := cutoff x; baseCutoff := baseCutoff x; res := res x;
     control := control x; pan := pan x; duty := duty x; pcm := pcm x; pcmLoop := pcmLoop x;
     phaseReset := phaseReset x; filterPhaseReset := filterPhaseReset x;
     timerSync := timerSync x; freqSweep := freqSweep x; volSweep := volSweep x;
     cutSweep := cutSweep x; freqSweepP := v; volSweepP := volSweepP x;
     cutSweepP := cutSweepP x; freqSweepB := freqSweepB x; volSweepB := volSweepB x;
     cutSweepB := cutSweepB x; freqSweepV := freqSweepV x; volSweepV := volSweepV x;
     cutSweepV := cutSweepV x; syncTimer := syncTimer x; hasOffset := hasOffset x;
     sample := sample x; released := released x; cutoff_slide := cutoff_slide x;
     pw_slide := pw_slide x; virtual_duty := virtual_duty x; ringMask := ringMask x;
     syncMask := syncMask x; key := key x |}.

Definition set_volSweepP (v : Z) (x : Channel) : Channel :=
  {| freq := freq x; baseFreq := baseFreq x; baseNoteOverride := baseNoteOverride x;
     pitch := pitch x; pitch2 := pitch2 x; arpOff := arpOff x; ins := ins x; note := note x;
     active := active x; insChanged := insChanged x; freqChanged := freqChanged x;
     fixedArp := fixedArp x; keyOn := keyOn x; keyOff := keyOff x; portaPause := portaPause x;
     inPorta := inPorta x; vol := vol x; outVol := outVol x; state_fm := state_fm x;
     state_esfm := state_esfm x; cutoff := cutoff x; baseCutoff := baseCutoff x; res := res x;
     control := control x; pan := pan x; duty := duty x; pcm := pcm x; pcmLoop := pcmLoop x;
     phaseReset := phaseReset x; filterPhaseReset := filterPhaseReset x;
     timerSync := timerSync x; freqSweep := freqSweep x; volSweep := volSweep x;
     cutSweep := cutSweep x; freqSweepP := freqSweepP x; volSweepP := v;
     cutSweepP := cutSweepP x; freqSweepB := freqSweepB x; volSweepB := volSweepB x;
     cutSweepB := cutSweepB x; freqSweepV := freqSweepV x; volSweepV := volSweepV x;
     cutSweepV := cutSweepV x; syncTimer := syncTimer x; hasOffset := hasOffset x;
     sample := sample x; released := released x; cutoff_slide := cutoff_slide x;
     pw_slide := pw_slide x; virtual_duty := virtual_duty x; ringMask := ringMask x;
     syncMask := syncMask x; key := key x |}.

Definition set_cutSweepP (v : Z) (x : Channel) : Channel :=
  {| freq := freq x; baseFreq := baseFreq x; baseNoteOverride := baseNoteOverride x;
     pitch := pitch x; pitch2 := pitch2 x; arpOff := arpOff x; ins := ins x; note := note x;
     active := active x; insChanged := insChanged x; freqChanged := freqChanged x;
     fixedArp := fixedArp x; keyOn := keyOn x; keyOff := keyOff x; portaPause := portaPause x;
     inPorta := inPorta x; vol := vol x; outVol := outVol x; state_fm := state_fm x;
     state_esfm := state_esfm x; cutoff := cutoff x; baseCutoff := baseCutoff x; res := res x;
     control := control x; pan := pan x; duty := duty x; pcm := pcm x; pcmLoop := pcmLoop x;
     phaseReset := phaseReset x; filterPhaseReset := filterPhaseReset x;
     timerSync := timerSync x; freqSweep := freqSweep x; volSweep := volSweep x;
     cutSweep := cutSweep x; freqSweepP := freqSweepP x; volSweepP := volSweepP x;
     cutSweepP := v; freqSweepB := freqSweepB x; volSweepB := volSweepB x;
     cutSweepB := cutSweepB x; freqSweepV := freqSweepV x; volSweepV := volSweepV x;
     cutSweepV := cutSweepV x; syncTimer := syncTimer x; hasOffset := hasOffset x;
     sample := sample x; released := released x; cutoff_slide := cutoff_slide x;
     pw_slide := pw_slide x; virtual_duty := virtual_duty x; ringMask := ringMask x;
     syncMask := syncMask x; key := key x |}.

Definition set_freqSweepB (v : Z) (x : Channel) : Channel :=
  {| freq := freq x; baseFreq := baseFreq x; baseNoteOverride := baseNoteOverride x;
     pitch := pitch x; pitch2 := pitch2 x; arpOff := arpOff x; ins := ins x; note := note x;
     active := active x; insChanged := insChanged x; freqChanged := freqChanged x;
     fixedArp := fixedArp x; keyOn := keyOn x; keyOff := keyOff x; portaPause := portaPause x;
     inPorta := inPorta x; vol := vol x; outVol := outVol x; state_fm := state_fm x;
     state_esfm := state_esfm x; cutoff := cutoff x; baseCutoff := baseCutoff x; res := res x;
     control := control x; pan := pan x; duty := duty x; pcm := pcm x; pcmLoop := pcmLoop x;
     phaseReset := phaseReset x; filterPhaseReset := filterPhaseReset x;
     timerSync := timerSync x; freqSweep := freqSweep x; volSweep := volSweep x;
     cutSweep := cutSweep x; freqSweepP := freqSweepP x; volSweepP := volSweepP x;
     cutSweepP := cutSweepP x; freqSweepB := v; volSweepB := volSweepB x;
     cutSweepB := cutSweepB x; freqSweepV := freqSweepV x; volSweepV := volSweepV x;
     cutSweepV := cutSweepV x; syncTimer := syncTimer x; hasOffset := hasOffset x;
     sample := sample x; released := released x; cutoff_slide := cutoff_slide x;
     pw_slide := pw_slide x; virtual_duty := virtual_duty x; ringMask := ringMask x;
     syncMask := syncMask x; key := key x |}.

Definition set_volSweepB (v : Z) (x : Channel) : Channel :=
  {| freq := freq x; baseFreq := baseFreq x; baseNoteOverride := baseNoteOverride x;
     pitch := pitch x; pitch2 := pitch2 x; arpOff := arpOff x; ins := ins x; note := note x;
     active := active x; insChanged := insChanged x; freqChanged := freqChanged x;
     fixedArp := fixedArp x; keyOn := keyOn x; keyOff := keyOff x; portaPause := portaPause x;
     inPorta := inPorta x; vol := vol x; outVol := outVol x; state_fm := state_fm x;
     state_esfm := state_esfm x; cutoff := cutoff x; baseCutoff := baseCutoff x; res := res x;
     control := control x; pan := pan x; duty := duty x; pcm := pcm x; pcmLoop := pcmLoop x;
     phaseReset := phaseReset x; filterPhaseReset := filterPhaseReset x;
     timerSync := timerSync x; freqSweep := freqSweep x; volSweep := volSweep x;
     cutSweep := cutSweep x; freqSweepP := freqSweepP x; volSweepP := volSweepP x;
     cutSweepP := cutSweepP x; freqSweepB := freqSweepB x; volSweepB := v;
     cutSweepB := cutSweepB x; freqSweepV := freqSweepV x; volSweepV := volSweepV x;
     cutSweepV := cutSweepV x; syncTimer := syncTimer x; hasOffset := hasOffset x;
     sample := sample x; released := released x; cutoff_slide := cutoff_slide x;
     pw_slide := pw_slide x; virtual_duty := virtual_duty x; ringMask := ringMask x;
     syncMask := syncMask x; key := key x |}.

Definition set_cutSweepB (v : Z) (x : Channel) : Channel :=
  {| freq := freq x; baseFreq := baseFreq x; baseNoteOverride := baseNoteOverride x;
     pitch := pitch x; pitch2 := pitch2 x; arpOff := arpOff x; ins := ins x; note := note x;
     active := active x; insChanged := insChanged x; freqChanged := freqChanged x;
     fixedArp := fixedArp x; keyOn := keyOn x; keyOff := keyOff x; portaPause := portaPause x;
     inPorta := inPorta x; vol := vol x; outVol := outVol x; state_fm := state_fm x;
     state_esfm := state_esfm x; cutoff := cutoff x; baseCutoff := baseCutoff x; res := res x;
     control := control x; pan := pan x; duty := duty x; pcm := pcm x; pcmLoop := pcmLoop x;
     phaseReset := phaseReset x; filterPhaseReset := filterPhaseReset x;
     timerSync := timerSync x; freqSweep := freqSweep x; volSweep := volSweep x;
     cutSweep := cutSweep x; freqSweepP := freqSweepP x; volSweepP := volSweepP x;
     cutSweepP := cutSweepP x; freqSweepB := freqSweepB x; volSweepB := volSweepB x;
     cutSweepB := v; freqSweepV := freqSweepV x; volSweepV := volSweepV x;
     cutSweepV := cutSweepV x; syncTimer := syncTimer x; hasOffset := hasOffset x;
     sample := sample x; released := released x; cutoff_slide := cutoff_slide x;
     pw_slide := pw_slide x; virtual_duty := virtual_duty x; ringMask := ringMask x;
     syncMask := syncMask x; key := key x |}.

Definition set_freqSweepV (v : Z) (x : Channel) : Channel :=
  {| freq := freq x; baseFreq := baseFreq x; baseNoteOverride := baseNoteOverride x;
     pitch := pitch x; pitch2 := pitch2 x; arpOff := arpOff x; ins := ins x; note := note x;
     active := active x; insChanged := insChanged x; freqChanged := freqChanged x;
     fixedArp := fixedArp x; keyOn := keyOn x; keyOff := keyOff x; portaPause := portaPause x;
     inPorta := inPorta x; vol := vol x; outVol := outVol x; state_fm := state_fm x;
     state_esfm := state_esfm x; cutoff := cutoff x; baseCutoff := baseCutoff x; res := res x;
     control := control x; pan := pan x; duty := duty x; pcm := pcm x; pcmLoop := pcmLoop x;
     phaseReset := phaseReset x; filterPhaseReset := filterPhaseReset x;
     timerSync := timerSync x; freqSweep := freqSweep x; volSweep := volSweep x;
     cutSweep := cutSweep x; freqSweepP := freqSweepP x; volSweepP := volSweepP x;
     cutSweepP := cutSweepP x; freqSweepB := freqSweepB x; volSweepB := volSweepB x;
     cutSweepB := cutSweepB x; freqSweepV := v; volSweepV := volSweepV x;
     cutSweepV := cutSweepV x; syncTimer := syncTimer x; hasOffset := hasOffset x;
     sample := sample x; released := released x; cutoff_slide := cutoff_slide x;
     pw_slide := pw_slide x; virtual_duty := virtual_duty x; ringMask := ringMask x;
     syncMask := syncMask x; key := key x |}.

Definition set_volSweepV (v : Z) (x : Channel) : Channel :=
  {| freq := freq x; baseFreq := baseFreq x; baseNoteOverride := baseNoteOverride x;
     pitch := pitch x; pitch2 := pitch2 x; arpOff := arpOff x; ins := ins x; note := note x;
     active := active x; insChanged := insChanged x; freqChanged := freqChanged x;
     fixedArp := fixedArp x; keyOn := keyOn x; keyOff := keyOff x; portaPause := portaPause x;
     inPorta := inPorta x; vol := vol x; outVol := outVol x; state_fm := state_fm x;
     state_esfm := state_esfm x; cutoff := cutoff x; baseCutoff := baseCutoff x; res := res x;
     control := control x; pan := pan x; duty := duty x; pcm := pcm x; pcmLoop := pcmLoop x;
     phaseReset := phaseReset x; filterPhaseReset := filterPhaseReset x;
     timerSync := timerSync x; freqSweep := freqSweep x; volSweep := volSweep x;
     cutSweep := cutSweep x; freqSweepP := freqSweepP x; volSweepP := volSweepP x;
     cutSweepP := cutSweepP x; freqSweepB := freqSweepB x; volSweepB := volSweepB x;
     cutSweepB := cutSweepB x; freqSweepV := freqSweepV x; volSweepV := v;
     cutSweepV := cutSweepV x; syncTimer := syncTimer x; hasOffset := hasOffset x;
     sample := sample x; released := released x; cutoff_slide := cutoff_slide x;
     pw_slide := pw_slide x; virtual_duty := virtual_duty x; ringMask := ringMask x;
     syncMask := syncMask x; key := key x |}.

Definition set_cutSweepV (v : Z) (x : Channel) : Channel :=
  {| freq := freq x; baseFreq := baseFreq x; baseNoteOverride := baseNoteOverride x;
     pitch := pitch x; pitch2 := pitch2 x; arpOff := arpOff x; ins := ins x; note := note x;
     active := active x; insChanged := insChanged x; freqChanged := freqChanged x;
     fixedArp := fixedArp x; keyOn := keyOn x; keyOff := keyOff x; portaPause := portaPause x;
     inPorta := inPorta x; vol := vol x; outVol := outVol x; state_fm := state_fm x;
     state_esfm := state_esfm x; cutoff := cutoff x; baseCutoff := baseCutoff x; res := res x;
     control := control x; pan := pan x; duty := duty x; pcm := pcm x; pcmLoop := pcmLoop x;
     phaseReset := phaseReset x; filterPhaseReset := filterPhaseReset x;
     timerSync := timerSync x; freqSweep := freqSweep x; volSweep := volSweep x;
     cutSweep := cutSweep x; freqSweepP := freqSweepP x; volSweepP := volSweepP x;
     cutSweepP := cutSweepP x; freqSweepB := freqSweepB x; volSweepB := volSweepB x;
     cutSweepB := cutSweepB x; freqSweepV := freqSweepV x; volSweepV := volSweepV x;
     cutSweepV := v; syncTimer := syncTimer x; hasOffset := hasOffset x; sample := sample x;
     released := released x; cutoff_slide := cutoff_slide x; pw_slide := pw_slide x;
     virtual_duty := virtual_duty x; ringMask := ringMask x; syncMask := syncMask x;
     key := key x |}.

Definition set_sample (v : Z) (x : Channel) : Channel :=
  {| freq := freq x; baseFreq := baseFreq x; baseNoteOverride := baseNoteOverride x;
     pitch := pitch x; pitch2 := pitch2 x; arpOff := arpOff x; ins := ins x; note := note x;
     active := active x; insChanged := insChanged x; freqChanged := freqChanged x;
     fixedArp := fixedArp x; keyOn := keyOn x; keyOff := keyOff x; portaPause := portaPause x;
     inPorta := inPorta x; vol := vol x; outVol := outVol x; state_fm := state_fm x;
     state_esfm := state_esfm x; cutoff := cutoff x; baseCutoff := baseCutoff x; res := res x;
     control := control x; pan := pan x; duty := duty x; pcm := pcm x; pcmLoop := pcmLoop x;
     phaseReset := phaseReset x; filterPhaseReset := filterPhaseReset x;
     timerSync := timerSync x; freqSweep := freqSweep x; volSweep := volSweep x;
     cutSweep := cutSweep x; freqSweepP := freqSweepP x; volSweepP := volSweepP x;
     cutSweepP := cutSweepP x; freqSweepB := freqSweepB x; volSweepB := volSweepB x;
     cutSweepB := cutSweepB x; freqSweepV := freqSweepV x; volSweepV := volSweepV x;
     cutSweepV := cutSweepV x; syncTimer := syncTimer x; hasOffset := hasOffset x; sample := v;
     released := released x; cutoff_slide := cutoff_slide x; pw_slide := pw_slide x;
     virtual_duty := virtual_duty x; ringMask := ringMask x; syncMask := syncMask x;
     key := key x |}.

Definition set_released (v : bool) (x : Channel) : Channel :=
  {| freq := freq x; baseFreq := baseFreq x; baseNoteOverride := baseNoteOverride x;
     pitch := pitch x; pitch2 := pitch2 x; arpOff := arpOff x; ins := ins x; note := note x;
     active := active x; insChanged := insChanged x; freqChanged := freqChanged x;
     fixedArp := fixedArp x; keyOn := keyOn x; keyOff := keyOff x; portaPause := portaPause x;
     inPorta := inPorta x; vol := vol x; outVol := outVol x; state_fm := state_fm x;
     state_esfm := state_esfm x; cutoff := cutoff x; baseCutoff := baseCutoff x; res := res x;
     control := control x; pan := pan x; duty := duty x; pcm := pcm x; pcmLoop := pcmLoop x;
     phaseReset := phaseReset x; filterPhaseReset := filterPhaseReset x;
     timerSync := timerSync x; freqSweep := freqSweep x; volSweep := volSweep x;
     cutSweep := cutSweep x; freqSweepP := freqSweepP x; volSweepP := volSweepP x;
     cutSweepP := cutSweepP x; freqSweepB := freqSweepB x; volSweepB := volSweepB x;
     cutSweepB := cutSweepB x; freqSweepV := freqSweepV x; volSweepV := volSweepV x;
     cutSweepV := cutSweepV x; syncTimer := syncTimer x; hasOffset := hasOffset x;
     sample := sample x; released := v; cutoff_slide := cutoff_slide x; pw_slide := pw_slide x;
     virtual_duty := virtual_duty x; ringMask := ringMask x; syncMask := syncMask x;
     key := key x |}.

Definition set_cutoff_slide (v : Z) (x : Channel) : Channel :=
  {| freq := freq x; baseFreq := baseFreq x; baseNoteOverride := baseNoteOverride x;
     pitch := pitch x; pitch2 := pitch2 x; arpOff := arpOff x; ins := ins x; note := note x;
     active := active x; insChanged := insChanged x; freqChanged := freqChanged x;
     fixedArp := fixedArp x; keyOn := keyOn x; keyOff := keyOff x; portaPause := portaPause x;
     inPorta := inPorta x; vol := vol x; outVol := outVol x; state_fm := state_fm x;
     state_esfm := state_esfm x; cutoff := cutoff x; baseCutoff := baseCutoff x; res := res x;
     control := control x; pan := pan x; duty := duty x; pcm := pcm x; pcmLoop := pcmLoop x;
     phaseReset := phaseReset x; filterPhaseReset := filterPhaseReset x;
     timerSync := timerSync x; freqSweep := freqSweep x; volSweep := volSweep x;
     cutSweep := cutSweep x; freqSweepP := freqSweepP x; volSweepP := volSweepP x;
     cutSweepP := cutSweepP x; freqSweepB := freqSweepB x; volSweepB := volSweepB x;
     cutSweepB := cutSweepB x; freqSweepV := freqSweepV x; volSweepV := volSweepV x;
     cutSweepV := cutSweepV x; syncTimer := syncTimer x; hasOffset := hasOffset x;
     sample := sample x; released := released x; cutoff_slide := v; pw_slide := pw_slide x;
     virtual_duty := virtual_duty x; ringMask := ringMask x; syncMask := syncMask x;
     key := key x |}.

Definition set_pw_slide (v : Z) (x : Channel) : Channel :=
  {| freq := freq x; baseFreq := baseFreq x; baseNoteOverride := baseNoteOverride x;
     pitch := pitch x; pitch2 := pitch2 x; arpOff := arpOff x; ins := ins x; note := note x;
     active := active x; insChanged := insChanged x; freqChanged := freqChanged x;
     fixedArp := fixedArp x; keyOn := keyOn x; keyOff := keyOff x; portaPause := portaPause x;
     inPorta := inPorta x; vol := vol x; outVol := outVol x; state_fm := state_fm x;
     state_esfm := state_esfm x; cutoff := cutoff x; baseCutoff := baseCutoff x; res := res x;
     control := control x; pan := pan x; duty := duty x; pcm := pcm x; pcmLoop := pcmLoop x;
     phaseReset := phaseReset x; filterPhaseReset := filterPhaseReset x;
     timerSync := timerSync x; freqSweep := freqSweep x; volSweep := volSweep x;
     cutSweep := cutSweep x; freqSweepP := freqSweepP x; volSweepP := volSweepP x;
     cutSweepP := cutSweepP x; freqSweepB := freqSweepB x; volSweepB := volSweepB x;
     cutSweepB := cutSweepB x; freqSweepV := freqSweepV x; volSweepV := volSweepV x;
     cutSweepV := cutSweepV x; syncTimer := syncTimer x; hasOffset := hasOffset x;
     sample := sample x; released := released x; cutoff_slide := cutoff_slide x; pw_slide := v;
     virtual_duty := virtual_duty x; ringMask := ringMask x; syncMask := syncMask x;
     key := key x |}.

(** The sweep registers of the register sheet (offsets from the channel
    base 0x20): SWFREQ at 0x30..0x33, SWVOL at 0x34..0x37, SWCUT at
    0x38..0x3B, each SPD_L, SPD_H, AMT, BND. *)
Definition SGU1_CHN_SWFREQ_SPD_L : Z := 16.
Definition SGU1_CHN_SWFREQ_SPD_H : Z := 17.
Definition SGU1_CHN_SWFREQ_AMT : Z := 18.
Definition SGU1_CHN_SWFREQ_BND : Z := 19.
Definition SGU1_CHN_SWVOL_SPD_L : Z := 20.
Definition SGU1_CHN_SWVOL_SPD_H : Z := 21.
Definition SGU1_CHN_SWVOL_AMT : Z := 22.
Definition SGU1_CHN_SWVOL_BND : Z := 23.
Definition SGU1_CHN_SWCUT_SPD_L : Z := 24.
Definition SGU1_CHN_SWCUT_SPD_H : Z := 25.
Definition SGU1_CHN_SWCUT_AMT : Z := 26.
Definition SGU1_CHN_SWCUT_BND : Z := 27.

(** ** Commands

    [DivDispatchCmds]: the commands [dispatch] names; [DIV_CMD_OTHER n] stands
    for every other enumerator. *)
Inductive DivDispatchCmds :=
| DIV_CMD_NOTE_ON | DIV_CMD_NOTE_OFF | DIV_CMD_NOTE_OFF_ENV | DIV_CMD_ENV_RELEASE
| DIV_CMD_INSTRUMENT | DIV_CMD_VOLUME | DIV_CMD_GET_VOLUME | DIV_CMD_PITCH | DIV_CMD_WAVE
| DIV_CMD_STD_NOISE_MODE | DIV_CMD_C64_RESONANCE | DIV_CMD_C64_FILTER_MODE
| DIV_CMD_SU_SWEEP_PERIOD_LOW | DIV_CMD_SU_SWEEP_PERIOD_HIGH | DIV_CMD_SU_SWEEP_BOUND
| DIV_CMD_SU_SWEEP_ENABLE | DIV_CMD_SU_SYNC_PERIOD_LOW | DIV_CMD_SU_SYNC_PERIOD_HIGH
| DIV_CMD_C64_FINE_CUTOFF | DIV_CMD_NOTE_PORTA | DIV_CMD_PANNING | DIV_CMD_SAMPLE_POS
| DIV_CMD_LEGATO | DIV_CMD_PRE_PORTA | DIV_CMD_C64_PW_SLIDE | DIV_CMD_C64_CUTOFF_SLIDE
| DIV_CMD_FM_AM | DIV_CMD_FM_AR | DIV_CMD_FM_DR | DIV_CMD_FM_SL | DIV_CMD_FM_D2R
| DIV_CMD_FM_RR | DIV_CMD_FM_DT | DIV_CMD_FM_DT2 | DIV_CMD_FM_RS | DIV_CMD_FM_KSR
| DIV_CMD_FM_VIB | DIV_CMD_FM_SUS | DIV_CMD_FM_WS | DIV_CMD_FM_SSG | DIV_CMD_FM_REV
| DIV_CMD_FM_EG_SHIFT | DIV_CMD_FM_TL | DIV_CMD_FM_MULT | DIV_CMD_FM_FB
| DIV_CMD_FM_AM_DEPTH | DIV_CMD_FM_PM_DEPTH | DIV_CMD_FM_FIXFREQ | DIV_CMD_ESFM_OUTLVL
| DIV_CMD_ESFM_MODIN | DIV_CMD_ESFM_ENV_DELAY | DIV_CMD_C64_EXTENDED | DIV_CMD_MACRO_OFF
| DIV_CMD_MACRO_ON | DIV_CMD_MACRO_RESTART
| DIV_CMD_OTHER (n : Z).

(** [DivCommand]: the command, the channel it addresses and its two values. *)
Record DivCommand := mkDivCommand { cmd : DivDispatchCmds; c_chan : Z; value : Z; value2 : Z }.

(** [DivRegWrite], an entry of the list [poke] is given. *)
Record DivRegWrite := mkDivRegWrite { rw_addr : Z; rw_val : Z }.

(** ** What [dispatch] and [reset] take from outside

    The macro interpreter [DivMacroInt] (macroInt.h) as [dispatch] uses it:
    an abstract state with the flags and the value read and the three calls
    made on it. *)
Class MacroInt := {
  Std : Type;
  vol_will : Std -> bool;
  vol_has : Std -> bool;
  ex1_has : Std -> bool;
  arp_val : Std -> Z;
  (** [std.release()], [std.mask(id,enabled)], [std.restart(id)] *)
  release : Std -> Std;
  mask : Z -> bool -> Std -> Std;
  restart : Z -> Std -> Std
}.

(** The base [SharedChannel<signed char>] of a channel (dispatch.h): the
    fields sgu.cpp uses, the macro interpreter among them.  Its member
    functions act on these fields only. *)
Record SharedChannel `{MacroInt} := mkSharedChannel {
  sh_freq : Z; sh_baseFreq : Z; sh_baseNoteOverride : Z; sh_pitch : Z; sh_pitch2 : Z;
  sh_arpOff : Z; sh_ins : Z; sh_note : Z; sh_sampleNote : Z; sh_sampleNoteDelta : Z;
  sh_active : bool; sh_insChanged : bool; sh_freqChanged : bool; sh_fixedArp : bool;
  sh_keyOn : bool; sh_keyOff : bool; sh_portaPause : bool; sh_inPorta : bool;
  sh_vol : Z; sh_outVol : Z; sh_std : Std
}.

(** A channel as [dispatch] sees it: the record [tick] works on, and with it
    the two base fields and the macro interpreter that only [dispatch]
    touches. *)
Record ChanState `{MacroInt} := mkChanState {
  ch : Channel; sampleNote : Z; sampleNoteDelta : Z; std : Std
}.

(** The constants, macros and functions of the engine headers that
    [dispatch], [reset] and [getPan] use. *)
Class DispatchEnv `{MacroInt} := {
  DIV_NOTE_NULL : Z;
  (** [SharedChannel::macroInit(ins)] *)
  macroInit : DivInstrument -> SharedChannel -> SharedChannel;
  (** the macro [HACKY_LEGATO_MESS], a condition on [chan[c.chan]] *)
  HACKY_LEGATO_MESS : ChanState -> bool;
  (** [ins->amiga.getSample(note)], [ins->amiga.getFreq(note)] *)
  amiga_getSample : DivInstrument -> Z -> Z;
  amiga_getFreq : DivInstrument -> Z -> Z;
  (** [parent->song.compatFlags.linearPitch] *)
  linearPitch : DivEngine -> bool;
  convertPanSplitToLinearLR : DivEngine -> Z -> Z -> Z -> Z;
  (** [SharedChannel<signed char>(initVol)] and [DivInstrumentFM()] *)
  SharedChannel_ctor : Z -> SharedChannel;
  DivInstrumentFM_ctor : DivInstrumentFM
}.

(** The calls [reset] makes on the chip core besides those of [SguCore]:
    [SGU_Reset(sgu)] and the store [sgu->muted[i]=m]. *)
Class SguCoreReset `{SguCore} := {
  SGU_Reset : SGU -> SGU;
  SGU_set_muted : nat -> bool -> SGU -> SGU
}.

(** conversion to [int] *)
Definition s32 (x : Z) : Z := (x + 2147483648) mod 4294967296 - 2147483648.

(** ** Commands, reset and the re-sending of state *)

Section Commands.
Context {hdr : SguHeader} {core : SguCore} {mi : MacroInt} {env : DispatchEnv}.

(** *** [poke] *)

(** [poke(addr,val)]: [addr] and [val] are unsigned. *)
Definition poke (addr val : Z) (r : Regs) : Regs := rWrite addr val r.

(** [poke(wlist)] *)
Definition pokeList (wlist : list DivRegWrite) (r : Regs) : Regs :=
  foldl (fun r w => rWrite (rw_addr w) (rw_val w) r) r wlist.

(** *** [forceIns] *)

(** The body of [for (int i=0; i<SGU_CHNS; i++)] in [forceIns]. *)
Definition forceInsChannel (i : Z) (s : ChanRegs) : ChanRegs :=
  let '(c, r) := s in
  let c := set_insChanged true c in
  let c := set_freqChanged true c in
  let r := chWrite i SGU1_CHN_PAN (pan c) r in
  let '(c, r) := writeControl i (c, r) in
  let '(c, r) := writeControlUpper i (c, r) in
  let r := chWrite i SGU1_CHN_DUTY (duty c) r in
  let r := chWrite i SGU1_CHN_CUTOFF_L (Z.land (cutoff c) 255) r in
  let r := chWrite i SGU1_CHN_CUTOFF_H (Z.shiftr (cutoff c) 8) r in
  let r := chWrite i SGU1_CHN_RESON (res c) r in
  foldl (fun s o => applyOpRegs i o s) (c, r) [0; 1; 2; 3]%nat.

(** The state with channel [i] and the register side replaced. *)
Definition withChannel (st : DivPlatformSGU) (i : nat) (s : ChanRegs) : DivPlatformSGU :=
  {| chan := <[i := s.1]> (chan st); oscBuf := oscBuf st; regs := s.2; sgu := sgu st;
     chipClock := chipClock st; sampleOffSGU := sampleOffSGU st;
     sampleLoaded := sampleLoaded st; sampleMem := sampleMem st;
     sampleMemLen := sampleMemLen st; memCompo := memCompo st;
     sysIDCache := sysIDCache st; warnings := warnings st |}.

Definition forceInsOne (st : DivPlatformSGU) (i : nat) : DivPlatformSGU :=
  match chan st !! i with
  | Some c => withChannel st i (forceInsChannel (Z.of_nat i) (c, regs st))
  | None => st
  end.

(** [forceIns()] *)
Definition forceIns (st : DivPlatformSGU) : DivPlatformSGU :=
  foldl forceInsOne st (seq 0 SGU_CHNS).

(** *** [notifyInsChange] and the key-off queries *)

(** [notifyInsChange(ins)] *)
Definition notifyInsChange (i : Z) (st : DivPlatformSGU) : DivPlatformSGU :=
  {| chan := (fun c => if ins c =? i then set_insChanged true c else c) <$> chan st;
     oscBuf := oscBuf st; regs := regs st; sgu := sgu st;
     chipClock := chipClock st; sampleOffSGU := sampleOffSGU st;
     sampleLoaded := sampleLoaded st; sampleMem := sampleMem st;
     sampleMemLen := sampleMemLen st; memCompo := memCompo st;
     sysIDCache := sysIDCache st; warnings := warnings st |}.

(** *** [reset] *)

(** [DivPlatformSGU::Channel()]: the base constructed with volume 127, the
    two parameter sets default-constructed, and the initializer list of
    sgu.h. *)
Definition Channel_ctor : ChanState :=
  let sh := SharedChannel_ctor 127 in
  {| ch :=
       {| freq := sh_freq sh; baseFreq := sh_baseFreq sh;
          baseNoteOverride := sh_baseNoteOverride sh; pitch := sh_pitch sh;
          pitch2 := sh_pitch2 sh; arpOff := sh_arpOff sh; ins := sh_ins sh;
          note := sh_note sh; active := sh_active sh; insChanged := sh_insChanged sh;
          freqChanged := sh_freqChanged sh; fixedArp := sh_fixedArp sh;
          keyOn := sh_keyOn sh; keyOff := sh_keyOff sh; portaPause := sh_portaPause sh;
          inPorta := sh_inPorta sh; vol := sh_vol sh; outVol := sh_outVol sh;
          state_fm := DivInstrumentFM_ctor; state_esfm := DivInstrumentESFM_ctor;
          cutoff := 65535; baseCutoff := 65535; res := 0; control := 0; pan := 0;
          duty := 63; pcm := false; pcmLoop := false; phaseReset := false;
          filterPhaseReset := false; timerSync := false; freqSweep := false;
          volSweep := false; cutSweep := false; freqSweepP := 0; volSweepP := 0;
          cutSweepP := 0; freqSweepB := 0; volSweepB := 0; cutSweepB := 0;
          freqSweepV := 0; volSweepV := 0; cutSweepV := 0; syncTimer := 0;
          hasOffset := 0; sample := -1; released := false; cutoff_slide := 0;
          pw_slide := 0; virtual_duty := 0; ringMask := 0; syncMask := 0; key := false |};
     sampleNote := sh_sampleNote sh;
     sampleNoteDelta := sh_sampleNoteDelta sh;
     std := sh_std sh |}.

(** The body of [for (int i=0; i<SGU_CHNS; i++)] in [reset], on the register
    side: the channel is the freshly constructed one. *)
Definition resetChannel (i : Z) (r : Regs) : ChanRegs :=
  let c := ch Channel_ctor in
  let r := chWrite i SGU1_CHN_VOL (outVol c) r in
  let r := chWrite i SGU1_CHN_PAN (pan c) r in
  let r := chWrite i SGU1_CHN_DUTY (duty c) r in
  let r := chWrite i SGU1_CHN_CUTOFF_L (Z.land (cutoff c) 255) r in
  let r := chWrite i SGU1_CHN_CUTOFF_H (Z.shiftr (cutoff c) 8) r in
  let r := chWrite i SGU1_CHN_RESON (res c) r in
  let '(c, r) := writeControl i (c, r) in
  let '(c, r) := writeControlUpper i (c, r) in
  foldl (fun s o => applyOpRegs i o s) (c, r) [0; 1; 2; 3]%nat.

(** One iteration of the channel loop of [reset].  ([chan[i].std.setEngine]
    acts on the macro interpreter, which is not part of this state.) *)
Definition resetOne `{!SguCoreReset} (st : DivPlatformSGU) (i : nat) : DivPlatformSGU :=
  let s := resetChannel (Z.of_nat i) (regs st) in
  {| chan := <[i := s.1]> (chan st); oscBuf := oscBuf st; regs := s.2;
     sgu := SGU_set_muted i false (sgu st);
     chipClock := chipClock st; sampleOffSGU := sampleOffSGU st;
     sampleLoaded := sampleLoaded st; sampleMem := sampleMem st;
     sampleMemLen := sampleMemLen st; memCompo := memCompo st;
     sysIDCache := sysIDCache st; warnings := warnings st |}.

(** [reset()], for a dispatch object whose sample memory is allocated
    ([sampleMem] is not [NULL]). *)
Definition reset `{!SguCoreReset} (st : DivPlatformSGU) : DivPlatformSGU :=
  let r0 :=
    {| writes := []; regPool := replicate (Z.to_nat SGU_REG_POOL_SIZE) 0;
       skipRegisterWrites := skipRegisterWrites (regs st);
       dumpWrites := dumpWrites (regs st); regWrites := regWrites (regs st) |} in
  let st0 :=
    {| chan := chan st; oscBuf := oscBuf st; regs := r0; sgu := SGU_Reset (sgu st);
       chipClock := chipClock st; sampleOffSGU := sampleOffSGU st;
       sampleLoaded := sampleLoaded st; sampleMem := sampleMem st;
       sampleMemLen := sampleMemLen st; memCompo := memCompo st;
       sysIDCache := sysIDCache st; warnings := warnings st |} in
  let st1 := foldl resetOne st0 (seq 0 SGU_CHNS) in
  {| chan := chan st1; oscBuf := oscBuf st1; regs := regs st1;
     sgu := SGU_set_pcm (sampleMem st1) (sgu st1);
     chipClock := chipClock st1; sampleOffSGU := sampleOffSGU st1;
     sampleLoaded := sampleLoaded st1; sampleMem := sampleMem st1;
     sampleMemLen := sampleMemLen st1; memCompo := memCompo st1;
     sysIDCache := sysIDCache st1; warnings := warnings st1 |}.

(** *** [dispatch] *)

(** [dispatch] acts on [chan[c.chan]] and the register side. *)
Definition DispRegs : Type := ChanState * Regs.

Definition set_ch (v : Channel) (x : ChanState) : ChanState :=
  {| ch := v; sampleNote := sampleNote x; sampleNoteDelta := sampleNoteDelta x; std := std x |}.
Definition set_sampleNote (v : Z) (x : ChanState) : ChanState :=
  {| ch := ch x; sampleNote := v; sampleNoteDelta := sampleNoteDelta x; std := std x |}.
Definition set_sampleNoteDelta (v : Z) (x : ChanState) : ChanState :=
  {| ch := ch x; sampleNote := sampleNote x; sampleNoteDelta := v; std := std x |}.
Definition set_std (v : Std) (x : ChanState) : ChanState :=
  {| ch := ch x; sampleNote := sampleNote x; sampleNoteDelta := sampleNoteDelta x; std := v |}.

(** a step on the channel record, and a step on the channel record and the
    register side *)
Definition onCh (f : Channel -> Channel) (s : DispRegs) : DispRegs :=
  (set_ch (f (ch s.1)) s.1, s.2).
Definition onChanRegs (f : ChanRegs -> ChanRegs) (s : DispRegs) : DispRegs :=
  let s' := f (ch s.1, s.2) in (set_ch s'.1 s.1, s'.2).
Definition onStd (f : Std -> Std) (s : DispRegs) : DispRegs :=
  (set_std (f (std s.1)) s.1, s.2).

(** The base part of a channel, and a channel with its base part replaced. *)
Definition sharedOf (x : ChanState) : SharedChannel :=
  let c := ch x in
  {| sh_freq := freq c; sh_baseFreq := baseFreq c; sh_baseNoteOverride := baseNoteOverride c;
     sh_pitch := pitch c; sh_pitch2 := pitch2 c; sh_arpOff := arpOff c; sh_ins := ins c;
     sh_note := note c; sh_sampleNote := sampleNote x; sh_sampleNoteDelta := sampleNoteDelta x;
     sh_active := active c; sh_insChanged := insChanged c; sh_freqChanged := freqChanged c;
     sh_fixedArp := fixedArp c; sh_keyOn := keyOn c; sh_keyOff := keyOff c;
     sh_portaPause := portaPause c; sh_inPorta := inPorta c; sh_vol := vol c;
     sh_outVol := outVol c; sh_std := std x |}.

Definition withShared (sh : SharedChannel) (x : ChanState) : ChanState :=
  let c := ch x in
  {| ch :=
       {| freq := sh_freq sh; baseFreq := sh_baseFreq sh;
          baseNoteOverride := sh_baseNoteOverride sh; pitch := sh_pitch sh;
          pitch2 := sh_pitch2 sh; arpOff := sh_arpOff sh; ins := sh_ins sh;
          note := sh_note sh; active := sh_active sh; insChanged := sh_insChanged sh;
          freqChanged := sh_freqChanged sh; fixedArp := sh_fixedArp sh;
          keyOn := sh_keyOn sh; keyOff := sh_keyOff sh; portaPause := sh_portaPause sh;
          inPorta := sh_inPorta sh; vol := sh_vol sh; outVol := sh_outVol sh;
          state_fm := state_fm c; state_esfm := state_esfm c;
          cutoff := cutoff c; baseCutoff := baseCutoff c; res := res c;
          control := control c; pan := pan c; duty := duty c; pcm := pcm c;
          pcmLoop := pcmLoop c; phaseReset := phaseReset c;
          filterPhaseReset := filterPhaseReset c; timerSync := timerSync c;
          freqSweep := freqSweep c; volSweep := volSweep c; cutSweep := cutSweep c;
          freqSweepP := freqSweepP c; volSweepP := volSweepP c; cutSweepP := cutSweepP c;
          freqSweepB := freqSweepB c; volSweepB := volSweepB c; cutSweepB := cutSweepB c;
          freqSweepV := freqSweepV c; volSweepV := volSweepV c; cutSweepV := cutSweepV c;
          syncTimer := syncTimer c; hasOffset := hasOffset c; sample := sample c;
          released := released c; cutoff_slide := cutoff_slide c; pw_slide := pw_slide c;
          virtual_duty := virtual_duty c; ringMask := ringMask c; syncMask := syncMask c;
          key := key c |};
     sampleNote := sh_sampleNote sh;
     sampleNoteDelta := sh_sampleNoteDelta sh;
     std := sh_std sh |}.

(** [chan[c.chan].macroInit(ins)] *)
Definition chanMacroInit (ins : DivInstrument) (x : ChanState) : ChanState :=
  withShared (macroInit ins (sharedOf x)) x.

(** The volume that goes to [outVol] when no volume macro drives it. *)
Definition plainOutVol (parent : DivEngine) (ins : DivInstrument) (c : Channel) (v : Z) : Z :=
  match ins_type ins with
  | DIV_INS_OPLL => s8 (sguOpllScaleVol parent (vol c) 15)
  | _ => s8 v
  end.

(** [case DIV_CMD_NOTE_ON], in four parts.  First the key, the macros, the
    volume and the instrument: up to [chWrite(c.chan,SGU1_CHN_VOL,...)]. *)
Definition noteOnCommit (parent : DivEngine) (c : DivCommand) (s : DispRegs) : DispRegs :=
  let i := c_chan c in
  let ins := getIns parent (ins (ch s.1)) in
  let s := onCh (set_key true) s in
  let s := (chanMacroInit ins s.1, s.2) in
  let s :=
    if negb (vol_will (std s.1)) then
      onCh (fun ch => set_outVol (plainOutVol parent ins ch (vol ch)) ch) s
    else s in
  let s := onChanRegs (commitState i (Some ins)) s in
  let s := onCh (set_insChanged false) s in
  (s.1, chWrite i SGU1_CHN_VOL (outVol (ch s.1)) s.2).

(** Then the sample of a PCM instrument: the channel and the note [c.value]
    as the mapping of the instrument leaves it. *)
Definition noteOnSample (ins : DivInstrument) (c : DivCommand) (x : ChanState)
  : ChanState * Z :=
  let x := set_ch (set_pcm (isAmiga ins) (ch x)) x in
  if pcm (ch x) then
    if negb (value c =? DIV_NOTE_NULL) then
      let x := set_ch (set_sample (amiga_getSample ins (value c)) (ch x)) x in
      let x := set_sampleNote (value c) x in
      let v := amiga_getFreq ins (value c) in
      let x := set_sampleNoteDelta (v - sampleNote x) x in
      (x, v)
    else (x, value c)
  else
    let x := set_sampleNote DIV_NOTE_NULL x in
    let x := set_sampleNoteDelta 0 x in
    (x, value c).

(** Then the pitch, for a note [v] that is not [DIV_NOTE_NULL]. *)
Definition noteOnPitch (parent : DivEngine) (v : Z) (c : Channel) : Channel :=
  if negb (v =? DIV_NOTE_NULL) then
    let c := set_baseFreq (NOTE_FREQUENCY parent v) c in
    let c := set_note v c in
    set_freqChanged true c
  else c.

(** And the flags: [active=true; keyOn=true; released=false;
    insChanged=false; keyOff=false;] *)
Definition noteOnFlags (c : Channel) : Channel :=
  set_keyOff false (set_insChanged false (set_released false (set_keyOn true
    (set_active true c)))).

Definition dispatchNoteOn (parent : DivEngine) (c : DivCommand) (s : DispRegs) : DispRegs :=
  let ins := getIns parent (ins (ch s.1)) in
  let s := noteOnCommit parent c s in
  let xv := noteOnSample ins c s.1 in
  (set_ch (noteOnFlags (noteOnPitch parent xv.2 (ch xv.1))) xv.1, s.2).

(** [chan[c.chan].key=false; chan[c.chan].keyOff=true; chan[c.chan].keyOn=false;] *)
Definition releaseKey (c : Channel) : Channel :=
  set_keyOn false (set_keyOff true (set_key false c)).

(** [case DIV_CMD_VOLUME] *)
Definition dispatchVolume (parent : DivEngine) (c : DivCommand) (s : DispRegs) : DispRegs :=
  let i := c_chan c in
  if negb (vol (ch s.1) =? value c) then
    let s := onCh (set_vol (s8 (value c))) s in
    if negb (vol_has (std s.1)) then
      let ins := getIns parent (ins (ch s.1)) in
      let s := onCh (fun ch => set_outVol (plainOutVol parent ins ch (value c)) ch) s in
      (s.1, chWrite i SGU1_CHN_VOL (outVol (ch s.1)) s.2)
    else s
  else s.

(** The three sweep units a sweep command selects by [c.value]: 0 is the
    frequency sweep, 1 the volume sweep, 2 the cutoff sweep. *)
Definition sweepPeriodLow (c : DivCommand) (s : ChanRegs) : ChanRegs :=
  let i := c_chan c in
  let '(x, r) := s in
  match value c with
  | 0 =>
      let x := set_freqSweepP (u16 (Z.lor (Z.land (freqSweepP x) 65280) (value2 c))) x in
      (x, chWrite i SGU1_CHN_SWFREQ_SPD_L (Z.land (freqSweepP x) 255) r)
  | 1 =>
      let x := set_volSweepP (u16 (Z.lor (Z.land (volSweepP x) 65280) (value2 c))) x in
      (x, chWrite i SGU1_CHN_SWVOL_SPD_L (Z.land (volSweepP x) 255) r)
  | 2 =>
      let x := set_cutSweepP (u16 (Z.lor (Z.land (cutSweepP x) 65280) (value2 c))) x in
      (x, chWrite i SGU1_CHN_SWCUT_SPD_L (Z.land (cutSweepP x) 255) r)
  | _ => (x, r)
  end.

Definition sweepPeriodHigh (c : DivCommand) (s : ChanRegs) : ChanRegs :=
  let i := c_chan c in
  let '(x, r) := s in
  match value c with
  | 0 =>
      let x :=
        set_freqSweepP (u16 (Z.lor (Z.land (freqSweepP x) 255) (Z.shiftl (value2 c) 8))) x in
      (x, chWrite i SGU1_CHN_SWFREQ_SPD_H (Z.shiftr (freqSweepP x) 8) r)
  | 1 =>
      let x :=
        set_volSweepP (u16 (Z.lor (Z.land (volSweepP x) 255) (Z.shiftl (value2 c) 8))) x in
      (x, chWrite i SGU1_CHN_SWVOL_SPD_H (Z.shiftr (volSweepP x) 8) r)
  | 2 =>
      let x :=
        set_cutSweepP (u16 (Z.lor (Z.land (cutSweepP x) 255) (Z.shiftl (value2 c) 8))) x in
      (x, chWrite i SGU1_CHN_SWCUT_SPD_H (Z.shiftr (cutSweepP x) 8) r)
  | _ => (x, r)
  end.

Definition sweepBound (c : DivCommand) (s : ChanRegs) : ChanRegs :=
  let i := c_chan c in
  let '(x, r) := s in
  match value c with
  | 0 =>
      let x := set_freqSweepB (u8 (value2 c)) x in
      (x, chWrite i SGU1_CHN_SWFREQ_BND (freqSweepB x) r)
  | 1 =>
      let x := set_volSweepB (u8 (value2 c)) x in
      (x, chWrite i SGU1_CHN_SWVOL_BND (volSweepB x) r)
  | 2 =>
      let x := set_cutSweepB (u8 (value2 c)) x in
      (x, chWrite i SGU1_CHN_SWCUT_BND (cutSweepB x) r)
  | _ => (x, r)
  end.

Definition sweepEnable (c : DivCommand) (s : ChanRegs) : ChanRegs :=
  let i := c_chan c in
  let '(x, r) := s in
  let s :=
    match value c with
    | 0 =>
        let x := set_freqSweepV (u8 (value2 c)) x in
        let x := set_freqSweep (value2 c >? 0) x in
        (x, chWrite i SGU1_CHN_SWFREQ_AMT (freqSweepV x) r)
    | 1 =>
        let x := set_volSweepV (u8 (value2 c)) x in
        let x := set_volSweep (value2 c >? 0) x in
        (x, chWrite i SGU1_CHN_SWVOL_AMT (volSweepV x) r)
    | 2 =>
        let x := set_cutSweepV (u8 (value2 c)) x in
        let x := set_cutSweep (value2 c >? 0) x in
        (x, chWrite i SGU1_CHN_SWCUT_AMT (cutSweepV x) r)
    | _ => (x, r)
    end in
  writeControlUpper i s.

(** [DIV_CMD_SU_SYNC_PERIOD_LOW] and [_HIGH], once [syncTimer] is assigned *)
Definition syncPeriod (c : DivCommand) (t : Z) (s : ChanRegs) : ChanRegs :=
  let i := c_chan c in
  let '(x, r) := s in
  let x := set_syncTimer (u16 t) x in
  let x := set_timerSync (syncTimer x >? 0) x in
  let r := chWrite i SGU1_CHN_RESTIMER_L (Z.land (syncTimer x) 255) r in
  let r := chWrite i SGU1_CHN_RESTIMER_H (Z.shiftr (syncTimer x) 8) r in
  writeControlUpper i (x, r).

(** The step of a portamento from base frequency [b]:
    [c.value*((linearPitch)?1:(1+(baseFreq>>9)))], in [int] arithmetic. *)
Definition portaStep (parent : DivEngine) (c : DivCommand) (b : Z) : Z :=
  s32 (value c * (if linearPitch parent then 1 else s32 (1 + Z.shiftr b 9))).

(** [case DIV_CMD_NOTE_PORTA]: the channel and [return2]; [baseFreq+=...]
    and [baseFreq-=...] are [int] arithmetic. *)
Definition dispatchNotePorta (parent : DivEngine) (c : DivCommand) (x : ChanState)
  : ChanState * bool :=
  let destFreq := NOTE_FREQUENCY parent (value2 c + sampleNoteDelta x) in
  let '(x, return2) :=
    if destFreq >? baseFreq (ch x) then
      let x :=
        set_ch (set_baseFreq (s32 (baseFreq (ch x) + portaStep parent c (baseFreq (ch x))))
                  (ch x)) x in
      if baseFreq (ch x) >=? destFreq then (set_ch (set_baseFreq destFreq (ch x)) x, true)
      else (x, false)
    else
      let x :=
        set_ch (set_baseFreq (s32 (baseFreq (ch x) - portaStep parent c (baseFreq (ch x))))
                  (ch x)) x in
      if baseFreq (ch x) <=? destFreq then (set_ch (set_baseFreq destFreq (ch x)) x, true)
      else (x, false) in
  let x := set_ch (set_freqChanged true (ch x)) x in
  if return2 then (set_ch (set_inPorta false (ch x)) x, true) else (x, false).

(** The operators an operator-indexed command addresses: all four for a
    negative [c.value], operator [c.value] when it is one of 0..3, none
    otherwise ([for (int o=oStart; o<oEnd && o<4; o++)] with
    [oStart=(c.value<0)?0:c.value] and [oEnd=(c.value<0)?4:(c.value+1)], and
    [if (c.value<0) {...} else if (c.value<4) {...}]). *)
Definition opRange (v : Z) : list nat :=
  if v <? 0 then [0; 1; 2; 3]%nat else if v <? 4 then [Z.to_nat v] else [].

(** The inner [switch (c.cmd)] of the operator parameter commands: the
    updated operator pair and [opDirty]. *)
Definition fmParamSet (k : DivDispatchCmds) (v2 : Z) (x : FMOperator * ESFMOperator)
  : FMOperator * ESFMOperator * bool :=
  let '(op, opE) := x in
  match k with
  | DIV_CMD_FM_AM => (set_op_am (u8 (Z.land v2 1)) op, opE, true)
  | DIV_CMD_FM_VIB => (set_op_vib (u8 (Z.land v2 1)) op, opE, true)
  | DIV_CMD_FM_AR => (set_op_ar (u8 (Z.land v2 31)) op, opE, true)
  | DIV_CMD_FM_DR => (set_op_dr (u8 (Z.land v2 31)) op, opE, true)
  | DIV_CMD_FM_SL => (set_op_sl (u8 (Z.land v2 15)) op, opE, true)
  | DIV_CMD_FM_D2R => (set_op_d2r (u8 (Z.land v2 31)) op, opE, true)
  | DIV_CMD_FM_RR => (set_op_rr (u8 (Z.land v2 15)) op, opE, true)
  | DIV_CMD_FM_DT => (set_op_dt (u8 (Z.land v2 7)) op, opE, true)
  | DIV_CMD_FM_DT2 => (op, set_ope_delay (u8 (Z.land v2 7)) opE, true)
  | DIV_CMD_FM_RS => (set_op_rs (u8 (Z.land v2 3)) op, opE, true)
  | DIV_CMD_FM_KSR => (set_op_rs (u8 (Z.land v2 1)) op, opE, true)
  | DIV_CMD_FM_SUS => (set_op_sus (u8 (Z.land v2 1)) op, opE, false)
  | DIV_CMD_FM_WS => (set_op_ws (u8 (Z.land v2 7)) op, opE, true)
  | DIV_CMD_FM_SSG => (op, set_ope_modIn (u8 (Z.land v2 7)) opE, true)
  | DIV_CMD_FM_TL => (set_op_tl (u8 (Z.land v2 127)) op, opE, true)
  | DIV_CMD_FM_MULT => (set_op_mult (u8 (Z.land v2 15)) op, opE, true)
  | _ => (op, opE, false)
  end.

(** One iteration of the operator loop of the parameter commands. *)
Definition fmParamOp (k : DivDispatchCmds) (i v2 : Z) (s : ChanRegs) (o : nat) : ChanRegs :=
  let '(c, r) := s in
  let fm := state_fm c in
  let esfm := state_esfm c in
  let '(op, opE, opDirty) := fmParamSet k v2 (nth4 o (fm_op fm), nth4 o (esfm_op esfm)) in
  let c := set_state_fm (set_fm_op (upd4 o (fun _ => op) (fm_op fm)) fm) c in
  let c := set_state_esfm (set_esfm_op (upd4 o (fun _ => opE) (esfm_op esfm)) esfm) c in
  if opDirty then applyOpRegs i o (c, r) else (c, r).

(** [chan[c.chan].state.fm.op[o].f=v; applyOpRegs(c.chan,o);] and the same
    for a field of [state.esfm.op[o]] *)
Definition setOpField (f : FMOperator -> FMOperator) (i : Z) (s : ChanRegs) (o : nat)
  : ChanRegs :=
  let fm := state_fm s.1 in
  applyOpRegs i o (set_state_fm (set_fm_op (upd4 o f (fm_op fm)) fm) s.1, s.2).

Definition setOpEField (f : ESFMOperator -> ESFMOperator) (i : Z) (s : ChanRegs) (o : nat)
  : ChanRegs :=
  let esfm := state_esfm s.1 in
  applyOpRegs i o (set_state_esfm (set_esfm_op (upd4 o f (esfm_op esfm)) esfm) s.1, s.2).

(** [case DIV_CMD_C64_EXTENDED] *)
Definition dispatchC64Extended (c : DivCommand) (s : ChanRegs) : ChanRegs :=
  let i := c_chan c in
  match Z.shiftr (value c) 4 with
  | 4 =>
      foldl (fun s o => applyOpRegs i o s)
        (set_ringMask (u8 (Z.land (value c) 15)) s.1, s.2) [0; 1; 2; 3]%nat
  | 5 =>
      foldl (fun s o => applyOpRegs i o s)
        (set_syncMask (u8 (Z.land (value c) 15)) s.1, s.2) [0; 1; 2; 3]%nat
  | _ => s
  end.

(** [dispatch(c)]: the value returned, the channel [chan[c.chan]] and the
    register side. *)
Definition dispatch (parent : DivEngine) (c : DivCommand) (s : DispRegs) : Z * DispRegs :=
  let i := c_chan c in
  match cmd c with
  | DIV_CMD_NOTE_ON => (1, dispatchNoteOn parent c s)
  | DIV_CMD_NOTE_OFF => (1, onCh releaseKey s)
  | DIV_CMD_NOTE_OFF_ENV => (1, onStd release (onCh releaseKey s))
  | DIV_CMD_ENV_RELEASE => (1, onCh (set_released true) (onStd release s))
  | DIV_CMD_INSTRUMENT =>
      let s :=
        if negb (ins (ch s.1) =? value c) || (value2 c =? 1) then onCh (set_insChanged true) s
        else s in
      (1, onCh (set_ins (value c)) s)
  | DIV_CMD_VOLUME => (1, dispatchVolume parent c s)
  | DIV_CMD_GET_VOLUME =>
      (if vol_has (std s.1) then vol (ch s.1) else outVol (ch s.1), s)
  | DIV_CMD_PITCH => (1, onCh (set_freqChanged true) (onCh (set_pitch (value c)) s))
  | DIV_CMD_WAVE =>
      (1, onChanRegs (fun s => setOpField (set_op_ws (u8 (Z.land (value c) 7))) i s 3) s)
  | DIV_CMD_STD_NOISE_MODE =>
      let s := onCh (set_duty (u8 (Z.land (value c) 127))) s in
      let s := onCh (fun x => set_virtual_duty (s16 (Z.shiftl (u16 (duty x)) 5)) x) s in
      (1, (s.1, chWrite i SGU1_CHN_DUTY (duty (ch s.1)) s.2))
  | DIV_CMD_C64_RESONANCE =>
      let s := onCh (set_res (u8 (value c))) s in
      (1, (s.1, chWrite i SGU1_CHN_RESON (res (ch s.1)) s.2))
  | DIV_CMD_C64_FILTER_MODE =>
      (1, onChanRegs (writeControl i) (onCh (set_control (u8 (Z.land (value c) 15))) s))
  | DIV_CMD_SU_SWEEP_PERIOD_LOW => (1, onChanRegs (sweepPeriodLow c) s)
  | DIV_CMD_SU_SWEEP_PERIOD_HIGH => (1, onChanRegs (sweepPeriodHigh c) s)
  | DIV_CMD_SU_SWEEP_BOUND => (1, onChanRegs (sweepBound c) s)
  | DIV_CMD_SU_SWEEP_ENABLE => (1, onChanRegs (sweepEnable c) s)
  | DIV_CMD_SU_SYNC_PERIOD_LOW =>
      (1, onChanRegs (fun s =>
            syncPeriod c (Z.lor (Z.land (syncTimer s.1) 65280) (value c)) s) s)
  | DIV_CMD_SU_SYNC_PERIOD_HIGH =>
      (1, onChanRegs (fun s =>
            syncPeriod c (Z.lor (Z.land (syncTimer s.1) 255) (Z.shiftl (value c) 8)) s) s)
  | DIV_CMD_C64_FINE_CUTOFF =>
      let s := onCh (set_baseCutoff (Z.shiftl (value c) 4)) s in
      if negb (ex1_has (std s.1)) then
        let s := onCh (fun x => set_cutoff (baseCutoff x) x) s in
        let r := chWrite i SGU1_CHN_CUTOFF_L (Z.land (cutoff (ch s.1)) 255) s.2 in
        let r := chWrite i SGU1_CHN_CUTOFF_H (Z.shiftr (cutoff (ch s.1)) 8) r in
        (1, (s.1, r))
      else (1, s)
  | DIV_CMD_NOTE_PORTA =>
      let '(x, return2) := dispatchNotePorta parent c s.1 in
      (if return2 then 2 else 1, (x, s.2))
  | DIV_CMD_PANNING =>
      let s :=
        onCh (set_pan (s8 (convertPanSplitToLinearLR parent (value c) (value2 c) 254 - 127)))
          s in
      (1, (s.1, chWrite i SGU1_CHN_PAN (pan (ch s.1)) s.2))
  | DIV_CMD_SAMPLE_POS => (1, onCh (set_keyOn true) (onCh (set_hasOffset (value c)) s))
  | DIV_CMD_LEGATO =>
      let n :=
        value c + sampleNoteDelta s.1 + (if HACKY_LEGATO_MESS s.1 then arp_val (std s.1) else 0) in
      let s := onCh (set_baseFreq (NOTE_FREQUENCY parent n)) s in
      (1, onCh (set_note (value c)) (onCh (set_freqChanged true) s))
  | DIV_CMD_PRE_PORTA =>
      let s :=
        onCh (fun x => set_inPorta (active x && negb (keyOff x) && z2b (value c)) x) s in
      (1, onCh (set_portaPause (value2 c =? 1)) s)
  | DIV_CMD_C64_PW_SLIDE => (1, onCh (set_pw_slide (s16 (value c * value2 c))) s)
  | DIV_CMD_C64_CUTOFF_SLIDE => (1, onCh (set_cutoff_slide (s16 (value c * value2 c))) s)
  | DIV_CMD_FM_AM | DIV_CMD_FM_AR | DIV_CMD_FM_DR | DIV_CMD_FM_SL | DIV_CMD_FM_D2R
  | DIV_CMD_FM_RR | DIV_CMD_FM_DT | DIV_CMD_FM_DT2 | DIV_CMD_FM_RS | DIV_CMD_FM_KSR
  | DIV_CMD_FM_VIB | DIV_CMD_FM_SUS | DIV_CMD_FM_WS | DIV_CMD_FM_SSG | DIV_CMD_FM_REV
  | DIV_CMD_FM_EG_SHIFT | DIV_CMD_FM_TL | DIV_CMD_FM_MULT =>
      (1, onChanRegs (fun s => foldl (fmParamOp (cmd c) i (value2 c)) s (opRange (value c))) s)
  | DIV_CMD_FM_FB =>
      (1, onChanRegs (fun s => setOpEField (set_ope_modIn (u8 (Z.land (value c) 7))) i s 0) s)
  | DIV_CMD_FM_AM_DEPTH =>
      (1, onChanRegs (fun s =>
            foldl (setOpField (set_op_dam (u8 (Z.land (value2 c) 1))) i) s (opRange (value c)))
            s)
  | DIV_CMD_FM_PM_DEPTH =>
      (1, onChanRegs (fun s =>
            foldl (setOpField (set_op_dvb (u8 (Z.land (value2 c) 1))) i) s (opRange (value c)))
            s)
  | DIV_CMD_FM_FIXFREQ =>
      (1, onChanRegs (fun s =>
            foldl (setOpEField (set_ope_fixed (if value2 c >? 0 then 1 else 0)) i) s
              (opRange (value c))) s)
  | DIV_CMD_ESFM_OUTLVL =>
      (1, onChanRegs (fun s =>
            foldl (setOpEField (set_ope_outLvl (u8 (Z.land (value2 c) 7))) i) s
              (opRange (value c))) s)
  | DIV_CMD_ESFM_MODIN =>
      (1, onChanRegs (fun s =>
            foldl (setOpEField (set_ope_modIn (u8 (Z.land (value2 c) 7))) i) s
              (opRange (value c))) s)
  | DIV_CMD_ESFM_ENV_DELAY =>
      (1, onChanRegs (fun s =>
            foldl (setOpEField (set_ope_delay (u8 (Z.land (value2 c) 7))) i) s
              (opRange (value c))) s)
  | DIV_CMD_C64_EXTENDED => (1, onChanRegs (dispatchC64Extended c) s)
  | DIV_CMD_MACRO_OFF => (1, onStd (mask (value c) true) s)
  | DIV_CMD_MACRO_ON => (1, onStd (mask (value c) false) s)
  | DIV_CMD_MACRO_RESTART => (1, onStd (restart (value c)) s)
  | DIV_CMD_OTHER _ => (1, s)
  end.

End Commands.

(** ** Vocabulary of the further statements *)

Section Vocabulary.
Context {hdr : SguHeader} {core : SguCore}.

(** The values of the writes [applyOpRegs(ch,o)] queues, in order. *)
Definition opRegsWritten (ch : Z) (o : nat) (s : ChanRegs) : list QueuedWrite :=
  drop (length (writes s.2)) (writes (applyOpRegs ch o s).2).

(** The fields of an operator as the register sheet lays them out over the
    eight register values [v]: R0 [7 TRM][6 VIB][5 FIX][3:0 MUL],
    R1 [7:6 KSL][5:0 TL], R2 [7:4 AR][3:0 DR], R3 [7:4 SL][3:0 RR],
    R4 [7:5 DT][4:0 SR], R5 [7:5 DELAY][4:3 KSR][2:0 WPAR],
    R6 [7 TRMD][6 VIBD][5 SYNC][4 RING][3:1 MOD][0 TLmsb],
    R7 [7:5 OUT][4 ARmsb][3 DRmsb][2:0 WAVE]. *)
Definition field (v : list Z) (reg : nat) (lo width : Z) : Z :=
  Z.land (Z.shiftr (v !!! reg) lo) (Z.ones width).

Record OpFields := mkOpFields {
  f_trm : Z; f_vib : Z; f_fix : Z; f_mul : Z; f_ksl : Z; f_tl : Z; f_ar : Z; f_dr : Z;
  f_sl : Z; f_rr : Z; f_dt : Z; f_sr : Z; f_delay : Z; f_ksr : Z; f_wpar : Z; f_trmd : Z;
  f_vibd : Z; f_sync : Z; f_ring : Z; f_mod : Z; f_out : Z; f_wave : Z
}.

Definition decodeOpRegs (v : list Z) : OpFields :=
  {| f_trm := field v 0 7 1; f_vib := field v 0 6 1; f_fix := field v 0 5 1;
     f_mul := field v 0 0 4;
     f_ksl := field v 1 6 2;
     f_tl := Z.lor (field v 1 0 6) (Z.shiftl (field v 6 0 1) 6);
     f_ar := Z.lor (field v 2 4 4) (Z.shiftl (field v 7 4 1) 4);
     f_dr := Z.lor (field v 2 0 4) (Z.shiftl (field v 7 3 1) 4);
     f_sl := field v 3 4 4; f_rr := field v 3 0 4;
     f_dt := field v 4 5 3; f_sr := field v 4 0 5;
     f_delay := field v 5 5 3; f_ksr := field v 5 3 2; f_wpar := field v 5 0 3;
     f_trmd := field v 6 7 1; f_vibd := field v 6 6 1; f_sync := field v 6 5 1;
     f_ring := field v 6 4 1; f_mod := field v 6 1 3;
     f_out := field v 7 5 3; f_wave := field v 7 0 3 |}.

(** The same fields as [applyOpRegs] reads them from the channel state. *)
Definition opFieldsOf (c : Channel) (o : nat) : OpFields :=
  let op := nth4 o (fm_op (state_fm c)) in
  let opE := nth4 o (esfm_op (state_esfm c)) in
  {| f_trm := Z.land (op_am op) 1; f_vib := Z.land (op_vib op) 1;
     f_fix := Z.land (ope_fixed opE) 1; f_mul := Z.land (op_mult op) 15;
     f_ksl := Z.land (op_ksl op) 3;
     f_tl := Z.land (op_tl op) 127;
     f_ar := Z.land (op_ar op) 31;
     f_dr := Z.land (op_dr op) 31;
     f_sl := Z.land (op_sl op) 15; f_rr := Z.land (op_rr op) 15;
     f_dt := Z.land (op_dt op) 7; f_sr := Z.land (op_d2r op) 31;
     f_delay := Z.land (ope_delay opE) 7; f_ksr := Z.land (op_rs op) 3; f_wpar := 0;
     f_trmd := Z.land (op_dam op) 1; f_vibd := Z.land (op_dvb op) 1;
     f_sync := Z.land (Z.shiftr (syncMask c) (Z.of_nat o)) 1;
     f_ring := Z.land (Z.shiftr (ringMask c) (Z.of_nat o)) 1;
     f_mod := Z.land (ope_modIn opE) 7;
     f_out := if op_enable op then Z.land (ope_outLvl opE) 7 else 0;
     f_wave := Z.land (op_ws op) 7 |}.

(** No operator macro produced a value this tick. *)
Definition quietOp (m : IntOp) : bool :=
  negb (had (mo_am m) || had (mo_ar m) || had (mo_dr m) || had (mo_mult m) || had (mo_rr m)
        || had (mo_sl m) || had (mo_tl m) || had (mo_dt2 m) || had (mo_rs m) || had (mo_dt m)
        || had (mo_d2r m) || had (mo_ssg m) || had (mo_dam m) || had (mo_dvb m)
        || had (mo_egt m) || had (mo_ksl m) || had (mo_vib m) || had (mo_ws m)
        || had (mo_ksr m)).

(** No macro of the channel produced a value this tick. *)
Definition quietMacros (m : DivMacroInt) : bool :=
  negb (had (std_vol m) || had (std_arp m) || had (std_duty m) || had (std_wave m)
        || had (std_pitch m) || had (std_ex1 m) || had (std_ex2 m) || had (std_ex3 m)
        || had (std_ex4 m) || had (std_fb m) || had (std_fms m) || had (std_ams m)
        || had (std_panL m) || had (std_phaseReset m))
  && quietOp (nth4 0 (std_op m)) && quietOp (nth4 1 (std_op m))
  && quietOp (nth4 2 (std_op m)) && quietOp (nth4 3 (std_op m)).

(** A channel [tick] has nothing to do for: no macro value, no slide in
    progress on a system tick, no pending frequency change or key edge; the
    shared arpeggio handler, where it is used, leaves the channel alone. *)
Definition idleChannel (parent : DivEngine) (sysTick : bool) (m : DivMacroInt) (c : Channel)
  : Prop :=
  quietMacros m = true /\
  (NEW_ARP_STRAT parent = true -> handleArp (std_arp m) c = c) /\
  (sysTick = true -> pw_slide c = 0 /\ cutoff_slide c = 0) /\
  freqChanged c = false /\ keyOn c = false /\ keyOff c = false.

(** The write [w] goes to one of the 64 registers of channel [i]. *)
Definition inChannel (i : Z) (w : QueuedWrite) : Prop :=
  exists a, 0 <= a < SGU_REGS_PER_CH /\ w_addr w = u16 (i * SGU_REGS_PER_CH + a).

(** [s'] is reached from [s] by [rWrite] calls to registers of channel [i]
    only (and any change to the channel record). *)
Definition confined (i : Z) (s s' : ChanRegs) : Prop :=
  exists l, emits l s.2 s'.2 /\ Forall (inChannel i) l.

(** Sample [k] of the song has data, is rendered on system [sysID], and its
    bytes are in [mem] in full from offset [off], ending below the capacity. *)
Definition storedAt (parent : DivEngine) (sysID : Z) (mem : list Z) (k : nat) (off : Z)
  : Prop :=
  exists s data,
    song_sample parent !! k = Some s /\ data8 s = Some data /\ renderOn s sysID = true /\
    0 <= off /\ off + Z.of_nat (length data) < SGU_PCM_RAM_SIZE /\
    forall j, (j < length data)%nat -> mem !! (Z.to_nat off + j)%nat = data !! j.

(** Sample [k] of the song has data and is rendered on system [sysID]. *)
Definition rendered (parent : DivEngine) (sysID : Z) (k : nat) : Prop :=
  exists s data,
    song_sample parent !! k = Some s /\ data8 s = Some data /\ renderOn s sysID = true.

(** The entries [es] lie end to end from position [p] to position [q]. *)
Fixpoint tiles (p : Z) (es : list DivMemoryEntry) (q : Z) : Prop :=
  match es with
  | [] => p = q
  | e :: es' => me_begin e = p /\ p <= me_end e /\ tiles (me_end e) es' q
  end.

(** What the loop of [renderSamples] has established when it looks at sample
    [i]: a nonzero offset belongs to a rendered sample before [i], and so does
    a loaded flag, whose sample is in memory in full below the current
    position. *)
Definition loadedInv (parent : DivEngine) (sysID : Z) (i : nat) (x : RenderState) : Prop :=
  0 <= rs_memPos x /\
  length (rs_mem x) = Z.to_nat SGU_PCM_RAM_SIZE /\
  length (rs_loaded x) = length (rs_off x) /\
  (forall k v, rs_off x !! k = Some v -> v <> 0 -> (k < i)%nat /\ rendered parent sysID k) /\
  (forall k, rs_loaded x !! k = Some true ->
     (k < i)%nat /\ exists off,
       rs_off x !! k = Some off /\ storedAt parent sysID (rs_mem x) k off /\
       forall s data, song_sample parent !! k = Some s -> data8 s = Some data ->
         off + Z.of_nat (length data) <= rs_memPos x).

(** The value of the last write to address [a] in a list of queued writes. *)
Definition lastQueued (a : Z) (ws : list QueuedWrite) : option Z :=
  foldl (fun acc w => if w_addr w =? a then Some (w_val w) else acc) None ws.

(** The register pool holds, for every register, the value of the last
    write to it in the queue, and zero for a register never written. *)
Definition mirrors (r : Regs) : Prop :=
  forall k, Z.of_nat k < SGU_REG_POOL_SIZE -> (k < length (regPool r))%nat ->
    regPool r !! k = Some (default 0 (lastQueued (Z.of_nat k) (writes r))).

(** The register side after the calls [rWrite(a,v)] for the pairs of [l], in
    order. *)
Definition rWrites (l : list (Z * Z)) (r : Regs) : Regs :=
  foldl (fun r w => rWrite w.1 w.2 r) r l.

(** [r'] is [r] after exactly those calls. *)
Definition wrote (l : list (Z * Z)) (r r' : Regs) : Prop := r' = rWrites l r.

(** The address of the call [w] is one of the 64 registers of channel [i]. *)
Definition inBlock (i : Z) (w : Z * Z) : Prop :=
  i * SGU_REGS_PER_CH <= w.1 < i * SGU_REGS_PER_CH + SGU_REGS_PER_CH.

(** What [forceIns] does to a channel record: the instrument and the
    frequency are marked as changed, and [writeControlUpper] clears the two
    reset flags. *)
Definition forced (c : Channel) : Channel :=
  set_filterPhaseReset false (set_phaseReset false (set_freqChanged true (set_insChanged true c))).

(** The call [w] goes to none of FREQ_L, FREQ_H and VOL of channel [i]. *)
Definition notFreqVol (i : Z) (w : Z * Z) : Prop :=
  w.1 <> i * SGU_REGS_PER_CH + SGU_CH_BASE + SGU1_CHN_FREQ_L /\
  w.1 <> i * SGU_REGS_PER_CH + SGU_CH_BASE + SGU1_CHN_FREQ_H /\
  w.1 <> i * SGU_REGS_PER_CH + SGU_CH_BASE + SGU1_CHN_VOL.

(** What is assumed of [SharedChannel::handleArp()], a method of the base
    class, for the PCM flag of the derived channel: it leaves it alone. *)
Definition handleArp_keeps_pcm : Prop := forall m c, pcm (handleArp m c) = pcm c.

(** The integers [0..m-1]. *)
Definition zrange (m : Z) : list Z := Z.of_nat <$> seq 0 (Z.to_nat m).

(** A proposition [P] that the boolean [b] decides in the direction needed:
    used to settle statements over small integer ranges by evaluation. *)
Class Checks (P : Prop) (b : bool) := checks : b = true -> P.

End Vocabulary.

Section CommandVocabulary.
Context {hdr : SguHeader} {core : SguCore} {mi : MacroInt} {env : DispatchEnv}.

(** The commands that address operators by [c.value]. *)
Definition operatorIndexed (k : DivDispatchCmds) : bool :=
  match k with
  | DIV_CMD_FM_AM | DIV_CMD_FM_AR | DIV_CMD_FM_DR | DIV_CMD_FM_SL | DIV_CMD_FM_D2R
  | DIV_CMD_FM_RR | DIV_CMD_FM_DT | DIV_CMD_FM_DT2 | DIV_CMD_FM_RS | DIV_CMD_FM_KSR
  | DIV_CMD_FM_VIB | DIV_CMD_FM_SUS | DIV_CMD_FM_WS | DIV_CMD_FM_SSG | DIV_CMD_FM_REV
  | DIV_CMD_FM_EG_SHIFT | DIV_CMD_FM_TL | DIV_CMD_FM_MULT
  | DIV_CMD_FM_AM_DEPTH | DIV_CMD_FM_PM_DEPTH | DIV_CMD_FM_FIXFREQ | DIV_CMD_ESFM_OUTLVL
  | DIV_CMD_ESFM_MODIN | DIV_CMD_ESFM_ENV_DELAY => true
  | _ => false
  end.

(** A command whose selector is out of range, or that [dispatch] has no case
    for: an operator index above 3, a sweep unit other than 0..2 in a period
    or bound command, an extended command other than the ring and sync masks,
    the two operator commands with an empty case, and any other command. *)
Definition ignoredCommand (c : DivCommand) : bool :=
  match cmd c with
  | DIV_CMD_FM_REV | DIV_CMD_FM_EG_SHIFT | DIV_CMD_OTHER _ => true
  | DIV_CMD_SU_SWEEP_PERIOD_LOW | DIV_CMD_SU_SWEEP_PERIOD_HIGH | DIV_CMD_SU_SWEEP_BOUND =>
      (value c <? 0) || (2 <? value c)
  | DIV_CMD_C64_EXTENDED =>
      negb (Z.shiftr (value c) 4 =? 4) && negb (Z.shiftr (value c) 4 =? 5)
  | k => operatorIndexed k && (4 <=? value c)
  end.

(** The register field an operator parameter command sets, and its mask. *)
Definition paramField (k : DivDispatchCmds) : option ((OpFields -> Z) * Z) :=
  match k with
  | DIV_CMD_FM_AM => Some (f_trm, 1)
  | DIV_CMD_FM_VIB => Some (f_vib, 1)
  | DIV_CMD_FM_AR => Some (f_ar, 31)
  | DIV_CMD_FM_DR => Some (f_dr, 31)
  | DIV_CMD_FM_SL => Some (f_sl, 15)
  | DIV_CMD_FM_D2R => Some (f_sr, 31)
  | DIV_CMD_FM_RR => Some (f_rr, 15)
  | DIV_CMD_FM_DT => Some (f_dt, 7)
  | DIV_CMD_FM_DT2 => Some (f_delay, 7)
  | DIV_CMD_FM_RS => Some (f_ksr, 3)
  | DIV_CMD_FM_KSR => Some (f_ksr, 1)
  | DIV_CMD_FM_WS => Some (f_wave, 7)
  | DIV_CMD_FM_SSG => Some (f_mod, 7)
  | DIV_CMD_FM_TL => Some (f_tl, 127)
  | DIV_CMD_FM_MULT => Some (f_mul, 15)
  | DIV_CMD_FM_AM_DEPTH => Some (f_trmd, 1)
  | DIV_CMD_FM_PM_DEPTH => Some (f_vibd, 1)
  | DIV_CMD_ESFM_MODIN => Some (f_mod, 7)
  | DIV_CMD_ESFM_ENV_DELAY => Some (f_delay, 7)
  | _ => None
  end.

(** The period of sweep unit [k]. *)
Definition sweepPeriod (k : Z) (c : Channel) : Z :=
  match k with
  | 0 => freqSweepP c
  | 1 => volSweepP c
  | 2 => cutSweepP c
  | _ => 0
  end.

(** The addresses of the eight registers of operator [o] of channel [i], as
    they appear in the queue. *)
Definition opAddrs (i : Z) (o : nat) : list Z :=
  (fun k => u16 (i * SGU_REGS_PER_CH + Z.of_nat o * SGU_OP_REGS + k))
    <$> [0; 1; 2; 3; 4; 5; 6; 7].

(** The step [step] on operator [o] stores into the operator and writes its
    eight registers, whose field [proj] then reads [x]. *)
Definition storesField (proj : OpFields -> Z) (x : Z) (i : Z)
    (step : ChanRegs -> nat -> ChanRegs) : Prop :=
  forall s o, (o < 4)%nat -> skipRegisterWrites s.2 = false ->
    skipRegisterWrites (step s o).2 = false /\
    exists g, writes (step s o).2 = writes s.2 ++ g /\
              w_addr <$> g = opAddrs i o /\ proj (decodeOpRegs (w_val <$> g)) = x.

End CommandVocabulary.


(** ** Concrete values

    A header instance, a chip core and sample data on which the definitions
    above are evaluated. *)

Definition exampleOperator : FMOperator :=
  {| op_enable := true; op_am := 0; op_ar := 15; op_dr := 9; op_mult := 1; op_rr := 7;
     op_sl := 4; op_tl := 15; op_dt2 := 0; op_rs := 0; op_dt := 0; op_d2r := 0;
     op_ssgEnv := 0; op_dam := 0; op_dvb := 0; op_egt := 0; op_ksl := 0; op_sus := 0;
     op_vib := 0; op_ws := 0; op_ksr := 0 |}.

Definition exampleESFMOperator : ESFMOperator :=
  {| ope_delay := 0; ope_outLvl := 0; ope_modIn := 0; ope_left := 1; ope_right := 1;
     ope_fixed := 0; ope_ct := 0; ope_dt := 0 |}.

Definition exampleFM : DivInstrumentFM :=
  {| fm_alg := 0; fm_fb := 3; fm_fms := 0; fm_ams := 0;
     fm_op := mkArr4 exampleOperator exampleOperator exampleOperator exampleOperator |}.

Definition exampleESFM : DivInstrumentESFM :=
  {| esfm_noise := 0;
     esfm_op := mkArr4 exampleESFMOperator exampleESFMOperator exampleESFMOperator
                       exampleESFMOperator |}.

Definition exampleC64 : DivInstrumentC64 :=
  {| c64_a := 15; c64_d := 9; c64_s := 15; c64_r := 3; c64_duty := 2048; c64_cut := 2047;
     c64_res := 5; c64_toFilter := true; c64_initFilter := true; c64_resetDuty := true;
     c64_lp := true; c64_hp := false; c64_bp := false;
     c64_noiseOn := false; c64_pulseOn := true; c64_sawOn := false; c64_triOn := false |}.

Definition exampleIns (t : DivInstrumentType) : DivInstrument :=
  {| ins_type := t; ins_fm := exampleFM; ins_esfm := exampleESFM; ins_c64 := exampleC64;
     sid2_noiseMode := 0; amiga_useSample := false |}.

(** A channel as [Channel()] leaves it, holding a note with both reset flags
    pending. *)
Definition exampleChannel : Channel :=
  {| freq := 0; baseFreq := 4291; baseNoteOverride := 0; pitch := 0; pitch2 := 0; arpOff := 0;
     ins := 0; note := 48; active := true; insChanged := true; freqChanged := true;
     fixedArp := false; keyOn := true; keyOff := false; portaPause := false; inPorta := false;
     vol := 127; outVol := 127; state_fm := exampleFM; state_esfm := exampleESFM;
     cutoff := 65535; baseCutoff := 65535; res := 0; control := 0; pan := 0; duty := 63;
     pcm := true; pcmLoop := false; phaseReset := true; filterPhaseReset := true;
     timerSync := false; freqSweep := false; volSweep := false; cutSweep := false;
     freqSweepP := 0; volSweepP := 0; cutSweepP := 0; freqSweepB := 0; volSweepB := 0;
     cutSweepB := 0; freqSweepV := 0; volSweepV := 0; cutSweepV := 0; syncTimer := 0;
     hasOffset := 0; sample := 0; released := false; cutoff_slide := 0; pw_slide := 0;
     virtual_duty := 0; ringMask := 0; syncMask := 0; key := false |}.

Definition exampleRegs : Regs :=
  {| writes := []; regPool := replicate 576 0; skipRegisterWrites := false;
     dumpWrites := false; regWrites := [] |}.

Definition exampleHeader : SguHeader :=
  {| SGU_CHNS := 9; SGU_PCM_RAM_SIZE := 16;
     SGU_WAVE_SINE := 0; SGU_WAVE_TRIANGLE := 1; SGU_WAVE_SAWTOOTH := 2; SGU_WAVE_PULSE := 3;
     SGU_WAVE_NOISE := 4; SGU_WAVE_PERIODIC_NOISE := 5;
     DivInstrumentESFM_ctor := exampleESFM;
     handleArp := fun m c => if had m then set_freqChanged true c else c |}.

Definition exampleSample (n : nat) (on : bool) : DivSample :=
  {| data8 := Some (replicate n 7); length8 := Z.of_nat n; renderOn := fun _ => on;
     centerRate := 0; isLoopable := false; getLoopStartPosition := 0;
     getLoopEndPosition := Z.of_nat n |}.

(** An engine with three samples of 6, 12 and 5 bytes, whose [calcFreq] adds
    the pitch inputs to the base frequency. *)
Definition exampleEngine : DivEngine :=
  {| song_sample := [exampleSample 6 true; exampleSample 12 true; exampleSample 5 true];
     newVolumeScaling := false; ceilVolumeScaling := false; NEW_ARP_STRAT := true;
     getIns := fun _ => exampleIns DIV_INS_AMIGA;
     getSample := fun n =>
       match n with
       | 0 => Some (exampleSample 6 true)
       | 1 => Some (exampleSample 12 true)
       | 2 => Some (exampleSample 5 true)
       | _ => None
       end;
     calcArp := fun note arp => note + arp;
     NOTE_FREQUENCY := fun note => note * 100;
     calcFreq := fun base pitch arp _ _ _ pitch2 _ _ => base * 1000 + pitch + pitch2 + arp;
     pcmRate := fun f rate => f * rate |}.

Definition noMacro : DivMacroStruct := {| had := false; val := 0; mode := 0 |}.

Definition noOpMacros : IntOp :=
  {| mo_am := noMacro; mo_ar := noMacro; mo_dr := noMacro; mo_mult := noMacro;
     mo_rr := noMacro; mo_sl := noMacro; mo_tl := noMacro; mo_dt2 := noMacro;
     mo_rs := noMacro; mo_dt := noMacro; mo_d2r := noMacro; mo_ssg := noMacro;
     mo_dam := noMacro; mo_dvb := noMacro; mo_egt := noMacro; mo_ksl := noMacro;
     mo_vib := noMacro; mo_ws := noMacro; mo_ksr := noMacro |}.

(** A tick on which only the filter-mode macro (ex3) produced a value. *)
Definition exampleMacros : DivMacroInt :=
  {| std_vol := noMacro; std_arp := noMacro; std_duty := noMacro; std_wave := noMacro;
     std_pitch := noMacro; std_ex1 := noMacro; std_ex2 := noMacro;
     std_ex3 := {| had := true; val := 2; mode := 0 |}; std_ex4 := noMacro;
     std_fb := noMacro; std_fms := noMacro; std_ams := noMacro; std_panL := noMacro;
     std_phaseReset := noMacro;
     std_op := mkArr4 noOpMacros noOpMacros noOpMacros noOpMacros |}.

(** A chip core that adds up the values written to it and outputs ever
    louder samples. *)
Definition exampleCore : SguCore :=
  {| SGU := Z;
     SGU_Write := fun g _ v => g + v;
     SGU_NextSample := fun g _ => (g + 1, (g * 20000, - g * 20000));
     SGU_GetSample := fun g i => g + i;
     SGU_set_pcm := fun _ g => g |}.

Definition examplePlatform : DivPlatformSGU (core := exampleCore) :=
  {| chan := replicate 9 exampleChannel; oscBuf := replicate 9 [];
     regs := {| writes := [mkQueuedWrite 36 1; mkQueuedWrite 32 2]; regPool := replicate 576 0;
                skipRegisterWrites := false; dumpWrites := false; regWrites := [] |};
     sgu := (0 : @SGU exampleCore); chipClock := 1000000;
     sampleOffSGU := replicate (Z.to_nat 32768) 0;
     sampleLoaded := replicate (Z.to_nat 32768) true;
     sampleMem := replicate 16 1; sampleMemLen := 3;
     memCompo := {| mc_entries := []; mc_used := 3; mc_capacity := 16 |};
     sysIDCache := 0; warnings := [] |}.

(** A macro interpreter that records the macros masked off, a set of engine
    helpers, and the two further calls on the chip core. *)
Definition exampleMacroInt : MacroInt :=
  {| Std := list Z;
     vol_will := fun _ => false; vol_has := fun _ => false; ex1_has := fun _ => false;
     arp_val := fun _ => 0;
     release := fun s => s;
     mask := fun id enabled s => if enabled then id :: s else s;
     restart := fun _ s => s |}.

Definition exampleDispatchEnv : DispatchEnv (H := exampleMacroInt) :=
  {| DIV_NOTE_NULL := 2147483647;
     macroInit := fun _ sh => sh;
     HACKY_LEGATO_MESS := fun _ => false;
     amiga_getSample := fun _ _ => 0;
     amiga_getFreq := fun _ note => note;
     linearPitch := fun _ => false;
     convertPanSplitToLinearLR := fun _ l r range => (range - l + r) / 2;
     SharedChannel_ctor := fun initVol =>
       mkSharedChannel exampleMacroInt 0 0 0 0 0 0 (-1) 0 2147483647 0
         false true false false false false false false initVol initVol [];
     DivInstrumentFM_ctor := exampleFM |}.

Definition exampleCoreReset : SguCoreReset (H := exampleCore) :=
  Build_SguCoreReset exampleCore (fun _ => 0) (fun _ _ g => g).

(** [exampleChannel] as [dispatch] sees it. *)
Definition exampleChanState : ChanState (H := exampleMacroInt) :=
  mkChanState exampleMacroInt exampleChannel 0 0 [].

(** A channel with nothing pending, a tick on which no macro produced a
    value, and a platform of such channels. *)
Definition restingChannel : Channel := set_keyOn false (set_freqChanged false exampleChannel).

Definition quietTick : DivMacroInt :=
  {| std_vol := noMacro; std_arp := noMacro; std_duty := noMacro; std_wave := noMacro;
     std_pitch := noMacro; std_ex1 := noMacro; std_ex2 := noMacro; std_ex3 := noMacro;
     std_ex4 := noMacro; std_fb := noMacro; std_fms := noMacro; std_ams := noMacro;
     std_panL := noMacro; std_phaseReset := noMacro;
     std_op := mkArr4 noOpMacros noOpMacros noOpMacros noOpMacros |}.

Definition restingPlatform : DivPlatformSGU (core := exampleCore) :=
  {| chan := replicate 9 restingChannel; oscBuf := replicate 9 [];
     regs := exampleRegs; sgu := (0 : @SGU exampleCore); chipClock := 1000000;
     sampleOffSGU := replicate (Z.to_nat 32768) 0;
     sampleLoaded := replicate (Z.to_nat 32768) true;
     sampleMem := replicate 16 1; sampleMemLen := 3;
     memCompo := {| mc_entries := []; mc_used := 3; mc_capacity := 16 |};
     sysIDCache := 0; warnings := [] |}.

(** An engine whose first sample is not rendered on this system. *)
Definition exampleEngineSkip : DivEngine :=
  {| song_sample := [exampleSample 6 false; exampleSample 5 true];
     newVolumeScaling := false; ceilVolumeScaling := false; NEW_ARP_STRAT := true;
     getIns := fun _ => exampleIns DIV_INS_AMIGA;
     getSample := fun n =>
       match n with
       | 0 => Some (exampleSample 6 false)
       | 1 => Some (exampleSample 5 true)
       | _ => None
       end;
     calcArp := fun note arp => note + arp;
     NOTE_FREQUENCY := fun note => note * 100;
     calcFreq := fun base pitch arp _ _ _ pitch2 _ _ => base * 1000 + pitch + pitch2 + arp;
     pcmRate := fun f rate => f * rate |}.

(** * Properties *)

Section Properties.
Context {hdr : SguHeader} {core : SguCore}.

(** ** Machine integers and bit fields *)

Lemma u8_small x : 0 <= x < 256 -> u8 x = x.
Proof. intros H. unfold u8. apply Z.mod_small. exact H. Qed.

Lemma u16_small x : 0 <= x < 65536 -> u16 x = x.
Proof. intros H. unfold u16. apply Z.mod_small. exact H. Qed.

Lemma u8_range x : 0 <= u8 x < 256.
Proof. unfold u8. apply Z.mod_pos_bound. lia. Qed.

Lemma CLAMP_range x lo hi : lo <= hi -> lo <= CLAMP x lo hi <= hi.
Proof.
  intros H. unfold CLAMP, MIN, MAX.
  destruct (x >? lo) eqn:E1; [destruct (x <? hi) eqn:E2 | destruct (lo <? hi) eqn:E2]; lia.
Qed.

(** ** [writeControlUpper] *)

Lemma flags1_reset_bits c :
  phaseReset c = false -> filterPhaseReset c = false ->
  Z.testbit (flags1 c) 0 = false /\ Z.testbit (flags1 c) 1 = false.
Proof.
  intros H1 H2. unfold flags1. rewrite H1, H2.
  destruct (pcmLoop c), (timerSync c), (freqSweep c), (volSweep c), (cutSweep c);
    split; reflexivity.
Qed.

(** C10: after [writeControlUpper(ch)] the channel's [phaseReset] and
    [filterPhaseReset] are false and every other field of the channel is what
    it was, in particular the five other flags encoded into FLAGS1; a later
    call therefore writes a FLAGS1 value whose two reset bits are clear, so a
    pending reset edge is emitted by one call only. *)
Theorem writeControlUpper_frame (ch : Z) (c : Channel) (r : Regs) :
  let c' := (writeControlUpper ch (c, r)).1 in
  phaseReset c' = false /\ filterPhaseReset c' = false /\
  c' = set_filterPhaseReset false (set_phaseReset false c) /\
  pcmLoop c' = pcmLoop c /\ timerSync c' = timerSync c /\ freqSweep c' = freqSweep c /\
  volSweep c' = volSweep c /\ cutSweep c' = cutSweep c /\
  (forall ch2 r2,
      (writeControlUpper ch2 (c', r2)).2 = chWrite ch2 SGU1_CHN_FLAGS1 (flags1 c') r2 /\
      Z.testbit (flags1 c') 0 = false /\ Z.testbit (flags1 c') 1 = false).
Proof.
  cbn zeta. unfold writeControlUpper. cbn [fst snd].
  repeat split; try reflexivity; apply flags1_reset_bits; reflexivity.
Qed.

(** ** [commitState] *)


Tactic Notation "enum_nat" ident(k) integer(n) :=
  do n (destruct k as [|k]; [ reflexivity | ]); exfalso; lia.






Lemma foldl_applyOpRegs_fst ch l c r :
  (foldl (fun s o => applyOpRegs ch o s) (c, r) l).1 = c.
Proof.
  revert r. induction l as [|o l IH]; intros r; [reflexivity|].
  cbn [foldl]. unfold applyOpRegs at 2. cbn [fst snd]. apply IH.
Qed.

(** On the FM path [commitState] stores the converted local copies [fm] and
    [esfm] into the channel the algorithm switch leaves. *)
Lemma commitState_fm ch ins c r :
  isAmiga ins = false ->
  let res := convertAlgorithm ch ins (convertOperators ins (ins_fm ins)) (ins_esfm ins)
               (set_pcm false c, r) in
  (commitState ch (Some ins) (c, r)).1 = set_state_esfm res.1.2 (set_state_fm res.1.1 res.2.1).
Proof.
  intros H. cbn zeta. unfold commitState. rewrite H.
  destruct (convertAlgorithm _ _ _ _ _) as [[fm' esfm'] [c1 r1]].
  rewrite foldl_applyOpRegs_fst. reflexivity.
Qed.

Lemma isAmiga_false ins :
  ins_type ins <> DIV_INS_AMIGA -> amiga_useSample ins = false -> isAmiga ins = false.
Proof.
  intros Ht Hs. unfold isAmiga. rewrite Hs. destruct (ins_type ins); try reflexivity.
  contradiction.
Qed.

Ltac commit_unfold Ht Hs :=
  unfold committedOp;
  rewrite commitState_fm by (apply isAmiga_false; [rewrite Ht; discriminate | exact Hs]);
  cbn zeta;
  unfold convertAlgorithm, convertOperators, convertOperator, convertEnvelope, convertWaveform;
  rewrite Ht.




Lemma commitState_c64_carrier ch ins c r :
  ins_type ins = DIV_INS_C64 \/ ins_type ins = DIV_INS_SID2 ->
  amiga_useSample ins = false ->
  op_ar (committedOp ch ins (c, r) 3) = widen4to5 (c64_a (ins_c64 ins)) /\
  op_dr (committedOp ch ins (c, r) 3) =
    widen4to5 (u8 (if c64_s (ins_c64 ins) =? 15 then 0 else Z.land (c64_d (ins_c64 ins)) 15)).
Proof.
  intros [Ht | Ht] Hs; split; commit_unfold Ht Hs; reflexivity.
Qed.






(** C3 (as amended): for a C64 or SID2 instrument whose legacy sustain is 15,
    the decay rate [commitState] gives the carrier (operator 3) is 1, the
    4-to-5-bit widening of a legacy decay forced to 0, whatever the legacy
    decay field holds. *)
Theorem commitState_c64_sustain15_decay (ch : Z) (ins : DivInstrument) (c : Channel)
    (r : Regs) :
  ins_type ins = DIV_INS_C64 \/ ins_type ins = DIV_INS_SID2 ->
  amiga_useSample ins = false ->
  c64_s (ins_c64 ins) = 15 ->
  op_dr (committedOp ch ins (c, r) 3) = 1.
Proof.
  intros Ht Hs H15.
  destruct (commitState_c64_carrier ch ins c r Ht Hs) as [_ ->].
  rewrite H15. reflexivity.
Qed.

(** C8 (as amended): for an instrument of a kind [commitState] does not
    recognise (and not flagged as a sample instrument) no parameter is
    converted: the [pcm] flag is cleared, the instrument's generic-FM and
    extended parameter sets are copied into the channel as they are, every
    other channel field keeps its value, and the registers of the four
    operators are written. *)
Theorem commitState_unknown_kind (ch : Z) (ins : DivInstrument) (n : Z) (c : Channel)
    (r : Regs) :
  ins_type ins = DIV_INS_OTHER n ->
  amiga_useSample ins = false ->
  let c' := set_state_esfm (ins_esfm ins) (set_state_fm (ins_fm ins) (set_pcm false c)) in
  commitState ch (Some ins) (c, r)
  = applyOpRegs ch 3 (applyOpRegs ch 2 (applyOpRegs ch 1 (applyOpRegs ch 0 (c', r)))) /\
  (commitState ch (Some ins) (c, r)).1 = c'.
Proof.
  intros Ht Hs. cbn zeta.
  assert (E : commitState ch (Some ins) (c, r)
    = applyOpRegs ch 3 (applyOpRegs ch 2 (applyOpRegs ch 1 (applyOpRegs ch 0
        (set_state_esfm (ins_esfm ins) (set_state_fm (ins_fm ins) (set_pcm false c)), r))))).
  { unfold commitState.
    rewrite isAmiga_false by first [rewrite Ht; discriminate | exact Hs].
    unfold convertAlgorithm, convertOperators, convertOperator, convertEnvelope,
      convertWaveform.
    rewrite Ht. cbn [foldl].
    destruct (ins_fm ins) as [alg fb fms ams [o0 o1 o2 o3]]. reflexivity. }
  split; [exact E |].
  rewrite E. reflexivity.
Qed.

(** ** [tick] *)

Lemma emits_nil r : emits [] r r.
Proof. split; [reflexivity |]. destruct (skipRegisterWrites r); symmetry; apply app_nil_r. Qed.

Lemma emits_app l1 l2 r1 r2 r3 : emits l1 r1 r2 -> emits l2 r2 r3 -> emits (l1 ++ l2) r1 r3.
Proof.
  intros [A1 A2] [B1 B2]. split; [congruence |].
  rewrite B2, A2, A1. destruct (skipRegisterWrites r1).
  - rewrite !app_nil_r. reflexivity.
  - symmetry. apply app_assoc.
Qed.

Lemma emits_rWrite a v r : emits [QueuedWrite_new a v] r (rWrite a v r).
Proof.
  unfold emits, rWrite. destruct (skipRegisterWrites r) eqn:E; cbn [skipRegisterWrites writes].
  - rewrite E. split; [reflexivity |]. symmetry. apply app_nil_r.
  - split; reflexivity.
Qed.

Lemma emits_chWrite i a v r : emits [chW i a v] r (chWrite i a v r).
Proof. apply emits_rWrite. Qed.

(** Two addresses less than 65536 apart differ in the queue as well. *)
Lemma u16_apart x d : 0 < d < 65536 -> u16 (x + d) <> u16 x.
Proof.
  unfold u16. intros Hd E.
  assert (H : (x + d - x) mod 65536 = 0) by (rewrite Zminus_mod, E, Z.sub_diag; reflexivity).
  replace (x + d - x) with d in H by lia. rewrite Z.mod_small in H by lia. lia.
Qed.

Lemma otherReg_chW i a v : 2 <= a < 65536 -> otherReg i (chW i a v).
Proof.
  intros Ha. unfold otherReg, chW, QueuedWrite_new, SGU1_CHN_FREQ_L, SGU1_CHN_FREQ_H.
  cbn [w_addr]. split.
  - replace (i * SGU_REGS_PER_CH + SGU_CH_BASE + a)
      with (i * SGU_REGS_PER_CH + SGU_CH_BASE + 0 + a) by lia.
    apply u16_apart. lia.
  - replace (i * SGU_REGS_PER_CH + SGU_CH_BASE + a)
      with (i * SGU_REGS_PER_CH + SGU_CH_BASE + 1 + (a - 1)) by lia.
    apply u16_apart. lia.
Qed.

Lemma otherReg_opW i o a v :
  0 <= o * SGU_OP_REGS + a < 32 ->
  otherReg i (QueuedWrite_new (i * SGU_REGS_PER_CH + o * SGU_OP_REGS + a) v).
Proof.
  intros Ha. unfold otherReg, chW, QueuedWrite_new, SGU1_CHN_FREQ_L, SGU1_CHN_FREQ_H.
  cbn [w_addr]. change SGU_CH_BASE with 32. split; apply not_eq_sym.
  - replace (i * SGU_REGS_PER_CH + 32 + 0)
      with (i * SGU_REGS_PER_CH + o * SGU_OP_REGS + a + (32 - (o * SGU_OP_REGS + a))) by lia.
    apply u16_apart. lia.
  - replace (i * SGU_REGS_PER_CH + 32 + 1)
      with (i * SGU_REGS_PER_CH + o * SGU_OP_REGS + a + (33 - (o * SGU_OP_REGS + a))) by lia.
    apply u16_apart. lia.
Qed.

Lemma queued_refl i r : queued i r r.
Proof. exists []. split; [apply emits_nil | constructor]. Qed.

Lemma queued_trans i r1 r2 r3 : queued i r1 r2 -> queued i r2 r3 -> queued i r1 r3.
Proof.
  intros (l1 & A & FA) (l2 & B & FB). exists (l1 ++ l2).
  split; [eapply emits_app; eassumption | apply Forall_app; split; assumption].
Qed.

Lemma queued_chWrite i a v r : 2 <= a < 65536 -> queued i r (chWrite i a v r).
Proof.
  intros Ha. exists [chW i a v]. split; [apply emits_chWrite |].
  constructor; [apply otherReg_chW; exact Ha | constructor].
Qed.

Lemma queued_opWrite i o a v r :
  0 <= o * SGU_OP_REGS + a < 32 -> queued i r (opWrite i o a v r).
Proof.
  intros Ha. eexists. split; [apply emits_rWrite |].
  constructor; [apply otherReg_opW; exact Ha | constructor].
Qed.

Lemma keepsEdges_refl i s : keepsEdges i s s.
Proof. split; [reflexivity | split; [reflexivity |]]. apply queued_refl. Qed.

Lemma keepsEdges_trans i s1 s2 s3 :
  keepsEdges i s1 s2 -> keepsEdges i s2 s3 -> keepsEdges i s1 s3.
Proof.
  intros (A1 & A2 & A3) (B1 & B2 & B3).
  split; [congruence | split; [congruence |]]. eapply queued_trans; eassumption.
Qed.

Lemma keepsEdges_chWrite i a v c r :
  2 <= a < 65536 -> keepsEdges i (c, r) (c, chWrite i a v r).
Proof.
  intros Ha. split; [reflexivity | split; [reflexivity |]]. apply queued_chWrite. exact Ha.
Qed.

Lemma keepsEdges_opWrite i o a v c r :
  0 <= o * SGU_OP_REGS + a < 32 -> keepsEdges i (c, r) (c, opWrite i o a v r).
Proof.
  intros Ha. split; [reflexivity | split; [reflexivity |]]. apply queued_opWrite. exact Ha.
Qed.

Lemma keepsEdges_channel i c c' r :
  keyOn c' = keyOn c -> keyOff c' = keyOff c -> keepsEdges i (c, r) (c', r).
Proof. intros H1 H2. split; [exact H1 | split; [exact H2 |]]. apply queued_refl. Qed.

(** a channel register other than the frequency pair *)
Ltac reg_side := cbv; split; [discriminate | reflexivity].

Lemma keepsEdges_writeControl i s : keepsEdges i s (writeControl i s).
Proof. destruct s as [c r]. apply keepsEdges_chWrite. reg_side. Qed.

Lemma keepsEdges_writeControlUpper i s : keepsEdges i s (writeControlUpper i s).
Proof.
  destruct s as [c r]. unfold writeControlUpper. cbn [fst snd].
  apply (keepsEdges_trans i _ (c, chWrite i SGU1_CHN_FLAGS1 (flags1 c) r)).
  - apply keepsEdges_chWrite. reg_side.
  - apply keepsEdges_channel; reflexivity.
Qed.

Lemma keepsEdges_applyOpRegs i o s : (o < 4)%nat -> keepsEdges i s (applyOpRegs i o s).
Proof.
  intros Ho. destruct s as [c r]. unfold applyOpRegs. cbn [fst snd].
  repeat (eapply keepsEdges_trans;
            [| apply keepsEdges_opWrite; unfold SGU_OP_REGS; lia]).
  apply keepsEdges_refl.
Qed.

(** Decompose a goal along the calls that produced the final state. *)
Ltac ke :=
  cbn zeta;
  lazymatch goal with
  | |- keepsEdges _ ?s ?s => apply keepsEdges_refl
  | |- keepsEdges _ _ (applyOpRegs _ _ _) =>
      eapply keepsEdges_trans; [| apply keepsEdges_applyOpRegs; lia]; ke
  | |- keepsEdges _ _ (writeControl _ _) =>
      eapply keepsEdges_trans; [| apply keepsEdges_writeControl]; ke
  | |- keepsEdges _ _ (writeControlUpper _ _) =>
      eapply keepsEdges_trans; [| apply keepsEdges_writeControlUpper]; ke
  | |- keepsEdges _ _ (_, chWrite _ _ _ _) =>
      eapply keepsEdges_trans; [| apply keepsEdges_chWrite; reg_side]; ke
  | |- keepsEdges _ (_, ?r) (_, ?r) => apply keepsEdges_channel; reflexivity
  end.

Lemma keepsEdges_tickSlides i s : keepsEdges i s (tickSlides i s).
Proof.
  destruct s as [c r]. unfold tickSlides.
  destruct (negb (pw_slide c =? 0));
    match goal with |- context [if negb (?a =? 0) then _ else _] => destruct (negb (a =? 0)) end;
    ke.
Qed.

Lemma keepsEdges_tickVolume parent isA isO i m s :
  keepsEdges i s (tickVolume parent isA isO i m s).
Proof.
  destruct s as [c r]. unfold tickVolume.
  destruct (had (std_vol m)); [| ke].
  destruct isA, isO; ke.
Qed.

Lemma keepsEdges_tickDuty i m s : keepsEdges i s (tickDuty i m s).
Proof. destruct s as [c r]. unfold tickDuty. destruct (had (std_duty m)); ke. Qed.

Lemma keepsEdges_tickWave i m s : keepsEdges i s (tickWave i m s).
Proof. destruct s as [c r]. unfold tickWave. destruct (had (std_wave m)); ke. Qed.

Lemma keepsEdges_tickPhaseReset i m s : keepsEdges i s (tickPhaseReset i m s).
Proof. destruct s as [c r]. unfold tickPhaseReset. destruct (had (std_phaseReset m)); ke. Qed.

Lemma keepsEdges_tickPan i m s : keepsEdges i s (tickPan i m s).
Proof. destruct s as [c r]. unfold tickPan. destruct (had (std_panL m)); ke. Qed.

Lemma keepsEdges_tickEx1 i m s : keepsEdges i s (tickEx1 i m s).
Proof. destruct s as [c r]. unfold tickEx1. destruct (had (std_ex1 m)); ke. Qed.

Lemma keepsEdges_tickEx2 i m s : keepsEdges i s (tickEx2 i m s).
Proof. destruct s as [c r]. unfold tickEx2. destruct (had (std_ex2 m)); ke. Qed.

Lemma keepsEdges_tickEx3 i m s : keepsEdges i s (tickEx3 i m s).
Proof. destruct s as [c r]. unfold tickEx3. destruct (had (std_ex3 m)); ke. Qed.

Lemma keepsEdges_tickEx4 i m s : keepsEdges i s (tickEx4 i m s).
Proof. destruct s as [c r]. unfold tickEx4. destruct (had (std_ex4 m)); ke. Qed.

Lemma keepsEdges_tickFb i m s : keepsEdges i s (tickFb i m s).
Proof. destruct s as [c r]. unfold tickFb. destruct (had (std_fb m)); ke. Qed.

Lemma keepsEdges_foldl i (f : ChanRegs -> nat -> ChanRegs) l :
  (forall s o, (o < 4)%nat -> keepsEdges i s (f s o)) ->
  Forall (fun o => (o < 4)%nat) l ->
  forall s, keepsEdges i s (foldl f s l).
Proof.
  intros Hf. induction l as [|o l IH]; intros Hl s; [apply keepsEdges_refl |].
  apply Forall_cons in Hl as [Ho Hl].
  cbn [foldl]. eapply keepsEdges_trans; [apply Hf; exact Ho | apply IH; exact Hl].
Qed.

Lemma keepsEdges_tickOpllDepthOp i s o :
  (o < 4)%nat -> keepsEdges i s (tickOpllDepthOp i s o).
Proof. intros Ho. destruct s as [c r]. unfold tickOpllDepthOp. cbn [fst snd]. ke. Qed.

Lemma keepsEdges_tickOpllDepth isO i m s : keepsEdges i s (tickOpllDepth isO i m s).
Proof.
  destruct s as [c r]. unfold tickOpllDepth.
  destruct (isO && (had (std_fms m) || had (std_ams m))); [| ke].
  eapply keepsEdges_trans;
    [| apply keepsEdges_foldl;
         [intros; apply keepsEdges_tickOpllDepthOp; assumption
         | repeat constructor; lia ]].
  destruct (had (std_fms m)), (had (std_ams m)); ke.
Qed.

Lemma keepsEdges_tickOperator isO i m s o :
  (o < 4)%nat -> keepsEdges i s (tickOperator isO i m s o).
Proof.
  intros Ho. destruct s as [c r]. unfold tickOperator.
  destruct (tickOpMacros _ _ _ _) as [[op opE] d].
  destruct d; ke.
Qed.

Lemma tickPitch_edges m c : keyOn (tickPitch m c) = keyOn c /\ keyOff (tickPitch m c) = keyOff c.
Proof.
  unfold tickPitch. destruct (had (std_pitch m)); [| split; reflexivity].
  destruct (z2b (mode (std_pitch m))); [| split; reflexivity].
  repeat match goal with |- context [if ?b then _ else _] => destruct b end; split; reflexivity.
Qed.

Lemma tickArp_edges parent m c :
  handleArp_keeps_edges ->
  keyOn (tickArp parent m c) = keyOn c /\ keyOff (tickArp parent m c) = keyOff c.
Proof.
  intros H. unfold tickArp. destruct (NEW_ARP_STRAT parent); [apply H |].
  destruct (had (std_arp m)); [| split; reflexivity].
  destruct (negb (inPorta c)); split; reflexivity.
Qed.

Lemma keepsEdges_onChannel i (f : Channel -> Channel) s :
  (forall c, keyOn (f c) = keyOn c /\ keyOff (f c) = keyOff c) ->
  keepsEdges i s (onChannel f s).
Proof.
  intros Hf. destruct s as [c r]. destruct (Hf c) as [H1 H2].
  apply keepsEdges_channel; assumption.
Qed.

(** The macro part of [tick] keeps the pending key edges and writes to
    neither frequency register. *)
Lemma keepsEdges_tickMacros parent sysTick i m s :
  handleArp_keeps_edges -> keepsEdges i s (tickMacros parent sysTick i m s).
Proof.
  intros H. unfold tickMacros. cbn zeta.
  repeat lazymatch goal with
  | |- keepsEdges _ _ (foldl (tickOperator _ _ _) _ _) =>
      eapply keepsEdges_trans;
        [| apply keepsEdges_foldl;
             [intros; apply keepsEdges_tickOperator; assumption
             | repeat constructor; lia ]]
  | |- keepsEdges _ _ (tickOpllDepth _ _ _ _) =>
      eapply keepsEdges_trans; [| apply keepsEdges_tickOpllDepth]
  | |- keepsEdges _ _ (tickFb _ _ _) => eapply keepsEdges_trans; [| apply keepsEdges_tickFb]
  | |- keepsEdges _ _ (tickEx4 _ _ _) => eapply keepsEdges_trans; [| apply keepsEdges_tickEx4]
  | |- keepsEdges _ _ (tickEx3 _ _ _) => eapply keepsEdges_trans; [| apply keepsEdges_tickEx3]
  | |- keepsEdges _ _ (tickEx2 _ _ _) => eapply keepsEdges_trans; [| apply keepsEdges_tickEx2]
  | |- keepsEdges _ _ (tickEx1 _ _ _) => eapply keepsEdges_trans; [| apply keepsEdges_tickEx1]
  | |- keepsEdges _ _ (onChannel (tickPitch _) _) =>
      eapply keepsEdges_trans;
        [| apply keepsEdges_onChannel; intros; apply tickPitch_edges]
  | |- keepsEdges _ _ (tickPan _ _ _) => eapply keepsEdges_trans; [| apply keepsEdges_tickPan]
  | |- keepsEdges _ _ (tickPhaseReset _ _ _) =>
      eapply keepsEdges_trans; [| apply keepsEdges_tickPhaseReset]
  | |- keepsEdges _ _ (tickWave _ _ _) =>
      eapply keepsEdges_trans; [| apply keepsEdges_tickWave]
  | |- keepsEdges _ _ (tickDuty _ _ _) =>
      eapply keepsEdges_trans; [| apply keepsEdges_tickDuty]
  | |- keepsEdges _ _ (onChannel (tickArp _ _) _) =>
      eapply keepsEdges_trans;
        [| apply keepsEdges_onChannel; intros; apply tickArp_edges; exact H]
  | |- keepsEdges _ _ (tickVolume _ _ _ _ _ _) =>
      eapply keepsEdges_trans; [| apply keepsEdges_tickVolume]
  end.
  destruct sysTick; [apply keepsEdges_tickSlides | apply keepsEdges_refl].
Qed.

Lemma keepsEdges_queued i s s' : keepsEdges i s s' -> queued i s.2 s'.2.
Proof. intros (_ & _ & H). exact H. Qed.

(** The macro part of [tick] writes to neither frequency register, whatever
    [handleArp] does to the channel. *)
Lemma queued_tickMacros parent sysTick i m s :
  queued i s.2 (tickMacros parent sysTick i m s).2.
Proof.
  unfold tickMacros. cbn zeta.
  repeat lazymatch goal with
  | |- queued _ _ (foldl (tickOperator _ _ _) _ _).2 =>
      eapply queued_trans;
        [| apply keepsEdges_queued, keepsEdges_foldl;
             [intros; apply keepsEdges_tickOperator; assumption
             | repeat constructor; lia ]]
  | |- queued _ _ (tickOpllDepth _ _ _ _).2 =>
      eapply queued_trans; [| apply keepsEdges_queued, keepsEdges_tickOpllDepth]
  | |- queued _ _ (tickFb _ _ _).2 =>
      eapply queued_trans; [| apply keepsEdges_queued, keepsEdges_tickFb]
  | |- queued _ _ (tickEx4 _ _ _).2 =>
      eapply queued_trans; [| apply keepsEdges_queued, keepsEdges_tickEx4]
  | |- queued _ _ (tickEx3 _ _ _).2 =>
      eapply queued_trans; [| apply keepsEdges_queued, keepsEdges_tickEx3]
  | |- queued _ _ (tickEx2 _ _ _).2 =>
      eapply queued_trans; [| apply keepsEdges_queued, keepsEdges_tickEx2]
  | |- queued _ _ (tickEx1 _ _ _).2 =>
      eapply queued_trans; [| apply keepsEdges_queued, keepsEdges_tickEx1]
  | |- queued _ ?r0 (onChannel _ ?s).2 => change (queued i r0 s.2)
  | |- queued _ _ (tickPan _ _ _).2 =>
      eapply queued_trans; [| apply keepsEdges_queued, keepsEdges_tickPan]
  | |- queued _ _ (tickPhaseReset _ _ _).2 =>
      eapply queued_trans; [| apply keepsEdges_queued, keepsEdges_tickPhaseReset]
  | |- queued _ _ (tickWave _ _ _).2 =>
      eapply queued_trans; [| apply keepsEdges_queued, keepsEdges_tickWave]
  | |- queued _ _ (tickDuty _ _ _).2 =>
      eapply queued_trans; [| apply keepsEdges_queued, keepsEdges_tickDuty]
  | |- queued _ _ (tickVolume _ _ _ _ _ _).2 =>
      eapply queued_trans; [| apply keepsEdges_queued, keepsEdges_tickVolume]
  end.
  destruct sysTick; [apply keepsEdges_queued, keepsEdges_tickSlides | apply queued_refl].
Qed.

Lemma flags0_keybit c : Z.testbit (u8 (flags0 c)) 0 = key c.
Proof.
  unfold flags0, u8. change 256 with (2 ^ 8).
  rewrite !Z.mod_pow2_bits_low by lia.
  rewrite !Z.lor_spec, Z.shiftl_spec_low by lia.
  destruct (key c), (pcm c); reflexivity.
Qed.

Lemma clampFreq_range f : 0 <= clampFreq f <= 65535.
Proof.
  unfold clampFreq. destruct (f <? 0) eqn:E1; [lia |]. destruct (f >? 65535) eqn:E2; lia.
Qed.

Lemma tickPcmKeyOn_frame parent offs i c r :
  let s' := tickPcmKeyOn parent offs i (c, r) in
  freq s'.1 = freq c /\ keyOn s'.1 = keyOn c /\ queued i r s'.2.
Proof.
  cbn zeta. unfold tickPcmKeyOn.
  destruct (getSample parent (sample c)) as [smp|];
    [| split; [reflexivity | split; [reflexivity | apply queued_refl]]].
  destruct ((sample c >=? 0) && (sample c <? song_sampleLen parent));
    [| split; [reflexivity | split; [reflexivity | apply queued_refl]]].
  cbn zeta. destruct (isLoopable smp); unfold writeControlUpper; cbn [fst snd];
    (split; [reflexivity | split; [reflexivity |]]);
    repeat (eapply queued_trans; [| apply queued_chWrite; reg_side]); apply queued_refl.
Qed.

Lemma tickKeyOffEdge_spec i c r :
  let edge := keyOn c || keyOff c in
  (tickKeyOffEdge i (c, r)).1 = (if edge then set_keyOff false (set_key false c) else c) /\
  emits (if edge then
           chW i SGU1_CHN_FLAGS0 (flags0 (set_key false c))
             :: (if keyOff c && pcm c then [chW i SGU1_CHN_VOL 0] else [])
         else [])
    r (tickKeyOffEdge i (c, r)).2.
Proof.
  cbn zeta. unfold tickKeyOffEdge.
  destruct (keyOn c || keyOff c); [| split; [reflexivity | apply emits_nil]].
  unfold writeControl. cbn [fst snd].
  change (keyOff (set_key false c)) with (keyOff c).
  change (pcm (set_key false c)) with (pcm c).
  split; [reflexivity |].
  destruct (keyOff c && pcm c).
  - eapply (emits_app [_] [_]); apply emits_chWrite.
  - apply emits_chWrite.
Qed.

Lemma tickFreq_spec parent clk c :
  tickFreq parent clk c = set_freq (clampFreq (tickCalcFreq parent clk c)) c.
Proof.
  unfold tickFreq, clampFreq. cbn zeta.
  change (freq (set_freq (tickCalcFreq parent clk c) c)) with (tickCalcFreq parent clk c).
  destruct (tickCalcFreq parent clk c <? 0).
  - reflexivity.
  - change (freq (set_freq (tickCalcFreq parent clk c) c)) with (tickCalcFreq parent clk c).
    destruct (tickCalcFreq parent clk c >? 65535); reflexivity.
Qed.

Lemma tickKeyOnEdge_spec parent offs i c r :
  let s' := tickKeyOnEdge parent offs i (c, r) in
  freq s'.1 = freq c /\
  exists post,
    Forall (otherReg i) post /\
    emits (if keyOn c then chW i SGU1_CHN_FLAGS0 (flags0 (set_key true c)) :: post else [])
      r s'.2.
Proof.
  cbn zeta. unfold tickKeyOnEdge.
  destruct (keyOn c) eqn:Kon.
  - unfold writeControl. cbv beta iota zeta. cbn [fst snd].
    change (keyOn (set_key true c)) with (keyOn c). rewrite Kon.
    destruct (pcm (set_key true c)).
    + destruct (tickPcmKeyOn_frame parent offs i (set_key true c)
                  (chWrite i SGU1_CHN_FLAGS0 (flags0 (set_key true c)) r))
        as (Hf & Hk & post & Hq & Hpost).
      destruct (tickPcmKeyOn _ _ _ _) as [c2 r2]. cbn [fst snd] in *.
      split.
      * destruct (keyOn c2); cbn [fst]; exact Hf.
      * exists post. split; [exact Hpost |].
        eapply (emits_app [_] post); [apply emits_chWrite | exact Hq].
    + cbv beta iota zeta. change (keyOn (set_key true c)) with (keyOn c). rewrite Kon.
      split; [reflexivity |]. exists []. split; [constructor | apply emits_chWrite].
  - cbv beta iota zeta. rewrite Kon. cbv beta iota zeta. rewrite Kon.
    split; [reflexivity |]. exists []. split; [constructor | apply emits_nil].
Qed.

(** What the key and frequency block queues when it runs. *)
Lemma tickKeyFreq_runs parent offs clk i c r :
  freqChanged c || keyOn c || keyOff c = true ->
  let edge := keyOn c || keyOff c in
  let c1 := if edge then set_keyOff false (set_key false c) else c in
  let f := clampFreq (tickCalcFreq parent clk c1) in
  let s' := tickKeyFreq parent offs clk i (c, r) in
  freq s'.1 = f /\
  exists post,
    Forall (otherReg i) post /\
    emits ((if edge then
              chW i SGU1_CHN_FLAGS0 (flags0 (set_key false c))
                :: (if keyOff c && pcm c then [chW i SGU1_CHN_VOL 0] else [])
            else [])
           ++ [chW i SGU1_CHN_FREQ_L (Z.land f 255); chW i SGU1_CHN_FREQ_H (Z.shiftr f 8)]
           ++ (if keyOn c
               then chW i SGU1_CHN_FLAGS0 (flags0 (set_key true (set_freq f c1))) :: post
               else []))
      r s'.2.
Proof.
  intros Hrun. cbn zeta. unfold tickKeyFreq. rewrite Hrun.
  destruct (tickKeyOffEdge_spec i c r) as [Hc He]. cbn zeta in Hc, He.
  destruct (tickKeyOffEdge i (c, r)) as [c1 r1]. cbn [fst snd] in Hc, He.
  rewrite tickFreq_spec. subst c1.
  set (c1 := if keyOn c || keyOff c then set_keyOff false (set_key false c) else c) in *.
  set (f := clampFreq (tickCalcFreq parent clk c1)).
  change (freq (set_freq f c1)) with f.
  destruct (tickKeyOnEdge_spec parent offs i (set_freq f c1)
              (chWrite i SGU1_CHN_FREQ_H (Z.shiftr f 8)
                 (chWrite i SGU1_CHN_FREQ_L (Z.land f 255) r1))) as [Hf (post & Hpost & Hq)].
  cbn zeta in Hf, Hq. split; [exact Hf |].
  exists post. split; [exact Hpost |].
  assert (Kon : keyOn (set_freq f c1) = keyOn c).
  { subst c1. destruct (keyOn c || keyOff c); reflexivity. }
  rewrite Kon in Hq.
  eapply emits_app; [exact He |].
  eapply (emits_app [_; _]); [| exact Hq].
  eapply (emits_app [_] [_]); apply emits_chWrite.
Qed.

Lemma chW_val i a v : w_val (chW i a v) = u8 v.
Proof. reflexivity. Qed.

Lemma otherReg_flags0 i v : otherReg i (chW i SGU1_CHN_FLAGS0 v).
Proof. apply otherReg_chW. reg_side. Qed.

Lemma otherReg_keyOff_vol i (b : bool) :
  Forall (otherReg i) (if b then [chW i SGU1_CHN_VOL 0] else []).
Proof.
  destruct b; [| constructor].
  apply Forall_cons. split; [apply otherReg_chW; reg_side | constructor].
Qed.

(** [tick] handles channel [i] by [tickChannel] on [chan[i]] and the register
    side as the channels before it left it. *)
Lemma tickOne_channel parent sysTick ms (st : DivPlatformSGU) i c m :
  chan st !! i = Some c -> ms !! i = Some m ->
  let s := tickChannel parent (sampleOffSGU st) (chipClock st) sysTick (Z.of_nat i) m
             (c, regs st) in
  regs (tickOne parent sysTick ms st i) = s.2 /\
  chan (tickOne parent sysTick ms st i) = <[i := s.1]> (chan st).
Proof. intros Hc Hm. unfold tickOne. rewrite Hc, Hm. split; reflexivity. Qed.

(** C2: in an invocation of [tick] in which channel [i] has a key-on or
    key-off edge pending (whether or not the frequency changed), the writes the
    invocation queues for the channel are, in order: whatever the macros
    wrote, the FLAGS0 write with the key bit clear, at most the volume write of
    a PCM key-off, the FREQ_L and FREQ_H writes, and, when a key-on edge is
    pending, next the FLAGS0 write with the key bit set.  No other write of the
    invocation goes to FREQ_L or FREQ_H of the channel, so every frequency
    write comes after the key-off write and before the key-on write.  (While
    register writes are skipped nothing is queued at all.) *)
Theorem tick_key_edge_order (parent : DivEngine) (offs : list Z) (clk : Z) (sysTick : bool)
    (i : Z) (m : DivMacroInt) (c : Channel) (r : Regs) :
  handleArp_keeps_edges ->
  keyOn c = true \/ keyOff c = true ->
  let s' := tickChannel parent offs clk sysTick i m (c, r) in
  exists pre vOff mid f post,
    writes s'.2
      = writes r ++
        (if skipRegisterWrites r then []
         else pre ++ [chW i SGU1_CHN_FLAGS0 vOff] ++ mid
              ++ [chW i SGU1_CHN_FREQ_L (Z.land f 255); chW i SGU1_CHN_FREQ_H (Z.shiftr f 8)]
              ++ post) /\
    Z.testbit (w_val (chW i SGU1_CHN_FLAGS0 vOff)) 0 = false /\
    (mid = [] \/ mid = [chW i SGU1_CHN_VOL 0]) /\
    Forall (otherReg i) (pre ++ [chW i SGU1_CHN_FLAGS0 vOff] ++ mid) /\
    Forall (otherReg i) post /\
    (keyOn c = true ->
     exists vOn post',
       post = chW i SGU1_CHN_FLAGS0 vOn :: post' /\
       Z.testbit (w_val (chW i SGU1_CHN_FLAGS0 vOn)) 0 = true).
Proof.
  intros Harp Hedge. cbn zeta. unfold tickChannel.
  destruct (keepsEdges_tickMacros parent sysTick i m (c, r) Harp)
    as (Kon & Koff & pre & Hpre & Fpre).
  destruct (tickMacros parent sysTick i m (c, r)) as [c1 r1]. cbn [fst snd] in Kon, Koff, Hpre.
  assert (Hedge1 : keyOn c1 || keyOff c1 = true).
  { rewrite Kon, Koff. destruct Hedge as [-> | ->]; [reflexivity | apply orb_true_r]. }
  assert (Hrun : freqChanged c1 || keyOn c1 || keyOff c1 = true).
  { rewrite <- orb_assoc, Hedge1. apply orb_true_r. }
  destruct (tickKeyFreq_runs parent offs clk i c1 r1 Hrun) as [_ (post & Fpost & Hq)].
  cbn zeta in Hq. rewrite Hedge1 in Hq.
  set (c2 := set_keyOff false (set_key false c1)) in Hq.
  set (f := clampFreq (tickCalcFreq parent clk c2)) in Hq.
  pose proof (emits_app _ _ _ _ _ Hpre Hq) as [_ Hw].
  exists pre, (flags0 (set_key false c1)),
    (if keyOff c1 && pcm c1 then [chW i SGU1_CHN_VOL 0] else []), f,
    (if keyOn c1 then chW i SGU1_CHN_FLAGS0 (flags0 (set_key true (set_freq f c2))) :: post
     else []).
  split; [| split; [| split; [| split; [| split]]]].
  - rewrite Hw. destruct (skipRegisterWrites r); reflexivity.
  - rewrite chW_val, flags0_keybit. reflexivity.
  - destruct (keyOff c1 && pcm c1); [right | left]; reflexivity.
  - apply Forall_app. split; [exact Fpre |].
    apply Forall_cons. split; [apply otherReg_flags0 | apply otherReg_keyOff_vol].
  - destruct (keyOn c1); [| constructor].
    apply Forall_cons. split; [apply otherReg_flags0 | exact Fpost].
  - intros HkOn. rewrite Kon, HkOn. eexists _, post. split; [reflexivity |].
    rewrite chW_val, flags0_keybit. reflexivity.
Qed.

(** C4: in every invocation of [tick], for every channel: when the key and
    frequency block runs, the value [f] it writes to the FREQ_L/FREQ_H pair (low
    byte, then [f>>8]) satisfies [0 <= f <= 65535], whatever [calcFreq] and the
    PCM rate scaling return; [f] is the channel's [freq] afterwards, the two
    queued bytes put together give [f] back, and nothing else the invocation
    queues goes to FREQ_L or FREQ_H of the channel.  When the block does not
    run, the invocation writes to neither register. *)
Theorem tick_frequency_clamped (parent : DivEngine) (offs : list Z) (clk : Z)
    (sysTick : bool) (i : Z) (m : DivMacroInt) (c : Channel) (r : Regs) :
  let s1 := tickMacros parent sysTick i m (c, r) in
  let s' := tickChannel parent offs clk sysTick i m (c, r) in
  let f := freq s'.1 in
  exists pre,
    Forall (otherReg i) pre /\
    if freqChanged s1.1 || keyOn s1.1 || keyOff s1.1 then
      0 <= f <= 65535 /\
      w_val (chW i SGU1_CHN_FREQ_L (Z.land f 255))
        + 256 * w_val (chW i SGU1_CHN_FREQ_H (Z.shiftr f 8)) = f /\
      exists mid post,
        Forall (otherReg i) mid /\ Forall (otherReg i) post /\
        writes s'.2
          = writes r ++
            (if skipRegisterWrites r then []
             else pre ++ mid
                  ++ [chW i SGU1_CHN_FREQ_L (Z.land f 255);
                      chW i SGU1_CHN_FREQ_H (Z.shiftr f 8)]
                  ++ post)
    else
      writes s'.2 = writes r ++ (if skipRegisterWrites r then [] else pre).
Proof.
  cbn zeta. unfold tickChannel.
  destruct (queued_tickMacros parent sysTick i m (c, r)) as (pre & Hpre & Fpre).
  destruct (tickMacros parent sysTick i m (c, r)) as [c1 r1]. cbn [fst snd] in Hpre |- *.
  exists pre. split; [exact Fpre |].
  destruct (freqChanged c1 || keyOn c1 || keyOff c1) eqn:Hrun.
  - destruct (tickKeyFreq_runs parent offs clk i c1 r1 Hrun) as [Hf (post & Fpost & Hq)].
    cbn zeta in Hf, Hq. rewrite Hf.
    set (f := clampFreq _) in *.
    assert (Hr : 0 <= f <= 65535) by apply clampFreq_range.
    split; [exact Hr | split].
    + rewrite !chW_val.
      assert (Hlo : Z.land f 255 = f mod 256) by (apply (Z.land_ones f 8); lia).
      assert (Hhi : Z.shiftr f 8 = f / 256) by (apply (Z.shiftr_div_pow2 f 8); lia).
      rewrite Hlo, Hhi.
      rewrite (u8_small (f mod 256)) by (apply Z.mod_pos_bound; lia).
      rewrite (u8_small (f / 256))
        by (split; [apply Z.div_pos; lia | apply Z.div_lt_upper_bound; lia]).
      pose proof (Z.div_mod f 256). lia.
    + pose proof (emits_app _ _ _ _ _ Hpre Hq) as [_ Hw].
      eexists _, _. split; [| split; [| rewrite Hw; reflexivity]].
      * destruct (keyOn c1 || keyOff c1); [| constructor].
        apply Forall_cons. split; [apply otherReg_flags0 | apply otherReg_keyOff_vol].
      * destruct (keyOn c1); [| constructor].
        apply Forall_cons. split; [apply otherReg_flags0 | exact Fpost].
  - unfold tickKeyFreq. rewrite Hrun. apply Hpre.
Qed.

(** ** [acquire] *)

Lemma drainWrites_spec q g :
  drainWrites q g = ([], foldl (fun g w => SGU_Write g (w_addr w) (w_val w)) g q).
Proof. revert g. induction q as [|w q IH]; intros g; [reflexivity |]. cbn. apply IH. Qed.

Lemma acquireFrames_S n a : acquireFrames (S n) a = acquireFrame (acquireFrames n a) n.
Proof. unfold acquireFrames. rewrite seq_S, foldl_app. reflexivity. Qed.

Lemma acquireFrame_length a h :
  length (aq_buf0 (acquireFrame a h)) = length (aq_buf0 a) /\
  length (aq_buf1 (acquireFrame a h)) = length (aq_buf1 a).
Proof.
  unfold acquireFrame. destruct (drainWrites _ _) as [q g].
  destruct (SGU_NextSample g (aq_lr a)) as [g' [l r]]. cbn [aq_buf0 aq_buf1].
  rewrite !length_insert. split; reflexivity.
Qed.

Lemma acquireFrames_length n a :
  length (aq_buf0 (acquireFrames n a)) = length (aq_buf0 a) /\
  length (aq_buf1 (acquireFrames n a)) = length (aq_buf1 a).
Proof.
  induction n as [|n IH]; [split; reflexivity |].
  rewrite acquireFrames_S. destruct (acquireFrame_length (acquireFrames n a) n) as [-> ->].
  exact IH.
Qed.

Lemma acquireFrame_other a h k :
  h <> k ->
  aq_buf0 (acquireFrame a h) !! k = aq_buf0 a !! k /\
  aq_buf1 (acquireFrame a h) !! k = aq_buf1 a !! k.
Proof.
  intros Hne. unfold acquireFrame. destruct (drainWrites _ _) as [q g].
  destruct (SGU_NextSample g (aq_lr a)) as [g' [l r]]. cbn [aq_buf0 aq_buf1].
  rewrite !list_lookup_insert_ne by exact Hne. split; reflexivity.
Qed.

(** frames after [h] leave sample [h] of the output alone *)
Lemma acquireFrames_keep n h a :
  (h < n)%nat ->
  aq_buf0 (acquireFrames n a) !! h = aq_buf0 (acquireFrames (S h) a) !! h /\
  aq_buf1 (acquireFrames n a) !! h = aq_buf1 (acquireFrames (S h) a) !! h.
Proof.
  induction n as [|n IH]; [lia |]. intros Hlt.
  destruct (decide (h = n)) as [-> | Hne]; [split; reflexivity |].
  rewrite (acquireFrames_S n).
  destruct (acquireFrame_other (acquireFrames n a) n h) as [-> ->]; [congruence |].
  apply IH. lia.
Qed.

Lemma s16_small x : -32768 <= x <= 32767 -> s16 x = x.
Proof. intros H. unfold s16. rewrite Z.mod_small by lia. lia. Qed.

(** C5: in every frame [h<len] of [acquire(buf,len)] the chip core is asked
    for the next sample pair in the state reached by applying every write of
    the pending queue, in queue order, and the queue is empty from then on;
    the two samples stored at [buf[0][h]] and [buf[1][h]] are the core's
    outputs clamped into [-32768, 32767]. *)
Theorem acquire_drains_then_clamps (buf0 buf1 : list Z) (len : nat) (st : DivPlatformSGU) (h : nat) :
  (len <= length buf0)%nat -> (len <= length buf1)%nat -> (h < len)%nat ->
  let a := acquireFrames h (acquireInit buf0 buf1 len st) in
  let g := foldl (fun g w => SGU_Write g (w_addr w) (w_val w)) (aq_sgu a) (aq_writes a) in
  let out := SGU_NextSample g (aq_lr a) in
  let l := CLAMP out.2.1 (-32768) 32767 in
  let r := CLAMP out.2.2 (-32768) 32767 in
  aq_writes (acquireFrame a h) = [] /\
  aq_sgu (acquireFrame a h) = out.1 /\
  (acquire buf0 buf1 len st).1.1 !! h = Some l /\
  (acquire buf0 buf1 len st).1.2 !! h = Some r /\
  -32768 <= l <= 32767 /\ -32768 <= r <= 32767.
Proof.
  intros H0 H1 Hh. cbn zeta.
  set (a := acquireFrames h (acquireInit buf0 buf1 len st)).
  assert (Hl : forall x, -32768 <= CLAMP x (-32768) 32767 <= 32767)
    by (intros x; apply CLAMP_range; lia).
  assert (Hfr : acquireFrame a h =
    let g := foldl (fun g w => SGU_Write g (w_addr w) (w_val w)) (aq_sgu a) (aq_writes a) in
    let out := SGU_NextSample g (aq_lr a) in
    {| aq_buf0 := <[h := CLAMP out.2.1 (-32768) 32767]> (aq_buf0 a);
       aq_buf1 := <[h := CLAMP out.2.2 (-32768) 32767]> (aq_buf1 a);
       aq_lr := out.2; aq_writes := []; aq_sgu := out.1;
       aq_osc := oscAll (fun i => OscPutSample h (SGU_GetSample out.1 (Z.of_nat i))) (aq_osc a) |}).
  { unfold acquireFrame. rewrite drainWrites_spec. cbn zeta.
    destruct (SGU_NextSample _ _) as [g' [l r]]. cbn [fst snd].
    rewrite !s16_small by apply Hl. reflexivity. }
  rewrite Hfr. cbn zeta. cbn [aq_writes aq_sgu].
  split; [reflexivity | split; [reflexivity |]].
  unfold acquire. cbn [fst snd]. fold (acquireInit buf0 buf1 len st).
  destruct (acquireFrames_keep len h (acquireInit buf0 buf1 len st) Hh) as [-> ->].
  rewrite acquireFrames_S. fold a. rewrite Hfr. cbn zeta. cbn [aq_buf0 aq_buf1].
  destruct (acquireFrames_length h (acquireInit buf0 buf1 len st)) as [L0 L1].
  fold a in L0, L1. cbn [acquireInit aq_buf0 aq_buf1] in L0, L1.
  rewrite !list_lookup_insert_eq by lia.
  split; [reflexivity | split; [reflexivity |]]. split; apply Hl.
Qed.

(** ** Introspection *)

Lemma unchecked_index {A : Type} (l : list A) (n : nat) (ch : Z) :
  length l = n ->
  is_Some (if ch <? 0 then None else l !! Z.to_nat ch) <-> 0 <= ch < Z.of_nat n.
Proof.
  intros Hl. destruct (ch <? 0) eqn:E.
  - split; [intros [x Hx]; discriminate | lia].
  - rewrite lookup_lt_is_Some. lia.
Qed.

(** C9 (as amended): the sample-memory introspection calls are safe for
    every index.  With the 32768-entry [sampleLoaded] array the constructor
    allocates, [isSampleLoaded] never reads outside it, and answers false for
    a memory index other than 0 and for a sample index outside 0..32767;
    [getSampleMem] and [getMemCompo] answer [NULL] for a memory index other
    than 0.  The per-channel calls [getOscBuffer] and [getChanState] index
    their [SGU_CHNS]-entry arrays with no check: the entry they use is inside
    the array exactly for a channel index in [0..SGU_CHNS-1]. *)
Theorem introspection_safe (st : DivPlatformSGU) :
  Z.of_nat (length (sampleLoaded st)) = 32768 ->
  (forall index sample, exists b, isSampleLoaded index sample st = Some b) /\
  (forall index sample, index <> 0 -> isSampleLoaded index sample st = Some false) /\
  (forall index sample,
      sample < 0 \/ sample > 32767 -> isSampleLoaded index sample st = Some false) /\
  (forall index, index <> 0 -> getSampleMem index st = None /\ getMemCompo index st = None) /\
  (length (oscBuf st) = SGU_CHNS ->
   forall ch, is_Some (getOscBuffer ch st) <-> 0 <= ch < Z.of_nat SGU_CHNS) /\
  (length (chan st) = SGU_CHNS ->
   forall ch, is_Some (getChanState ch st) <-> 0 <= ch < Z.of_nat SGU_CHNS).
Proof.
  intros Hlen. split; [| split; [| split; [| split; [| split]]]].
  - intros index sample. unfold isSampleLoaded.
    destruct (negb (index =? 0)); [eexists; reflexivity |].
    destruct ((sample <? 0) || (sample >? 32767)) eqn:E; [eexists; reflexivity |].
    apply orb_false_elim in E as [E1 E2].
    destruct (lookup_lt_is_Some_2 (sampleLoaded st) (Z.to_nat sample)) as [b Hb].
    + lia.
    + exists b. exact Hb.
  - intros index sample Hi. unfold isSampleLoaded.
    destruct (index =? 0) eqn:E; [lia | reflexivity].
  - intros index sample Hs. unfold isSampleLoaded.
    destruct (negb (index =? 0)); [reflexivity |].
    destruct ((sample <? 0) || (sample >? 32767)) eqn:E; [reflexivity |].
    apply orb_false_elim in E as [E1 E2]. lia.
  - intros index Hi. unfold getSampleMem, getMemCompo.
    destruct (index =? 0) eqn:E; [lia | split; reflexivity].
  - intros Hl ch. apply unchecked_index. exact Hl.
  - intros Hl ch. apply unchecked_index. exact Hl.
Qed.

(** ** [renderSamples] *)

Lemma sameTables_refl x : sameTables x x.
Proof. repeat split. Qed.

(** The tables the loop builds do not depend on the warnings logged so far. *)
Lemma renderLoop_sameTables sysID l : forall i x y,
  sameTables x y -> sameTables (renderLoop sysID i l x) (renderLoop sysID i l y).
Proof.
  induction l as [|s l IH]; intros i x y H; [exact H |].
  destruct x as [m o ld e w p], y as [m' o' ld' e' w' p'].
  destruct H as (Hm & Ho & Hl & He & Hp). cbn in Hm, Ho, Hl, He, Hp. subst m' o' ld' e' p'.
  cbn [renderLoop rs_mem rs_off rs_loaded rs_entries rs_warnings rs_memPos].
  destruct (data8 s) as [data|].
  - destruct (negb (renderOn s sysID)).
    + apply IH. repeat split.
    + destruct (p >=? getSampleMemCapacity 0).
      * repeat split.
      * apply IH. repeat split.
  - apply IH. repeat split.
Qed.

(** C6: [renderSamples] is idempotent.  Invoked a second time with the same
    [sysID] on the same song, it leaves the sample offset table, the loaded
    flags, the sample memory, the used-byte count (and the memory composition
    and the chip's copy of the memory) as the first invocation left them. *)
Theorem renderSamples_idempotent (parent : DivEngine) (sysID : Z) (st : DivPlatformSGU) :
  song_sampleLen parent <= 32768 ->
  let st1 := renderSamples parent sysID st in
  let st2 := renderSamples parent sysID st1 in
  sampleOffSGU st2 = sampleOffSGU st1 /\
  sampleLoaded st2 = sampleLoaded st1 /\
  sampleMem st2 = sampleMem st1 /\
  sampleMemLen st2 = sampleMemLen st1 /\
  memCompo st2 = memCompo st1 /\
  sysIDCache st2 = sysIDCache st1.
Proof.
  intros _. cbn zeta. unfold renderSamples.
  cbn [sampleOffSGU sampleLoaded sampleMem sampleMemLen memCompo sysIDCache].
  match goal with
  | |- context [renderLoop sysID 0 (song_sample parent) (renderInit ?st')] =>
      destruct (renderLoop_sameTables sysID (song_sample parent) 0 (renderInit st')
                  (renderInit st)) as (Hm & Ho & Hl & He & Hp);
        [repeat split |]
  end.
  rewrite Hm, Ho, Hl, He, Hp. repeat split.
Qed.

Lemma capacity_0 : getSampleMemCapacity 0 = SGU_PCM_RAM_SIZE.
Proof. reflexivity. Qed.

(** warnings are only ever appended *)
Lemma renderLoop_warnings sysID l : forall i x,
  exists w, rs_warnings (renderLoop sysID i l x) = rs_warnings x ++ w.
Proof.
  induction l as [|s l IH]; intros i x; [exists []; symmetry; apply app_nil_r |].
  cbn [renderLoop]. destruct (data8 s) as [data|]; [| apply IH].
  destruct (negb (renderOn s sysID)).
  { destruct (IH (S i) {| rs_mem := rs_mem x; rs_off := <[i:=0]> (rs_off x);
        rs_loaded := rs_loaded x; rs_entries := rs_entries x;
        rs_warnings := rs_warnings x; rs_memPos := rs_memPos x |}) as [w Hw].
    exists w. exact Hw. }
  destruct (rs_memPos x >=? getSampleMemCapacity 0); [eexists; reflexivity |].
  match goal with |- context [renderLoop sysID (S i) l ?y] => destruct (IH (S i) y) as [w Hw] end.
  rewrite Hw. cbn [rs_warnings].
  destruct (rs_memPos x + length8 s >=? getSampleMemCapacity 0).
  - exists ([i] ++ w). apply eq_sym, app_assoc.
  - exists w. reflexivity.
Qed.

Lemma app_eq_self {A} (l w : list A) : l ++ w = l -> w = [].
Proof.
  intros H. apply (f_equal length) in H. rewrite length_app in H.
  destruct w; [reflexivity | cbn in H; lia].
Qed.

(** A prefix of the samples that logs no warning did not break out of the
    loop and left room: the loop goes on with the samples after it. *)
Lemma renderLoop_quiet sysID pre : forall i x l,
  rs_memPos x < SGU_PCM_RAM_SIZE ->
  rs_warnings (renderLoop sysID i pre x) = rs_warnings x ->
  rs_memPos (renderLoop sysID i pre x) < SGU_PCM_RAM_SIZE /\
  renderLoop sysID i (pre ++ l) x
  = renderLoop sysID (i + length pre) l (renderLoop sysID i pre x).
Proof.
  induction pre as [|s pre IH]; intros i x l Hroom Hq.
  { cbn. rewrite Nat.add_0_r. split; [exact Hroom | reflexivity]. }
  cbn [renderLoop app length] in *. rewrite Nat.add_succ_r.
  destruct (data8 s) as [data|]; [| apply IH; assumption].
  destruct (negb (renderOn s sysID)); [apply IH; assumption |].
  rewrite capacity_0 in *.
  destruct (rs_memPos x >=? SGU_PCM_RAM_SIZE) eqn:E1; [lia |].
  destruct (rs_memPos x + length8 s >=? SGU_PCM_RAM_SIZE) eqn:E2.
  - exfalso. revert Hq.
    match goal with |- context [renderLoop sysID (S i) pre ?y] =>
      destruct (renderLoop_warnings sysID pre (S i) y) as [w Hw] end.
    rewrite Hw. cbn [rs_warnings]. rewrite <- app_assoc. intros Hq.
    apply app_eq_self in Hq. discriminate.
  - apply IH; cbn [rs_memPos rs_warnings]; [lia | exact Hq].
Qed.

Lemma renderLoop_lengths sysID l : forall i x,
  length (rs_mem (renderLoop sysID i l x)) = length (rs_mem x) /\
  length (rs_off (renderLoop sysID i l x)) = length (rs_off x) /\
  length (rs_loaded (renderLoop sysID i l x)) = length (rs_loaded x).
Proof.
  induction l as [|s l IH]; intros i x; [repeat split |].
  cbn [renderLoop]. destruct (data8 s) as [data|]; [| apply IH].
  destruct (negb (renderOn s sysID)).
  { match goal with |- context [renderLoop sysID (S i) l ?y] =>
      destruct (IH (S i) y) as (-> & -> & ->) end.
    cbn. rewrite length_insert. repeat split. }
  destruct (rs_memPos x >=? getSampleMemCapacity 0); [repeat split |].
  match goal with |- context [renderLoop sysID (S i) l ?y] =>
    destruct (IH (S i) y) as (-> & -> & ->) end.
  cbn [rs_mem rs_off rs_loaded]. unfold memcpy.
  destruct (rs_memPos x + length8 s >=? getSampleMemCapacity 0);
    rewrite ?length_inserts, ?length_insert; repeat split.
Qed.

(** the loop from index [i] over [l] leaves the table entries from
    [i + length l] on alone *)
Lemma renderLoop_later sysID l : forall i x k,
  (i + length l <= k)%nat ->
  rs_off (renderLoop sysID i l x) !! k = rs_off x !! k /\
  rs_loaded (renderLoop sysID i l x) !! k = rs_loaded x !! k.
Proof.
  induction l as [|s l IH]; intros i x k Hk; [split; reflexivity |].
  cbn [renderLoop length] in *. destruct (data8 s) as [data|]; [| apply IH; lia].
  destruct (negb (renderOn s sysID)).
  { match goal with |- context [renderLoop sysID (S i) l ?y] =>
      destruct (IH (S i) y k) as (-> & ->); [lia |] end.
    cbn. rewrite list_lookup_insert_ne by lia. split; reflexivity. }
  destruct (rs_memPos x >=? getSampleMemCapacity 0); [split; reflexivity |].
  match goal with |- context [renderLoop sysID (S i) l ?y] =>
    destruct (IH (S i) y k) as (-> & ->); [lia |] end.
  cbn [rs_off rs_loaded].
  destruct (rs_memPos x + length8 s >=? getSampleMemCapacity 0);
    rewrite ?list_lookup_insert_ne by lia; split; reflexivity.
Qed.

(** once the memory is used up, the rest of the loop changes no table *)
Lemma renderLoop_full sysID l : forall i x,
  SGU_PCM_RAM_SIZE <= rs_memPos x ->
  (forall k, (i <= k)%nat -> (k < length (rs_off x))%nat -> rs_off x !! k = Some 0) ->
  sameTables x (renderLoop sysID i l x).
Proof.
  induction l as [|s l IH]; intros i x Hfull Hz; [apply sameTables_refl |].
  cbn [renderLoop]. destruct (data8 s) as [data|].
  - destruct (negb (renderOn s sysID)).
    + assert (E : <[i:=0]> (rs_off x) = rs_off x).
      { destruct (decide (i < length (rs_off x))%nat) as [Hi | Hi].
        - apply list_insert_id. apply Hz; [lia | exact Hi].
        - apply list_insert_ge. lia. }
      rewrite E.
      replace {| rs_mem := rs_mem x; rs_off := rs_off x; rs_loaded := rs_loaded x;
        rs_entries := rs_entries x; rs_warnings := rs_warnings x; rs_memPos := rs_memPos x |}
        with x by (destruct x; reflexivity).
      apply IH; [exact Hfull |]. intros k Hk. apply Hz. lia.
    + rewrite capacity_0.
      destruct (rs_memPos x >=? SGU_PCM_RAM_SIZE) eqn:E; [| lia].
      repeat split.
  - apply IH; [exact Hfull |]. intros k Hk. apply Hz. lia.
Qed.

Lemma nondecreasing_snoc (l : list Z) (x : Z) :
  nondecreasing l -> (forall a, a ∈ l -> a <= x) -> nondecreasing (l ++ [x]).
Proof.
  intros Hl Hx j k a b Hjk Ha Hb.
  destruct (decide (k < length l)%nat) as [Hk | Hk].
  - rewrite lookup_app_l in Ha, Hb by lia. exact (Hl j k a b Hjk Ha Hb).
  - rewrite lookup_app_r in Hb by lia.
    apply list_lookup_singleton_Some in Hb as [_ <-].
    destruct (decide (j < length l)%nat) as [Hj | Hj].
    + rewrite lookup_app_l in Ha by lia. apply Hx. eapply list_elem_of_lookup_2. exact Ha.
    + rewrite lookup_app_r in Ha by lia.
      apply list_lookup_singleton_Some in Ha as [_ <-]. lia.
Qed.

Lemma entriesInv_weaken i j x y :
  (i <= j)%nat -> sameTables x y -> entriesInv i x -> entriesInv j y.
Proof.
  intros Hij (Hm & Ho & Hl & He & Hp) (H0 & Hnil & Hs & Hf & Ha).
  unfold entriesInv. rewrite <- He, <- Hp, <- Ho.
  split; [exact H0 | split; [exact Hnil | split; [exact Hs | split; [exact Hf |]]]].
  intros e Hin. destruct (Ha e Hin) as (A1 & A2 & A3).
  split; [lia | split; assumption].
Qed.

(** one sample laid out at [memPos] keeps the invariant *)
Lemma entriesInv_place i x len mem' loaded' warn' :
  0 <= len -> (i < length (rs_off x))%nat -> entriesInv i x ->
  entriesInv (S i)
    {| rs_mem := mem'; rs_off := <[i := rs_memPos x]> (rs_off x); rs_loaded := loaded';
       rs_entries := rs_entries x ++ [mkDivMemoryEntry i (rs_memPos x) (rs_memPos x + len)];
       rs_warnings := warn'; rs_memPos := rs_memPos x + len |}.
Proof.
  intros Hlen Hi (H0 & Hnil & Hs & Hf & Ha).
  unfold entriesInv. cbn [rs_memPos rs_entries rs_off].
  split; [lia | split; [| split; [| split]]].
  - intros E. destruct (rs_entries x); discriminate.
  - rewrite fmap_app. apply nondecreasing_snoc; [exact Hs |].
    intros a Hin. apply list_elem_of_fmap in Hin as (e & -> & Hin).
    destruct (Ha e Hin) as (_ & A2 & _). exact A2.
  - intros e He. destruct (rs_entries x) as [|e0 es] eqn:E.
    + cbn in He. injection He as <-. cbn. apply Hnil. reflexivity.
    + cbn in He. injection He as <-. apply Hf. reflexivity.
  - intros e Hin. apply elem_of_app in Hin as [Hin | Hin].
    + destruct (Ha e Hin) as (A1 & A2 & A3).
      split; [lia | split; [lia |]]. rewrite list_lookup_insert_ne by lia. exact A3.
    + apply list_elem_of_singleton in Hin as ->. cbn [me_asset me_begin].
      split; [lia | split; [lia |]]. apply list_lookup_insert_eq. exact Hi.
Qed.

Lemma renderLoop_entries sysID l : forall i x,
  Forall sample_sized l -> (i + length l <= length (rs_off x))%nat ->
  entriesInv i x -> entriesInv (i + length l) (renderLoop sysID i l x).
Proof.
  induction l as [|s l IH]; intros i x Hsz Hlen Hinv.
  { cbn. rewrite Nat.add_0_r. exact Hinv. }
  apply Forall_cons in Hsz as [Hs Hsz]. cbn [length] in Hlen.
  cbn [renderLoop length]. rewrite Nat.add_succ_r.
  unfold sample_sized in Hs. destruct (data8 s) as [data|].
  - destruct (negb (renderOn s sysID)).
    + apply (IH (S i)); [exact Hsz | cbn; rewrite length_insert; lia |].
      destruct Hinv as (H0 & Hnil & Hs' & Hf & Ha).
      split; [exact H0 | split; [exact Hnil | split; [exact Hs' | split; [exact Hf |]]]].
      intros e Hin. destruct (Ha e Hin) as (A1 & A2 & A3). cbn [rs_off rs_memPos].
      split; [lia | split; [exact A2 |]]. rewrite list_lookup_insert_ne by lia. exact A3.
    + destruct (rs_memPos x >=? getSampleMemCapacity 0).
      * eapply entriesInv_weaken; [| | exact Hinv]; [lia | repeat split].
      * apply (IH (S i)); [exact Hsz | cbn; rewrite length_insert; lia |].
        apply entriesInv_place; [lia | lia | exact Hinv].
  - apply (IH (S i)); [exact Hsz | lia |].
    eapply entriesInv_weaken; [| apply sameTables_refl | exact Hinv]. lia.
Qed.

Lemma renderInit_entriesInv st : entriesInv 0 (renderInit st).
Proof.
  unfold entriesInv, renderInit. cbn.
  split; [lia | split; [reflexivity | split; [| split]]].
  - intros j k a b _ Ha. discriminate.
  - intros e He. discriminate.
  - intros e Hin. apply elem_of_nil in Hin. contradiction.
Qed.

(** C7: when a sample is the first whose copy would overrun the sample
    memory (no warning was logged for the samples before it, and its bytes do
    not end below the capacity), [renderSamples] copies exactly the prefix
    that fits, from the current position to the end of the memory, and logs a
    warning for it; the sample's loaded flag stays false; the samples after it
    change neither memory nor tables (its offset and entry are the last ones
    recorded); and the offsets of the samples laid out never decrease, start at
    0, and are the ones found in the offset table. *)
Theorem renderSamples_overflow (parent : DivEngine) (sysID : Z) (st : DivPlatformSGU)
    (pre post : list DivSample) (s : DivSample) (data : list Z) :
  song_sample parent = pre ++ s :: post ->
  song_sampleLen parent <= 32768 ->
  0 < SGU_PCM_RAM_SIZE ->
  Forall sample_sized (song_sample parent) ->
  data8 s = Some data -> renderOn s sysID = true ->
  let x := renderLoop sysID 0 pre (renderInit st) in
  rs_warnings x = warnings st ->
  rs_memPos x + length8 s >= SGU_PCM_RAM_SIZE ->
  let i := length pre in
  let memPos := rs_memPos x in
  let st' := renderSamples parent sysID st in
  (0 <= memPos < SGU_PCM_RAM_SIZE /\
   sampleMem st' = memcpy (rs_mem x) memPos data (SGU_PCM_RAM_SIZE - memPos) /\
   (forall k, 0 <= k < SGU_PCM_RAM_SIZE - memPos ->
      sampleMem st' !! Z.to_nat (memPos + k) = data !! Z.to_nat k) /\
   (forall k, 0 <= k < memPos -> sampleMem st' !! Z.to_nat k = rs_mem x !! Z.to_nat k)) /\
  i ∈ warnings st' /\
  sampleLoaded st' !! i = Some false /\
  (sampleOffSGU st' = <[i := memPos]> (rs_off x) /\
   sampleLoaded st' = rs_loaded x /\
   mc_entries (memCompo st')
     = rs_entries x ++ [mkDivMemoryEntry i memPos (memPos + length8 s)] /\
   sampleMemLen st' = memPos + length8 s /\
   forall k, (i < k)%nat -> Z.of_nat k < 32768 ->
     sampleOffSGU st' !! k = Some 0 /\ sampleLoaded st' !! k = Some false) /\
  (nondecreasing (me_begin <$> mc_entries (memCompo st')) /\
   (forall e, mc_entries (memCompo st') !! 0%nat = Some e -> me_begin e = 0) /\
   (forall e, e ∈ mc_entries (memCompo st') ->
      sampleOffSGU st' !! me_asset e = Some (me_begin e))).
Proof.
  intros Hsong Hlen Hcap Hsz Hdata Hon x Hquiet Hover i memPos st'.
  assert (Hi : Z.of_nat i < 32768).
  { unfold song_sampleLen in Hlen. rewrite Hsong, length_app in Hlen. cbn in Hlen.
    subst i. lia. }
  assert (Hx0 : rs_memPos (renderInit st) < SGU_PCM_RAM_SIZE) by exact Hcap.
  (* the loop reaches sample [i] with room left *)
  destruct (renderLoop_quiet sysID pre 0 (renderInit st) (s :: post) Hx0 Hquiet)
    as [Hroom Hsplit].
  destruct (renderLoop_quiet sysID pre 0 (renderInit st) [s] Hx0 Hquiet) as [_ Hsplit1].
  fold x in Hroom, Hsplit, Hsplit1. cbn [Nat.add] in Hsplit, Hsplit1. fold i in Hsplit, Hsplit1.
  fold memPos in Hroom.
  (* lengths of the tables *)
  destruct (renderLoop_lengths sysID pre 0 (renderInit st)) as (Lm & Lo & Ll).
  fold x in Lm, Lo, Ll. cbn [renderInit rs_mem rs_off rs_loaded] in Lm, Lo, Ll.
  rewrite length_replicate in Lm. rewrite length_replicate in Lo.
  rewrite length_replicate in Ll.
  (* the entries before sample [i] *)
  assert (Hsz' : Forall sample_sized pre /\ sample_sized s).
  { rewrite Hsong in Hsz. apply Forall_app in Hsz as [H1 H2].
    apply Forall_cons in H2 as [H2 _]. split; assumption. }
  destruct Hsz' as [Hszpre Hszs].
  assert (Hinv : entriesInv i x).
  { apply (renderLoop_entries sysID pre 0 (renderInit st)); [exact Hszpre | | apply renderInit_entriesInv].
    cbn [renderInit rs_off]. rewrite length_replicate. fold i. lia. }
  assert (Hlen8 : length8 s = Z.of_nat (length data)).
  { unfold sample_sized in Hszs. rewrite Hdata in Hszs. exact Hszs. }
  (* the state after sample [i] *)
  set (x1 := {| rs_mem := memcpy (rs_mem x) memPos data (SGU_PCM_RAM_SIZE - memPos);
                rs_off := <[i := memPos]> (rs_off x);
                rs_loaded := rs_loaded x;
                rs_entries := rs_entries x ++ [mkDivMemoryEntry i memPos (memPos + length8 s)];
                rs_warnings := rs_warnings x ++ [i];
                rs_memPos := memPos + length8 s |}).
  assert (Hstep : forall l, renderLoop sysID i (s :: l) x = renderLoop sysID (S i) l x1).
  { intros l. cbn [renderLoop]. rewrite Hdata, Hon. cbn [negb]. rewrite capacity_0.
    fold memPos.
    destruct (memPos >=? SGU_PCM_RAM_SIZE) eqn:E1; [lia |].
    destruct (memPos + length8 s >=? SGU_PCM_RAM_SIZE) eqn:E2; [reflexivity | lia]. }
  assert (Hinv1 : entriesInv (S i) x1).
  { apply (entriesInv_place i x (length8 s)); [lia | lia | exact Hinv]. }
  destruct Hinv as (Hpos & _).
  (* the table entries from [i] on are still zero *)
  assert (Hlater : forall k, (i <= k)%nat -> Z.of_nat k < 32768 ->
            rs_off x !! k = Some 0 /\ rs_loaded x !! k = Some false).
  { intros k Hk Hk2.
    destruct (renderLoop_later sysID pre 0 (renderInit st) k) as [E1 E2]; [fold i; lia |].
    fold x in E1, E2. rewrite E1, E2. cbn [renderInit rs_off rs_loaded].
    split; apply lookup_replicate_2; lia. }
  (* the samples after [i] change nothing *)
  assert (Hfull : sameTables x1 (renderLoop sysID (S i) post x1)).
  { apply renderLoop_full; [cbn; lia |].
    intros k Hk Hkl. cbn [x1 rs_off] in *. rewrite length_insert in Hkl.
    rewrite list_lookup_insert_ne by lia. apply Hlater; lia. }
  destruct Hfull as (Fm & Fo & Fl & Fe & Fp).
  destruct (renderLoop_warnings sysID post (S i) x1) as [w Hw].
  assert (Hfinal : renderLoop sysID 0 (song_sample parent) (renderInit st)
                   = renderLoop sysID (S i) post x1).
  { rewrite Hsong, Hsplit. apply Hstep. }
  subst st'. unfold renderSamples.
  cbn [sampleMem sampleOffSGU sampleLoaded sampleMemLen memCompo warnings mc_entries].
  rewrite Hfinal, <- Fm, <- Fo, <- Fl, <- Fe, <- Fp, Hw.
  cbn [x1 rs_mem rs_off rs_loaded rs_entries rs_memPos rs_warnings].
  split; [| split; [| split; [| split]]].
  - split; [lia | split; [reflexivity | split]].
    + intros k Hk. unfold memcpy.
      rewrite list_lookup_inserts.
      * rewrite lookup_take_lt by lia. f_equal. lia.
      * rewrite length_take_le by lia. lia.
      * lia.
    + intros k Hk. unfold memcpy. apply list_lookup_inserts_lt. lia.
  - apply elem_of_app. left. apply elem_of_app. right. apply list_elem_of_singleton. reflexivity.
  - apply Hlater; [lia | exact Hi].
  - split; [reflexivity | split; [reflexivity | split; [reflexivity | split; [reflexivity |]]]].
    intros k Hk Hk2. rewrite list_lookup_insert_ne by lia. apply Hlater; [lia | exact Hk2].
  - destruct Hinv1 as (_ & _ & Hs1 & Hf1 & Ha1). cbn [x1 rs_entries rs_off] in Hs1, Hf1, Ha1.
    split; [exact Hs1 | split; [exact Hf1 |]].
    intros e Hin. apply (Ha1 e Hin).
Qed.

End Properties.

(** * Further properties *)

Section MoreProperties.
Context {hdr : SguHeader} {core : SguCore}.

(** ** Statements over small integer ranges, settled by evaluation *)

Lemma land_ones_range x n : 0 <= n -> 0 <= Z.land x (Z.ones n) < 2 ^ n.
Proof. intros Hn. rewrite Z.land_ones by exact Hn. apply Z.mod_pos_bound. lia. Qed.

(** Exhaustive checking of a statement quantified over bounded integers. *)
Lemma forallb_zrange (m : Z) (P : Z -> bool) :
  forallb P (zrange m) = true -> forall x, 0 <= x < m -> P x = true.
Proof.
  intros H x Hx. rewrite forallb_forall in H. apply H.
  apply in_map_iff. exists (Z.to_nat x). split; [lia |]. apply in_seq. lia.
Qed.

#[local] Instance checks_eq (x y : Z) : Checks (x = y) (x =? y).
Proof. intros H. apply Z.eqb_eq. exact H. Qed.

#[local] Instance checks_le (x y : Z) : Checks (x <= y) (x <=? y).
Proof. intros H. apply Z.leb_le. exact H. Qed.

#[local] Instance checks_and (P Q : Prop) (a b : bool) :
  Checks P a -> Checks Q b -> Checks (P /\ Q) (a && b).
Proof. intros HP HQ H. apply andb_true_iff in H as [H1 H2]. split; [apply HP | apply HQ]; assumption. Qed.

#[local] Instance checks_forall (m : Z) (P : Z -> Prop) (b : Z -> bool) :
  (forall x, Checks (P x) (b x)) -> Checks (forall x, 0 <= x < m -> P x) (forallb b (zrange m)).
Proof. intros Hb H x Hx. apply Hb. apply forallb_zrange with (m := m); assumption. Qed.

(** Name a masked field of the source and keep its range only. *)
Ltac bound_field x m n :=
  lazymatch x with
  | context [Z.land] => fail
  | context [u8] => fail
  | _ =>
    let H := fresh "H" in
    assert (H : 0 <= Z.land x m < 2 ^ n) by (apply (land_ones_range x n); lia);
    generalize dependent (Z.land x m); intros
  end.

Ltac close_bounded :=
  repeat match goal with
  | H : 0 <= ?x < _ |- _ =>
      lazymatch goal with
      | |- context [x] => revert x H
      | |- _ => clear H; try clear x
      end
  end.

Ltac exhaust := eapply checks; vm_compute; reflexivity.

(** ** [applyOpRegs]: the registers decode to the operator fields *)

Lemma drop_emitted l r r' :
  emits l r r' -> skipRegisterWrites r = false -> drop (length (writes r)) (writes r') = l.
Proof.
  intros [_ E] Hs. rewrite E, Hs. apply drop_app_length.
Qed.

Lemma applyOpRegs_decode (ch : Z) (o : nat) (c : Channel) (r : Regs) :
  skipRegisterWrites r = false ->
  let ws := opRegsWritten ch o (c, r) in
  w_addr <$> ws =
    (fun k => u16 (ch * SGU_REGS_PER_CH + Z.of_nat o * SGU_OP_REGS + k))
      <$> [0; 1; 2; 3; 4; 5; 6; 7] /\
  decodeOpRegs (w_val <$> ws) = opFieldsOf c o /\
  (applyOpRegs ch o (c, r)).1 = c.
Proof.
  intros Hs ws. subst ws.
  split; [| split; [| reflexivity]].
  - unfold opRegsWritten. erewrite drop_emitted; [| | exact Hs].
    2:{ unfold applyOpRegs. cbn [fst snd]. cbn zeta. unfold opWrite.
        do 8 (eapply (emits_app _ [_]); [| apply emits_rWrite]). apply emits_nil. }
    reflexivity.
  - unfold opRegsWritten. erewrite drop_emitted; [| | exact Hs].
    2:{ unfold applyOpRegs. cbn [fst snd]. cbn zeta. unfold opWrite.
        do 8 (eapply (emits_app _ [_]); [| apply emits_rWrite]). apply emits_nil. }
    unfold opFieldsOf. cbn zeta.
    set (op := nth4 o (fm_op (state_fm c))).
    set (opE := nth4 o (esfm_op (state_esfm c))).
    cbn [app fmap list_fmap w_val QueuedWrite_new].
    unfold decodeOpRegs, field. cbn [lookup_total list_lookup_total].
    change (Z.land 0 7) with 0. destruct (op_enable op).
    all: repeat match goal with
      | |- context [Z.land ?x ?m] =>
          lazymatch m with
          | 1 => bound_field x 1 1 | 3 => bound_field x 3 2 | 7 => bound_field x 7 3
          | 15 => bound_field x 15 4 | 31 => bound_field x 31 5 | 127 => bound_field x 127 7
          end
      end.
    all: f_equal; close_bounded; exhaust.
Qed.

(** X1: with register writes enabled, [applyOpRegs(ch,o)] queues exactly
    eight writes, to registers 0..7 of operator [o] of channel [ch] in that
    order; decoding the eight values by the bit layout of the register sheet
    gives back every operator field as [applyOpRegs] masks it, and the
    channel record is left as it was. *)
Theorem applyOpRegs_roundtrip (ch : Z) (o : nat) (c : Channel) (r : Regs) :
  skipRegisterWrites r = false ->
  let ws := opRegsWritten ch o (c, r) in
  w_addr <$> ws =
    (fun k => u16 (ch * SGU_REGS_PER_CH + Z.of_nat o * SGU_OP_REGS + k))
      <$> [0; 1; 2; 3; 4; 5; 6; 7] /\
  decodeOpRegs (w_val <$> ws) = opFieldsOf c o /\
  (applyOpRegs ch o (c, r)).1 = c.
Proof. apply applyOpRegs_decode. Qed.

(** ** Volume scaling *)

(** A function that never decreases from one argument to the next never
    decreases. *)
Lemma steps_mono (f : Z -> Z) (n : Z) :
  (forall x, 0 <= x < n -> f x <= f (x + 1)) ->
  forall x y, 0 <= x -> x <= y -> y <= n -> f x <= f y.
Proof.
  intros Hf x y Hx Hxy Hy.
  replace y with (x + Z.of_nat (Z.to_nat (y - x))) in * by lia.
  induction (Z.to_nat (y - x)) as [|k IH].
  - replace (x + Z.of_nat 0) with x by lia. lia.
  - etransitivity; [apply IH; lia |].
    replace (x + Z.of_nat (S k)) with (x + Z.of_nat k + 1) by lia.
    apply Hf. lia.
Qed.

Lemma CLAMP_mono x y lo hi : x <= y -> CLAMP x lo hi <= CLAMP y lo hi.
Proof.
  intros H. unfold CLAMP, MIN, MAX.
  destruct (x >? lo) eqn:?, (y >? lo) eqn:?;
    repeat match goal with |- context [if ?b then _ else _] => destruct b eqn:? end; lia.
Qed.

Lemma CLAMP_id x lo hi : lo <= x <= hi -> CLAMP x lo hi = x.
Proof.
  intros H. unfold CLAMP, MIN, MAX.
  destruct (x >? lo) eqn:E1.
  - destruct (x <? hi) eqn:E2; lia.
  - destruct (lo <? hi) eqn:E2; lia.
Qed.

Lemma CLAMP_idem x lo hi : lo <= hi -> CLAMP (CLAMP x lo hi) lo hi = CLAMP x lo hi.
Proof. intros H. apply CLAMP_id. apply CLAMP_range. exact H. Qed.

Lemma sguOpllScaleVol_clamped parent cv mv :
  sguOpllScaleVol parent cv mv = sguOpllScaleVol parent (CLAMP cv 0 127) (CLAMP mv 0 15).
Proof. unfold sguOpllScaleVol. rewrite !CLAMP_idem by lia. reflexivity. Qed.

(** [sguOpllScaleVol] on a channel volume and a macro volume that are already
    within 0..127 and 0..15. *)
Lemma sguOpllScaleVol_steps parent :
  (forall b, 0 <= b < 128 -> forall m, 0 <= m < 16 ->
     0 <= sguOpllScaleVol parent b m <= 127 /\
     sguOpllScaleVol parent b m <= sguOpllScaleVol parent (b + 1) m /\
     sguOpllScaleVol parent b m <= sguOpllScaleVol parent b (m + 1)) /\
  (forall b, 0 <= b < 128 -> sguOpllScaleVol parent b 0 = 0) /\
  (forall m, 0 <= m < 16 -> sguOpllScaleVol parent 0 m = 0) /\
  sguOpllScaleVol parent 127 15 = 127.
Proof.
  unfold sguOpllScaleVol, sguVolScaleLogBroken, sguVolScaleLinear, sguVolScaleLog.
  destruct (newVolumeScaling parent), (ceilVolumeScaling parent);
    (split; [| split; [| split]]); exhaust.
Qed.

(** X2: the OPLL volume scaling [sguOpllScaleVol] yields a level in 0..127
    under either scaling rule, never decreases when the channel volume or the
    macro volume grows, is 0 when one of the two is not positive, and is 127
    for a channel volume of at least 127 with a macro volume of at least 15. *)
Theorem sguOpllScaleVol_bounded_monotone (parent : DivEngine) (chanVol macroVol : Z) :
  0 <= sguOpllScaleVol parent chanVol macroVol <= 127 /\
  (forall chanVol' macroVol', chanVol <= chanVol' -> macroVol <= macroVol' ->
     sguOpllScaleVol parent chanVol macroVol <= sguOpllScaleVol parent chanVol' macroVol') /\
  (chanVol <= 0 \/ macroVol <= 0 -> sguOpllScaleVol parent chanVol macroVol = 0) /\
  (127 <= chanVol -> 15 <= macroVol -> sguOpllScaleVol parent chanVol macroVol = 127).
Proof.
  destruct (sguOpllScaleVol_steps parent) as (St & Zm & Zc & Full).
  pose proof (CLAMP_range chanVol 0 127 ltac:(lia)) as Hc.
  pose proof (CLAMP_range macroVol 0 15 ltac:(lia)) as Hm.
  split; [| split; [| split]].
  - rewrite sguOpllScaleVol_clamped. apply St; lia.
  - intros cv' mv' H1 H2.
    rewrite (sguOpllScaleVol_clamped _ chanVol), (sguOpllScaleVol_clamped _ cv').
    pose proof (CLAMP_range cv' 0 127 ltac:(lia)) as Hc'.
    pose proof (CLAMP_range mv' 0 15 ltac:(lia)) as Hm'.
    pose proof (CLAMP_mono _ _ 0 127 H1) as M1.
    pose proof (CLAMP_mono _ _ 0 15 H2) as M2.
    transitivity (sguOpllScaleVol parent (CLAMP cv' 0 127) (CLAMP macroVol 0 15)).
    + apply (steps_mono (fun b => sguOpllScaleVol parent b (CLAMP macroVol 0 15)) 127);
        [| lia | lia | lia].
      intros x Hx. apply St; lia.
    + apply (steps_mono (fun m => sguOpllScaleVol parent (CLAMP cv' 0 127) m) 15);
        [| lia | lia | lia].
      intros x Hx. apply St; lia.
  - intros [H | H]; rewrite sguOpllScaleVol_clamped.
    + replace (CLAMP chanVol 0 127) with 0; [apply Zc; lia |].
      unfold CLAMP, MIN, MAX.
      destruct (chanVol >? 0) eqn:?; [lia |]. reflexivity.
    + replace (CLAMP macroVol 0 15) with 0; [apply Zm; lia |].
      unfold CLAMP, MIN, MAX.
      destruct (macroVol >? 0) eqn:?; [lia |]. reflexivity.
  - intros H1 H2. rewrite sguOpllScaleVol_clamped.
    replace (CLAMP chanVol 0 127) with 127; [replace (CLAMP macroVol 0 15) with 15; [exact Full |] |].
    + unfold CLAMP, MIN, MAX. destruct (macroVol >? 0) eqn:?; [| lia].
      destruct (macroVol <? 15) eqn:?; lia.
    + unfold CLAMP, MIN, MAX. destruct (chanVol >? 0) eqn:?; [| lia].
      destruct (chanVol <? 127) eqn:?; lia.
Qed.

(** ** A tick with nothing to do *)

Lemma upd4_nth4_id {A} (o : nat) (v : Arr4 A) : upd4 o (fun _ => nth4 o v) v = v.
Proof. destruct v. do 4 (destruct o as [|o]; [reflexivity |]). reflexivity. Qed.

Lemma set_fm_op_id fm : set_fm_op (fm_op fm) fm = fm.
Proof. destruct fm. reflexivity. Qed.

Lemma set_esfm_op_id e : set_esfm_op (esfm_op e) e = e.
Proof. destruct e. reflexivity. Qed.

Lemma set_state_fm_id c : set_state_fm (state_fm c) c = c.
Proof. destruct c. reflexivity. Qed.

Lemma set_state_esfm_id c : set_state_esfm (state_esfm c) c = c.
Proof. destruct c. reflexivity. Qed.

Lemma tickOpMacros_quiet isO o m x : quietOp m = true -> tickOpMacros isO o m x = (x, false).
Proof.
  unfold quietOp. intros H. apply negb_true_iff in H.
  repeat (apply orb_false_iff in H as [H ?]).
  unfold tickOpMacros. destruct x as [op opE].
  repeat match goal with E : had _ = false |- _ => rewrite E; clear E end.
  reflexivity.
Qed.

Lemma tickOperator_quiet isO i m s o :
  quietOp (nth4 o (std_op m)) = true -> tickOperator isO i m s o = s.
Proof.
  intros H. destruct s as [c r]. unfold tickOperator.
  rewrite tickOpMacros_quiet by exact H.
  rewrite !upd4_nth4_id, set_fm_op_id, set_esfm_op_id, set_state_fm_id, set_state_esfm_id.
  reflexivity.
Qed.

Lemma tickChannel_idle parent offs clock sysTick i m c r :
  idleChannel parent sysTick m c ->
  tickChannel parent offs clock sysTick i m (c, r) = (c, r).
Proof.
  intros (Q & Arp & Sl & F & K1 & K2).
  unfold quietMacros in Q.
  repeat (apply andb_true_iff in Q as [Q ?]).
  apply negb_true_iff in Q. repeat (apply orb_false_iff in Q as [Q ?]).
  unfold tickChannel, tickMacros. cbn zeta.
  assert (S0 : (if sysTick then tickSlides i (c, r) else (c, r)) = (c, r)).
  { destruct sysTick; [| reflexivity]. destruct Sl as [S1 S2]; [reflexivity |].
    unfold tickSlides. rewrite S1. change (negb (0 =? 0)) with false. cbv iota beta.
    rewrite S2. reflexivity. }
  rewrite S0. clear S0.
  unfold tickVolume. rewrite Q.
  assert (A0 : onChannel (tickArp parent m) (c, r) = (c, r)).
  { unfold onChannel, tickArp. cbn [fst snd].
    destruct (NEW_ARP_STRAT parent) eqn:E; [rewrite Arp by reflexivity; reflexivity |].
    match goal with E : had (std_arp m) = false |- _ => rewrite E end. reflexivity. }
  rewrite A0. clear A0.
  unfold tickDuty, tickWave, tickPhaseReset, tickPan, onChannel, tickPitch, tickEx1, tickEx2,
    tickEx3, tickEx4, tickFb, tickOpllDepth.
  repeat match goal with E : had _ = false |- _ => rewrite E; clear E end.
  cbn [fst snd orb]. rewrite andb_false_r.
  cbn [foldl]. rewrite !tickOperator_quiet by assumption.
  unfold tickKeyFreq. rewrite F, K1, K2. reflexivity.
Qed.

(** X3: when every channel is idle (no macro produced a value, no slide is
    in progress on a system tick, no frequency change or key edge is pending,
    and the arpeggio handler leaves the channel alone), [tick] changes
    nothing: no channel field and no register. *)
Theorem tick_idle (parent : DivEngine) (sysTick : bool) (ms : list DivMacroInt)
    (st : DivPlatformSGU) :
  (forall i c m, chan st !! i = Some c -> ms !! i = Some m -> idleChannel parent sysTick m c) ->
  tick parent sysTick ms st = st.
Proof.
  intros H. unfold tick.
  induction (seq 0 SGU_CHNS) as [|i l IH]; [reflexivity |].
  cbn [foldl].
  assert (E : tickOne parent sysTick ms st i = st); [| rewrite E; exact IH].
  unfold tickOne.
  destruct (chan st !! i) as [c|] eqn:Ec; [| reflexivity].
  destruct (ms !! i) as [m|] eqn:Em; [| reflexivity].
  rewrite tickChannel_idle by (eapply H; eassumption).
  cbn [fst snd]. rewrite list_insert_id by exact Ec.
  destruct st. reflexivity.
Qed.

(** ** The writes of a channel stay in its registers *)

Lemma inChannel_chW i a v : 0 <= a < 32 -> inChannel i (chW i a v).
Proof.
  intros Ha. exists (SGU_CH_BASE + a). split; [unfold SGU_REGS_PER_CH, SGU_CH_BASE, SGU_OP_PER_CH, SGU_OP_REGS; lia |].
  unfold chW, QueuedWrite_new. cbn [w_addr]. f_equal. lia.
Qed.

Lemma inChannel_opW i o a v :
  0 <= o * SGU_OP_REGS + a < 32 ->
  inChannel i (QueuedWrite_new (i * SGU_REGS_PER_CH + o * SGU_OP_REGS + a) v).
Proof.
  intros Ha. exists (o * SGU_OP_REGS + a). split; [unfold SGU_REGS_PER_CH; lia |].
  unfold QueuedWrite_new. cbn [w_addr]. f_equal. lia.
Qed.

Lemma confined_refl i s : confined i s s.
Proof. exists []. split; [apply emits_nil | constructor]. Qed.

Lemma confined_trans i s1 s2 s3 : confined i s1 s2 -> confined i s2 s3 -> confined i s1 s3.
Proof.
  intros (l1 & A & FA) (l2 & B & FB). exists (l1 ++ l2).
  split; [eapply emits_app; eassumption | apply Forall_app; split; assumption].
Qed.

Lemma confined_chWrite i a v c r : 0 <= a < 32 -> confined i (c, r) (c, chWrite i a v r).
Proof.
  intros Ha. exists [chW i a v]. split; [apply emits_chWrite |].
  constructor; [apply inChannel_chW; exact Ha | constructor].
Qed.

Lemma confined_opWrite i o a v c r :
  0 <= o * SGU_OP_REGS + a < 32 -> confined i (c, r) (c, opWrite i o a v r).
Proof.
  intros Ha. eexists. split; [apply emits_rWrite |].
  constructor; [apply inChannel_opW; exact Ha | constructor].
Qed.

Lemma confined_channel i c c' r : confined i (c, r) (c', r).
Proof. apply (confined_refl i (c, r)). Qed.

(** a channel register offset *)
Ltac ch_side := cbv; split; [discriminate | reflexivity].

Lemma confined_writeControl i s : confined i s (writeControl i s).
Proof. destruct s as [c r]. apply confined_chWrite. ch_side. Qed.

Lemma confined_writeControlUpper i s : confined i s (writeControlUpper i s).
Proof.
  destruct s as [c r]. unfold writeControlUpper. cbn [fst snd].
  apply (confined_trans i _ (c, chWrite i SGU1_CHN_FLAGS1 (flags1 c) r)).
  - apply confined_chWrite. ch_side.
  - apply confined_channel.
Qed.

Lemma confined_applyOpRegs i o s : (o < 4)%nat -> confined i s (applyOpRegs i o s).
Proof.
  intros Ho. destruct s as [c r]. unfold applyOpRegs. cbn [fst snd].
  repeat (eapply confined_trans;
            [| apply confined_opWrite; unfold SGU_OP_REGS; lia]).
  apply confined_refl.
Qed.

(** Decompose a goal along the calls that produced the final state. *)
Ltac cf :=
  cbn zeta;
  lazymatch goal with
  | |- confined _ ?s ?s => apply confined_refl
  | |- confined _ _ (applyOpRegs _ _ _) =>
      eapply confined_trans; [| apply confined_applyOpRegs; lia]; cf
  | |- confined _ _ (writeControl _ _) =>
      eapply confined_trans; [| apply confined_writeControl]; cf
  | |- confined _ _ (writeControlUpper _ _) =>
      eapply confined_trans; [| apply confined_writeControlUpper]; cf
  | |- confined _ _ (_, chWrite _ _ _ _) =>
      eapply confined_trans; [| apply confined_chWrite; ch_side]; cf
  | |- confined _ (_, ?r) (_, ?r) => apply confined_channel
  end.

Ltac cf_cases :=
  repeat match goal with
  | |- context [if ?b then _ else _] => destruct b
  end; cf.

Lemma confined_tickSlides i s : confined i s (tickSlides i s).
Proof.
  destruct s as [c r]. unfold tickSlides.
  destruct (negb (pw_slide c =? 0));
    match goal with |- context [if negb (?a =? 0) then _ else _] => destruct (negb (a =? 0)) end;
    cf.
Qed.

Lemma confined_tickVolume parent isA isO i m s :
  confined i s (tickVolume parent isA isO i m s).
Proof.
  destruct s as [c r]. unfold tickVolume.
  destruct (had (std_vol m)); [| cf].
  destruct isA, isO; cf.
Qed.

Lemma confined_tickDuty i m s : confined i s (tickDuty i m s).
Proof. destruct s as [c r]. unfold tickDuty. destruct (had (std_duty m)); cf. Qed.

Lemma confined_tickWave i m s : confined i s (tickWave i m s).
Proof. destruct s as [c r]. unfold tickWave. destruct (had (std_wave m)); cf. Qed.

Lemma confined_tickPhaseReset i m s : confined i s (tickPhaseReset i m s).
Proof. destruct s as [c r]. unfold tickPhaseReset. destruct (had (std_phaseReset m)); cf. Qed.

Lemma confined_tickPan i m s : confined i s (tickPan i m s).
Proof. destruct s as [c r]. unfold tickPan. destruct (had (std_panL m)); cf. Qed.

Lemma confined_tickEx1 i m s : confined i s (tickEx1 i m s).
Proof. destruct s as [c r]. unfold tickEx1. destruct (had (std_ex1 m)); cf. Qed.

Lemma confined_tickEx2 i m s : confined i s (tickEx2 i m s).
Proof. destruct s as [c r]. unfold tickEx2. destruct (had (std_ex2 m)); cf. Qed.

Lemma confined_tickEx3 i m s : confined i s (tickEx3 i m s).
Proof. destruct s as [c r]. unfold tickEx3. destruct (had (std_ex3 m)); cf. Qed.

Lemma confined_tickEx4 i m s : confined i s (tickEx4 i m s).
Proof. destruct s as [c r]. unfold tickEx4. destruct (had (std_ex4 m)); cf. Qed.

Lemma confined_tickFb i m s : confined i s (tickFb i m s).
Proof. destruct s as [c r]. unfold tickFb. destruct (had (std_fb m)); cf. Qed.

Lemma confined_foldl i (f : ChanRegs -> nat -> ChanRegs) l :
  (forall s o, (o < 4)%nat -> confined i s (f s o)) ->
  Forall (fun o => (o < 4)%nat) l ->
  forall s, confined i s (foldl f s l).
Proof.
  intros Hf. induction l as [|o l IH]; intros Hl s; [apply confined_refl |].
  apply Forall_cons in Hl as [Ho Hl].
  cbn [foldl]. eapply confined_trans; [apply Hf; exact Ho | apply IH; exact Hl].
Qed.

Lemma confined_tickOpllDepthOp i s o :
  (o < 4)%nat -> confined i s (tickOpllDepthOp i s o).
Proof. intros Ho. destruct s as [c r]. unfold tickOpllDepthOp. cbn [fst snd]. cf. Qed.

Lemma confined_tickOpllDepth isO i m s : confined i s (tickOpllDepth isO i m s).
Proof.
  destruct s as [c r]. unfold tickOpllDepth.
  destruct (isO && (had (std_fms m) || had (std_ams m))); [| cf].
  eapply confined_trans;
    [| apply confined_foldl;
         [intros; apply confined_tickOpllDepthOp; assumption
         | repeat constructor; lia ]].
  destruct (had (std_fms m)), (had (std_ams m)); cf.
Qed.

Lemma confined_tickOperator isO i m s o :
  (o < 4)%nat -> confined i s (tickOperator isO i m s o).
Proof.
  intros Ho. destruct s as [c r]. unfold tickOperator.
  destruct (tickOpMacros _ _ _ _) as [[op opE] d].
  destruct d; cf.
Qed.

Lemma confined_onChannel i (f : Channel -> Channel) s : confined i s (onChannel f s).
Proof. destruct s as [c r]. apply confined_channel. Qed.

(** Chain the steps of a sequence of calls, given a lemma for each. *)
Ltac cf_step lem := eapply confined_trans; [| apply lem].

Lemma confined_tickMacros parent sysTick i m s :
  confined i s (tickMacros parent sysTick i m s).
Proof.
  unfold tickMacros. cbn zeta.
  eapply confined_trans;
    [| apply confined_foldl;
         [intros; apply confined_tickOperator; assumption | repeat constructor; lia ]].
  cf_step confined_tickOpllDepth. cf_step confined_tickFb. cf_step confined_tickEx4.
  cf_step confined_tickEx3. cf_step confined_tickEx2. cf_step confined_tickEx1.
  cf_step confined_onChannel. cf_step confined_tickPan. cf_step confined_tickPhaseReset.
  cf_step confined_tickWave. cf_step confined_tickDuty. cf_step confined_onChannel.
  cf_step confined_tickVolume.
  destruct sysTick; [apply confined_tickSlides | apply confined_refl].
Qed.

Lemma confined_tickPcmKeyOn parent offs i s : confined i s (tickPcmKeyOn parent offs i s).
Proof.
  destruct s as [c r]. unfold tickPcmKeyOn.
  destruct (getSample parent (sample c)) as [smp|]; [| cf].
  destruct ((sample c >=? 0) && (sample c <? song_sampleLen parent)); [| cf].
  cbn zeta. destruct (isLoopable smp); cf.
Qed.

Lemma confined_tickKeyOffEdge i s : confined i s (tickKeyOffEdge i s).
Proof.
  destruct s as [c r]. unfold tickKeyOffEdge.
  destruct (keyOn c || keyOff c); [| cf].
  unfold writeControl. cbn [fst snd].
  destruct (keyOff (set_key false c) && pcm (set_key false c)); cf.
Qed.

Lemma confined_tickKeyOnEdge parent offs i s : confined i s (tickKeyOnEdge parent offs i s).
Proof.
  destruct s as [c r]. unfold tickKeyOnEdge.
  destruct (keyOn c) eqn:Kon.
  - unfold writeControl. cbv beta iota zeta. cbn [fst snd].
    change (keyOn (set_key true c)) with (keyOn c). rewrite Kon.
    destruct (pcm (set_key true c)).
    + pose proof (confined_tickPcmKeyOn parent offs i
                    (set_key true c, chWrite i SGU1_CHN_FLAGS0 (flags0 (set_key true c)) r))
        as H.
      destruct (tickPcmKeyOn _ _ _ _) as [c2 r2].
      eapply confined_trans; [| apply (confined_channel i c2)].
      eapply confined_trans; [| exact H]. cf.
    + cbv beta iota zeta. change (keyOn (set_key true c)) with (keyOn c). rewrite Kon. cf.
  - cbv beta iota zeta. rewrite Kon. cbv beta iota zeta. rewrite Kon. cf.
Qed.

Lemma confined_tickKeyFreq parent offs clk i s : confined i s (tickKeyFreq parent offs clk i s).
Proof.
  destruct s as [c r]. unfold tickKeyFreq.
  destruct (freqChanged c || keyOn c || keyOff c); [| cf].
  pose proof (confined_tickKeyOffEdge i (c, r)) as H.
  destruct (tickKeyOffEdge i (c, r)) as [c1 r1].
  cbn zeta. cf_step confined_tickKeyOnEdge.
  eapply confined_trans; [exact H |]. cf.
Qed.

Lemma tickChannel_confined parent offs clk sysTick i m s :
  confined i s (tickChannel parent offs clk sysTick i m s).
Proof.
  unfold tickChannel. cf_step confined_tickKeyFreq. apply confined_tickMacros.
Qed.

Lemma tick_prefix_confined parent sysTick ms st n :
  exists ls : list (list QueuedWrite),
    length ls = n /\
    emits (concat ls) (regs st) (regs (foldl (tickOne parent sysTick ms) st (seq 0 n))) /\
    forall i l, ls !! i = Some l -> Forall (inChannel (Z.of_nat i)) l.
Proof.
  induction n as [|n (ls & Hlen & Hem & Hin)].
  - exists []. split; [reflexivity |]. split; [apply emits_nil |].
    intros i l H. discriminate H.
  - rewrite seq_S, foldl_app. cbn [foldl plus].
    set (st' := foldl (tickOne parent sysTick ms) st (seq 0 n)) in *.
    assert (Hstep : exists l, emits l (regs st') (regs (tickOne parent sysTick ms st' n)) /\
                              Forall (inChannel (Z.of_nat n)) l).
    { unfold tickOne.
      destruct (chan st' !! n) as [c|]; [| exists []; split; [apply emits_nil | constructor]].
      destruct (ms !! n) as [m|]; [| exists []; split; [apply emits_nil | constructor]].
      cbn [regs].
      apply (tickChannel_confined parent (sampleOffSGU st') (chipClock st') sysTick
               (Z.of_nat n) m (c, regs st')). }
    destruct Hstep as (l & Hl & Fl).
    exists (ls ++ [l]). split; [rewrite length_app; cbn; lia |]. split.
    + rewrite concat_app. cbn [concat]. rewrite app_nil_r.
      eapply emits_app; eassumption.
    + intros i l' H. apply lookup_app_Some in H as [H | [H1 H2]].
      * eapply Hin; exact H.
      * rewrite Hlen in H2. destruct (i - n)%nat as [|k] eqn:E; [| destruct k; discriminate H2].
        cbn in H2. injection H2 as <-. replace i with n by lia. exact Fl.
Qed.

(** X4: the writes [tick] queues are one group per channel, in channel
    order, and every write of the group of channel [i] goes to one of the 64
    registers of channel [i]. *)
Theorem tick_confined (parent : DivEngine) (sysTick : bool) (ms : list DivMacroInt)
    (st : DivPlatformSGU) :
  exists ls : list (list QueuedWrite),
    length ls = SGU_CHNS /\
    emits (concat ls) (regs st) (regs (tick parent sysTick ms st)) /\
    forall i l, ls !! i = Some l -> Forall (inChannel (Z.of_nat i)) l.
Proof. apply tick_prefix_confined. Qed.

Lemma confined_commitC64Channel ch ins s : confined ch s (commitC64Channel ch ins s).
Proof.
  destruct s as [c r]. unfold commitC64Channel. cbn zeta.
  repeat match goal with
  | |- context [if ?b then _ else _] =>
      lazymatch b with
      | context [if _ then _ else _] => fail
      | _ => destruct b
      end
  end; cbv beta iota zeta; unfold writeControl; cbn [fst snd]; cf.
Qed.

Lemma confined_commitState (ch : Z) (ins : option DivInstrument) (s : ChanRegs) :
  confined ch s (commitState ch ins s).
Proof.
  destruct ins as [ins|]; [| apply confined_refl].
  unfold commitState. destruct s as [c r].
  destruct (isAmiga ins); cbv beta iota zeta; [cf |].
  assert (H : forall fm esfm, confined ch (set_pcm false c, r)
                (convertAlgorithm ch ins fm esfm (set_pcm false c, r)).2).
  { intros fm esfm. unfold convertAlgorithm.
    destruct (ins_type ins); cbn [snd];
      try apply confined_refl;
      try (destruct (routeTwoOp _ _); apply confined_refl);
      apply confined_commitC64Channel. }
  specialize (H (convertOperators ins (ins_fm ins)) (ins_esfm ins)).
  destruct (convertAlgorithm _ _ _ _ _) as [[fm esfm] [c2 r2]]. cbn [snd] in H.
  cbn [foldl]. do 4 (eapply confined_trans; [| apply confined_applyOpRegs; lia]).
  eapply confined_trans; [| apply (confined_channel ch c2)].
  eapply confined_trans; [| exact H]. apply confined_channel.
Qed.

(** X5: every write [commitState(ch,ins)] queues goes to one of the 64
    registers of channel [ch], whatever the instrument. *)
Theorem commitState_confined (ch : Z) (ins : option DivInstrument) (s : ChanRegs) :
  exists l, emits l s.2 (commitState ch ins s).2 /\ Forall (inChannel ch) l.
Proof. apply confined_commitState. Qed.

(** ** The oscilloscope calls of [acquire] *)

Lemma oscAll_prefix (call : nat -> OscCall) (osc : list (list OscCall)) n i :
  foldl (fun (osc : list (list OscCall)) i => alter (fun b => b ++ [call i]) i osc) osc (seq 0 n) !! i =
    if decide (i < n)%nat then (fun b => b ++ [call i]) <$> osc !! i else osc !! i.
Proof.
  induction n as [|n IH].
  - destruct (decide (i < 0)%nat); [lia | reflexivity].
  - rewrite seq_S, foldl_app. cbn [foldl plus].
    destruct (decide (i = n)) as [-> | Hne].
    + rewrite list_lookup_alter_eq, IH.
      destruct (decide (n < n)%nat); [lia |]. destruct (decide (n < S n)%nat); [| lia].
      reflexivity.
    + rewrite list_lookup_alter_ne by congruence. rewrite IH.
      destruct (decide (i < n)%nat), (decide (i < S n)%nat); try lia; reflexivity.
Qed.

Lemma oscAll_lookup (call : nat -> OscCall) osc i :
  oscAll call osc !! i =
    if decide (i < SGU_CHNS)%nat then (fun b => b ++ [call i]) <$> osc !! i else osc !! i.
Proof. apply oscAll_prefix. Qed.

Lemma acquireFrame_osc a h :
  aq_osc (acquireFrame a h) =
    oscAll (fun i => OscPutSample h (SGU_GetSample (aq_sgu (acquireFrame a h)) (Z.of_nat i)))
      (aq_osc a).
Proof.
  unfold acquireFrame. destruct (drainWrites _ _) as [q g].
  destruct (SGU_NextSample g (aq_lr a)) as [g' [l r]]. reflexivity.
Qed.

Lemma acquireFrames_osc n a i b :
  (i < SGU_CHNS)%nat -> aq_osc a !! i = Some b ->
  aq_osc (acquireFrames n a) !! i =
    Some (b ++ ((fun h => OscPutSample h (SGU_GetSample (aq_sgu (acquireFrames (S h) a))
                                            (Z.of_nat i))) <$> seq 0 n)).
Proof.
  intros Hi Hb. induction n as [|n IH].
  - cbn. rewrite app_nil_r. exact Hb.
  - rewrite acquireFrames_S at 1. rewrite acquireFrame_osc, oscAll_lookup.
    destruct (decide (i < SGU_CHNS)%nat); [| lia].
    rewrite IH. cbn [fmap option_fmap option_map].
    rewrite seq_S, fmap_app, app_assoc. cbn [fmap list_fmap plus].
    rewrite <- acquireFrames_S. reflexivity.
Qed.

(** X6: [acquire] makes these calls on the oscilloscope buffer of every
    channel [i]: [begin(len)], then for each frame [h] in order
    [putSample(h,SGU_GetSample(sgu,i))] with the core as it is after frame
    [h], then [end(len)]; what the buffer held before is kept. *)
Theorem acquire_oscilloscope (buf0 buf1 : list Z) (len : nat) (st : DivPlatformSGU)
    (i : nat) (b : list OscCall) :
  (i < SGU_CHNS)%nat -> oscBuf st !! i = Some b ->
  let a := acquireInit buf0 buf1 len st in
  oscBuf (acquire buf0 buf1 len st).2 !! i =
    Some (b ++ [OscBegin len]
            ++ ((fun h => OscPutSample h (SGU_GetSample (aq_sgu (acquireFrames (S h) a))
                                            (Z.of_nat i))) <$> seq 0 len)
            ++ [OscEnd len]).
Proof.
  intros Hi Hb. cbn zeta. unfold acquire. cbn [snd oscBuf].
  rewrite oscAll_lookup. destruct (decide (i < SGU_CHNS)%nat); [| lia].
  rewrite (acquireFrames_osc len _ i (b ++ [OscBegin len])); [| exact Hi |].
  - cbn [fmap option_fmap option_map]. rewrite <- !app_assoc. reflexivity.
  - unfold acquireInit. cbn [aq_osc]. rewrite oscAll_lookup.
    destruct (decide (i < SGU_CHNS)%nat); [| lia]. rewrite Hb. reflexivity.
Qed.

(** ** [renderSamples]: loaded samples and the memory composition *)

Lemma loadedInv_weaken parent sysID i j x :
  (i <= j)%nat -> loadedInv parent sysID i x -> loadedInv parent sysID j x.
Proof.
  intros Hij (H0 & Hl & Hll & Ho & Hld).
  split; [exact H0 | split; [exact Hl | split; [exact Hll | split]]].
  - intros k v Hk Hv. destruct (Ho k v Hk Hv) as [A B]. split; [lia | exact B].
  - intros k Hk. destruct (Hld k Hk) as [A B]. split; [lia | exact B].
Qed.

(** bytes below the position written to are kept *)
Lemma storedAt_below parent sysID mem mem' k off pos :
  storedAt parent sysID mem k off ->
  (forall s data, song_sample parent !! k = Some s -> data8 s = Some data ->
     off + Z.of_nat (length data) <= pos) ->
  (forall p, (p < Z.to_nat pos)%nat -> mem' !! p = mem !! p) ->
  storedAt parent sysID mem' k off.
Proof.
  intros (s & data & A1 & A2 & A3 & A4 & A5 & A6) Hb Hsame.
  exists s, data. repeat split; try assumption.
  intros j Hj. specialize (Hb s data A1 A2). rewrite Hsame by lia. apply A6. exact Hj.
Qed.

Lemma renderLoop_loadedInv parent sysID l : forall i x,
  Forall sample_sized l ->
  (forall j s, l !! j = Some s -> song_sample parent !! (i + j)%nat = Some s) ->
  loadedInv parent sysID i x ->
  loadedInv parent sysID (i + length l) (renderLoop sysID i l x).
Proof.
  induction l as [|s l IH]; intros i x Hsz Hsong Hinv.
  { cbn. rewrite Nat.add_0_r. exact Hinv. }
  apply Forall_cons in Hsz as [Hs Hsz].
  assert (Hsi : song_sample parent !! i = Some s).
  { specialize (Hsong 0%nat s eq_refl). rewrite Nat.add_0_r in Hsong. exact Hsong. }
  assert (Hsong' : forall j s', l !! j = Some s' -> song_sample parent !! (S i + j)%nat = Some s').
  { intros j s' Hj. specialize (Hsong (S j) s' Hj).
    replace (S i + j)%nat with (i + S j)%nat by lia. exact Hsong. }
  cbn [renderLoop length]. rewrite Nat.add_succ_r.
  unfold sample_sized in Hs. destruct (data8 s) as [data|] eqn:Hdata.
  2:{ apply (IH (S i)); [exact Hsz | exact Hsong' |].
      apply (loadedInv_weaken _ _ i); [lia | exact Hinv]. }
  destruct Hinv as (H0 & Hl & Hll & Ho & Hld).
  destruct (renderOn s sysID) eqn:Hon; cbn [negb].
  - rewrite capacity_0.
    destruct (rs_memPos x >=? SGU_PCM_RAM_SIZE) eqn:E1.
    { apply (loadedInv_weaken _ _ i); [lia |].
      split; [exact H0 | split; [exact Hl | split; [exact Hll | split; assumption]]]. }
    apply (IH (S i)); [exact Hsz | exact Hsong' |].
    assert (Hkeep : forall n p, (p < Z.to_nat (rs_memPos x))%nat ->
              memcpy (rs_mem x) (rs_memPos x) data n !! p = rs_mem x !! p).
    { intros n p Hp. unfold memcpy. apply list_lookup_inserts_lt. exact Hp. }
    split; [cbn; lia | split; [| split; [| split]]].
    + cbn [rs_mem]. unfold memcpy.
      destruct (rs_memPos x + length8 s >=? SGU_PCM_RAM_SIZE);
        rewrite length_inserts; exact Hl.
    + cbn [rs_loaded rs_off].
      destruct (rs_memPos x + length8 s >=? SGU_PCM_RAM_SIZE);
        rewrite ?length_insert; exact Hll.
    + cbn [rs_off]. intros k v Hk Hv.
      destruct (decide (k = i)) as [-> | Hne].
      * split; [lia |]. exists s, data. repeat split; assumption.
      * rewrite list_lookup_insert_ne in Hk by congruence.
        destruct (Ho k v Hk Hv) as [A B]. split; [lia | exact B].
    + cbn [rs_loaded rs_off rs_memPos rs_mem]. intros k Hk.
      assert (Hold : rs_loaded x !! k = Some true ->
        (k < S i)%nat /\ exists off,
          <[i := rs_memPos x]> (rs_off x) !! k = Some off /\
          (forall n, storedAt parent sysID (memcpy (rs_mem x) (rs_memPos x) data n) k off) /\
          forall s0 d0, song_sample parent !! k = Some s0 -> data8 s0 = Some d0 ->
            off + Z.of_nat (length d0) <= rs_memPos x + length8 s).
      { intros Hk'. destruct (Hld k Hk') as (A & off & B1 & B2 & B3).
        split; [lia |]. exists off. rewrite list_lookup_insert_ne by lia.
        split; [exact B1 | split].
        - intros n. eapply storedAt_below; [exact B2 | exact B3 | apply Hkeep].
        - intros s0 d0 Hs0 Hd0. specialize (B3 s0 d0 Hs0 Hd0). lia. }
      destruct (rs_memPos x + length8 s >=? SGU_PCM_RAM_SIZE) eqn:E2.
      * destruct (Hold Hk) as (A & off & B1 & B2 & B3).
        split; [exact A |]. exists off. split; [exact B1 | split; [apply B2 | exact B3]].
      * destruct (decide (k = i)) as [-> | Hne].
        -- split; [lia |]. exists (rs_memPos x).
           assert (Hi : (i < length (rs_off x))%nat \/ (length (rs_off x) <= i)%nat) by lia.
           assert (Hil : (i < length (rs_loaded x))%nat).
           { apply lookup_lt_Some in Hk. rewrite length_insert in Hk. exact Hk. }
           split; [| split].
           ++ apply list_lookup_insert_eq. lia.
           ++ exists s, data. repeat split; try assumption; [lia |].
              intros j Hj. unfold memcpy. rewrite take_ge by lia.
              rewrite list_lookup_inserts by lia. f_equal. lia.
           ++ intros s0 d0 Hs0 Hd0. rewrite Hsi in Hs0. injection Hs0 as <-.
              rewrite Hdata in Hd0. injection Hd0 as <-. lia.
        -- rewrite list_lookup_insert_ne in Hk by congruence.
           destruct (Hold Hk) as (A & off & B1 & B2 & B3).
           split; [exact A |]. exists off. split; [exact B1 | split; [apply B2 | exact B3]].
  - apply (IH (S i)); [exact Hsz | exact Hsong' |].
    split; [exact H0 | split; [exact Hl | split; [| split]]].
    + cbn [rs_loaded rs_off]. rewrite length_insert. exact Hll.
    + cbn [rs_off]. intros k v Hk Hv.
      destruct (decide (k = i)) as [-> | Hne].
      * destruct (decide (i < length (rs_off x))%nat) as [Hi | Hi].
        -- rewrite list_lookup_insert_eq in Hk by exact Hi. congruence.
        -- rewrite list_insert_ge in Hk by lia. destruct (Ho i v Hk Hv) as [A _]. lia.
      * rewrite list_lookup_insert_ne in Hk by congruence.
        destruct (Ho k v Hk Hv) as [A B]. split; [lia | exact B].
    + cbn [rs_loaded rs_off rs_mem rs_memPos]. intros k Hk.
      destruct (Hld k Hk) as (A & off & B1 & B2 & B3).
      split; [lia |]. exists off. rewrite list_lookup_insert_ne by lia.
      split; [exact B1 | split; [exact B2 | exact B3]].
Qed.

Lemma renderInit_loadedInv parent sysID st : loadedInv parent sysID 0 (renderInit st).
Proof.
  unfold loadedInv, renderInit. cbn [rs_memPos rs_mem rs_off rs_loaded].
  split; [lia | split; [apply length_replicate | split; [| split]]].
  - rewrite !length_replicate. reflexivity.
  - intros k v Hk Hv. apply lookup_replicate in Hk as [-> _]. congruence.
  - intros k Hk. apply lookup_replicate in Hk as [? _]. discriminate.
Qed.

(** X7: after [renderSamples], a sample whose loaded flag is set has all of
    its bytes in sample memory from its recorded offset, ending below the
    capacity: no later sample was copied over it. *)
Theorem renderSamples_loaded_intact (parent : DivEngine) (sysID : Z) (st : DivPlatformSGU)
    (k : nat) :
  Forall sample_sized (song_sample parent) ->
  let st' := renderSamples parent sysID st in
  sampleLoaded st' !! k = Some true ->
  exists off,
    sampleOffSGU st' !! k = Some off /\ storedAt parent sysID (sampleMem st') k off.
Proof.
  intros Hsz st' Hk.
  destruct (renderLoop_loadedInv parent sysID (song_sample parent) 0 (renderInit st) Hsz)
    as (_ & _ & _ & _ & Hld); [intros j s Hj; exact Hj | apply renderInit_loadedInv |].
  destruct (Hld k Hk) as (_ & off & B1 & B2 & _).
  exists off. split; [exact B1 | exact B2].
Qed.

(** A loaded flag or a nonzero offset belongs to a rendered sample before
    [i]. *)
Lemma renderLoop_rendered parent sysID l : forall i x,
  (forall j s, l !! j = Some s -> song_sample parent !! (i + j)%nat = Some s) ->
  (forall k, rs_loaded x !! k = Some true \/ (exists v, rs_off x !! k = Some v /\ v <> 0) ->
     rendered parent sysID k) ->
  forall k,
    rs_loaded (renderLoop sysID i l x) !! k = Some true \/
    (exists v, rs_off (renderLoop sysID i l x) !! k = Some v /\ v <> 0) ->
    rendered parent sysID k.
Proof.
  induction l as [|s l IH]; intros i x Hsong Hinv; [exact Hinv |].
  assert (Hsi : song_sample parent !! i = Some s).
  { specialize (Hsong 0%nat s eq_refl). rewrite Nat.add_0_r in Hsong. exact Hsong. }
  assert (Hsong' : forall j s', l !! j = Some s' -> song_sample parent !! (S i + j)%nat = Some s').
  { intros j s' Hj. specialize (Hsong (S j) s' Hj).
    replace (S i + j)%nat with (i + S j)%nat by lia. exact Hsong. }
  cbn [renderLoop]. destruct (data8 s) as [data|] eqn:Hdata; [| apply (IH (S i)); assumption].
  destruct (renderOn s sysID) eqn:Hon; cbn [negb].
  - destruct (rs_memPos x >=? getSampleMemCapacity 0); [exact Hinv |].
    apply (IH (S i)); [exact Hsong' |]. cbn [rs_loaded rs_off]. intros k Hk.
    destruct (decide (k = i)) as [-> | Hne]; [exists s, data; repeat split; assumption |].
    apply Hinv. destruct Hk as [Hk | (v & Hk & Hv)].
    + left. destruct (rs_memPos x + length8 s >=? getSampleMemCapacity 0); [exact Hk |].
      rewrite list_lookup_insert_ne in Hk by congruence. exact Hk.
    + right. exists v. rewrite list_lookup_insert_ne in Hk by congruence. split; assumption.
  - apply (IH (S i)); [exact Hsong' |]. cbn [rs_loaded rs_off]. intros k Hk.
    apply Hinv. destruct Hk as [Hk | (v & Hk & Hv)]; [left; exact Hk |].
    right. exists v. split; [| exact Hv].
    destruct (decide (k = i)) as [-> | Hne].
    + destruct (decide (i < length (rs_off x))%nat) as [Hi | Hi].
      * rewrite list_lookup_insert_eq in Hk by exact Hi. congruence.
      * rewrite list_insert_ge in Hk by lia. exact Hk.
    + rewrite list_lookup_insert_ne in Hk by congruence. exact Hk.
Qed.

(** X8: a sample that is missing from the song, has no 8-bit data or is not
    rendered on this system is left not loaded with offset 0 by
    [renderSamples], and [isSampleLoaded(0,k)] answers false for it. *)
Theorem renderSamples_skipped (parent : DivEngine) (sysID : Z) (st : DivPlatformSGU)
    (k : nat) :
  (forall s, song_sample parent !! k = Some s -> data8 s = None \/ renderOn s sysID = false) ->
  Z.of_nat k < 32768 ->
  let st' := renderSamples parent sysID st in
  sampleLoaded st' !! k = Some false /\ sampleOffSGU st' !! k = Some 0 /\
  isSampleLoaded 0 (Z.of_nat k) st' = Some false.
Proof.
  intros Hk Hlt st'.
  assert (Hno : ~ rendered parent sysID k).
  { intros (s & data & H1 & H2 & H3). destruct (Hk s H1) as [E | E]; congruence. }
  pose proof (renderLoop_rendered parent sysID (song_sample parent) 0 (renderInit st)) as Hr.
  specialize (Hr (fun j s Hj => Hj)).
  assert (H0 : forall k, rs_loaded (renderInit st) !! k = Some true \/
                 (exists v, rs_off (renderInit st) !! k = Some v /\ v <> 0) ->
                 rendered parent sysID k).
  { intros k' [H | (v & H & Hv)]; cbn [renderInit rs_loaded rs_off] in H;
      apply lookup_replicate in H as [? _]; congruence. }
  specialize (Hr H0 k).
  destruct (renderLoop_lengths sysID (song_sample parent) 0 (renderInit st)) as (_ & Lo & Ll).
  cbn [renderInit rs_off rs_loaded] in Lo, Ll.
  rewrite length_replicate in Lo. rewrite length_replicate in Ll.
  assert (A : sampleLoaded st' !! k = Some false).
  { subst st'. unfold renderSamples. cbn [sampleLoaded].
    destruct (lookup_lt_is_Some_2 (rs_loaded (renderLoop sysID 0 (song_sample parent)
                (renderInit st))) k) as [b Hb]; [lia |].
    destruct b; [| exact Hb]. exfalso. apply Hno, Hr. left. exact Hb. }
  split; [exact A | split].
  - subst st'. unfold renderSamples. cbn [sampleOffSGU].
    destruct (lookup_lt_is_Some_2 (rs_off (renderLoop sysID 0 (song_sample parent)
                (renderInit st))) k) as [v Hv]; [lia |].
    destruct (decide (v = 0)) as [-> | Hne]; [exact Hv |].
    exfalso. apply Hno, Hr. right. exists v. split; assumption.
  - unfold isSampleLoaded. cbn [negb Z.eqb].
    destruct ((Z.of_nat k <? 0) || (Z.of_nat k >? 32767)) eqn:E; [reflexivity |].
    rewrite Nat2Z.id. exact A.
Qed.

Lemma tiles_snoc p es e q :
  tiles p es (me_begin e) -> me_begin e <= me_end e -> q = me_end e -> tiles p (es ++ [e]) q.
Proof.
  revert p. induction es as [|e0 es IH]; intros p H Hle ->; cbn in *.
  - split; [congruence | split; [lia | reflexivity]].
  - destruct H as (A & B & C). split; [exact A | split; [exact B |]]. apply IH; auto.
Qed.

Lemma renderLoop_tiles parent sysID l : forall i x,
  Forall sample_sized l ->
  (forall j s, l !! j = Some s -> song_sample parent !! (i + j)%nat = Some s) ->
  let inv (x : RenderState) :=
    tiles 0 (rs_entries x) (rs_memPos x) /\
    forall e, e ∈ rs_entries x ->
      0 <= me_begin e < SGU_PCM_RAM_SIZE /\
      exists s, song_sample parent !! me_asset e = Some s /\
                me_end e = me_begin e + length8 s in
  0 <= rs_memPos x -> inv x -> inv (renderLoop sysID i l x).
Proof.
  induction l as [|s l IH]; intros i x Hsz Hsong inv H0 Hinv; [exact Hinv |].
  apply Forall_cons in Hsz as [Hs Hsz].
  assert (Hsi : song_sample parent !! i = Some s).
  { specialize (Hsong 0%nat s eq_refl). rewrite Nat.add_0_r in Hsong. exact Hsong. }
  assert (Hsong' : forall j s', l !! j = Some s' -> song_sample parent !! (S i + j)%nat = Some s').
  { intros j s' Hj. specialize (Hsong (S j) s' Hj).
    replace (S i + j)%nat with (i + S j)%nat by lia. exact Hsong. }
  cbn [renderLoop]. unfold sample_sized in Hs.
  destruct (data8 s) as [data|] eqn:Hdata; [| apply (IH (S i)); assumption].
  destruct (renderOn s sysID) eqn:Hon; cbn [negb].
  - rewrite capacity_0. destruct (rs_memPos x >=? SGU_PCM_RAM_SIZE) eqn:E1; [exact Hinv |].
    apply (IH (S i)); [exact Hsz | exact Hsong' | cbn; lia |].
    destruct Hinv as [T A]. split; cbn [rs_entries rs_memPos].
    + apply tiles_snoc; cbn [me_begin me_end]; [exact T | lia | reflexivity].
    + intros e He. apply elem_of_app in He as [He | He]; [apply A; exact He |].
      apply list_elem_of_singleton in He as ->. cbn [me_begin me_end me_asset].
      split; [lia |]. exists s. split; [exact Hsi | reflexivity].
  - apply (IH (S i)); [exact Hsz | exact Hsong' | exact H0 | exact Hinv].
Qed.

(** X9: the memory composition [renderSamples] builds has entries that lie
    end to end from 0 to [used], [used] is the sample memory length, the
    capacity is the PCM RAM size, and every entry begins below the capacity
    and is as long as the sample it names. *)
Theorem renderSamples_entries_tile (parent : DivEngine) (sysID : Z) (st : DivPlatformSGU) :
  Forall sample_sized (song_sample parent) ->
  let mc := memCompo (renderSamples parent sysID st) in
  tiles 0 (mc_entries mc) (mc_used mc) /\
  mc_used mc = sampleMemLen (renderSamples parent sysID st) /\
  mc_capacity mc = SGU_PCM_RAM_SIZE /\
  forall e, e ∈ mc_entries mc ->
    0 <= me_begin e < SGU_PCM_RAM_SIZE /\
    exists s, song_sample parent !! me_asset e = Some s /\
              me_end e = me_begin e + length8 s.
Proof.
  intros Hsz mc.
  destruct (renderLoop_tiles parent sysID (song_sample parent) 0 (renderInit st) Hsz)
    as [T A]; [intros j s Hj; exact Hj | cbn; lia | |].
  { split; [reflexivity |]. intros e He. apply elem_of_nil in He. contradiction. }
  subst mc. unfold renderSamples. cbn [memCompo mc_entries mc_used mc_capacity sampleMemLen].
  split; [exact T | split; [reflexivity | split; [reflexivity | exact A]]].
Qed.

(** ** PCM key-on *)

Lemma pcm_clamp (x : Z) :
  0 < SGU_PCM_RAM_SIZE <= 65536 -> 0 <= x ->
  (if x >=? SGU_PCM_RAM_SIZE then u32 (SGU_PCM_RAM_SIZE - 1) else x)
  = Z.min x (SGU_PCM_RAM_SIZE - 1).
Proof.
  intros Hc Hx. destruct (x >=? SGU_PCM_RAM_SIZE) eqn:E.
  - unfold u32. rewrite Z.mod_small by lia. lia.
  - lia.
Qed.

Lemma u32_nonneg x : 0 <= u32 x.
Proof. unfold u32. apply Z.mod_pos_bound. lia. Qed.

Lemma byte_pair (e : Z) :
  0 <= e < 65536 ->
  u8 (Z.land e 255) + 256 * u8 (Z.shiftr e 8) = e.
Proof.
  intros He. change 255 with (Z.ones 8). rewrite Z.land_ones by lia.
  rewrite Z.shiftr_div_pow2 by lia. change (2 ^ 8) with 256. unfold u8.
  rewrite Z.mod_mod by lia.
  rewrite (Z.mod_small (e / 256)) by (split; [apply Z.div_pos; lia | apply Z.div_lt_upper_bound; lia]).
  pose proof (Z.div_mod e 256). lia.
Qed.

(** X23: on key-on of a PCM channel with a valid sample, [tick] queues the
    start offset, then the end address in PCM_END_L and PCM_END_H, then for a
    loopable sample the restart address in PCM_RST_L and PCM_RST_H, then
    FLAGS1; the end and the restart address are clamped below the sample
    memory capacity and their two bytes recombine to them.  The start offset
    is not clamped.  [hasOffset] is consumed and [pcmLoop] follows the
    sample. *)
Theorem tick_pcm_key_on_window (parent : DivEngine) (offs : list Z) (i : Z) (c : Channel)
    (r : Regs) (smp : DivSample) :
  getSample parent (sample c) = Some smp ->
  0 <= sample c < song_sampleLen parent ->
  0 < SGU_PCM_RAM_SIZE <= 65536 ->
  let s' := tickPcmKeyOn parent offs i (c, r) in
  let base := offs !!! Z.to_nat (sample c) in
  let off := u32 (base + hasOffset c) in
  let e := Z.min (u32 (base + getLoopEndPosition smp)) (SGU_PCM_RAM_SIZE - 1) in
  let l := Z.min (u32 (base + getLoopStartPosition smp)) (SGU_PCM_RAM_SIZE - 1) in
  let endL := chW i SGU1_CHN_PCM_END_L (Z.land e 255) in
  let endH := chW i SGU1_CHN_PCM_END_H (Z.shiftr e 8) in
  let rstL := chW i SGU1_CHN_PCM_RST_L (Z.land l 255) in
  let rstH := chW i SGU1_CHN_PCM_RST_H (Z.shiftr l 8) in
  0 <= e < SGU_PCM_RAM_SIZE /\ w_val endL + 256 * w_val endH = e /\
  0 <= l < SGU_PCM_RAM_SIZE /\ w_val rstL + 256 * w_val rstH = l /\
  hasOffset s'.1 = 0 /\ pcmLoop s'.1 = isLoopable smp /\
  exists v1,
    emits ([chW i SGU1_CHN_PCM_POS_L (Z.land off 255); chW i SGU1_CHN_PCM_POS_H (Z.shiftr off 8);
            endL; endH]
             ++ (if isLoopable smp then [rstL; rstH] else [])
             ++ [chW i SGU1_CHN_FLAGS1 v1])
      r s'.2.
Proof.
  intros Hs Hn Hc. cbn zeta.
  set (base := offs !!! Z.to_nat (sample c)).
  pose proof (u32_nonneg (base + getLoopEndPosition smp)) as He.
  pose proof (u32_nonneg (base + getLoopStartPosition smp)) as Hl.
  split; [lia |]. split; [rewrite !chW_val; apply byte_pair; lia |].
  split; [lia |]. split; [rewrite !chW_val; apply byte_pair; lia |].
  unfold tickPcmKeyOn. rewrite Hs.
  replace ((sample c >=? 0) && (sample c <? song_sampleLen parent)) with true
    by (symmetry; apply andb_true_iff; split; lia).
  cbn zeta. fold base.
  rewrite !pcm_clamp by (try exact Hc; apply u32_nonneg).
  destruct (isLoopable smp); unfold writeControlUpper; cbn [fst snd].
  - split; [reflexivity |]. split; [reflexivity |]. eexists.
    cbn [app]. do 6 (eapply (emits_app [_]); [apply emits_chWrite |]). apply emits_chWrite.
  - split; [reflexivity |]. split; [reflexivity |]. eexists.
    cbn [app]. do 4 (eapply (emits_app [_]); [apply emits_chWrite |]). apply emits_chWrite.
Qed.

(** ** Slides *)

(** X24: the pulse-width and cutoff slides of [tick] saturate: after a
    pulse-width slide the virtual duty is in 0..4095 and the duty written to
    the DUTY register is its upper seven bits, in 0..127; after a cutoff slide
    the cutoff is in 0..65535 and the two bytes written to CUTOFF_L and
    CUTOFF_H recombine to it.  A slide of 0 changes and writes nothing. *)
Theorem tick_slides_saturate (i : Z) (c : Channel) (r : Regs) :
  let s' := tickSlides i (c, r) in
  let vd := CLAMP (s16 (virtual_duty c - pw_slide c)) 0 4095 in
  let cut := CLAMP (cutoff c + cutoff_slide c * 16) 0 65535 in
  let cutL := chW i SGU1_CHN_CUTOFF_L (Z.land cut 255) in
  let cutH := chW i SGU1_CHN_CUTOFF_H (Z.shiftr cut 8) in
  0 <= vd <= 4095 /\ 0 <= vd / 32 <= 127 /\ 0 <= cut <= 65535 /\
  w_val cutL + 256 * w_val cutH = cut /\
  virtual_duty s'.1 = (if pw_slide c =? 0 then virtual_duty c else vd) /\
  duty s'.1 = (if pw_slide c =? 0 then duty c else vd / 32) /\
  cutoff s'.1 = (if cutoff_slide c =? 0 then cutoff c else cut) /\
  emits ((if pw_slide c =? 0 then [] else [chW i SGU1_CHN_DUTY (vd / 32)])
           ++ (if cutoff_slide c =? 0 then [] else [cutL; cutH]))
    r s'.2.
Proof.
  cbn zeta.
  pose proof (CLAMP_range (s16 (virtual_duty c - pw_slide c)) 0 4095 ltac:(lia)) as Hvd.
  pose proof (CLAMP_range (cutoff c + cutoff_slide c * 16) 0 65535 ltac:(lia)) as Hcut.
  set (vd := CLAMP (s16 (virtual_duty c - pw_slide c)) 0 4095) in *.
  set (cut := CLAMP (cutoff c + cutoff_slide c * 16) 0 65535) in *.
  assert (Hd : 0 <= vd / 32 <= 127)
    by (split; [apply Z.div_pos; lia | apply Z.lt_succ_r, Z.div_lt_upper_bound; lia]).
  split; [exact Hvd |]. split; [exact Hd |]. split; [exact Hcut |].
  split; [rewrite !chW_val; apply byte_pair; lia |].
  unfold tickSlides.
  destruct (pw_slide c =? 0) eqn:P; destruct (cutoff_slide c =? 0) eqn:Q;
    cbn [negb fst snd virtual_duty duty cutoff cutoff_slide pw_slide set_virtual_duty set_duty
         set_cutoff]; rewrite ?Q; cbn [negb];
    cbn [fst snd virtual_duty duty cutoff cutoff_slide pw_slide set_virtual_duty set_duty
         set_cutoff]; fold vd; fold cut;
    rewrite ?(s16_small vd) by lia;
    rewrite ?Z.shiftr_div_pow2 by lia; change (2 ^ 5) with 32;
    rewrite ?(u8_small (vd / 32)) by lia.
  - do 3 (split; [reflexivity |]). apply emits_nil.
  - do 3 (split; [reflexivity |]). cbn [app].
    eapply (emits_app [_]); [apply emits_chWrite |]. apply emits_chWrite.
  - do 3 (split; [reflexivity |]). apply emits_chWrite.
  - do 3 (split; [reflexivity |]). cbn [app].
    do 2 (eapply (emits_app [_]); [apply emits_chWrite |]). apply emits_chWrite.
Qed.

Section CommandProperties.
Context {mi : MacroInt} {env : DispatchEnv}.

(** ** [poke] *)

Lemma pokeList_snoc l w r :
  pokeList (l ++ [w]) r = rWrite (rw_addr w) (rw_val w) (pokeList l r).
Proof. unfold pokeList. rewrite foldl_app. reflexivity. Qed.

Lemma lastQueued_snoc a l w :
  lastQueued a (l ++ [w]) = if w_addr w =? a then Some (w_val w) else lastQueued a l.
Proof. unfold lastQueued. rewrite foldl_app. reflexivity. Qed.

Lemma pokeList_skip l r : skipRegisterWrites r = true -> pokeList l r = r.
Proof.
  intros Hs. induction l as [|w l IH] using rev_ind; [reflexivity |].
  rewrite pokeList_snoc, IH. unfold rWrite. rewrite Hs. reflexivity.
Qed.

(** X10: [poke(wlist)] with register writes enabled and 16-bit addresses
    queues the writes of the list in order, keeps the length of the register
    pool, and leaves in every pool register the value of the last write of
    the list to it, or its old value when the list has none. *)
Theorem pokeList_mirror (wlist : list DivRegWrite) (r : Regs) :
  skipRegisterWrites r = false ->
  Forall (fun w => 0 <= rw_addr w < 65536) wlist ->
  let r' := pokeList wlist r in
  let new := (fun w => QueuedWrite_new (rw_addr w) (rw_val w)) <$> wlist in
  writes r' = writes r ++ new /\
  length (regPool r') = length (regPool r) /\
  forall k, Z.of_nat k < SGU_REG_POOL_SIZE ->
    regPool r' !! k =
      match lastQueued (Z.of_nat k) new with
      | Some v => (fun _ => v) <$> regPool r !! k
      | None => regPool r !! k
      end.
Proof.
  intros Hs Hw. cbn zeta.
  induction wlist as [|w l IH] using rev_ind.
  { cbn. rewrite app_nil_r. repeat split. }
  apply Forall_app in Hw as [Hl Hw]. apply Forall_cons in Hw as [Hw _].
  destruct (IH Hl) as (Iq & Ilen & Ipool). clear IH.
  assert (Hs' : skipRegisterWrites (pokeList l r) = false).
  { clear - Hs. induction l as [|w l IH] using rev_ind; [exact Hs |].
    rewrite pokeList_snoc. unfold rWrite. rewrite IH. reflexivity. }
  rewrite pokeList_snoc, fmap_app. cbn [fmap list_fmap].
  unfold rWrite at 1 2 3. rewrite Hs'. cbn [writes regPool].
  split; [| split].
  - unfold push. rewrite Iq, <- app_assoc. reflexivity.
  - destruct (rw_addr w <? SGU_REG_POOL_SIZE); rewrite ?length_insert; exact Ilen.
  - intros k Hk. rewrite lastQueued_snoc. unfold QueuedWrite_new at 1 2. cbn [w_addr w_val].
    rewrite (u16_small (rw_addr w)) by exact Hw.
    destruct (rw_addr w =? Z.of_nat k) eqn:E.
    + apply Z.eqb_eq in E. rewrite E.
      destruct (Z.of_nat k <? SGU_REG_POOL_SIZE) eqn:E2; [| lia].
      rewrite Nat2Z.id.
      destruct (decide (k < length (regPool (pokeList l r)))%nat) as [Hlt | Hge].
      * rewrite list_lookup_insert_eq by exact Hlt.
        destruct (lookup_lt_is_Some_2 (regPool r) k) as [v Hv]; [lia |].
        rewrite Hv. reflexivity.
      * rewrite list_insert_ge by lia.
        rewrite (lookup_ge_None_2 (regPool (pokeList l r))) by lia.
        rewrite (lookup_ge_None_2 (regPool r)) by lia. reflexivity.
    + apply Z.eqb_neq in E.
      destruct (rw_addr w <? SGU_REG_POOL_SIZE).
      * rewrite list_lookup_insert_ne by lia. apply Ipool. exact Hk.
      * apply Ipool. exact Hk.
Qed.

(** X11: [poke(addr,val)] with an address of 65536 or more queues a write
    to the address truncated to 16 bits and leaves the register pool as it
    was: the pool is indexed by the full address, the queue entry by an
    [unsigned short]. *)
Theorem poke_high_address (addr val : Z) (r : Regs) :
  skipRegisterWrites r = false -> SGU_REG_POOL_SIZE <= 65536 -> 65536 <= addr ->
  writes (poke addr val r) = writes r ++ [mkQueuedWrite (addr mod 65536) (val mod 256)] /\
  regPool (poke addr val r) = regPool r.
Proof.
  intros Hs Hp Ha. unfold poke, rWrite. rewrite Hs. cbn [writes regPool].
  split; [reflexivity |].
  destruct (addr <? SGU_REG_POOL_SIZE) eqn:E; [lia | reflexivity].
Qed.

(** ** [reset] *)

Lemma mirrors_rWrite a v r : 0 <= a < 65536 -> mirrors r -> mirrors (rWrite a v r).
Proof.
  intros Ha Hm k Hk Hlen. unfold rWrite in *.
  destruct (skipRegisterWrites r); [apply Hm; assumption |].
  cbn [writes regPool] in *. unfold push. rewrite lastQueued_snoc.
  unfold QueuedWrite_new. cbn [w_addr w_val]. rewrite (u16_small a) by exact Ha.
  destruct (a =? Z.of_nat k) eqn:E.
  - apply Z.eqb_eq in E. subst a.
    destruct (Z.of_nat k <? SGU_REG_POOL_SIZE) eqn:E2; [| lia].
    rewrite Nat2Z.id in *. rewrite length_insert in Hlen.
    rewrite list_lookup_insert_eq by exact Hlen. reflexivity.
  - apply Z.eqb_neq in E.
    destruct (a <? SGU_REG_POOL_SIZE).
    + rewrite length_insert in Hlen. rewrite list_lookup_insert_ne by lia.
      apply Hm; assumption.
    + apply Hm; assumption.
Qed.

Lemma rWrite_pool_length a v r : length (regPool (rWrite a v r)) = length (regPool r).
Proof.
  unfold rWrite. destruct (skipRegisterWrites r); [reflexivity |]. cbn [regPool].
  destruct (a <? SGU_REG_POOL_SIZE); rewrite ?length_insert; reflexivity.
Qed.

Lemma wrote_nil r : wrote [] r r.
Proof. reflexivity. Qed.

Lemma wrote_app l1 l2 r1 r2 r3 : wrote l1 r1 r2 -> wrote l2 r2 r3 -> wrote (l1 ++ l2) r1 r3.
Proof. unfold wrote, rWrites. intros -> ->. rewrite foldl_app. reflexivity. Qed.

Lemma wrote_rWrite a v r : wrote [(a, v)] r (rWrite a v r).
Proof. reflexivity. Qed.

Lemma wrote_emits l r r' :
  wrote l r r' -> emits ((fun w => QueuedWrite_new w.1 w.2) <$> l) r r'.
Proof.
  intros ->. induction l as [|w l IH] using rev_ind; [apply emits_nil |].
  unfold rWrites. rewrite foldl_app, fmap_app. cbn [foldl fmap list_fmap].
  eapply emits_app; [exact IH | apply emits_rWrite].
Qed.

Lemma wrote_mirrors l r r' :
  wrote l r r' -> Forall (fun w => 0 <= w.1 < 65536) l -> mirrors r -> mirrors r'.
Proof.
  intros -> Hl Hm. induction l as [|w l IH] using rev_ind; [exact Hm |].
  apply Forall_app in Hl as [Hl Hw]. apply Forall_cons in Hw as [Hw _].
  unfold rWrites. rewrite foldl_app. cbn [foldl].
  apply mirrors_rWrite; [exact Hw | apply IH; exact Hl].
Qed.

Lemma wrote_pool_length l r r' : wrote l r r' -> length (regPool r') = length (regPool r).
Proof.
  intros ->. induction l as [|w l IH] using rev_ind; [reflexivity |].
  unfold rWrites. rewrite foldl_app. cbn [foldl]. rewrite rWrite_pool_length. exact IH.
Qed.

Lemma inBlock_inChannel i w : inBlock i w -> inChannel i (QueuedWrite_new w.1 w.2).
Proof.
  intros Hw. exists (w.1 - i * SGU_REGS_PER_CH). unfold inBlock in Hw.
  split; [lia |]. unfold QueuedWrite_new. cbn [w_addr]. f_equal. lia.
Qed.

Lemma inBlock_range i w :
  0 <= i -> (i + 1) * SGU_REGS_PER_CH <= 65536 -> inBlock i w -> 0 <= w.1 < 65536.
Proof. unfold inBlock, SGU_REGS_PER_CH. intros H0 H1 Hw. lia. Qed.

Lemma applyOpRegs_wrote i o c r :
  (o < 4)%nat ->
  exists l, wrote l r (applyOpRegs i o (c, r)).2 /\ length l = 8%nat /\ Forall (inBlock i) l.
Proof.
  intros Ho. eexists. split; [| split].
  - unfold applyOpRegs, opWrite. cbn [fst snd]. cbn zeta.
    do 8 (eapply (wrote_app _ [_]); [| apply wrote_rWrite]). apply wrote_nil.
  - reflexivity.
  - unfold inBlock, SGU_REGS_PER_CH, SGU_OP_REGS. repeat constructor; cbn [fst]; lia.
Qed.

Lemma writeControl_wrote i c r :
  exists l, wrote l r (writeControl i (c, r)).2 /\ length l = 1%nat /\ Forall (inBlock i) l.
Proof.
  eexists. split; [apply wrote_rWrite | split; [reflexivity |]].
  unfold inBlock, SGU_REGS_PER_CH, SGU_CH_BASE, SGU_OP_PER_CH, SGU_OP_REGS, SGU1_CHN_FLAGS0.
  repeat constructor; cbn [fst]; lia.
Qed.

Lemma resetChannel_wrote i r :
  exists l, wrote l r (resetChannel i r).2 /\ length l = 40%nat /\ Forall (inBlock i) l.
Proof.
  eexists. split; [| split].
  - unfold resetChannel, writeControl, writeControlUpper, applyOpRegs, opWrite, chWrite.
    cbn [foldl fst snd]. cbn zeta. cbn [fst snd].
    do 40 (eapply (wrote_app _ [_]); [| apply wrote_rWrite]). apply wrote_nil.
  - reflexivity.
  - unfold inBlock, SGU_REGS_PER_CH, SGU_CH_BASE, SGU_OP_PER_CH, SGU_OP_REGS.
    repeat constructor; cbn [fst]; cbv [SGU1_CHN_VOL SGU1_CHN_PAN SGU1_CHN_DUTY
      SGU1_CHN_CUTOFF_L SGU1_CHN_CUTOFF_H SGU1_CHN_RESON SGU1_CHN_FLAGS0 SGU1_CHN_FLAGS1]; lia.
Qed.

Lemma resetChannel_channel i r : (resetChannel i r).1 = ch Channel_ctor.
Proof. reflexivity. Qed.

Section Reset.
Context {rst : SguCoreReset}.

Lemma reset_prefix (st0 : DivPlatformSGU) (n : nat) :
  let stn := foldl resetOne st0 (seq 0 n) in
  length (chan stn) = length (chan st0) /\
  (forall k, (k < n)%nat -> (k < length (chan st0))%nat ->
     chan stn !! k = Some (ch Channel_ctor)) /\
  (forall k, (n <= k)%nat -> chan stn !! k = chan st0 !! k) /\
  (exists ls : list (list (Z * Z)),
     length ls = n /\ wrote (concat ls) (regs st0) (regs stn) /\
     forall i l, ls !! i = Some l -> length l = 40%nat /\ Forall (inBlock (Z.of_nat i)) l) /\
  sgu stn = foldl (fun g i => SGU_set_muted i false g) (sgu st0) (seq 0 n) /\
  sampleMem stn = sampleMem st0.
Proof.
  induction n as [|n IH]; cbn zeta.
  - split; [reflexivity | split; [intros; lia | split; [reflexivity |]]].
    split; [| split; reflexivity].
    exists []. split; [reflexivity | split; [apply wrote_nil |]]. intros i l H. discriminate H.
  - cbn zeta in IH. rewrite !seq_S, !foldl_app. cbn [foldl plus].
    set (stn := foldl resetOne st0 (seq 0 n)) in *.
    destruct IH as (Hlen & Hlt & Hge & (ls & Hls & Hw & Hblk) & Hsgu & Hmem).
    destruct (resetChannel_wrote (Z.of_nat n) (regs stn)) as (l & Wl & Ll & Bl).
    unfold resetOne at 1 2 3 4 5 6. cbn [chan regs sgu sampleMem].
    rewrite resetChannel_channel.
    split; [rewrite length_insert; exact Hlen | split; [| split; [| split; [| split]]]].
    + intros k Hk Hk'. destruct (decide (k = n)) as [-> | Hne].
      * apply list_lookup_insert_eq. lia.
      * rewrite list_lookup_insert_ne by congruence. apply Hlt; lia.
    + intros k Hk. rewrite list_lookup_insert_ne by lia. apply Hge. lia.
    + exists (ls ++ [l]). split; [rewrite length_app; cbn; lia | split].
      * rewrite concat_app. cbn [concat]. rewrite app_nil_r.
        eapply wrote_app; eassumption.
      * intros i l' H. apply lookup_app_Some in H as [H | [H1 H2]]; [eapply Hblk; exact H |].
        rewrite Hls in H2. destruct (i - n)%nat as [|k] eqn:E; [| destruct k; discriminate H2].
        cbn in H2. injection H2 as <-. replace i with n by lia. split; assumption.
    + rewrite Hsgu. reflexivity.
    + exact Hmem.
Qed.

(** X12: [reset] leaves every channel as the constructor makes it, a
    register pool of [SGU_REG_POOL_SIZE] entries that mirrors the queue, a
    queue holding 40 writes per channel, in channel order and each group
    within the registers of its channel (nothing when register writes are
    skipped), and a chip core that was reset, had every channel unmuted and
    was given the sample memory. *)
Theorem reset_complete (st : DivPlatformSGU) :
  length (chan st) = SGU_CHNS -> SGU_REG_POOL_SIZE <= 65536 ->
  let st' := reset st in
  chan st' = replicate SGU_CHNS (ch Channel_ctor) /\
  length (regPool (regs st')) = Z.to_nat SGU_REG_POOL_SIZE /\
  mirrors (regs st') /\
  (exists ls : list (list QueuedWrite),
     length ls = SGU_CHNS /\
     writes (regs st') = (if skipRegisterWrites (regs st) then [] else concat ls) /\
     forall i l, ls !! i = Some l ->
       length l = 40%nat /\ Forall (inChannel (Z.of_nat i)) l) /\
  sgu st' =
    SGU_set_pcm (sampleMem st)
      (foldl (fun g i => SGU_set_muted i false g) (SGU_Reset (sgu st)) (seq 0 SGU_CHNS)).
Proof.
  intros Hchan Hpool. cbn zeta. unfold reset. cbn zeta.
  match goal with |- context [foldl resetOne ?s0 _] => set (st0 := s0) end.
  destruct (reset_prefix st0 SGU_CHNS)
    as (Hlen & Hlt & _ & (ls & Hls & Hw & Hblk) & Hsgu & Hmem).
  cbn zeta in *. set (stn := foldl resetOne st0 (seq 0 SGU_CHNS)) in *.
  cbn [chan regs sgu sampleMem].
  assert (Hm0 : mirrors (regs st0)).
  { intros k Hk Hk'. cbn [st0 regs regPool writes] in *. rewrite length_replicate in Hk'.
    rewrite lookup_replicate_2 by exact Hk'. reflexivity. }
  assert (Hrange : Forall (fun w : Z * Z => 0 <= w.1 < 65536) (concat ls)).
  { apply Forall_concat. apply Forall_lookup. intros i l Hl.
    destruct (Hblk i l Hl) as [_ Hb]. eapply Forall_impl; [exact Hb |].
    intros w Hw'. apply lookup_lt_Some in Hl. rewrite Hls in Hl.
    apply (inBlock_range (Z.of_nat i)); [lia | | exact Hw'].
    unfold SGU_REG_POOL_SIZE, SGU_REGS_PER_CH in *. lia. }
  split; [| split; [| split; [| split]]].
  - apply list_eq. intros k. destruct (decide (k < SGU_CHNS)%nat) as [Hk | Hk].
    + rewrite Hlt by (cbn [st0 chan]; lia). rewrite lookup_replicate_2 by exact Hk. reflexivity.
    + rewrite lookup_ge_None_2 by (rewrite Hlen; cbn [st0 chan]; lia).
      rewrite lookup_ge_None_2 by (rewrite length_replicate; lia). reflexivity.
  - rewrite (wrote_pool_length _ _ _ Hw). cbn [st0 regs regPool]. apply length_replicate.
  - eapply wrote_mirrors; eassumption.
  - exists (fmap (M := list) (fmap (M := list) (fun w : Z * Z => QueuedWrite_new w.1 w.2)) ls).
    split; [rewrite length_fmap; exact Hls | split].
    + destruct (wrote_emits _ _ _ Hw) as [_ He]. rewrite He. cbn [st0 regs writes skipRegisterWrites].
      destruct (skipRegisterWrites (regs st)); [reflexivity |].
      cbn [app]. clear. induction ls as [|l ls IH]; [reflexivity |].
      cbn [concat fmap list_fmap]. rewrite fmap_app, IH. reflexivity.
    + intros i l Hl. apply list_lookup_fmap_Some in Hl as (l0 & -> & Hl0).
      destruct (Hblk i l0 Hl0) as [L B]. split; [rewrite length_fmap; exact L |].
      apply Forall_fmap. eapply Forall_impl; [exact B |]. intros w. apply inBlock_inChannel.
  - rewrite Hsgu, Hmem. reflexivity.
Qed.
End Reset.

(** ** [forceIns] *)

Lemma forceInsChannel_wrote i c r :
  (forceInsChannel i (c, r)).1 = forced c /\
  exists l, wrote l r (forceInsChannel i (c, r)).2 /\ length l = 39%nat /\
            Forall (inBlock i) l /\ Forall (notFreqVol i) l.
Proof.
  split; [reflexivity |]. eexists. split; [| split; [| split]].
  - unfold forceInsChannel, writeControl, writeControlUpper, applyOpRegs, opWrite, chWrite.
    cbn [foldl fst snd]. cbn zeta. cbn [fst snd].
    do 39 (eapply (wrote_app _ [_]); [| apply wrote_rWrite]). apply wrote_nil.
  - reflexivity.
  - unfold inBlock, SGU_REGS_PER_CH, SGU_CH_BASE, SGU_OP_PER_CH, SGU_OP_REGS.
    repeat constructor; cbn [fst]; cbv [SGU1_CHN_VOL SGU1_CHN_PAN SGU1_CHN_DUTY
      SGU1_CHN_CUTOFF_L SGU1_CHN_CUTOFF_H SGU1_CHN_RESON SGU1_CHN_FLAGS0 SGU1_CHN_FLAGS1]; lia.
  - unfold notFreqVol, SGU_REGS_PER_CH, SGU_CH_BASE, SGU_OP_PER_CH, SGU_OP_REGS.
    repeat constructor; cbn [fst]; cbv [SGU1_CHN_VOL SGU1_CHN_PAN SGU1_CHN_DUTY
      SGU1_CHN_CUTOFF_L SGU1_CHN_CUTOFF_H SGU1_CHN_RESON SGU1_CHN_FLAGS0 SGU1_CHN_FLAGS1
      SGU1_CHN_FREQ_L SGU1_CHN_FREQ_H]; lia.
Qed.

Lemma forceIns_prefix (st : DivPlatformSGU) (n : nat) :
  let stn := foldl forceInsOne st (seq 0 n) in
  chan stn = (forced <$> take n (chan st)) ++ drop n (chan st) /\
  exists ls : list (list (Z * Z)),
    length ls = n /\ wrote (concat ls) (regs st) (regs stn) /\
    forall i l, ls !! i = Some l ->
      Forall (inBlock (Z.of_nat i)) l /\ Forall (notFreqVol (Z.of_nat i)) l /\
      length l = if decide (i < length (chan st))%nat then 39%nat else 0%nat.
Proof.
  induction n as [|n IH]; cbn zeta.
  - split; [cbn; rewrite drop_0; reflexivity |].
    exists []. split; [reflexivity | split; [apply wrote_nil |]]. intros i l H. discriminate H.
  - cbn zeta in IH. rewrite !seq_S, !foldl_app. cbn [foldl plus].
    set (stn := foldl forceInsOne st (seq 0 n)) in *.
    destruct IH as (Hch & ls & Hls & Hw & Hblk).
    assert (Hstep : exists l,
      chan (forceInsOne stn n) = (forced <$> take (S n) (chan st)) ++ drop (S n) (chan st) /\
      wrote l (regs stn) (regs (forceInsOne stn n)) /\
      Forall (inBlock (Z.of_nat n)) l /\ Forall (notFreqVol (Z.of_nat n)) l /\
      length l = if decide (n < length (chan st))%nat then 39%nat else 0%nat).
    { unfold forceInsOne. rewrite Hch.
      destruct (decide (n < length (chan st))%nat) as [Hn | Hn].
      - destruct (lookup_lt_is_Some_2 (chan st) n Hn) as [c Hc].
        rewrite lookup_app_r by (rewrite length_fmap, length_take; lia).
        rewrite length_fmap, length_take, Nat.min_l by lia.
        rewrite Nat.sub_diag, lookup_drop, Nat.add_0_r, Hc.
        destruct (forceInsChannel_wrote (Z.of_nat n) c (regs stn)) as (Hc' & l & W & L & B & N).
        exists l. cbn [withChannel chan regs]. rewrite Hc', Hch.
        split; [| split; [exact W | split; [exact B | split; [exact N | exact L]]]].
        rewrite insert_app_r_alt by (rewrite length_fmap, length_take; lia).
        rewrite length_fmap, length_take, Nat.min_l by lia. rewrite Nat.sub_diag.
        rewrite (take_S_r _ _ c Hc), fmap_app. cbn [fmap list_fmap].
        rewrite <- app_assoc. f_equal. cbn [app].
        rewrite (drop_S _ c n Hc). reflexivity.
      - rewrite lookup_ge_None_2
          by (rewrite length_app, length_fmap, length_take, length_drop; lia).
        exists []. split; [| split; [apply wrote_nil | repeat constructor]].
        rewrite Hch. rewrite !take_ge, !drop_ge by lia. reflexivity. }
    destruct Hstep as (l & Hc' & W & B & N & L).
    split; [exact Hc' |].
    exists (ls ++ [l]). split; [rewrite length_app; cbn; lia | split].
    + rewrite concat_app. cbn [concat]. rewrite app_nil_r. eapply wrote_app; eassumption.
    + intros i l' H. apply lookup_app_Some in H as [H | [H1 H2]]; [eapply Hblk; exact H |].
      rewrite Hls in H2. destruct (i - n)%nat as [|k] eqn:E; [| destruct k; discriminate H2].
      cbn in H2. injection H2 as <-. replace i with n by lia. repeat split; assumption.
Qed.

(** X13: [forceIns] marks the instrument and the frequency of every channel
    as changed and clears the two phase reset flags; it keeps the register
    pool a mirror of the queue, and makes 39 write calls per channel, in
    channel order, each within the registers of its channel and none to
    FREQ_L, FREQ_H or VOL. *)
Theorem forceIns_resends (st : DivPlatformSGU) :
  length (chan st) = SGU_CHNS ->
  chan (forceIns st) = forced <$> chan st /\
  (mirrors (regs st) -> SGU_REG_POOL_SIZE <= 65536 -> mirrors (regs (forceIns st))) /\
  exists ls : list (list (Z * Z)),
    length ls = SGU_CHNS /\ regs (forceIns st) = rWrites (concat ls) (regs st) /\
    forall i l, ls !! i = Some l ->
      length l = 39%nat /\ Forall (inBlock (Z.of_nat i)) l /\
      Forall (notFreqVol (Z.of_nat i)) l.
Proof.
  intros Hlen. destruct (forceIns_prefix st SGU_CHNS) as (Hch & ls & Hls & Hw & Hblk).
  cbn zeta in *. fold (forceIns st) in *.
  split; [| split].
  - rewrite Hch, take_ge, drop_ge by lia. apply app_nil_r.
  - intros Hm Hpool. eapply wrote_mirrors; [exact Hw | | exact Hm].
    apply Forall_concat. apply Forall_lookup. intros i l Hl.
    destruct (Hblk i l Hl) as (Hb & _ & _). eapply Forall_impl; [exact Hb |].
    intros w Hw'. apply lookup_lt_Some in Hl. rewrite Hls in Hl.
    apply (inBlock_range (Z.of_nat i)); [lia | | exact Hw'].
    unfold SGU_REG_POOL_SIZE, SGU_REGS_PER_CH in *. lia.
  - exists ls. split; [exact Hls | split; [exact Hw |]].
    intros i l Hl. destruct (Hblk i l Hl) as (Hb & Hn & Hl').
    apply lookup_lt_Some in Hl. rewrite Hls in Hl.
    destruct (decide (i < length (chan st))%nat); [| lia].
    repeat split; assumption.
Qed.

(** a masked value read back through a mask *)
Ltac masked_field :=
  match goal with
  | |- context [Z.land ?x ?m] =>
      lazymatch m with
      | 1 => bound_field x 1 1 | 3 => bound_field x 3 2 | 7 => bound_field x 7 3
      | 15 => bound_field x 15 4 | 31 => bound_field x 31 5 | 127 => bound_field x 127 7
      end
  end; close_bounded; exhaust.

(** ** [dispatch] *)

Lemma set_ch_id (x : ChanState) : set_ch (ch x) x = x.
Proof. destruct x. reflexivity. Qed.

Lemma onChanRegs_id (s : DispRegs) : onChanRegs (fun s => s) s = s.
Proof. destruct s as [x r]. unfold onChanRegs. cbn [fst snd]. rewrite set_ch_id. reflexivity. Qed.

Lemma opRange_high v : 4 <= v -> opRange v = [].
Proof.
  intros H. unfold opRange. destruct (v <? 0) eqn:E1; [lia |]. destruct (v <? 4) eqn:E2; [lia |].
  reflexivity.
Qed.

Lemma opRange_lt v o : o ∈ opRange v -> (o < 4)%nat.
Proof.
  unfold opRange. destruct (v <? 0) eqn:E1.
  - intros H. repeat (apply elem_of_cons in H as [-> | H]; [lia |]). apply elem_of_nil in H. contradiction.
  - destruct (v <? 4) eqn:E2.
    + intros H. apply list_elem_of_singleton in H as ->. lia.
    + intros H. apply elem_of_nil in H. contradiction.
Qed.

Lemma onChanRegs_same (f : ChanRegs -> ChanRegs) (s : DispRegs) :
  f (ch s.1, s.2) = (ch s.1, s.2) -> onChanRegs f s = s.
Proof.
  intros H. destruct s as [x r]. unfold onChanRegs. rewrite H. cbn [fst snd].
  rewrite set_ch_id. reflexivity.
Qed.

(** a sweep unit other than 0, 1 and 2 *)
Ltac no_unit H :=
  match goal with
  | |- context [match ?v with _ => _ end] =>
      destruct v as [|[[p|p|]|[p|p|]|]|p]; cbn in H; try discriminate H; reflexivity
  end.

Lemma sweepPeriodLow_ignored c s :
  (value c <? 0) || (2 <? value c) = true -> sweepPeriodLow c s = s.
Proof. intros H. destruct s as [x r]. unfold sweepPeriodLow. no_unit H. Qed.

Lemma sweepPeriodHigh_ignored c s :
  (value c <? 0) || (2 <? value c) = true -> sweepPeriodHigh c s = s.
Proof. intros H. destruct s as [x r]. unfold sweepPeriodHigh. no_unit H. Qed.

Lemma sweepBound_ignored c s :
  (value c <? 0) || (2 <? value c) = true -> sweepBound c s = s.
Proof. intros H. destruct s as [x r]. unfold sweepBound. no_unit H. Qed.

Lemma dispatchC64Extended_ignored c s :
  negb (Z.shiftr (value c) 4 =? 4) && negb (Z.shiftr (value c) 4 =? 5) = true ->
  dispatchC64Extended c s = s.
Proof.
  intros H. unfold dispatchC64Extended.
  destruct (Z.shiftr (value c) 4) as [|p|p]; [reflexivity | | reflexivity].
  destruct p as [[[p|p|]|[p|p|]|]|[[p|p|]|[p|p|]|]|];
    cbn in H; try discriminate H; reflexivity.
Qed.

Lemma fmParamOp_empty k i v2 s o :
  match k with DIV_CMD_FM_REV | DIV_CMD_FM_EG_SHIFT => True | _ => False end ->
  fmParamOp k i v2 s o = s.
Proof.
  intros Hk. destruct s as [c r]. unfold fmParamOp.
  assert (E : forall x, fmParamSet k v2 x = (x, false)).
  { intros [op opE]. destruct k; try contradiction; reflexivity. }
  rewrite E. rewrite !upd4_nth4_id, set_fm_op_id, set_esfm_op_id, set_state_fm_id,
    set_state_esfm_id. reflexivity.
Qed.

Lemma foldl_same {A B} (f : A -> B -> A) (l : list B) (a : A) :
  (forall a b, f a b = a) -> foldl f a l = a.
Proof. intros H. induction l as [|b l IH]; [reflexivity |]. cbn. rewrite H. exact IH. Qed.

(** X14: a command that is out of range or has no case in [dispatch] (an
    operator index above 3, a sweep unit other than 0..2 in a period or
    bound command, an extended command other than the ring and sync masks,
    FM_REV, FM_EG_SHIFT, any command outside the switch) returns 1 and
    changes neither the channel nor a register. *)
Theorem dispatch_ignored (parent : DivEngine) (c : DivCommand) (s : DispRegs) :
  ignoredCommand c = true -> dispatch parent c s = (1, s).
Proof.
  unfold ignoredCommand, dispatch. intros H.
  destruct (cmd c) eqn:Ec; cbn [operatorIndexed andb] in H; try discriminate H;
    try reflexivity;
    try (apply Z.leb_le in H; rewrite (opRange_high _ H); cbn [foldl];
         rewrite onChanRegs_id; reflexivity).
  - rewrite onChanRegs_same; [reflexivity | apply sweepPeriodLow_ignored; exact H].
  - rewrite onChanRegs_same; [reflexivity | apply sweepPeriodHigh_ignored; exact H].
  - rewrite onChanRegs_same; [reflexivity | apply sweepBound_ignored; exact H].
  - rewrite onChanRegs_same; [reflexivity |].
    apply foldl_same. intros a b. apply fmParamOp_empty. exact I.
  - rewrite onChanRegs_same; [reflexivity |].
    apply foldl_same. intros a b. apply fmParamOp_empty. exact I.
  - rewrite onChanRegs_same; [reflexivity | apply dispatchC64Extended_ignored; exact H].
Qed.

(** *** The writes of a command stay in the channel's registers *)

Lemma confined_any i c1 c1' c2 c2' r r' :
  confined i (c1, r) (c1', r') -> confined i (c2, r) (c2', r').
Proof. intros H. exact H. Qed.

Lemma confined_onChanRegs i (f : ChanRegs -> ChanRegs) (s : DispRegs) :
  (forall t, confined i t (f t)) ->
  confined i (ch s.1, s.2) (ch (onChanRegs f s).1, (onChanRegs f s).2).
Proof.
  intros Hf. unfold onChanRegs. cbn [fst snd ch set_ch].
  specialize (Hf (ch s.1, s.2)). destruct (f (ch s.1, s.2)) as [c' r']. exact Hf.
Qed.

Lemma confined_foldl_ops i (f : ChanRegs -> nat -> ChanRegs) v s :
  (forall s o, (o < 4)%nat -> confined i s (f s o)) -> confined i s (foldl f s (opRange v)).
Proof.
  intros Hf. apply confined_foldl; [exact Hf |].
  apply Forall_forall. intros o Ho. eapply opRange_lt. exact Ho.
Qed.

Lemma confined_setOpField f i s o : (o < 4)%nat -> confined i s (setOpField f i s o).
Proof. intros Ho. destruct s as [c r]. unfold setOpField. cbn [fst snd]. cf. Qed.

Lemma confined_setOpEField f i s o : (o < 4)%nat -> confined i s (setOpEField f i s o).
Proof. intros Ho. destruct s as [c r]. unfold setOpEField. cbn [fst snd]. cf. Qed.

Lemma confined_fmParamOp k i v2 s o : (o < 4)%nat -> confined i s (fmParamOp k i v2 s o).
Proof.
  intros Ho. destruct s as [c r]. unfold fmParamOp.
  destruct (fmParamSet _ _ _) as [[op opE] d]. destruct d; cf.
Qed.

Ltac unit_cases :=
  match goal with
  | |- context [match ?v with _ => _ end] =>
      destruct v as [|[[p|p|]|[p|p|]|]|p]
  end.

Lemma confined_sweepPeriodLow c s : confined (c_chan c) s (sweepPeriodLow c s).
Proof. destruct s as [x r]. unfold sweepPeriodLow. unit_cases; cf. Qed.

Lemma confined_sweepPeriodHigh c s : confined (c_chan c) s (sweepPeriodHigh c s).
Proof. destruct s as [x r]. unfold sweepPeriodHigh. unit_cases; cf. Qed.

Lemma confined_sweepBound c s : confined (c_chan c) s (sweepBound c s).
Proof. destruct s as [x r]. unfold sweepBound. unit_cases; cf. Qed.

Lemma confined_sweepEnable c s : confined (c_chan c) s (sweepEnable c s).
Proof. destruct s as [x r]. unfold sweepEnable. unit_cases; cf. Qed.

Lemma confined_syncPeriod c t s : confined (c_chan c) s (syncPeriod c t s).
Proof. destruct s as [x r]. unfold syncPeriod. cf. Qed.

Lemma confined_dispatchC64Extended c s : confined (c_chan c) s (dispatchC64Extended c s).
Proof.
  unfold dispatchC64Extended.
  destruct (Z.shiftr (value c) 4) as [|p|p]; [apply confined_refl | | apply confined_refl].
  destruct s as [x r].
  destruct p as [[[p|p|]|[p|p|]|]|[[p|p|]|[p|p|]|]|]; try apply confined_refl;
    (eapply confined_trans;
       [| apply confined_foldl;
            [intros; apply confined_applyOpRegs; assumption | repeat constructor; lia]]);
    apply confined_channel.
Qed.

Lemma confined_noteOnCommit parent c s :
  confined (c_chan c) (ch s.1, s.2)
    (ch (noteOnCommit parent c s).1, (noteOnCommit parent c s).2).
Proof.
  unfold noteOnCommit. cbn zeta.
  match goal with
  | |- context [onChanRegs ?f ?t] =>
      pose proof (confined_onChanRegs (c_chan c) f t
                    (fun u => confined_commitState (c_chan c) _ u)) as H;
      remember (onChanRegs f t) as s3 eqn:E3;
      assert (Ht : t.2 = s.2) by (destruct (negb _); reflexivity);
      rewrite Ht in H; clear E3 Ht
  end.
  cbn [fst snd onCh].
  eapply confined_trans; [exact H |].
  apply (confined_any _ (ch s3.1) (ch s3.1)). apply confined_chWrite. ch_side.
Qed.

Lemma dispatchVolume_regs parent c s :
  confined (c_chan c) (ch s.1, s.2)
    (ch (dispatchVolume parent c s).1, (dispatchVolume parent c s).2).
Proof.
  unfold dispatchVolume. cbn zeta.
  destruct (negb (vol (ch s.1) =? value c)); [| apply confined_refl].
  destruct (negb (vol_has _)); cbn [onCh fst snd]; [| apply confined_channel].
  apply (confined_any _ (ch s.1) (ch s.1)). apply confined_chWrite. ch_side.
Qed.

Lemma confined_onCh i f (s t : DispRegs) :
  confined i (ch s.1, s.2) (ch t.1, t.2) ->
  confined i (ch s.1, s.2) (ch (onCh f t).1, (onCh f t).2).
Proof. intros H. exact H. Qed.

Lemma confined_onStd i f (s t : DispRegs) :
  confined i (ch s.1, s.2) (ch t.1, t.2) ->
  confined i (ch s.1, s.2) (ch (onStd f t).1, (onStd f t).2).
Proof. intros H. exact H. Qed.

Lemma confined_onChanRegs_after i (f : ChanRegs -> ChanRegs) (s t : DispRegs) :
  (forall u, confined i u (f u)) ->
  confined i (ch s.1, s.2) (ch t.1, t.2) ->
  confined i (ch s.1, s.2) (ch (onChanRegs f t).1, (onChanRegs f t).2).
Proof.
  intros Hf H. eapply confined_trans; [exact H |]. apply confined_onChanRegs. exact Hf.
Qed.

Lemma confined_chWrite_after i a v s0 c1 c2 r :
  confined i s0 (c1, r) -> 0 <= a < 32 -> confined i s0 (c2, chWrite i a v r).
Proof.
  intros H Ha. eapply confined_trans; [exact H |]. apply (confined_any _ c1 c1).
  apply confined_chWrite. exact Ha.
Qed.

Lemma confined_snd i s0 (t : DispRegs) c :
  confined i s0 (ch t.1, t.2) -> confined i s0 (c, t.2).
Proof. intros H. exact H. Qed.

(** the steps on the channel's registers that a command is made of *)
Ltac dc_fun :=
  intros;
  lazymatch goal with
  | |- confined _ _ (sweepPeriodLow _ _) => apply confined_sweepPeriodLow
  | |- confined _ _ (sweepPeriodHigh _ _) => apply confined_sweepPeriodHigh
  | |- confined _ _ (sweepBound _ _) => apply confined_sweepBound
  | |- confined _ _ (sweepEnable _ _) => apply confined_sweepEnable
  | |- confined _ _ (syncPeriod _ _ _) => apply confined_syncPeriod
  | |- confined _ _ (dispatchC64Extended _ _) => apply confined_dispatchC64Extended
  | |- confined _ _ (writeControl _ _) => apply confined_writeControl
  | |- confined _ _ (setOpField _ _ _ _) => apply confined_setOpField; lia
  | |- confined _ _ (setOpEField _ _ _ _) => apply confined_setOpEField; lia
  | |- confined _ _ (foldl (fmParamOp _ _ _) _ _) =>
      apply confined_foldl_ops; intros; apply confined_fmParamOp; assumption
  | |- confined _ _ (foldl (setOpField _ _) _ _) =>
      apply confined_foldl_ops; intros; apply confined_setOpField; assumption
  | |- confined _ _ (foldl (setOpEField _ _) _ _) =>
      apply confined_foldl_ops; intros; apply confined_setOpEField; assumption
  end.

Ltac dc :=
  lazymatch goal with
  | |- confined _ (ch ?s.1, ?s.2) (ch ?s.1, ?s.2) => apply confined_refl
  | |- confined _ _ (ch (onCh _ _).1, (onCh _ _).2) => apply confined_onCh; dc
  | |- confined _ _ (ch (onStd _ _).1, (onStd _ _).2) => apply confined_onStd; dc
  | |- confined _ _ (ch (onChanRegs _ _).1, (onChanRegs _ _).2) =>
      apply confined_onChanRegs_after; [dc_fun | dc]
  | |- confined ?i ?s0 (?c2, chWrite _ ?a ?v (?t).2) =>
      apply (confined_chWrite_after i a v s0 (ch t.1) c2 (t.2)); [dc | ch_side]
  | |- confined ?i ?s0 (?c2, chWrite _ ?a ?v ?r) =>
      apply (confined_chWrite_after i a v s0 c2 c2 r); [dc | ch_side]
  | |- confined _ _ (ch (?t).1, (?t).2) => fail
  | |- confined _ _ (_, (?t).2) => apply (confined_snd _ _ t); dc
  end.

(** X15: every write [dispatch(c)] queues goes to one of the 64 registers
    of channel [c.chan], whatever the command. *)
Theorem dispatch_confined (parent : DivEngine) (c : DivCommand) (s : DispRegs) :
  exists l, emits l s.2 (dispatch parent c s).2.2 /\ Forall (inChannel (c_chan c)) l.
Proof.
  change (confined (c_chan c) (ch s.1, s.2)
            (ch (dispatch parent c s).2.1, (dispatch parent c s).2.2)).
  unfold dispatch.
  destruct (cmd c) eqn:Ec; cbv zeta; cbn [fst snd]; try dc.
  - (* note on *)
    unfold dispatchNoteOn. cbn zeta. cbn [fst snd].
    apply (confined_any _ (ch s.1) (ch (noteOnCommit parent c s).1)).
    apply confined_noteOnCommit.
  - (* instrument *)
    destruct (_ || _); dc.
  - apply dispatchVolume_regs.
  - (* fine cutoff *)
    destruct (negb _); cbn [fst snd]; dc.
  - destruct (dispatchNotePorta parent c s.1). cbn [fst snd]. apply confined_channel.
Qed.

(** *** Operator parameters reach the registers *)

Lemma nth4_upd4_same {A} (o : nat) (f : A -> A) (v : Arr4 A) :
  (o < 4)%nat -> nth4 o (upd4 o f v) = f (nth4 o v).
Proof. intros Ho. destruct v. do 4 (destruct o as [|o]; [reflexivity |]). lia. Qed.

Lemma applyOpRegs_writes i o c r :
  skipRegisterWrites r = false ->
  writes (applyOpRegs i o (c, r)).2 = writes r ++ opRegsWritten i o (c, r) /\
  skipRegisterWrites (applyOpRegs i o (c, r)).2 = false.
Proof.
  intros Hs.
  assert (H : exists l, emits l r (applyOpRegs i o (c, r)).2).
  { eexists. unfold applyOpRegs, opWrite. cbn [fst snd]. cbn zeta.
    do 8 (eapply (emits_app _ [_]); [| apply emits_rWrite]). apply emits_nil. }
  destruct H as (l & Hk & He). rewrite Hs in He, Hk. split; [| exact Hk].
  unfold opRegsWritten. cbn [snd]. rewrite He, drop_app_length. reflexivity.
Qed.

Lemma storesField_foldl proj x i step l : 
  storesField proj x i step -> Forall (fun o => (o < 4)%nat) l ->
  forall s, skipRegisterWrites s.2 = false ->
    exists groups : list (list QueuedWrite),
      writes (foldl step s l).2 = writes s.2 ++ concat groups /\
      Forall2 (fun o g => w_addr <$> g = opAddrs i o /\
                          proj (decodeOpRegs (w_val <$> g)) = x) l groups.
Proof.
  intros Hst. induction l as [|o l IH]; intros Hl s Hs.
  - exists []. split; [cbn; rewrite app_nil_r; reflexivity | constructor].
  - apply Forall_cons in Hl as [Ho Hl]. cbn [foldl].
    destruct (Hst s o Ho Hs) as (Hs' & g & Hw & Ha & Hp).
    destruct (IH Hl (step s o) Hs') as (gs & Hws & Hf).
    exists (g :: gs). split; [| constructor; [split; assumption | exact Hf]].
    rewrite Hws, Hw. cbn [concat]. rewrite app_assoc. reflexivity.
Qed.

Lemma storesField_apply proj x i (upd : Channel -> nat -> Channel) :
  (forall c o, (o < 4)%nat -> proj (opFieldsOf (upd c o) o) = x) ->
  storesField proj x i (fun s o => applyOpRegs i o (upd s.1 o, s.2)).
Proof.
  intros Hupd [c r] o Ho Hs. cbn [fst snd] in *.
  destruct (applyOpRegs_writes i o (upd c o) r Hs) as [Hw Hs'].
  destruct (applyOpRegs_decode i o (upd c o) r Hs) as (Ha & Hd & _).
  split; [exact Hs' |]. exists (opRegsWritten i o (upd c o, r)).
  split; [exact Hw | split; [exact Ha |]]. rewrite Hd. apply Hupd. exact Ho.
Qed.

Lemma storesField_fmParamOp k v2 proj m i :
  paramField k = Some (proj, m) ->
  match k with
  | DIV_CMD_FM_AM_DEPTH | DIV_CMD_FM_PM_DEPTH | DIV_CMD_ESFM_MODIN
  | DIV_CMD_ESFM_ENV_DELAY => False
  | _ => True
  end ->
  storesField proj (Z.land v2 m) i (fmParamOp k i v2).
Proof.
  intros Hk Hfm [c r] o Ho Hs. cbn [fst snd] in *.
  unfold fmParamOp.
  destruct k; cbn in Hk; try discriminate Hk; try contradiction;
    injection Hk as <- <-; cbn [fmParamSet];
    match goal with
    | |- context [applyOpRegs i o (?c', r)] =>
        destruct (applyOpRegs_writes i o c' r Hs) as [Hw Hs'];
        destruct (applyOpRegs_decode i o c' r Hs) as (Ha & Hd & _);
        split; [exact Hs' |]; exists (opRegsWritten i o (c', r));
        split; [exact Hw | split; [exact Ha |]]; rewrite Hd
    end;
    unfold opFieldsOf; cbn zeta;
    cbn [f_trm f_vib f_ar f_dr f_sl f_sr f_rr f_dt f_delay f_ksr f_wave f_mod f_tl f_mul
         state_fm state_esfm set_state_fm set_state_esfm fm_op esfm_op set_fm_op set_esfm_op];
    rewrite !nth4_upd4_same by exact Ho.
  all: cbn [op_am op_vib op_ar op_dr op_sl op_d2r op_rr op_dt op_rs op_ws op_tl op_mult
            ope_delay ope_modIn set_op_am set_op_vib set_op_ar set_op_dr set_op_sl set_op_d2r
            set_op_rr set_op_dt set_op_rs set_op_ws set_op_tl set_op_mult set_ope_delay
            set_ope_modIn].
  all: clear; masked_field.
Qed.

Lemma storesField_setOpField f proj x i :
  (forall c o, (o < 4)%nat ->
     proj (opFieldsOf (set_state_fm (set_fm_op (upd4 o f (fm_op (state_fm c))) (state_fm c)) c)
             o) = x) ->
  storesField proj x i (setOpField f i).
Proof.
  intros H. unfold setOpField.
  apply (storesField_apply proj x i
           (fun c o => set_state_fm (set_fm_op (upd4 o f (fm_op (state_fm c))) (state_fm c)) c)).
  exact H.
Qed.

Lemma storesField_setOpEField f proj x i :
  (forall c o, (o < 4)%nat ->
     proj (opFieldsOf
             (set_state_esfm (set_esfm_op (upd4 o f (esfm_op (state_esfm c))) (state_esfm c)) c)
             o) = x) ->
  storesField proj x i (setOpEField f i).
Proof.
  intros H. unfold setOpEField.
  apply (storesField_apply proj x i
           (fun c o =>
              set_state_esfm (set_esfm_op (upd4 o f (esfm_op (state_esfm c))) (state_esfm c)) c)).
  exact H.
Qed.

(** X16: an operator parameter command with register writes enabled queues
    one group of eight writes for each operator it addresses (all four for a
    negative index), to the eight registers of that operator, and the
    register field of the parameter then reads [c.value2] under the mask of
    the parameter. *)
Theorem dispatch_operator_param_reaches_registers (parent : DivEngine) (c : DivCommand)
    (s : DispRegs) (proj : OpFields -> Z) (m : Z) :
  paramField (cmd c) = Some (proj, m) ->
  skipRegisterWrites s.2 = false ->
  exists groups : list (list QueuedWrite),
    writes (dispatch parent c s).2.2 = writes s.2 ++ concat groups /\
    Forall2 (fun o g => w_addr <$> g = opAddrs (c_chan c) o /\
                        proj (decodeOpRegs (w_val <$> g)) = Z.land (value2 c) m)
      (opRange (value c)) groups.
Proof.
  intros Hk Hs.
  assert (Hr : Forall (fun o => (o < 4)%nat) (opRange (value c))).
  { apply Forall_forall. intros o Ho. eapply opRange_lt. exact Ho. }
  assert (Hstep : exists step,
            (dispatch parent c s).2.2 = (foldl step (ch s.1, s.2) (opRange (value c))).2 /\
            storesField proj (Z.land (value2 c) m) (c_chan c) step).
  { unfold dispatch. destruct (cmd c) eqn:Ec; cbn in Hk; try discriminate Hk.
    all: try (exists (fmParamOp (cmd c) (c_chan c) (value2 c)); rewrite Ec;
              split; [reflexivity |];
              apply storesField_fmParamOp; [cbn; exact Hk | exact I]).
    all: injection Hk as <- <-.
    - eexists. split; [reflexivity |]. apply storesField_setOpField.
      intros c0 o Ho. unfold opFieldsOf. cbn zeta.
      cbn [f_trmd state_fm set_state_fm fm_op set_fm_op].
      rewrite nth4_upd4_same by exact Ho. cbn [op_dam set_op_dam]. clear; masked_field.
    - eexists. split; [reflexivity |]. apply storesField_setOpField.
      intros c0 o Ho. unfold opFieldsOf. cbn zeta.
      cbn [f_vibd state_fm set_state_fm fm_op set_fm_op].
      rewrite nth4_upd4_same by exact Ho. cbn [op_dvb set_op_dvb]. clear; masked_field.
    - eexists. split; [reflexivity |]. apply storesField_setOpEField.
      intros c0 o Ho. unfold opFieldsOf. cbn zeta.
      cbn [f_mod state_esfm set_state_esfm esfm_op set_esfm_op].
      rewrite nth4_upd4_same by exact Ho. cbn [ope_modIn set_ope_modIn]. clear; masked_field.
    - eexists. split; [reflexivity |]. apply storesField_setOpEField.
      intros c0 o Ho. unfold opFieldsOf. cbn zeta.
      cbn [f_delay state_esfm set_state_esfm esfm_op set_esfm_op].
      rewrite nth4_upd4_same by exact Ho. cbn [ope_delay set_ope_delay]. clear; masked_field. }
  destruct Hstep as (step & -> & Hst).
  apply (storesField_foldl proj _ (c_chan c) step _ Hst Hr (ch s.1, s.2)). exact Hs.
Qed.

(** *** Sweep periods *)

Lemma land_255_low P lo :
  0 <= lo < 256 -> Z.land (u16 (Z.lor (Z.land P 65280) lo)) 255 = lo.
Proof.
  intros H. unfold u16. change 65536 with (2 ^ 16). rewrite <- Z.land_ones by lia.
  rewrite <- Z.land_assoc. change (Z.land (Z.ones 16) 255) with 255.
  rewrite Z.land_lor_distr_l, <- Z.land_assoc. change (Z.land 65280 255) with 0.
  rewrite Z.land_0_r, Z.lor_0_l. change 255 with (Z.ones 8).
  rewrite Z.land_ones by lia. apply Z.mod_small. exact H.
Qed.

Lemma land_65280_high P hi :
  0 <= hi < 256 ->
  Z.land (u16 (Z.lor (Z.land P 255) (Z.shiftl hi 8))) 65280 = Z.shiftl hi 8.
Proof.
  intros H. unfold u16. change 65536 with (2 ^ 16). rewrite <- Z.land_ones by lia.
  rewrite <- Z.land_assoc. change (Z.land (Z.ones 16) 65280) with 65280.
  rewrite Z.land_lor_distr_l, <- Z.land_assoc. change (Z.land 255 65280) with 0.
  rewrite Z.land_0_r, Z.lor_0_l. revert hi H. exhaust.
Qed.

Lemma period_bytes : forall lo, 0 <= lo < 256 -> forall hi, 0 <= hi < 256 ->
  u16 (Z.lor lo (Z.shiftl hi 8)) = hi * 256 + lo /\
  u16 (Z.lor (Z.shiftl hi 8) lo) = hi * 256 + lo /\
  Z.land (hi * 256 + lo) 255 = lo /\ Z.shiftr (hi * 256 + lo) 8 = hi.
Proof. exhaust. Qed.

Lemma shiftr_high_byte P hi :
  0 <= hi < 256 -> Z.shiftr (u16 (Z.lor (Z.land P 255) (Z.shiftl hi 8))) 8 = hi.
Proof.
  intros H. change 255 with (Z.ones 8).
  assert (Ha : 0 <= Z.land P (Z.ones 8) < 2 ^ 8) by (apply land_ones_range; lia).
  revert hi H. generalize dependent (Z.land P (Z.ones 8)). intros a Ha. revert a Ha. exhaust.
Qed.

(** X17: the low and the high byte of a sweep period, set by
    SU_SWEEP_PERIOD_LOW and SU_SWEEP_PERIOD_HIGH in either order, give the
    period [hi*256+lo] of the selected unit, queue the two speed registers of
    that unit with the two bytes, and leave the periods of the other units
    as they were. *)
Theorem dispatch_sweep_period_bytes (parent : DivEngine) (i unit lo hi : Z) (s : DispRegs) :
  0 <= unit <= 2 -> 0 <= lo < 256 -> 0 <= hi < 256 ->
  skipRegisterWrites s.2 = false ->
  let low := mkDivCommand DIV_CMD_SU_SWEEP_PERIOD_LOW i unit lo in
  let high := mkDivCommand DIV_CMD_SU_SWEEP_PERIOD_HIGH i unit hi in
  let s1 := (dispatch parent high (dispatch parent low s).2).2 in
  let s2 := (dispatch parent low (dispatch parent high s).2).2 in
  let regL := chW i (SGU1_CHN_SWFREQ_SPD_L + 4 * unit) lo in
  let regH := chW i (SGU1_CHN_SWFREQ_SPD_H + 4 * unit) hi in
  sweepPeriod unit (ch s1.1) = hi * 256 + lo /\
  sweepPeriod unit (ch s2.1) = hi * 256 + lo /\
  writes s1.2 = writes s.2 ++ [regL; regH] /\
  writes s2.2 = writes s.2 ++ [regH; regL] /\
  (forall k, k <> unit -> sweepPeriod k (ch s1.1) = sweepPeriod k (ch s.1) /\
                          sweepPeriod k (ch s2.1) = sweepPeriod k (ch s.1)).
Proof.
  intros Hu Hlo Hhi Hs. cbn zeta.
  destruct (period_bytes lo Hlo hi Hhi) as (B1 & B2 & B3 & B4).
  assert (U : unit = 0 \/ unit = 1 \/ unit = 2) by lia.
  unfold dispatch. cbn [cmd c_chan value value2 fst snd].
  destruct U as [-> | [-> | ->]];
    unfold onChanRegs, sweepPeriodLow, sweepPeriodHigh;
    cbn [cmd c_chan value value2 fst snd ch set_ch sweepPeriod freqSweepP volSweepP cutSweepP
         set_freqSweepP set_volSweepP set_cutSweepP];
    rewrite land_255_low, land_65280_high, B1, B2, B3, B4, shiftr_high_byte by assumption;
    unfold chWrite, rWrite; cbn [skipRegisterWrites writes]; rewrite Hs;
    cbn [skipRegisterWrites writes]; unfold push; rewrite <- !app_assoc;
    (split; [reflexivity | split; [reflexivity | split; [reflexivity | split; [reflexivity |]]]]);
    intros k Hk; destruct k as [|[[p|p|]|[p|p|]|]|p]; try (exfalso; lia); split; reflexivity.
Qed.

(** *** Portamento and volume *)

Lemma s32_small x : -2147483648 <= x <= 2147483647 -> s32 x = x.
Proof. intros H. unfold s32. rewrite Z.mod_small by lia. lia. Qed.

Lemma portaStep_exact parent c b :
  let step := value c * (if linearPitch parent then 1 else 1 + Z.shiftr b 9) in
  0 <= value c -> (linearPitch parent = false -> 0 <= b) ->
  -2147483648 <= b - step -> b + step <= 2147483647 ->
  portaStep parent c b = step /\ 0 <= step.
Proof.
  cbn zeta. unfold portaStep. destruct (linearPitch parent); cbv beta iota;
    intros Hv Hb Hlo Hhi.
  - split; [apply s32_small |]; lia.
  - assert (H0 : 0 <= b) by (apply Hb; reflexivity).
    assert (H9 : 0 <= Z.shiftr b 9 /\ 512 * Z.shiftr b 9 <= b).
    { rewrite Z.shiftr_div_pow2 by lia. change (2 ^ 9) with 512.
      split; [apply Z.div_pos; lia | apply Z.mul_div_le; lia]. }
    assert (Hk : 0 <= value c * (1 + Z.shiftr b 9)) by (apply Z.mul_nonneg_nonneg; lia).
    rewrite (s32_small (1 + Z.shiftr b 9)) by lia.
    split; [apply s32_small |]; lia.
Qed.

(** X18: NOTE_PORTA moves the base frequency towards the destination and
    never past it, when the speed is not negative, the base frequency is not
    negative (needed unless pitch is linear) and the step, the speed times
    [1+(baseFreq>>9)] or the speed itself under linear pitch, can be added to
    and subtracted from the base frequency within the range of [int].  The
    new base frequency then lies between the old one and the destination,
    [dispatch] returns 2 exactly when the destination is reached (and then
    clears [inPorta]), 1 otherwise; the frequency is marked changed and no
    register is written. *)
Theorem dispatch_note_porta_no_overshoot (parent : DivEngine) (c : DivCommand) (s : DispRegs) :
  let b := baseFreq (ch s.1) in
  let step := value c * (if linearPitch parent then 1 else 1 + Z.shiftr b 9) in
  cmd c = DIV_CMD_NOTE_PORTA -> 0 <= value c ->
  (linearPitch parent = false -> 0 <= b) ->
  -2147483648 <= b - step -> b + step <= 2147483647 ->
  let dest := NOTE_FREQUENCY parent (value2 c + sampleNoteDelta s.1) in
  let out := dispatch parent c s in
  let b' := baseFreq (ch out.2.1) in
  (out.1 = 1 \/ out.1 = 2) /\
  (out.1 = 2 <-> b' = dest) /\
  Z.min b dest <= b' <= Z.max b dest /\
  inPorta (ch out.2.1) = (if out.1 =? 2 then false else inPorta (ch s.1)) /\
  freqChanged (ch out.2.1) = true /\
  out.2.2 = s.2.
Proof.
  intros b step Hc Hv Hb Hlo Hhi. cbn zeta. unfold dispatch. rewrite Hc.
  unfold dispatchNotePorta.
  set (dest := NOTE_FREQUENCY parent (value2 c + sampleNoteDelta s.1)).
  fold b.
  destruct (portaStep_exact parent c b Hv Hb Hlo Hhi) as [Hs Hk]. fold step in Hs, Hk.
  rewrite Hs. rewrite !s32_small by lia.
  cbn zeta. cbn [ch set_ch baseFreq set_baseFreq].
  destruct (dest >? b) eqn:E1.
  - destruct (b + step >=? dest) eqn:E2; cbn [fst snd ch set_ch baseFreq set_baseFreq
      set_freqChanged set_inPorta inPorta freqChanged Z.eqb];
      (split; [auto |]);
      (split; [split; [intros ?; lia || discriminate | intros ?; lia || reflexivity] |]);
      (split; [lia |]); auto.
  - destruct (b - step <=? dest) eqn:E2; cbn [fst snd ch set_ch baseFreq set_baseFreq
      set_freqChanged set_inPorta inPorta freqChanged Z.eqb];
      (split; [auto |]);
      (split; [split; [intros ?; lia || discriminate | intros ?; lia || reflexivity] |]);
      (split; [lia |]); auto.
Qed.

Lemma s8_small x : -128 <= x <= 127 -> s8 x = x.
Proof. intros H. unfold s8. rewrite Z.mod_small by lia. lia. Qed.

(** X19: a VOLUME command with a value in the range of [signed char],
    given a second time, changes nothing: the first one stores the volume,
    the second finds it unchanged and writes no register. *)
Theorem dispatch_volume_idempotent (parent : DivEngine) (c : DivCommand) (s : DispRegs) :
  cmd c = DIV_CMD_VOLUME -> -128 <= value c <= 127 ->
  dispatch parent c (dispatch parent c s).2 = (1, (dispatch parent c s).2).
Proof.
  intros Hc Hv. unfold dispatch. rewrite Hc. cbn [snd]. f_equal.
  assert (E : vol (ch (dispatchVolume parent c s).1) = value c).
  { unfold dispatchVolume. cbn zeta.
    destruct (vol (ch s.1) =? value c) eqn:E1; cbn [negb]; [apply Z.eqb_eq; exact E1 |].
    destruct (negb (vol_has _)); cbn [onCh fst snd ch set_ch vol set_vol set_outVol];
      apply s8_small; exact Hv. }
  unfold dispatchVolume at 1. cbn zeta. rewrite E, Z.eqb_refl. reflexivity.
Qed.

(** *** Ring and sync masks *)

Lemma storesField_applyOpRegs proj (x : nat -> Z) i c r :
  skipRegisterWrites r = false ->
  (forall o, (o < 4)%nat -> proj (opFieldsOf c o) = x o) ->
  let s' := foldl (fun s o => applyOpRegs i o s) (c, r) [0; 1; 2; 3]%nat in
  s'.1 = c /\
  exists g0 g1 g2 g3,
    writes s'.2 = writes r ++ g0 ++ g1 ++ g2 ++ g3 /\
    forall o g, [g0; g1; g2; g3] !! o = Some g ->
      w_addr <$> g = opAddrs i o /\ proj (decodeOpRegs (w_val <$> g)) = x o.
Proof.
  intros Hs Hx. cbn zeta. cbn [foldl].
  destruct (applyOpRegs_writes i 0 c r Hs) as [W0 S0].
  destruct (applyOpRegs_decode i 0 c r Hs) as (A0 & D0 & C0).
  remember (applyOpRegs i 0 (c, r)) as s0 eqn:E0. destruct s0 as [c0 r0].
  cbn [fst snd] in *. subst c0.
  destruct (applyOpRegs_writes i 1 c r0 S0) as [W1 S1].
  destruct (applyOpRegs_decode i 1 c r0 S0) as (A1 & D1 & C1).
  remember (applyOpRegs i 1 (c, r0)) as s1 eqn:E1. destruct s1 as [c1 r1].
  cbn [fst snd] in *. subst c1.
  destruct (applyOpRegs_writes i 2 c r1 S1) as [W2 S2].
  destruct (applyOpRegs_decode i 2 c r1 S1) as (A2 & D2 & C2).
  remember (applyOpRegs i 2 (c, r1)) as s2 eqn:E2. destruct s2 as [c2 r2].
  cbn [fst snd] in *. subst c2.
  destruct (applyOpRegs_writes i 3 c r2 S2) as [W3 S3].
  destruct (applyOpRegs_decode i 3 c r2 S2) as (A3 & D3 & C3).
  split; [exact C3 |].
  exists (opRegsWritten i 0 (c, r)), (opRegsWritten i 1 (c, r0)),
    (opRegsWritten i 2 (c, r1)), (opRegsWritten i 3 (c, r2)).
  split; [rewrite W3, W2, W1, W0, <- !app_assoc; reflexivity |].
  intros o g Hg. destruct o as [|[|[|[|o]]]]; cbn in Hg; try discriminate Hg;
    injection Hg as <-.
  - split; [exact A0 | rewrite D0; apply Hx; lia].
  - split; [exact A1 | rewrite D1; apply Hx; lia].
  - split; [exact A2 | rewrite D2; apply Hx; lia].
  - split; [exact A3 | rewrite D3; apply Hx; lia].
Qed.

Lemma mask_bit : forall m, 0 <= m < 2 ^ 4 -> forall o, 0 <= o < 4 ->
  Z.land (Z.shiftr (u8 m) o) 1 = Z.land (Z.shiftr m o) 1.
Proof. exhaust. Qed.

(** X20: the extended commands 0x4x and 0x5x store the low four bits of
    the value as the ring (resp. sync) mask of the channel and rewrite the
    registers of the four operators in order; the RING (resp. SYNC) bit of
    operator [o] then reads bit [o] of the mask. *)
Theorem dispatch_ring_sync_masks (parent : DivEngine) (c : DivCommand) (s : DispRegs) :
  cmd c = DIV_CMD_C64_EXTENDED -> skipRegisterWrites s.2 = false ->
  Z.shiftr (value c) 4 = 4 \/ Z.shiftr (value c) 4 = 5 ->
  let ring := Z.shiftr (value c) 4 =? 4 in
  let s' := (dispatch parent c s).2 in
  let bit (o : nat) := Z.land (Z.shiftr (Z.land (value c) 15) (Z.of_nat o)) 1 in
  ch s'.1 = (if ring then set_ringMask else set_syncMask) (u8 (Z.land (value c) 15)) (ch s.1) /\
  exists g0 g1 g2 g3,
    writes s'.2 = writes s.2 ++ g0 ++ g1 ++ g2 ++ g3 /\
    forall o g, [g0; g1; g2; g3] !! o = Some g ->
      w_addr <$> g = opAddrs (c_chan c) o /\
      (if ring then f_ring else f_sync) (decodeOpRegs (w_val <$> g)) = bit o.
Proof.
  intros Hc Hs Hv. cbn zeta. unfold dispatch. rewrite Hc. cbn [snd].
  unfold onChanRegs, dispatchC64Extended. cbn [fst snd ch set_ch].
  assert (Hm : 0 <= Z.land (value c) 15 < 2 ^ 4) by (apply (land_ones_range _ 4); lia).
  destruct Hv as [-> | ->]; cbn [Z.eqb Pos.eqb].
  - destruct (storesField_applyOpRegs f_ring
                (fun o => Z.land (Z.shiftr (Z.land (value c) 15) (Z.of_nat o)) 1)
                (c_chan c) (set_ringMask (u8 (Z.land (value c) 15)) (ch s.1)) s.2 Hs)
      as (Hc' & g0 & g1 & g2 & g3 & Hw & Hg).
    { intros o Ho. unfold opFieldsOf. cbn [f_ring ringMask set_ringMask].
      apply mask_bit; [exact Hm | lia]. }
    cbn zeta in Hc', Hw. rewrite Hc'. split; [reflexivity |].
    exists g0, g1, g2, g3. split; [exact Hw | exact Hg].
  - destruct (storesField_applyOpRegs f_sync
                (fun o => Z.land (Z.shiftr (Z.land (value c) 15) (Z.of_nat o)) 1)
                (c_chan c) (set_syncMask (u8 (Z.land (value c) 15)) (ch s.1)) s.2 Hs)
      as (Hc' & g0 & g1 & g2 & g3 & Hw & Hg).
    { intros o Ho. unfold opFieldsOf. cbn [f_sync syncMask set_syncMask].
      apply mask_bit; [exact Hm | lia]. }
    cbn zeta in Hc', Hw. rewrite Hc'. split; [reflexivity |].
    exists g0, g1, g2, g3. split; [exact Hw | exact Hg].
Qed.

(** *** A note command and the tick after it *)

(** The macro part of [tick] leaves the [pcm] flag of the channel alone. *)
Ltac pcm_step :=
  repeat match goal with
  | |- context [if ?b then _ else _] =>
      lazymatch b with
      | context [if _ then _ else _] => fail
      | _ => destruct b
      end
  end; reflexivity.

Lemma pcm_tickSlides i s : pcm (tickSlides i s).1 = pcm s.1.
Proof. destruct s as [c r]. unfold tickSlides. pcm_step. Qed.

Lemma pcm_tickVolume parent isA isO i m s :
  pcm (tickVolume parent isA isO i m s).1 = pcm s.1.
Proof. destruct s as [c r]. unfold tickVolume. pcm_step. Qed.

Lemma pcm_tickArp parent m c : handleArp_keeps_pcm -> pcm (tickArp parent m c) = pcm c.
Proof. intros H. unfold tickArp. destruct (NEW_ARP_STRAT parent); [apply H |]. pcm_step. Qed.

Lemma pcm_tickDuty i m s : pcm (tickDuty i m s).1 = pcm s.1.
Proof. destruct s as [c r]. unfold tickDuty. pcm_step. Qed.

Lemma pcm_tickWave i m s : pcm (tickWave i m s).1 = pcm s.1.
Proof. destruct s as [c r]. unfold tickWave. pcm_step. Qed.

Lemma pcm_tickPhaseReset i m s : pcm (tickPhaseReset i m s).1 = pcm s.1.
Proof. destruct s as [c r]. unfold tickPhaseReset. pcm_step. Qed.

Lemma pcm_tickPan i m s : pcm (tickPan i m s).1 = pcm s.1.
Proof. destruct s as [c r]. unfold tickPan. pcm_step. Qed.

Lemma pcm_tickPitch m c : pcm (tickPitch m c) = pcm c.
Proof. unfold tickPitch. pcm_step. Qed.

Lemma pcm_tickEx1 i m s : pcm (tickEx1 i m s).1 = pcm s.1.
Proof. destruct s as [c r]. unfold tickEx1. pcm_step. Qed.

Lemma pcm_tickEx2 i m s : pcm (tickEx2 i m s).1 = pcm s.1.
Proof. destruct s as [c r]. unfold tickEx2. pcm_step. Qed.

Lemma pcm_tickEx3 i m s : pcm (tickEx3 i m s).1 = pcm s.1.
Proof. destruct s as [c r]. unfold tickEx3. pcm_step. Qed.

Lemma pcm_tickEx4 i m s : pcm (tickEx4 i m s).1 = pcm s.1.
Proof. destruct s as [c r]. unfold tickEx4. pcm_step. Qed.

Lemma pcm_tickFb i m s : pcm (tickFb i m s).1 = pcm s.1.
Proof. destruct s as [c r]. unfold tickFb. pcm_step. Qed.

Lemma pcm_tickOpllDepth isO i m s : pcm (tickOpllDepth isO i m s).1 = pcm s.1.
Proof. destruct s as [c r]. unfold tickOpllDepth. pcm_step. Qed.

Lemma pcm_tickOperator isO i m s o : pcm (tickOperator isO i m s o).1 = pcm s.1.
Proof.
  destruct s as [c r]. unfold tickOperator.
  destruct (tickOpMacros _ _ _ _) as [[op opE] d]. destruct d; reflexivity.
Qed.

Lemma pcm_tickOperators isO i m l : forall s,
  pcm (foldl (tickOperator isO i m) s l).1 = pcm s.1.
Proof.
  induction l as [|o l IH]; intros s; [reflexivity |].
  cbn [foldl]. rewrite IH. apply pcm_tickOperator.
Qed.

Lemma pcm_tickMacros parent sysTick i m s :
  handleArp_keeps_pcm -> pcm (tickMacros parent sysTick i m s).1 = pcm s.1.
Proof.
  intros H. unfold tickMacros. cbn zeta.
  rewrite pcm_tickOperators, pcm_tickOpllDepth, pcm_tickFb, pcm_tickEx4, pcm_tickEx3,
    pcm_tickEx2, pcm_tickEx1.
  unfold onChannel at 1. cbn [fst]. rewrite pcm_tickPitch.
  rewrite pcm_tickPan, pcm_tickPhaseReset, pcm_tickWave, pcm_tickDuty.
  unfold onChannel at 1. cbn [fst]. rewrite (pcm_tickArp _ _ _ H).
  rewrite pcm_tickVolume. destruct sysTick; [apply pcm_tickSlides | reflexivity].
Qed.

Lemma tickPcmKeyOn_key parent offs i c r :
  key (tickPcmKeyOn parent offs i (c, r)).1 = key c /\
  keyOff (tickPcmKeyOn parent offs i (c, r)).1 = keyOff c.
Proof.
  unfold tickPcmKeyOn.
  destruct (getSample parent (sample c)) as [smp|]; [| split; reflexivity].
  destruct ((sample c >=? 0) && (sample c <? song_sampleLen parent)); [| split; reflexivity].
  cbn zeta. destruct (isLoopable smp); split; reflexivity.
Qed.

(** The channel the key and frequency block leaves. *)
Lemma tickKeyFreq_flags parent offs clk i c r :
  freqChanged c || keyOn c || keyOff c = true ->
  let c' := (tickKeyFreq parent offs clk i (c, r)).1 in
  keyOn c' = false /\ keyOff c' = (if keyOn c || keyOff c then false else keyOff c) /\
  freqChanged c' = false /\
  key c' = (if keyOn c then true else if keyOff c then false else key c).
Proof.
  intros Hrun. cbn zeta. unfold tickKeyFreq. rewrite Hrun.
  unfold tickKeyOffEdge.
  destruct (keyOn c) eqn:Kon; cbn [orb].
  - unfold writeControl. cbn [fst snd]. cbv beta iota zeta.
    rewrite tickFreq_spec. unfold tickKeyOnEdge.
    match goal with |- context [set_freq ?f ?c1] => set (c2 := set_freq f c1) end.
    assert (K2 : keyOn c2 = true) by exact Kon.
    rewrite K2. unfold writeControl. cbv beta iota zeta. cbn [fst snd].
    change (keyOn (set_key true c2)) with (keyOn c2). rewrite K2.
    destruct (pcm (set_key true c2)).
    + match goal with |- context [tickPcmKeyOn ?p ?o ?j (?cc, ?rr)] =>
        destruct (tickPcmKeyOn_key p o j cc rr) as [Hk Hf];
        destruct (tickPcmKeyOn p o j (cc, rr)) as [c3 r3] end.
      cbn [fst snd] in *. destruct (keyOn c3) eqn:K3; cbn; repeat split; try assumption.
    + cbv beta iota zeta. change (keyOn (set_key true c2)) with (keyOn c2). rewrite K2.
      cbn. repeat split.
  - destruct (keyOff c) eqn:Koff.
    + unfold writeControl. cbn [fst snd]. cbv beta iota zeta.
      rewrite tickFreq_spec. unfold tickKeyOnEdge.
      match goal with |- context [set_freq ?f ?c1] => set (c2 := set_freq f c1) end.
      assert (K2 : keyOn c2 = false) by exact Kon.
      rewrite K2. cbv beta iota zeta. rewrite K2. subst c2. cbn. rewrite ?Kon. repeat split; assumption.
    + cbv beta iota zeta. rewrite tickFreq_spec. unfold tickKeyOnEdge.
      match goal with |- context [set_freq ?f ?c1] => set (c2 := set_freq f c1) end.
      assert (K2 : keyOn c2 = false) by exact Kon.
      rewrite K2. cbv beta iota zeta. rewrite K2. subst c2. cbn. rewrite ?Kon. repeat split; assumption.
Qed.

(** X21: NOTE_OFF (or NOTE_OFF_ENV) writes no register itself; the next
    [tick] of the channel then queues FLAGS0 with the key bit clear, the
    volume 0 if and only if the channel plays PCM (its [pcm] flag when the
    command arrives), and the clamped frequency, in that order and as the
    last writes, and leaves the channel with no key and no pending edge.
    The arpeggio handler is assumed to leave the key edges and the [pcm]
    flag alone. *)
Theorem note_off_then_tick (parent : DivEngine) (c : DivCommand) (s : DispRegs)
    (offs : list Z) (clk : Z) (sysTick : bool) (m : DivMacroInt) :
  cmd c = DIV_CMD_NOTE_OFF \/ cmd c = DIV_CMD_NOTE_OFF_ENV ->
  handleArp_keeps_edges -> handleArp_keeps_pcm ->
  let i := c_chan c in
  let s1 := (dispatch parent c s).2 in
  let s2 := tickChannel parent offs clk sysTick i m (ch s1.1, s1.2) in
  let vol0 := if pcm (ch s.1) then [chW i SGU1_CHN_VOL 0] else [] in
  s1.2 = s.2 /\
  key s2.1 = false /\ keyOn s2.1 = false /\ keyOff s2.1 = false /\
  exists pre vOff f,
    Forall (otherReg i) pre /\
    Z.testbit (w_val (chW i SGU1_CHN_FLAGS0 vOff)) 0 = false /\
    0 <= f <= 65535 /\ freq s2.1 = f /\
    emits (pre ++ [chW i SGU1_CHN_FLAGS0 vOff] ++ vol0
             ++ [chW i SGU1_CHN_FREQ_L (Z.land f 255); chW i SGU1_CHN_FREQ_H (Z.shiftr f 8)])
      s.2 s2.2.
Proof.
  intros Hc Harp Hpcm. cbn zeta.
  assert (E1 : ch (dispatch parent c s).2.1 = releaseKey (ch s.1) /\
               (dispatch parent c s).2.2 = s.2).
  { unfold dispatch. destruct Hc as [-> | ->]; split; reflexivity. }
  destruct E1 as [Ech Er]. rewrite Ech, Er. split; [reflexivity |].
  unfold tickChannel.
  destruct (keepsEdges_tickMacros parent sysTick (c_chan c) m (releaseKey (ch s.1), s.2) Harp)
    as (Kon & Koff & pre & Hpre & Fpre).
  pose proof (pcm_tickMacros parent sysTick (c_chan c) m (releaseKey (ch s.1), s.2) Hpcm)
    as Kpcm.
  destruct (tickMacros parent sysTick (c_chan c) m (releaseKey (ch s.1), s.2)) as [cm rm].
  cbn [fst snd] in Kon, Koff, Hpre, Kpcm.
  change (keyOn (releaseKey (ch s.1))) with false in Kon.
  change (keyOff (releaseKey (ch s.1))) with true in Koff.
  change (pcm (releaseKey (ch s.1))) with (pcm (ch s.1)) in Kpcm.
  assert (Hrun : freqChanged cm || keyOn cm || keyOff cm = true)
    by (rewrite Kon, Koff; apply orb_true_r).
  destruct (tickKeyFreq_flags parent offs clk (c_chan c) cm rm Hrun) as (F1 & F2 & F3 & F4).
  destruct (tickKeyFreq_runs parent offs clk (c_chan c) cm rm Hrun) as (Hf & post & Fpost & Hem).
  cbn zeta in F1, F2, F3, F4, Hf, Hem. rewrite Kon, Koff in *. cbn [orb andb] in *.
  rewrite Kpcm in Hem.
  split; [exact F4 | split; [exact F1 | split; [exact F2 |]]].
  eexists pre, (flags0 (set_key false cm)), _.
  split; [exact Fpre | split; [| split; [apply clampFreq_range | split; [exact Hf |]]]].
  - rewrite chW_val. apply flags0_keybit.
  - eapply emits_app; [exact Hpre |]. rewrite app_nil_r in Hem. exact Hem.
Qed.

Lemma commitC64Channel_key ch ins s : key (commitC64Channel ch ins s).1 = key s.1.
Proof.
  destruct s as [c r]. unfold commitC64Channel. cbn zeta.
  repeat match goal with
  | |- context [if ?b then _ else _] =>
      lazymatch b with
      | context [if _ then _ else _] => fail
      | _ => destruct b
      end
  end; reflexivity.
Qed.

Lemma commitState_key ch ins s : key (commitState ch ins s).1 = key s.1.
Proof.
  destruct ins as [ins|]; [| reflexivity].
  unfold commitState. destruct s as [c r].
  destruct (isAmiga ins); [reflexivity |]. cbv beta iota zeta.
  assert (H : forall fm esfm,
            key (convertAlgorithm ch ins fm esfm (set_pcm false c, r)).2.1 = key c).
  { intros fm esfm. unfold convertAlgorithm.
    destruct (ins_type ins); cbn [snd fst];
      try reflexivity; try (destruct (routeTwoOp _ _); reflexivity);
      apply (commitC64Channel_key ch ins (set_pcm false c, r)). }
  specialize (H (convertOperators ins (ins_fm ins)) (ins_esfm ins)).
  destruct (convertAlgorithm _ _ _ _ _) as [[fm esfm] [c2 r2]]. cbn [snd fst] in H.
  rewrite foldl_applyOpRegs_fst. exact H.
Qed.

(** X22: NOTE_ON leaves the channel with its key set and a key-on edge
    pending; the next [tick] of the channel then queues FLAGS0 with the key
    bit clear, the clamped frequency in FREQ_L and FREQ_H, and FLAGS0 with the
    key bit set, in that order, and clears the pending edge. *)
Theorem note_on_then_tick (parent : DivEngine) (c : DivCommand) (s : DispRegs)
    (offs : list Z) (clk : Z) (sysTick : bool) (m : DivMacroInt) :
  cmd c = DIV_CMD_NOTE_ON ->
  handleArp_keeps_edges ->
  let i := c_chan c in
  let s1 := (dispatch parent c s).2 in
  let s2 := tickChannel parent offs clk sysTick i m (ch s1.1, s1.2) in
  key (ch s1.1) = true /\ keyOn (ch s1.1) = true /\ keyOff (ch s1.1) = false /\
  key s2.1 = true /\ keyOn s2.1 = false /\ keyOff s2.1 = false /\
  exists pre vOff f vOn post,
    Forall (otherReg i) pre /\ Forall (otherReg i) post /\
    Z.testbit (w_val (chW i SGU1_CHN_FLAGS0 vOff)) 0 = false /\
    Z.testbit (w_val (chW i SGU1_CHN_FLAGS0 vOn)) 0 = true /\
    0 <= f <= 65535 /\ freq s2.1 = f /\
    emits (pre ++ [chW i SGU1_CHN_FLAGS0 vOff; chW i SGU1_CHN_FREQ_L (Z.land f 255);
                   chW i SGU1_CHN_FREQ_H (Z.shiftr f 8); chW i SGU1_CHN_FLAGS0 vOn] ++ post)
      s1.2 s2.2.
Proof.
  intros Hc Harp. cbn zeta.
  assert (E1 : exists c0, ch (dispatch parent c s).2.1 = noteOnFlags c0 /\ key c0 = true).
  { unfold dispatch. rewrite Hc. unfold dispatchNoteOn. cbn zeta. cbn [fst snd ch set_ch].
    eexists. split; [reflexivity |].
    assert (K : key (ch (noteOnCommit parent c s).1) = true).
    { unfold noteOnCommit. cbn zeta. cbn [fst snd onCh ch set_ch set_insChanged key].
      unfold onChanRegs. cbn [fst snd ch set_ch]. rewrite commitState_key. cbn [fst].
      destruct (negb (vol_will _)); reflexivity. }
    unfold noteOnPitch, noteOnSample.
    repeat match goal with |- context [if ?b then _ else _] => destruct b end;
      cbn; exact K. }
  destruct E1 as (c0 & Ech & Hkey). rewrite Ech.
  set (r1 := (dispatch parent c s).2.2). clearbody r1. clear Ech.
  split; [exact Hkey | split; [reflexivity | split; [reflexivity |]]].
  unfold tickChannel.
  destruct (keepsEdges_tickMacros parent sysTick (c_chan c) m (noteOnFlags c0, r1) Harp)
    as (Kon & Koff & pre & Hpre & Fpre).
  destruct (tickMacros parent sysTick (c_chan c) m (noteOnFlags c0, r1)) as [cm rm].
  cbn [fst snd] in Kon, Koff, Hpre.
  change (keyOn (noteOnFlags c0)) with true in Kon.
  change (keyOff (noteOnFlags c0)) with false in Koff.
  assert (Hrun : freqChanged cm || keyOn cm || keyOff cm = true)
    by (rewrite Kon, Koff; destruct (freqChanged cm); reflexivity).
  destruct (tickKeyFreq_flags parent offs clk (c_chan c) cm rm Hrun) as (F1 & F2 & F3 & F4).
  destruct (tickKeyFreq_runs parent offs clk (c_chan c) cm rm Hrun) as (Hf & post & Fpost & Hem).
  cbn zeta in F1, F2, F3, F4, Hf, Hem. rewrite Kon, Koff in *. cbn [orb andb] in *.
  split; [exact F4 | split; [exact F1 | split; [exact F2 |]]].
  cbn [app] in Hem.
  match type of Hem with
  | emits (_ :: _ :: _ :: chW _ _ ?vOn :: _) _ _ =>
      exists pre, (flags0 (set_key false cm)),
        (clampFreq (tickCalcFreq parent clk (set_keyOff false (set_key false cm)))), vOn, post
  end.
  split; [exact Fpre | split; [exact Fpost | split; [| split; [| split; [apply clampFreq_range
    | split; [exact Hf |]]]]]].
  - rewrite chW_val. apply flags0_keybit.
  - rewrite chW_val. apply flags0_keybit.
  - eapply emits_app; [exact Hpre |]. exact Hem.
Qed.

End CommandProperties.

End MoreProperties.

(** * The theorems at concrete inputs *)

#[local] Existing Instance exampleHeader.
#[local] Existing Instance exampleCore.



Lemma commitState_c64_sustain15_decay_witness :
  op_dr (committedOp (hdr := exampleHeader) 0 (exampleIns DIV_INS_C64)
           (exampleChannel, exampleRegs) 3) = 1.
Proof.
  apply commitState_c64_sustain15_decay; [left; reflexivity | reflexivity | reflexivity].
Defined.

(** C3, counterexample: a C64 instrument with legacy sustain 15 (and decay 9)
    leaves the carrier with a decay rate that is not 0. *)
Lemma commitState_c64_sustain15_decay_nonzero :
  c64_s (ins_c64 (exampleIns DIV_INS_C64)) = 15 /\
  op_dr (committedOp (hdr := exampleHeader) 0 (exampleIns DIV_INS_C64)
           (exampleChannel, exampleRegs) 3) <> 0.
Proof. split; [reflexivity | vm_compute; discriminate]. Qed.

Lemma commitState_unknown_kind_witness :
  (commitState (hdr := exampleHeader) 0 (Some (exampleIns (DIV_INS_OTHER 0)))
     (exampleChannel, exampleRegs)).1
  = set_state_esfm exampleESFM (set_state_fm exampleFM (set_pcm false exampleChannel)).
Proof.
  apply (commitState_unknown_kind (hdr := exampleHeader) 0 (exampleIns (DIV_INS_OTHER 0)) 0
           exampleChannel exampleRegs); reflexivity.
Defined.

(** C8, counterexample: committing an instrument of an unrecognised kind to a
    channel that was playing a sample changes the channel (its [pcm] flag is
    cleared) and queues register writes. *)
Lemma commitState_unknown_kind_changes_state :
  let s' := commitState (hdr := exampleHeader) 0 (Some (exampleIns (DIV_INS_OTHER 0)))
              (exampleChannel, exampleRegs) in
  s'.1 <> exampleChannel /\ pcm exampleChannel = true /\ pcm s'.1 = false /\
  length (writes s'.2) = 32%nat.
Proof.
  cbn zeta. split; [| split; [| split]]; try reflexivity.
  intros H. apply (f_equal pcm) in H. vm_compute in H. discriminate.
Qed.

Lemma exampleHeader_handleArp : handleArp_keeps_edges (hdr := exampleHeader).
Proof. intros m c. cbn. destruct (had m); split; reflexivity. Defined.

(** The key edge order on channel 2 with a key-on pending, PCM active and the
    filter-mode macro firing in the same tick. *)
Lemma tick_key_edge_order_witness :
  keyOn exampleChannel = true /\
  exists pre vOff mid f post,
    writes (tickChannel (hdr := exampleHeader) exampleEngine (replicate (Z.to_nat 32768) 0)
              1000000 true 2 exampleMacros (exampleChannel, exampleRegs)).2
      = writes exampleRegs ++
        (if skipRegisterWrites exampleRegs then []
         else pre ++ [chW 2 SGU1_CHN_FLAGS0 vOff] ++ mid
              ++ [chW 2 SGU1_CHN_FREQ_L (Z.land f 255); chW 2 SGU1_CHN_FREQ_H (Z.shiftr f 8)]
              ++ post) /\
    Z.testbit (w_val (chW 2 SGU1_CHN_FLAGS0 vOff)) 0 = false /\
    (mid = [] \/ mid = [chW 2 SGU1_CHN_VOL 0]) /\
    Forall (otherReg 2) (pre ++ [chW 2 SGU1_CHN_FLAGS0 vOff] ++ mid) /\
    Forall (otherReg 2) post /\
    (keyOn exampleChannel = true ->
     exists vOn post',
       post = chW 2 SGU1_CHN_FLAGS0 vOn :: post' /\
       Z.testbit (w_val (chW 2 SGU1_CHN_FLAGS0 vOn)) 0 = true).
Proof.
  split; [reflexivity |].
  apply (tick_key_edge_order (hdr := exampleHeader) exampleEngine (replicate (Z.to_nat 32768) 0)
           1000000 true 2 exampleMacros exampleChannel exampleRegs).
  - exact exampleHeader_handleArp.
  - left. reflexivity.
Defined.

(** The same tick, evaluated: the macro's FLAGS0 write, the key-off FLAGS0
    write, the clamped frequency 65535, the key-on FLAGS0 write, then the PCM
    offsets and FLAGS1. *)
Example tick_example :
  map (fun w => (w_addr w, w_val w))
    (writes (tickChannel (hdr := exampleHeader) exampleEngine (replicate (Z.to_nat 32768) 0)
               1000000 true 2 exampleMacros (exampleChannel, exampleRegs)).2)
  = [(164, 40); (164, 40); (160, 255); (161, 255); (164, 41);
     (170, 0); (171, 0); (172, 6); (173, 0); (165, 3)].
Proof. vm_compute. reflexivity. Qed.

(** The second of two frames on a platform with two writes pending. *)
Lemma acquire_drains_then_clamps_witness :
  let a := acquireFrames (core := exampleCore) (hdr := exampleHeader) 1
             (acquireInit [0; 0; 0] [0; 0; 0] 2 examplePlatform) in
  let g := foldl (fun g w => SGU_Write g (w_addr w) (w_val w)) (aq_sgu a) (aq_writes a) in
  let out := SGU_NextSample g (aq_lr a) in
  let l := CLAMP out.2.1 (-32768) 32767 in
  let r := CLAMP out.2.2 (-32768) 32767 in
  aq_writes (acquireFrame a 1) = [] /\
  aq_sgu (acquireFrame a 1) = out.1 /\
  (acquire [0; 0; 0] [0; 0; 0] 2 examplePlatform).1.1 !! 1%nat = Some l /\
  (acquire [0; 0; 0] [0; 0; 0] 2 examplePlatform).1.2 !! 1%nat = Some r /\
  -32768 <= l <= 32767 /\ -32768 <= r <= 32767.
Proof.
  apply (acquire_drains_then_clamps (core := exampleCore) (hdr := exampleHeader)
           [0; 0; 0] [0; 0; 0] 2 examplePlatform 1); cbn; lia.
Defined.

(** The same call, evaluated: both pending writes reach the core before the
    first sample (the core has summed 1+2), the outputs are clamped, the
    queue ends empty. *)
Example acquire_example :
  let '(buf0, buf1, st) :=
    acquire (core := exampleCore) (hdr := exampleHeader) [0; 0; 0] [0; 0; 0] 2
      examplePlatform in
  (buf0, buf1, writes (regs st), sgu st) = ([32767; 32767; 0], [-32768; -32768; 0], [], 5).
Proof. vm_compute. reflexivity. Qed.

Lemma introspection_safe_witness :
  (forall index sample, exists b, isSampleLoaded index sample examplePlatform = Some b) /\
  (forall index sample, index <> 0 -> isSampleLoaded index sample examplePlatform = Some false) /\
  (forall index sample,
      sample < 0 \/ sample > 32767 ->
      isSampleLoaded index sample examplePlatform = Some false) /\
  (forall index,
      index <> 0 ->
      getSampleMem index examplePlatform = None /\ getMemCompo index examplePlatform = None) /\
  (forall ch, is_Some (getOscBuffer ch examplePlatform) <-> 0 <= ch < 9) /\
  (forall ch, is_Some (getChanState ch examplePlatform) <-> 0 <= ch < 9).
Proof.
  destruct (introspection_safe examplePlatform) as (H1 & H2 & H3 & H4 & H5 & H6).
  - vm_compute. reflexivity.
  - split; [exact H1 | split; [exact H2 | split; [exact H3 | split; [exact H4 | split]]]].
    + apply H5. reflexivity.
    + apply H6. reflexivity.
Defined.

(** C9, counterexample: the channel index 9 (one past the last of the nine
    channels) and the index -1 make [getOscBuffer] and [getChanState] use an
    entry outside their arrays. *)
Lemma introspection_channel_index_unchecked :
  length (oscBuf examplePlatform) = SGU_CHNS /\ length (chan examplePlatform) = SGU_CHNS /\
  getOscBuffer 9 examplePlatform = None /\ getChanState 9 examplePlatform = None /\
  getOscBuffer (-1) examplePlatform = None /\ getChanState (-1) examplePlatform = None.
Proof. vm_compute. repeat split. Qed.

(** Every flag of [examplePlatform] is set, so the answers below come from
    the guards. *)
Example isSampleLoaded_example :
  isSampleLoaded 0 5 examplePlatform = Some true /\
  isSampleLoaded 1 5 examplePlatform = Some false /\
  isSampleLoaded 0 (-1) examplePlatform = Some false /\
  isSampleLoaded 0 32768 examplePlatform = Some false /\
  isSampleLoaded 0 32767 examplePlatform = Some true.
Proof. vm_compute. repeat split. Qed.

Lemma renderSamples_idempotent_witness :
  let st1 := renderSamples exampleEngine 0 examplePlatform in
  let st2 := renderSamples exampleEngine 0 st1 in
  sampleOffSGU st2 = sampleOffSGU st1 /\
  sampleLoaded st2 = sampleLoaded st1 /\
  sampleMem st2 = sampleMem st1 /\
  sampleMemLen st2 = sampleMemLen st1 /\
  memCompo st2 = memCompo st1 /\
  sysIDCache st2 = sysIDCache st1.
Proof.
  apply (renderSamples_idempotent exampleEngine 0 examplePlatform). vm_compute. discriminate.
Defined.

(** [renderSamples] on three samples of 6, 12 and 5 bytes in 16 bytes of
    sample memory: the first is loaded at 0, the second overruns at 6 and is
    cut to 10 bytes, the third is not reached. *)
Example renderSamples_example :
  let st := renderSamples exampleEngine 0 examplePlatform in
  (take 3 (sampleOffSGU st), take 3 (sampleLoaded st), sampleMem st, sampleMemLen st,
   warnings st)
  = ([0; 6; 0], [true; false; false], replicate 16 7, 18, [1; 2]%nat).
Proof. vm_compute. reflexivity. Qed.

(** Samples of 6, 12 and 5 bytes in 16 bytes of sample memory: the second is
    the first to overrun. *)
Lemma renderSamples_overflow_witness :
  let st' := renderSamples exampleEngine 0 examplePlatform in
  (forall k, 0 <= k < 10 -> sampleMem st' !! Z.to_nat (6 + k) = replicate 12 7 !! Z.to_nat k) /\
  1%nat ∈ warnings st' /\
  sampleLoaded st' !! 1%nat = Some false /\
  sampleMemLen st' = 18 /\
  nondecreasing (me_begin <$> mc_entries (memCompo st')).
Proof.
  destruct (renderSamples_overflow exampleEngine 0 examplePlatform
              [exampleSample 6 true] [exampleSample 5 true] (exampleSample 12 true)
              (replicate 12 7))
    as ((_ & _ & Hcopy & _) & Hwarn & Hload & (_ & _ & _ & Hlen & _) & (Hsorted & _)).
  - reflexivity.
  - vm_compute. discriminate.
  - reflexivity.
  - repeat constructor.
  - reflexivity.
  - reflexivity.
  - vm_compute. reflexivity.
  - vm_compute. discriminate.
  - cbn zeta. split; [| split; [| split; [| split]]].
    + exact Hcopy.
    + exact Hwarn.
    + exact Hload.
    + exact Hlen.
    + exact Hsorted.
Defined.

(** * The further theorems at concrete inputs *)

#[local] Existing Instance exampleMacroInt.
#[local] Existing Instance exampleDispatchEnv.
#[local] Existing Instance exampleCoreReset.

(** The eight registers of operator 1 of channel 2, decoded. *)
Lemma applyOpRegs_roundtrip_witness :
  let ws := opRegsWritten 2 1 (exampleChannel, exampleRegs) in
  w_addr <$> ws =
    (fun k => u16 (2 * SGU_REGS_PER_CH + Z.of_nat 1 * SGU_OP_REGS + k))
      <$> [0; 1; 2; 3; 4; 5; 6; 7] /\
  decodeOpRegs (w_val <$> ws) = opFieldsOf exampleChannel 1 /\
  (applyOpRegs 2 1 (exampleChannel, exampleRegs)).1 = exampleChannel.
Proof. apply (applyOpRegs_roundtrip 2 1 exampleChannel exampleRegs). reflexivity. Defined.

Example applyOpRegs_example :
  map (fun w => (w_addr w, w_val w)) (opRegsWritten 2 1 (exampleChannel, exampleRegs))
  = [(136, 1); (137, 15); (138, 249); (139, 71); (140, 0); (141, 0); (142, 0); (143, 0)].
Proof. vm_compute. reflexivity. Qed.

(** Full channel volume with the highest macro volume gives the highest
    level, and a lower macro volume gives no more. *)
Lemma sguOpllScaleVol_bounded_monotone_witness :
  sguOpllScaleVol exampleEngine 127 15 = 127 /\
  sguOpllScaleVol exampleEngine 100 7 <= sguOpllScaleVol exampleEngine 100 9.
Proof.
  split.
  - destruct (sguOpllScaleVol_bounded_monotone exampleEngine 127 15) as (_ & _ & _ & H).
    apply H; lia.
  - destruct (sguOpllScaleVol_bounded_monotone exampleEngine 100 7) as (_ & H & _).
    apply H; lia.
Defined.

Lemma tick_idle_witness :
  tick exampleEngine true (replicate 9 quietTick) restingPlatform = restingPlatform.
Proof.
  apply (tick_idle exampleEngine true (replicate 9 quietTick) restingPlatform).
  intros i c m Hc Hm.
  apply lookup_replicate in Hc as [-> _]. apply lookup_replicate in Hm as [-> _].
  repeat split; reflexivity.
Defined.

Lemma acquire_oscilloscope_witness :
  let a := acquireInit [0; 0; 0] [0; 0; 0] 2 examplePlatform in
  oscBuf (acquire [0; 0; 0] [0; 0; 0] 2 examplePlatform).2 !! 1%nat =
    Some ([] ++ [OscBegin 2]
            ++ ((fun h => OscPutSample h (SGU_GetSample (aq_sgu (acquireFrames (S h) a))
                                            (Z.of_nat 1))) <$> seq 0 2)
            ++ [OscEnd 2]).
Proof.
  apply (acquire_oscilloscope [0; 0; 0] [0; 0; 0] 2 examplePlatform 1 []).
  - cbn. lia.
  - reflexivity.
Defined.

Example acquire_oscilloscope_example :
  oscBuf (acquire [0; 0; 0] [0; 0; 0] 2 examplePlatform).2 !! 1%nat
  = Some [OscBegin 2; OscPutSample 0 5; OscPutSample 1 6; OscEnd 2].
Proof. vm_compute. reflexivity. Qed.

(** The first of the three samples is loaded, at offset 0. *)
Lemma renderSamples_loaded_intact_witness :
  exists off,
    sampleOffSGU (renderSamples exampleEngine 0 examplePlatform) !! 0%nat = Some off /\
    storedAt exampleEngine 0 (sampleMem (renderSamples exampleEngine 0 examplePlatform)) 0 off.
Proof.
  apply (renderSamples_loaded_intact exampleEngine 0 examplePlatform 0).
  - repeat constructor.
  - vm_compute. reflexivity.
Defined.

(** The first sample of [exampleEngineSkip] is not rendered on system 0. *)
Lemma renderSamples_skipped_witness :
  let st' := renderSamples exampleEngineSkip 0 examplePlatform in
  sampleLoaded st' !! 0%nat = Some false /\ sampleOffSGU st' !! 0%nat = Some 0 /\
  isSampleLoaded 0 (Z.of_nat 0) st' = Some false.
Proof.
  apply (renderSamples_skipped exampleEngineSkip 0 examplePlatform 0).
  - intros s Hs. injection Hs as <-. right. reflexivity.
  - lia.
Defined.

Lemma renderSamples_entries_tile_witness :
  let mc := memCompo (renderSamples exampleEngine 0 examplePlatform) in
  tiles 0 (mc_entries mc) (mc_used mc) /\
  mc_used mc = sampleMemLen (renderSamples exampleEngine 0 examplePlatform) /\
  mc_capacity mc = SGU_PCM_RAM_SIZE /\
  forall e, e ∈ mc_entries mc ->
    0 <= me_begin e < SGU_PCM_RAM_SIZE /\
    exists s, song_sample exampleEngine !! me_asset e = Some s /\
              me_end e = me_begin e + length8 s.
Proof.
  apply (renderSamples_entries_tile exampleEngine 0 examplePlatform). repeat constructor.
Defined.

Example renderSamples_entries_example :
  mc_entries (memCompo (renderSamples exampleEngine 0 examplePlatform))
  = [mkDivMemoryEntry 0 0 6; mkDivMemoryEntry 1 6 18].
Proof. vm_compute. reflexivity. Qed.

(** Three pokes, two of them to register 3. *)
Lemma pokeList_mirror_witness :
  let wlist := [mkDivRegWrite 3 7; mkDivRegWrite 70 1; mkDivRegWrite 3 9] in
  let r' := pokeList wlist exampleRegs in
  let new := (fun w => QueuedWrite_new (rw_addr w) (rw_val w)) <$> wlist in
  writes r' = writes exampleRegs ++ new /\
  length (regPool r') = length (regPool exampleRegs) /\
  forall k, Z.of_nat k < SGU_REG_POOL_SIZE ->
    regPool r' !! k =
      match lastQueued (Z.of_nat k) new with
      | Some v => (fun _ => v) <$> regPool exampleRegs !! k
      | None => regPool exampleRegs !! k
      end.
Proof.
  apply (pokeList_mirror [mkDivRegWrite 3 7; mkDivRegWrite 70 1; mkDivRegWrite 3 9]
           exampleRegs).
  - reflexivity.
  - repeat constructor; cbn; lia.
Defined.

Example pokeList_example :
  let r' := pokeList [mkDivRegWrite 3 7; mkDivRegWrite 70 1; mkDivRegWrite 3 9] exampleRegs in
  (regPool r' !! 3%nat, regPool r' !! 70%nat, regPool r' !! 4%nat, length (writes r'))
  = (Some 9, Some 1, Some 0, 3%nat).
Proof. vm_compute. reflexivity. Qed.

(** Address 65539 is queued as register 3, which the pool does not see. *)
Lemma poke_high_address_witness :
  writes (poke 65539 300 exampleRegs) = writes exampleRegs ++ [mkQueuedWrite 3 44] /\
  regPool (poke 65539 300 exampleRegs) = regPool exampleRegs.
Proof.
  apply (poke_high_address 65539 300 exampleRegs).
  - reflexivity.
  - vm_compute. discriminate.
  - lia.
Defined.

Lemma reset_complete_witness :
  let st' := reset examplePlatform in
  chan st' = replicate SGU_CHNS (ch Channel_ctor) /\
  length (regPool (regs st')) = Z.to_nat SGU_REG_POOL_SIZE /\
  mirrors (regs st') /\
  (exists ls : list (list QueuedWrite),
     length ls = SGU_CHNS /\
     writes (regs st') =
       (if skipRegisterWrites (regs examplePlatform) then [] else concat ls) /\
     forall i l, ls !! i = Some l ->
       length l = 40%nat /\ Forall (inChannel (Z.of_nat i)) l) /\
  sgu st' =
    SGU_set_pcm (sampleMem examplePlatform)
      (foldl (fun g i => SGU_set_muted i false g) (SGU_Reset (sgu examplePlatform))
         (seq 0 SGU_CHNS)).
Proof.
  apply (reset_complete examplePlatform).
  - reflexivity.
  - vm_compute. discriminate.
Defined.

Example reset_example :
  length (writes (regs (reset examplePlatform))) = 360%nat /\
  take 3 (regPool (regs (reset examplePlatform))) = [1; 15; 249].
Proof. vm_compute. split; reflexivity. Qed.

Lemma forceIns_resends_witness :
  chan (forceIns examplePlatform) = forced <$> chan examplePlatform /\
  (mirrors (regs examplePlatform) -> SGU_REG_POOL_SIZE <= 65536 ->
   mirrors (regs (forceIns examplePlatform))) /\
  exists ls : list (list (Z * Z)),
    length ls = SGU_CHNS /\
    regs (forceIns examplePlatform) = rWrites (concat ls) (regs examplePlatform) /\
    forall i l, ls !! i = Some l ->
      length l = 39%nat /\ Forall (inBlock (Z.of_nat i)) l /\
      Forall (notFreqVol (Z.of_nat i)) l.
Proof. apply (forceIns_resends examplePlatform). reflexivity. Defined.

(** A total level for operator 7, which no channel has. *)
Lemma dispatch_ignored_witness :
  dispatch exampleEngine (mkDivCommand DIV_CMD_FM_TL 2 7 33) (exampleChanState, exampleRegs)
  = (1, (exampleChanState, exampleRegs)).
Proof.
  apply (dispatch_ignored exampleEngine (mkDivCommand DIV_CMD_FM_TL 2 7 33)
           (exampleChanState, exampleRegs)).
  reflexivity.
Defined.

(** Total level 100 for all four operators of channel 2. *)
Lemma dispatch_operator_param_reaches_registers_witness :
  let c := mkDivCommand DIV_CMD_FM_TL 2 (-1) 100 in
  let s := (exampleChanState, exampleRegs) in
  exists groups : list (list QueuedWrite),
    writes (dispatch exampleEngine c s).2.2 = writes s.2 ++ concat groups /\
    Forall2 (fun o g => w_addr <$> g = opAddrs (c_chan c) o /\
                        f_tl (decodeOpRegs (w_val <$> g)) = Z.land (value2 c) 127)
      (opRange (value c)) groups.
Proof.
  apply (dispatch_operator_param_reaches_registers exampleEngine
           (mkDivCommand DIV_CMD_FM_TL 2 (-1) 100) (exampleChanState, exampleRegs) f_tl 127).
  - reflexivity.
  - reflexivity.
Defined.

(** The period 0x1234 of the volume sweep of channel 2. *)
Lemma dispatch_sweep_period_bytes_witness :
  let s := (exampleChanState, exampleRegs) in
  let low := mkDivCommand DIV_CMD_SU_SWEEP_PERIOD_LOW 2 1 52 in
  let high := mkDivCommand DIV_CMD_SU_SWEEP_PERIOD_HIGH 2 1 18 in
  let s1 := (dispatch exampleEngine high (dispatch exampleEngine low s).2).2 in
  let s2 := (dispatch exampleEngine low (dispatch exampleEngine high s).2).2 in
  let regL := chW 2 (SGU1_CHN_SWFREQ_SPD_L + 4 * 1) 52 in
  let regH := chW 2 (SGU1_CHN_SWFREQ_SPD_H + 4 * 1) 18 in
  sweepPeriod 1 (ch s1.1) = 18 * 256 + 52 /\
  sweepPeriod 1 (ch s2.1) = 18 * 256 + 52 /\
  writes s1.2 = writes s.2 ++ [regL; regH] /\
  writes s2.2 = writes s.2 ++ [regH; regL] /\
  (forall k, k <> 1 -> sweepPeriod k (ch s1.1) = sweepPeriod k (ch s.1) /\
                       sweepPeriod k (ch s2.1) = sweepPeriod k (ch s.1)).
Proof.
  apply (dispatch_sweep_period_bytes exampleEngine 2 1 52 18 (exampleChanState, exampleRegs)).
  - lia.
  - lia.
  - lia.
  - reflexivity.
Defined.

(** A portamento of speed 10 from base frequency 4291 towards note 60. *)
Lemma dispatch_note_porta_no_overshoot_witness :
  let c := mkDivCommand DIV_CMD_NOTE_PORTA 2 10 60 in
  let s := (exampleChanState, exampleRegs) in
  let dest := NOTE_FREQUENCY exampleEngine (value2 c + sampleNoteDelta s.1) in
  let b := baseFreq (ch s.1) in
  let out := dispatch exampleEngine c s in
  let b' := baseFreq (ch out.2.1) in
  (out.1 = 1 \/ out.1 = 2) /\
  (out.1 = 2 <-> b' = dest) /\
  Z.min b dest <= b' <= Z.max b dest /\
  inPorta (ch out.2.1) = (if out.1 =? 2 then false else inPorta (ch s.1)) /\
  freqChanged (ch out.2.1) = true /\
  out.2.2 = s.2.
Proof.
  apply (dispatch_note_porta_no_overshoot exampleEngine
           (mkDivCommand DIV_CMD_NOTE_PORTA 2 10 60) (exampleChanState, exampleRegs)).
  - reflexivity.
  - cbn. lia.
  - intros _. cbn. lia.
  - vm_compute. discriminate.
  - vm_compute. discriminate.
Defined.

Example dispatch_note_porta_example :
  let out := dispatch exampleEngine (mkDivCommand DIV_CMD_NOTE_PORTA 2 10 60)
               (exampleChanState, exampleRegs) in
  (out.1, baseFreq (ch out.2.1)) = (1, 4381).
Proof. vm_compute. reflexivity. Qed.

Lemma dispatch_volume_idempotent_witness :
  let c := mkDivCommand DIV_CMD_VOLUME 2 100 0 in
  let s := (exampleChanState, exampleRegs) in
  dispatch exampleEngine c (dispatch exampleEngine c s).2
  = (1, (dispatch exampleEngine c s).2).
Proof.
  apply (dispatch_volume_idempotent exampleEngine (mkDivCommand DIV_CMD_VOLUME 2 100 0)
           (exampleChanState, exampleRegs)).
  - reflexivity.
  - cbn. lia.
Defined.

(** The ring mask 0101: operators 0 and 2. *)
Lemma dispatch_ring_sync_masks_witness :
  let c := mkDivCommand DIV_CMD_C64_EXTENDED 2 69 0 in
  let s := (exampleChanState, exampleRegs) in
  let ring := Z.shiftr (value c) 4 =? 4 in
  let s' := (dispatch exampleEngine c s).2 in
  let bit (o : nat) := Z.land (Z.shiftr (Z.land (value c) 15) (Z.of_nat o)) 1 in
  ch s'.1 = (if ring then set_ringMask else set_syncMask) (u8 (Z.land (value c) 15)) (ch s.1) /\
  exists g0 g1 g2 g3,
    writes s'.2 = writes s.2 ++ g0 ++ g1 ++ g2 ++ g3 /\
    forall o g, [g0; g1; g2; g3] !! o = Some g ->
      w_addr <$> g = opAddrs (c_chan c) o /\
      (if ring then f_ring else f_sync) (decodeOpRegs (w_val <$> g)) = bit o.
Proof.
  apply (dispatch_ring_sync_masks exampleEngine (mkDivCommand DIV_CMD_C64_EXTENDED 2 69 0)
           (exampleChanState, exampleRegs)).
  - reflexivity.
  - reflexivity.
  - left. reflexivity.
Defined.

Lemma exampleHeader_handleArp_pcm : handleArp_keeps_pcm (hdr := exampleHeader).
Proof. intros m c. cbn. destruct (had m); reflexivity. Defined.

Lemma note_off_then_tick_witness :
  let c := mkDivCommand DIV_CMD_NOTE_OFF 2 0 0 in
  let s := (exampleChanState, exampleRegs) in
  let i := c_chan c in
  let s1 := (dispatch exampleEngine c s).2 in
  let s2 := tickChannel exampleEngine (replicate (Z.to_nat 32768) 0) 1000000 true i
              exampleMacros (ch s1.1, s1.2) in
  let vol0 := if pcm (ch s.1) then [chW i SGU1_CHN_VOL 0] else [] in
  s1.2 = s.2 /\
  key s2.1 = false /\ keyOn s2.1 = false /\ keyOff s2.1 = false /\
  exists pre vOff f,
    Forall (otherReg i) pre /\
    Z.testbit (w_val (chW i SGU1_CHN_FLAGS0 vOff)) 0 = false /\
    0 <= f <= 65535 /\ freq s2.1 = f /\
    emits (pre ++ [chW i SGU1_CHN_FLAGS0 vOff] ++ vol0
             ++ [chW i SGU1_CHN_FREQ_L (Z.land f 255); chW i SGU1_CHN_FREQ_H (Z.shiftr f 8)])
      s.2 s2.2.
Proof.
  apply (note_off_then_tick exampleEngine (mkDivCommand DIV_CMD_NOTE_OFF 2 0 0)
           (exampleChanState, exampleRegs) (replicate (Z.to_nat 32768) 0) 1000000 true
           exampleMacros).
  - left. reflexivity.
  - exact exampleHeader_handleArp.
  - exact exampleHeader_handleArp_pcm.
Defined.

Example note_off_then_tick_example :
  let s1 := (dispatch exampleEngine (mkDivCommand DIV_CMD_NOTE_OFF 2 0 0)
               (exampleChanState, exampleRegs)).2 in
  map (fun w => (w_addr w, w_val w))
    (writes (tickChannel exampleEngine (replicate (Z.to_nat 32768) 0) 1000000 true 2
               exampleMacros (ch s1.1, s1.2)).2)
  = [(164, 40); (164, 40); (162, 0); (160, 255); (161, 255)].
Proof. vm_compute. reflexivity. Qed.

Lemma note_on_then_tick_witness :
  let c := mkDivCommand DIV_CMD_NOTE_ON 2 60 0 in
  let s := (exampleChanState, exampleRegs) in
  let i := c_chan c in
  let s1 := (dispatch exampleEngine c s).2 in
  let s2 := tickChannel exampleEngine (replicate (Z.to_nat 32768) 0) 1000000 true i
              exampleMacros (ch s1.1, s1.2) in
  key (ch s1.1) = true /\ keyOn (ch s1.1) = true /\ keyOff (ch s1.1) = false /\
  key s2.1 = true /\ keyOn s2.1 = false /\ keyOff s2.1 = false /\
  exists pre vOff f vOn post,
    Forall (otherReg i) pre /\ Forall (otherReg i) post /\
    Z.testbit (w_val (chW i SGU1_CHN_FLAGS0 vOff)) 0 = false /\
    Z.testbit (w_val (chW i SGU1_CHN_FLAGS0 vOn)) 0 = true /\
    0 <= f <= 65535 /\ freq s2.1 = f /\
    emits (pre ++ [chW i SGU1_CHN_FLAGS0 vOff; chW i SGU1_CHN_FREQ_L (Z.land f 255);
                   chW i SGU1_CHN_FREQ_H (Z.shiftr f 8); chW i SGU1_CHN_FLAGS0 vOn] ++ post)
      s1.2 s2.2.
Proof.
  apply (note_on_then_tick exampleEngine (mkDivCommand DIV_CMD_NOTE_ON 2 60 0)
           (exampleChanState, exampleRegs) (replicate (Z.to_nat 32768) 0) 1000000 true
           exampleMacros).
  - reflexivity.
  - exact exampleHeader_handleArp.
Defined.

(** Key-on of sample 0 (6 bytes at offset 0, not loopable) on channel 2. *)
Lemma tick_pcm_key_on_window_witness :
  let smp := exampleSample 6 true in
  let offs := replicate (Z.to_nat 32768) 0 in
  let s' := tickPcmKeyOn exampleEngine offs 2 (exampleChannel, exampleRegs) in
  let base := offs !!! Z.to_nat (sample exampleChannel) in
  let off := u32 (base + hasOffset exampleChannel) in
  let e := Z.min (u32 (base + getLoopEndPosition smp)) (SGU_PCM_RAM_SIZE - 1) in
  let l := Z.min (u32 (base + getLoopStartPosition smp)) (SGU_PCM_RAM_SIZE - 1) in
  let endL := chW 2 SGU1_CHN_PCM_END_L (Z.land e 255) in
  let endH := chW 2 SGU1_CHN_PCM_END_H (Z.shiftr e 8) in
  let rstL := chW 2 SGU1_CHN_PCM_RST_L (Z.land l 255) in
  let rstH := chW 2 SGU1_CHN_PCM_RST_H (Z.shiftr l 8) in
  0 <= e < SGU_PCM_RAM_SIZE /\ w_val endL + 256 * w_val endH = e /\
  0 <= l < SGU_PCM_RAM_SIZE /\ w_val rstL + 256 * w_val rstH = l /\
  hasOffset s'.1 = 0 /\ pcmLoop s'.1 = isLoopable smp /\
  exists v1,
    emits ([chW 2 SGU1_CHN_PCM_POS_L (Z.land off 255); chW 2 SGU1_CHN_PCM_POS_H (Z.shiftr off 8);
            endL; endH]
             ++ (if isLoopable smp then [rstL; rstH] else [])
             ++ [chW 2 SGU1_CHN_FLAGS1 v1])
      exampleRegs s'.2.
Proof.
  apply (tick_pcm_key_on_window exampleEngine (replicate (Z.to_nat 32768) 0) 2 exampleChannel
           exampleRegs (exampleSample 6 true)).
  - reflexivity.
  - vm_compute. split; [discriminate | reflexivity].
  - vm_compute. split; [reflexivity | discriminate].
Defined.
